(* ===== verification/_CoqProject ===== *)
-Q . S2P
Prelude.v
GoStrings.v
Wire.v
Deps.v
RefDeps.v
Config.v
Flags.v
Sessions.v
Cli.v
Benchmark.v
SenderPool.v
UserIdCache.v
Base.v
Storage.v
Router.v
PeerReader.v
RouterSets.v
World.v
PubSub.v
OffPush.v
Client.v
Rooms.v
RoomStore.v
Auth.v
Mail.v
Commands.v
MsgLog.v
Membership.v
CacheRace.v
Frames.v
FrameRace.v
S2s.v
LongPoll.v
Stats.v
Server.v
Delivery.v
Cluster.v
ClusterFaults.v
Daemon.v
Invariant.v
Lifecycle.v
Registry.v
