(* ===== verification/Prelude.v ===== *)
(** * Pushd: a verification library for the pushd IM / publish-subscribe server

    pushd (src/, in Go) keeps TCP connections of users open and moves messages
    between them.  A client authenticates, names its user id, and sends
    commands; a message for a chat room is written to the connections of the
    room's members on this server, forwarded to every other server, and queued
    for storage in MongoDB.  This library models the program as state
    transformers over an explicit state and proves what makes it correct, or
    shows where it is not.

    ** How Go is modelled

    A function is a state transformer [M S A := S → outcome A * S] ([Prelude]).
    It returns, panics (nil dereference, index out of range, failed type
    assertion) or parks for ever on a channel; a Go [error] is ordinary data.
    Pointers that are shared are addresses in a heap ([gmap nat _]); integers
    are [Z], with wrap-around written out where it matters ([wrap64], [wrap32]);
    byte slices are [list byte] and slice expressions check their bounds.  A
    [go] statement appends a [Task] to the state; [go_step] and [sys_step] run
    pending tasks in any order.  A component's operations are lifted to a larger
    state with [zoom].  A function body between two channel operations or [go]
    statements is one atomic step, except where the source relies on a
    compare-and-swap ([SenderPool]) or on channels between goroutines
    ([Storage]), which are step relations.

    ** Code that is not in the repository

    The Mongo driver, bson ids, clock and random sources, JSON, golib's LRU
    cache, concurrent map, set and TCP client, jsconf, the JPush client, etclib,
    the mgo and redis dialers, the Go runtime's reports: each is a class of
    [Deps], [Config], [Flags], [Router], [OffPush], [Sessions], [Stats] or
    [Daemon] with the operations the source calls, and, where a theorem relies on it, a class
    of documented laws.  [RefDeps] (and, for classes declared elsewhere, the end
    of their file) implements the classes concretely and proves the laws; the
    witnesses run on these instances.

    ** The parts

    - [GoStrings]: strings.Split, SplitN, Join, strconv.ParseInt, fmt "%d",
      sort.Strings, with their round trips.
    - [Wire]: [NewCmdline] (engine/cmd_interface.go) and [NewServerCmdline]
      (engine/s2s_server.go), the two frame parsers.
    - [Config]: config/*.go, [LoadConfig] and [GetS2sAddr].
    - [Flags]: what Go's package flag does with a command line; the flags of the
      three programs (their option.go) are in [Daemon], [Cli] and [Benchmark].
    - [Sessions]: db/mongo.go and db/redis.go, the session that is opened once.
    - [Cli]: client/go/client.go and cmd/pushd-cli, the client and the two
      goroutines of the command line.
    - [Benchmark]: daemon/benchmark, its dialling goroutines once more under every
      schedule.
    - [SenderPool]: the pool of engine/offpush.go with its lock-free round robin.
    - [UserIdCache]: [ChannelToUserIds] of engine/offpush.go.
    - [Base]: the database, the clock and the random sources as one state.
    - [Storage]: engine/storage, its Mongo driver and the goroutines of [Serv];
      engine/history.go.
    - [Router]: engine/router.go and the watcher of engine/etcClient.go;
      [PeerReader]: the goroutine that reads from a peer connection, among the
      sends; [RouterSets]: the sets of peers by channel.
    - [World]: the package variables of the process as one record, [Client] and
      the frame lemmas: a relation [R] with an [Inert R] instance is respected by
      everything that only touches the database, the caches and the queues.
    - [PubSub]: engine/pubsub.go, the loading of room members, and
      [S2sProxy.WaitMsg] (engine/s2s_proxy.go).
    - [OffPush]: [Sender.send] and [CheckAndPush] of engine/offpush.go.
    - [Client]: engine/client.go.   - [Rooms]: engine/im.go.
    - [RoomStore]: the rooms of [Rooms] refine a map from channels to sets.
    - [Auth]: engine/auth.go, engine/acl.go.   - [Mail]: engine/mail.
    - [Commands]: the cases of [Cmdline.Process], one definition [do_X] per
      command, and the switch as the table [handlers].
    - [MsgLog]: what [Storage] writes into the log of messages and what the
      commands history, offline_msg, ack_msg and retract_msg make of it.
    - [Membership]: rooms in the database against rooms in the cache;
      [CacheRace]: the same, request by request, with the goroutines of a server
      interleaved ([load_grain], [join_grain], [leave_grain], [dissolve_grain]:
      a goroutine that runs alone does what [PubSub] and [Rooms] say).
    - [Frames]: the frame chats (temporary rooms for voice and video) of
      [Commands] and [Client] as a small machine; [FrameRace]: their requests to
      the database, interleaved.
    - [S2s]: engine/s2s_server.go.
    - [LongPoll]: engine/server_http_polling.go.
    - [Stats]: engine/server_tcp_stats.go, engine/proxy_stats.go.
    - [Server]: engine/server_tcp.go, and [sys_step], what the services of the
      process do, as a step relation.
    - [Delivery]: a message from the frame that carries it to the connections it
      is written to, on this server and on another.
    - [Cluster]: any number of servers over one database, their forward queues
      goroutines and storage queues, and the packets between them, as one step
      relation; its lemmas are stated for any such relation of steps that are
      [good].  [ClusterFaults]: the same servers on a network that breaks
      connections, refuses to dial and loses packets ([lossy_step]), with what is
      given up and what is lost on record; the theorems on delivery are there.
    - [Daemon]: daemon/pushd: the flags, [init], [main] as it starts the services
      one by one, and the process as a step relation, with the panics of [main],
      those that nothing recovers and the signals that run [shutdown].
    - [Invariant], [Lifecycle]: what holds in every state the process reaches
      ([daemon_step]: [main] and the services interleaved), of the registry and of
      each connection.
    - [Registry]: [initChatEnv] and [Close] once more, at the grain of their locks.
      In [sys_step] their goroutines are atomic steps; here they interleave over
      the state of the whole server, statement by statement, with everything else
      that goes on ([pc_step], [step]); they wait for [clientLock], for the [Mutex]
      of a connection and for the forward queue, and they may panic.  A goroutine
      that runs alone does what [Client] says ([initChatEnv_alone],
      [close_alone]).

    ** What is proved

    - Delivery: a [sendmsg] frame is written to exactly the connected members
      but the author, forwarded once to the other servers and queued for storage
      ([SENDMSG_delivers]); another server understands what it is sent, delivers
      it and does not relay it again ([message_relayed]); in a cluster of any
      size, whatever the schedule, and on a network that breaks connections,
      refuses to dial and loses packets, a member who is online on the server a
      message was published on gets one copy, and one who is online on another
      server gets one unless the copy for that server was given up or lost
      ([cluster_delivers]), never two ([cluster_at_most_once]); the cluster comes
      to rest ([cluster_settles]); the watcher links each server to all that were
      ever announced ([watchPeers_links]); the members are those of the database
      as long as the cache is coherent ([delivery_current]), and the commands that
      change a room keep it so ([membership_coherent]), but for the two that do
      not ([JOINROOM_stale], [SUBS_ghost]) and for the last member of a room that
      leaves it.
    - The member cache under interleaving: loads and additions converge to the
      database ([cache_converges]); a room that is being loaded looks empty
      ([half_loaded]), a removal can be undone by a load ([stale_load]), an
      eviction can leave a room cached in part ([evicted_add]), and the caches
      of the other servers are never told ([cluster_stale]).
    - The registry: while [initChatEnv] and [Close] are atomic, an entry leads, in
      every reachable state, to a connection that is initialised or dead, and a
      [Close] that returns removes its own entry exactly when the connection is
      identified as a client ([registry_invariant], [initChatEnv_spec],
      [Close_unregisters]).  With the goroutines interleaved, an entry leads,
      whenever they have come to rest, to a connection that is served, or to a dead
      one in one of the three cases in which [Close] leaves the entry
      ([registry_quiescent]); they do come to rest ([registry_settles]); yet the
      entry of a connection that is served can be lost ([registration_lost]).
    - Access: unauthenticated connections can do nothing but the open commands;
      no command grants an identity without a credential on record; no
      connection changes another one's identity ([unauthenticated_gate],
      [session], [Process_no_escalation], [Process_isolation]); nobody is served
      before access control is in force ([gate_before_serving]).
    - The process: the options are what the command line asks for
      ([parseFlags_spec], on [Parse_spec], the grammar of command lines); from the
      moment the servers are made a signal stops them all and ends the process with
      status 0, unless a panic that nothing recovers ends it first, with status 2
      and the servers as they are ([process_ends]); before that the signal is lost ([signal_lost]), and a failed start
      ends with status 0 ([failed_start]).
    - Connections: each is created, initialised at most once and closed for good
      ([connection_lifecycle]), with fields of the right type
      ([connection_types]); a connection is closed once ([OnAccept_closes_once]).
    - The log: storage is a FIFO that drains ([Serv_fifo], [Serv_drains]) and the
      log is what was queued ([pipeline_log]); history and offline_msg offer
      exactly the messages that are due ([HISTORY_spec], [OFFLINE_MSG_spec]);
      acknowledgements move forward ([ACK_MSG_monotone]); one retracts one's own
      messages ([RETRACT_own]).
    - Input: the parsers accept exactly the grammar of frames and never panic
      ([NewCmdline_spec], [NewServerCmdline_spec]); configurations are loaded or
      refused as documented ([LoadConfig_spec]).
    - State: the member cache refines a map from rooms to sets
      ([ChannelToUserIds_refines]), the rooms in the database refine set
      operations ([rooms_refine]), the peers by channel a map to sets
      ([channels_refine]).
    - Frame chats: the commands refine a machine on chats ([frames_refine]); no
      interleaving leaves an empty chat behind or removes one somebody is in
      ([frames_interleaved]); the end of a connection takes its user out of all
      of them ([Close_leaves_chats]).
    - Concurrency: the sender pool is a round robin under every schedule; a peer
      gets a message at most once; after a reconnect the reader of the lost
      connection closes the new one ([stale_reader]), and without one it closes
      its own ([reader_closes_own]); the session of the database is shared before
      it is authenticated ([MgoSession_shared]).
    - Off-line pushes go to exactly the members that want one
      ([CheckAndPush_spec]), with the text of the room's type ([run_push_spec]).
    - HTTP: a long-polling subscriber is never sent anything
      ([ServeSubscribe_deaf]), the history route answers with nothing
      ([ServeHistory_empty]), and publishing does nothing
      ([ServePublish_does_nothing]).
    - Tools: the command line starts connected to the server asked for
      ([cli_starts]) and sends what was typed ([cli_sends]); the benchmark dials
      every connection whatever the schedule, though its count of failures may
      fall short ([buildConns_interleaved], [lost_count]), and a round writes once
      to each ([benchmark_round]); the status page ([handleHttpQuery_spec]).
    - Defects: room creation that cannot succeed, binary messages that other
      servers drop, tokens that never expire, commands that panic on one word,
      a dead HTTP route, servers started too early.  Each is a theorem about the
      definition concerned.

    ** Bounds

    Recursion is structural (over lists of ids, reads, queued messages, retries)
    with two exceptions.  [Sessions.MgoSession] runs a goroutine for at most the
    five statements of its body; [Benchmark.batches] has fuel, and [concurrency]
    rounds are enough for every positive batch size.  [OnAccept] runs on the list
    of results of the successive reads and parks after the last; [WaitMsg n] is
    [n] rounds of an endless loop, and the queue length is enough to empty it.

    ** Not modelled

    Logging, the terminal and the history file of the command line, the latency
    histogram and call meter of the client-facing server, matching HTTP requests
    to routes: input/output without state of its own.  In [sys_step] and in
    [Registry.step] a goroutine that panics stops where it is and the others go on;
    whether golib's servers recover it or the process ends is theirs to decide, and
    what is proved holds up to that point ([Daemon.process_step] has both).  The
    [Mutex] of a connection is golib's: [Registry] has its use in
    [UuidClientMap.Remove] and not golib's own.  [EnqueueChanUuids] sends on a channel without a buffer, and
    nothing calls it.  The bodies of the message cache (engine/storage/cache.go)
    are commented out: it keeps nothing.  engine/presence.go is empty. *)
From Stdlib Require Export Ascii ZArith Lia.
From stdpp Require Export base gmap sets list strings sorting relations.

(** ** Outcomes and the state monad

    A Go function is modelled as a state transformer with three ways to stop:
    it returns a value, it panics (nil dereference, index out of range, failed
    type assertion, explicit [panic]), or it parks for ever on a channel
    operation that cannot proceed.  A Go [error] is ordinary data. *)
Inductive outcome (A : Type) : Type :=
| Ret (a : A)
| Panic (msg : string)
| Block.
Arguments Ret {A} a.
Arguments Panic {A} msg.
Arguments Block {A}.

Definition M (S A : Type) : Type := S → outcome A * S.

#[global] Instance M_ret {S} : MRet (M S) := λ A a s, (Ret a, s).

#[global] Instance M_bind {S} : MBind (M S) := λ A B f m s,
  match m s with
  | (Ret a, s') => f a s'
  | (Panic e, s') => (Panic e, s')
  | (Block, s') => (Block, s')
  end.

Definition panic {S A} (msg : string) : M S A := λ s, (Panic msg, s).
Definition block {S A} : M S A := λ s, (Block, s).
Definition gets {S A} (f : S → A) : M S A := λ s, (Ret (f s), s).
Definition modify {S} (f : S → S) : M S unit := λ s, (Ret tt, f s).

(** Running a component's operation inside a larger state. *)
Definition zoom {W S A} (get : W → S) (put : S → W → W) (m : M S A) : M W A :=
  λ w, let '(o, s') := m (get w) in (o, put s' w).

(** A value that the code dereferences without a nil check. *)
Definition deref {S A} (what : string) (o : option A) : M S A :=
  match o with Some a => mret a | None => panic what end.

(** [for _, x := range l { f(x) }] *)
Fixpoint mapM_ {S A} (f : A → M S unit) (l : list A) : M S unit :=
  match l with
  | [] => mret tt
  | x :: l' => _ ← f x; mapM_ f l'
  end.

(** [for _, x := range l { ...; if c { return r } }]: the loop stops at the
    first iteration that returns. *)
Fixpoint loop_ret {S A R} (f : A → M S (option R)) (l : list A) : M S (option R) :=
  match l with
  | [] => mret None
  | x :: l' => r ← f x;
               match r with
               | Some v => mret (Some v)
               | None => loop_ret f l'
               end
  end.

(** [l2 = append(l2, f(x))] over a range *)
Fixpoint collectM {S A B} (f : A → M S B) (l : list A) : M S (list B) :=
  match l with
  | [] => mret []
  | x :: l' => y ← f x; ys ← collectM f l'; mret (y :: ys)
  end.

(** ** Errors

    [errors.New] and [fmt.Errorf] values are their text; the two errors of the
    Mongo driver that the code tells apart have constructors of their own. *)
Inductive error : Type :=
| NewError (text : string)
| ErrNotFound
| LastError (text : string).

Definition Error (e : error) : string :=
  match e with
  | NewError t => t
  | ErrNotFound => "not found"
  | LastError t => t
  end.

#[global] Instance error_eq_dec : EqDecision error.
Proof. solve_decision. Defined.

(** Addresses of heap objects ([*Client], [*UserIdCollection], ...). *)
Abbreviation ptr := nat (only parsing).

(** ** Go channels *)
Record gochan (A : Type) : Type := mkchan { ch_cap : nat; ch_buf : list A }.
Arguments mkchan {A} _ _.
Arguments ch_cap {A} _.
Arguments ch_buf {A} _.

(** A send on a full (or nil) channel parks the goroutine; the state does not
    change until a receiver makes room. *)
Definition chan_full {A} (c : gochan A) : bool := Nat.leb (ch_cap c) (length (ch_buf c)).
Definition chan_push {A} (x : A) (c : gochan A) : gochan A :=
  mkchan (ch_cap c) (ch_buf c ++ [x]).
Definition chan_send {A} (x : A) : M (gochan A) unit := λ c,
  if chan_full c then (Block, c) else (Ret tt, chan_push x c).

(** ** Reasoning about state transformers *)

(** [within R m]: whatever way [m] stops, its final state is related to its
    initial state by [R].  With a preorder [R] this composes. *)
Definition within {S A} (R : relation S) (m : M S A) : Prop := ∀ s, R s (m s).2.

(** [no_panic P m]: started in a state satisfying [P], [m] does not panic. *)
Definition no_panic {S A} (P : S → Prop) (m : M S A) : Prop :=
  ∀ s e, P s → (m s).1 ≠ Panic e.

Section within_rules.
  Context {S : Type} (R : relation S) `{!PreOrder R}.

Lemma within_ret {A} (a : A) : within R (mret a : M S A).
Proof. intros s. reflexivity. Qed.

Lemma within_panic {A} e : within R (panic e : M S A).
Proof. intros s. reflexivity. Qed.

Lemma within_block {A} : within R (block : M S A).
Proof. intros s. reflexivity. Qed.

Lemma within_gets {A} (f : S → A) : within R (gets f).
Proof. intros s. reflexivity. Qed.

Lemma within_deref {A} e (o : option A) : within R (deref e o).
Proof. destruct o; intros s; reflexivity. Qed.

Lemma within_bind {A B} (m : M S A) (f : A → M S B) :
  within R m → (∀ a, within R (f a)) → within R (m ≫= f).
Proof.
  intros Hm Hf s. unfold mbind, M_bind. specialize (Hm s).
  destruct (m s) as [[a|e|] s']; simpl in *; try done.
  transitivity s'; [done | apply Hf].
Qed.

Lemma within_mapM_ {A} (f : A → M S unit) l :
  (∀ x, within R (f x)) → within R (mapM_ f l).
Proof.
  intros Hf. induction l as [|x l IH]; simpl; [apply within_ret|].
  by apply within_bind.
Qed.

Lemma within_loop_ret {A B} (f : A → M S (option B)) l :
  (∀ x, within R (f x)) → within R (loop_ret f l).
Proof.
  intros Hf. induction l as [|x l IH]; simpl; [apply within_ret|].
  apply within_bind; [done|]. intros [v|]; [apply within_ret | done].
Qed.

Lemma within_collectM {A B} (f : A → M S B) l :
  (∀ x, within R (f x)) → within R (collectM f l).
Proof.
  intros Hf. induction l as [|x l IH]; simpl; [apply within_ret|].
  apply within_bind; [done|]. intros y. apply within_bind; [done|].
  intros ys. apply within_ret.
Qed.
End within_rules.

(** An operation of a component touches nothing outside the component. *)
Lemma within_zoom {W S A} (R : relation W) (get : W → S) put (m : M S A) :
  (∀ w s, R w (put s w)) → within R (zoom get put m).
Proof. intros H w. unfold zoom. destruct (m (get w)). apply H. Qed.

Lemma within_modify {S} (R : relation S) f :
  (∀ s, R s (f s)) → within R (modify f).
Proof. intros H s. apply H. Qed.

(** The relation "the observation [f] is unchanged" is an equivalence. *)
Definition same {S A} (f : S → A) : relation S := λ s s', f s' = f s.

#[global] Instance same_equiv {S A} (f : S → A) : Equivalence (same f).
Proof. split; unfold same; [done| by intros ?? ->| by intros ??? -> ->]. Qed.

(** "[P] is not lost", the relation behind an invariant. *)
Definition keeps {S} (P : S → Prop) : relation S := λ s s', P s → P s'.

#[global] Instance keeps_preorder {S} (P : S → Prop) : PreOrder (keeps P).
Proof. split; repeat intro; unfold keeps in *; auto. Qed.

Create HintDb within discriminated.
#[export] Hint Resolve within_ret within_panic within_block within_gets
  within_deref within_bind within_mapM_ within_loop_ret within_collectM : within.

(** ** Loops that may be left early *)

(** [R] relates the states before and after each round. *)
Fixpoint chain {A S} (R : A → S → S → Prop) (l : list A) (s s' : S) : Prop :=
  match l with
  | [] => s' = s
  | x :: l' => ∃ s1, R x s s1 ∧ chain R l' s1 s'
  end.

Lemma loop_ret_chain {S A B} (f : A → M S (option B)) (R : A → S → S → Prop) (Q : B → Prop) :
  (∀ x s, ∃ o s', f x s = (Ret o, s') ∧ match o with Some v => Q v | None => R x s s' end) →
  ∀ l s, ∃ o s', loop_ret f l s = (Ret o, s')
                 ∧ match o with Some v => Q v | None => chain R l s s' end.
Proof.
  intros Hf l. induction l as [|x l IH]; intros s; [by exists None, s|]. cbn [loop_ret].
  destruct (Hf x s) as (o & s1 & Hrun & Ho). unfold mbind, M_bind. rewrite Hrun.
  destruct o as [v|]; [by exists (Some v), s1|].
  destruct (IH s1) as (o & s' & Hrun' & Ho'). exists o, s'. split; [done|].
  destruct o; [done|]. by exists s1.
Qed.

(** ** Symbolic execution *)
Lemma bind_ret_run {S A B} (m : M S A) (f : A → M S B) s a s' :
  m s = (Ret a, s') → (m ≫= f) s = f a s'.
Proof. intros H. unfold mbind, M_bind. by rewrite H. Qed.

Lemma bind_panic_run {S A B} (m : M S A) (f : A → M S B) s e s' :
  m s = (Panic e, s') → (m ≫= f) s = (Panic e, s').
Proof. intros H. unfold mbind, M_bind. by rewrite H. Qed.

Lemma bind_block_run {S A B} (m : M S A) (f : A → M S B) s s' :
  m s = (Block, s') → (m ≫= f) s = (Block, s').
Proof. intros H. unfold mbind, M_bind. by rewrite H. Qed.

Lemma bind_assoc_run {S A B D} (m : M S A) (f : A → M S B) (g : B → M S D) s :
  ((m ≫= f) ≫= g) s = (m ≫= λ x, f x ≫= g) s.
Proof. unfold mbind, M_bind. by destruct (m s) as [[a|e|] s']. Qed.

Lemma bind_ext_run {S A B} (m : M S A) (f g : A → M S B) s :
  (∀ a s', f a s' = g a s') → (m ≫= f) s = (m ≫= g) s.
Proof. intros H. unfold mbind, M_bind. by destruct (m s) as [[a|e|] s']. Qed.

(** [mstep H] runs the first statement of the goal with the equation [H]. *)
Ltac mstep H :=
  first [ rewrite (bind_ret_run _ _ _ _ _ H)
        | rewrite (bind_panic_run _ _ _ _ _ H)
        | rewrite (bind_block_run _ _ _ _ H) ].

(** [mred] unfolds the monad's own operations and reduces. *)
Ltac mred :=
  unfold mbind, M_bind, mret, M_ret, gets, modify, panic, block, deref, zoom in *;
  cbn in *.

Lemma mapM__app {S A} (f : A → M S unit) l1 l2 s :
  mapM_ f (l1 ++ l2) s = (_ ← mapM_ f l1; mapM_ f l2) s.
Proof.
  revert s. induction l1 as [|x l1 IH]; intros s; [done|].
  simpl. unfold mbind, M_bind. destruct (f x s) as [[[]|e|] s']; [apply IH|done|done].
Qed.

(** A loop whose body always returns is a left fold of its state changes. *)
Lemma mapM__fold {S A} (f : A → M S unit) (g : S → A → S) l s :
  (∀ x s, f x s = (Ret tt, g s x)) →
  mapM_ f l s = (Ret tt, foldl g s l).
Proof.
  intros H. revert s. induction l as [|x l IH]; intros s; [done|].
  simpl. rewrite (bind_ret_run _ _ _ _ _ (H x s)). apply IH.
Qed.

(** ** Lists *)
Lemma Forall2_elem_l {A B} (R : A → B → Prop) l k x :
  Forall2 R l k → x ∈ l → ∃ y, y ∈ k ∧ R x y.
Proof.
  intros H. induction H as [|a b l k Hab _ IH]; intros Hx; [by apply not_elem_of_nil in Hx|].
  apply elem_of_cons in Hx as [->|Hx]; [exists b; split; [left|done]|].
  destruct (IH Hx) as (y & ? & ?). exists y. split; [by right|done].
Qed.

Lemma Forall2_elem_r {A B} (R : A → B → Prop) l k y :
  Forall2 R l k → y ∈ k → ∃ x, x ∈ l ∧ R x y.
Proof.
  intros H Hy. apply Forall2_flip in H. by apply (Forall2_elem_l _ _ _ _ H).
Qed.

Lemma elem_of_concat {A} (x : A) (ls : list (list A)) : x ∈ concat ls ↔ ∃ l, l ∈ ls ∧ x ∈ l.
Proof. rewrite list_elem_of_In, in_concat. by setoid_rewrite list_elem_of_In. Qed.

(** A filter that keeps everything, and one that keeps nothing. *)
Lemma filter_all {A} (P : A → Prop) `{∀ x, Decision (P x)} (l : list A) :
  Forall P l → filter P l = l.
Proof. induction 1 as [|x l Hx _ IH]; [done|]. by rewrite filter_cons_True, IH. Qed.

Lemma filter_none {A} (P : A → Prop) `{∀ x, Decision (P x)} (l : list A) :
  Forall (λ x, ¬ P x) l → filter P l = [].
Proof. induction 1 as [|x l Hx _ IH]; [done|]. by rewrite filter_cons_False. Qed.

(** ** Termination *)

(** A relation that decreases three measures in lexicographic order. *)
Lemma sn_measure {A} (R : relation A) (f g h : A → nat) :
  (∀ x y, R x y → (f y < f x ∨ f y = f x ∧ (g y < g x ∨ g y = g x ∧ h y < h x))%nat) → ∀ x, sn R x.
Proof.
  intros H x. remember (f x) as a eqn:Ha. revert x Ha. induction (lt_wf a) as [a _ IHa]. intros x Ha.
  remember (g x) as b eqn:Hb. revert x Ha Hb. induction (lt_wf b) as [b _ IHb]. intros x Ha Hb.
  remember (h x) as c eqn:Hc. revert x Ha Hb Hc. induction (lt_wf c) as [c _ IHc]. intros x -> -> ->.
  constructor. intros y [Hy|[Hf [Hy|[Hg Hy]]]]%H; [by eapply IHa|by eapply IHb|by eapply IHc].
Qed.
