(* ===== verification/GoStrings.v ===== *)
(** * Go's [strings], [strconv], [fmt] and [sort] as the server uses them

    Go strings are byte sequences; they are [string]s here, one [ascii] per
    byte.  Only the calls made under src/ are modelled: [strings.Split] and
    [strings.SplitN] with a one-byte separator, [strings.Join],
    [strings.TrimRight], [strconv.ParseInt]/[Atoi] in base 10, the [%d] verb
    and [sort.Strings]. *)
From Stdlib Require Import ZArith Lia DecimalString DecimalZ DecimalFacts.
From S2P Require Import Prelude.

Local Open Scope string_scope.
Local Open Scope Z_scope.

Definition space : ascii := " "%char.

(** ** Splitting and joining *)

(** [strings.Split(s, string(c))]: always at least one element. *)
Fixpoint Split (c : ascii) (s : string) : list string :=
  match s with
  | EmptyString => [""]
  | String a s' =>
      if decide (a = c) then "" :: Split c s'
      else match Split c s' with
           | w :: ws => String a w :: ws
           | [] => [String a ""]
           end
  end.

(** The text before and after the first [c], as [strings.Index] finds it. *)
Fixpoint cut (c : ascii) (s : string) : option (string * string) :=
  match s with
  | EmptyString => None
  | String a s' =>
      if decide (a = c) then Some ("", s')
      else match cut c s' with
           | Some (w, r) => Some (String a w, r)
           | None => None
           end
  end.

(** [strings.SplitN(s, string(c), n)] for [n > 0]: at most [n] elements, the
    last one being the unsplit rest. *)
Fixpoint SplitN (c : ascii) (s : string) (n : nat) {struct n} : list string :=
  match n with
  | O => []
  | S O => [s]
  | S n' => match cut c s with
            | Some (w, r) => w :: SplitN c r n'
            | None => [s]
            end
  end.

(** [strings.Join(l, sep)] *)
Fixpoint Join (l : list string) (sep : string) : string :=
  match l with
  | [] => ""
  | [s] => s
  | s :: l' => s ++ sep ++ Join l' sep
  end.

(** Does the byte [c] occur in [s]? *)
Fixpoint occurs (c : ascii) (s : string) : bool :=
  match s with
  | EmptyString => false
  | String a s' => bool_decide (a = c) || occurs c s'
  end.

Fixpoint rev_string (s acc : string) : string :=
  match s with
  | EmptyString => acc
  | String a s' => rev_string s' (String a acc)
  end.

Fixpoint trim_left (cut : list ascii) (s : string) : string :=
  match s with
  | EmptyString => ""
  | String a s' => if decide (a ∈ cut) then trim_left cut s' else s
  end.

(** [strings.TrimRight(s, cutset)] for a cutset of ASCII bytes *)
Definition TrimRight (s : string) (cut : list ascii) : string :=
  rev_string (trim_left cut (rev_string s "")) "".

(** ** Integers *)
Definition int64_min : Z := - 2 ^ 63.
Definition int64_max : Z := 2 ^ 63 - 1.
Definition int32_min : Z := - 2 ^ 31.
Definition int32_max : Z := 2 ^ 31 - 1.
Definition is_int64 (z : Z) : bool := (int64_min <=? z) && (z <=? int64_max).
Definition is_int32 (z : Z) : bool := (int32_min <=? z) && (z <=? int32_max).

(** Two's complement reduction to [int64] *)
Definition wrap64 (z : Z) : Z := (z + 2 ^ 63) mod 2 ^ 64 - 2 ^ 63.

(** [fmt.Sprintf("%d", z)] *)
Definition fmt_d (z : Z) : string := NilZero.string_of_int (Z.to_int z).

Definition parse_digits (s : string) : option Z :=
  match s with
  | EmptyString => None
  | _ => Z.of_uint <$> NilEmpty.uint_of_string s
  end.

(** An optional sign followed by digits; the error values of [strconv] are
    never inspected by the server, so they are collapsed into [None]. *)
Definition parse_signed (s : string) : option Z :=
  match s with
  | String "-" s' => Z.opp <$> parse_digits s'
  | String "+" s' => parse_digits s'
  | _ => parse_digits s
  end.

(** [strconv.ParseInt(s, 10, 64)] and [strconv.ParseInt(s, 10, 32)] *)
Definition ParseInt64 (s : string) : option Z :=
  z ← parse_signed s; if is_int64 z then Some z else None.
Definition ParseInt32 (s : string) : option Z :=
  z ← parse_signed s; if is_int32 z then Some z else None.
(** [strconv.Atoi], on a 64-bit platform *)
Definition Atoi (s : string) : option Z := ParseInt64 s.

(** [sort.Strings]: byte-wise lexicographic order *)
Definition sort_Strings (l : list string) : list string := merge_sort String.le l.

(** ** Lemmas: splitting and joining *)
Lemma Split_nonempty c s : Split c s ≠ [].
Proof. destruct s as [|a s]; simpl; [done|]. case_decide; [done|]. by destruct (Split c s). Qed.

Lemma Split_cons_ne c a s w ws :
  a ≠ c → Split c s = w :: ws → Split c (String a s) = String a w :: ws.
Proof. intros Hne Hs. simpl. rewrite decide_False by done. by rewrite Hs. Qed.

Lemma Split_noocc c s : occurs c s = false → Split c s = [s].
Proof.
  induction s as [|a s IH]; simpl; [done|]. rewrite orb_false_iff. intros [Ha Hs].
  apply bool_decide_eq_false in Ha. rewrite decide_False by done. by rewrite (IH Hs).
Qed.

Lemma Split_app c w s :
  occurs c w = false → Split c (w ++ String c s) = w :: Split c s.
Proof.
  induction w as [|a w IH]; simpl.
  - by rewrite decide_True.
  - rewrite orb_false_iff. intros [Ha Hw]. apply bool_decide_eq_false in Ha.
    rewrite decide_False by done. by rewrite (IH Hw).
Qed.

(** Splitting undoes joining when no piece contains the separator. *)
Lemma Split_Join c l :
  l ≠ [] → Forall (λ w, occurs c w = false) l →
  Split c (Join l (String c "")) = l.
Proof.
  intros Hl Hall. induction Hall as [|w l Hw Hall IH]; [done|].
  destruct l as [|w' l]; [by apply Split_noocc|].
  change (Join (w :: w' :: l) (String c ""))
    with (w ++ String c (Join (w' :: l) (String c ""))).
  rewrite Split_app by done. by rewrite IH.
Qed.

(** Joining undoes splitting, always. *)
Lemma Join_cons_ch a w ws sep :
  Join (String a w :: ws) sep = String a (Join (w :: ws) sep).
Proof. by destruct ws. Qed.

Lemma Join_Split c s : Join (Split c s) (String c "") = s.
Proof.
  induction s as [|a s IH]; simpl; [done|]. case_decide as Ha.
  - subst. destruct (Split c s) as [|w ws] eqn:E; [by destruct (Split_nonempty c s)|].
    change (String c (Join (w :: ws) (String c "")) = String c s). by rewrite IH.
  - destruct (Split c s) as [|w ws] eqn:E; [by destruct (Split_nonempty c s)|].
    rewrite Join_cons_ch. by rewrite IH.
Qed.

Lemma Split_pieces c s : Forall (λ w, occurs c w = false) (Split c s).
Proof.
  induction s as [|a s IH]; simpl; [by constructor|]. case_decide as Ha.
  - by constructor.
  - destruct (Split c s) as [|w ws]; inversion IH; subst.
    + repeat constructor. simpl. by rewrite bool_decide_eq_false_2.
    + constructor; [|done]. simpl. by rewrite bool_decide_eq_false_2.
Qed.

Lemma cut_app c w s : occurs c w = false → cut c (w ++ String c s) = Some (w, s).
Proof.
  induction w as [|a w IH]; simpl.
  - by rewrite decide_True.
  - rewrite orb_false_iff. intros [Ha Hw]. apply bool_decide_eq_false in Ha.
    rewrite decide_False by done. by rewrite (IH Hw).
Qed.

Lemma cut_noocc c s : occurs c s = false → cut c s = None.
Proof.
  induction s as [|a s IH]; simpl; [done|]. rewrite orb_false_iff. intros [Ha Hs].
  apply bool_decide_eq_false in Ha. rewrite decide_False by done. by rewrite (IH Hs).
Qed.

Lemma cut_Some c s w r :
  cut c s = Some (w, r) → s = w ++ String c r ∧ occurs c w = false.
Proof.
  revert w. induction s as [|a s IH]; intros w; simpl; [done|]. case_decide as Ha.
  - intros [= <- <-]. by subst.
  - destruct (cut c s) as [[w' r']|]; [|done]. intros [= <- <-].
    destruct (IH w' eq_refl) as [-> Hw]. split; [done|]. simpl.
    by rewrite bool_decide_eq_false_2.
Qed.

Lemma SplitN_app c w s n :
  occurs c w = false → SplitN c (w ++ String c s) (S (S n)) = w :: SplitN c s (S n).
Proof.
  intros H.
  change (match cut c (w ++ String c s) with
          | Some (v, r) => v :: SplitN c r (S n)
          | None => [w ++ String c s] end = w :: SplitN c s (S n)).
  by rewrite cut_app.
Qed.

Lemma SplitN_noocc c s n : occurs c s = false → SplitN c s (S n) = [s].
Proof.
  intros H. destruct n as [|n]; [done|].
  change (match cut c s with
          | Some (v, r) => v :: SplitN c r (S n)
          | None => [s] end = [s]).
  by rewrite cut_noocc.
Qed.

Lemma SplitN_nonempty c s n : SplitN c s (S n) ≠ [].
Proof. destruct n as [|n]; simpl; [done|]. by destruct (cut c s) as [[]|]. Qed.

Lemma SplitN_length c s n : (length (SplitN c s n) ≤ n)%nat.
Proof.
  revert s. induction n as [|n IH]; intros s; [done|].
  destruct n as [|n]; [simpl; lia|].
  change (length (match cut c s with
          | Some (v, r) => v :: SplitN c r (S n)
          | None => [s] end) ≤ S (S n))%nat.
  destruct (cut c s) as [[v r]|]; simpl; [|lia]. specialize (IH r). simpl in IH. lia.
Qed.

(** [SplitN] is inverted by joining with the separator. *)
(** [SplitN] stops early exactly when there are fewer pieces than allowed. *)
Lemma SplitN_Split_length c s n : length (SplitN c s (S n)) = Nat.min (S n) (length (Split c s)).
Proof.
  revert s. induction n as [|n IH]; intros s.
  - simpl. pose proof (Split_nonempty c s). destruct (Split c s); simpl; [done|lia].
  - destruct (cut c s) as [[w r]|] eqn:E.
    + apply cut_Some in E as [-> Hw]. rewrite SplitN_app, Split_app by done. cbn [length].
      rewrite IH. lia.
    + assert (occurs c s = false) as Ho.
      { clear IH. induction s as [|a s IH]; [done|]. simpl in *. case_decide; [done|].
        destruct (cut c s) as [[]|]; [done|]. rewrite IH by done.
        by rewrite bool_decide_false. }
      rewrite SplitN_noocc, Split_noocc by done. simpl. lia.
Qed.

Lemma Join_SplitN c s n : Join (SplitN c s (S n)) (String c "") = s.
Proof.
  revert s. induction n as [|n IH]; intros s; [done|].
  destruct (cut c s) as [[w r]|] eqn:E.
  - apply cut_Some in E as [-> Hw]. rewrite SplitN_app by done.
    specialize (IH r). destruct (SplitN c r (S n)) as [|v vs] eqn:E;
      [by destruct (SplitN_nonempty c r n)|].
    change (w ++ String c (Join (v :: vs) (String c "")) = w ++ String c r).
    by rewrite IH.
  - simpl. by rewrite E.
Qed.

(** ** Lemmas: integers *)
Lemma is_int64_spec z : is_int64 z = true ↔ int64_min ≤ z ≤ int64_max.
Proof. unfold is_int64. rewrite andb_true_iff, !Z.leb_le. done. Qed.

Lemma is_int32_spec z : is_int32 z = true ↔ int32_min ≤ z ≤ int32_max.
Proof. unfold is_int32. rewrite andb_true_iff, !Z.leb_le. done. Qed.

Lemma wrap64_range z : is_int64 (wrap64 z) = true.
Proof.
  apply is_int64_spec. unfold wrap64, int64_min, int64_max.
  pose proof (Z.mod_pos_bound (z + 2 ^ 63) (2 ^ 64) eq_refl). lia.
Qed.

Lemma wrap64_id z : is_int64 z = true → wrap64 z = z.
Proof.
  rewrite is_int64_spec. unfold wrap64, int64_min, int64_max. intros H.
  rewrite Z.mod_small; lia.
Qed.

Lemma parse_digits_print u :
  u ≠ Decimal.Nil → parse_digits (NilEmpty.string_of_uint u) = Some (Z.of_uint u).
Proof.
  intros Hu. unfold parse_digits.
  destruct (NilEmpty.string_of_uint u) eqn:E; [by destruct u|].
  rewrite <- E, NilEmpty.usu. done.
Qed.

Lemma string_of_uint_head u :
  u ≠ Decimal.Nil →
  ∃ a s, NilEmpty.string_of_uint u = String a s ∧ a ≠ "-"%char ∧ a ≠ "+"%char.
Proof. destruct u; intros H; [done| ..]; simpl; eauto. Qed.

Lemma parse_signed_digits s a s' :
  s = String a s' → a ≠ "-"%char → a ≠ "+"%char → parse_signed s = parse_digits s.
Proof.
  intros -> Hm Hp. unfold parse_signed.
  destruct a as [[] [] [] [] [] [] [] []]; done.
Qed.

Lemma to_uint_nonnil p : Pos.to_uint p ≠ Decimal.Nil.
Proof. apply DecimalPos.Unsigned.to_uint_nonnil. Qed.

(** Reading back a printed integer. *)
Lemma parse_signed_fmt z : parse_signed (fmt_d z) = Some z.
Proof.
  assert (∀ p, NilZero.string_of_uint (Pos.to_uint p)
               = NilEmpty.string_of_uint (Pos.to_uint p)) as Hz.
  { intros p. pose proof (to_uint_nonnil p). by destruct (Pos.to_uint p). }
  destruct z as [|p|p]; unfold fmt_d; [done| |]; simpl; rewrite Hz;
    pose proof (to_uint_nonnil p) as Hp.
  - destruct (string_of_uint_head _ Hp) as (a & s & E & Hm & Hpl).
    rewrite (parse_signed_digits _ a s) by done.
    rewrite parse_digits_print by done.
    f_equal. exact (DecimalZ.of_to (Z.pos p)).
  - rewrite parse_digits_print by done. simpl.
    f_equal. exact (DecimalZ.of_to (Z.neg p)).
Qed.

(** [ParseInt(Sprintf("%d", z), 10, 64)] is [z] exactly when [z] is an int64. *)
Lemma ParseInt64_fmt z : ParseInt64 (fmt_d z) = if is_int64 z then Some z else None.
Proof. unfold ParseInt64. by rewrite parse_signed_fmt. Qed.

Lemma ParseInt64_range s z : ParseInt64 s = Some z → is_int64 z = true.
Proof.
  unfold ParseInt64. destruct (parse_signed s) as [y|]; simpl; [|done].
  destruct (is_int64 y) eqn:E; [|done]. by intros [= <-].
Qed.

Lemma fmt_d_inj z1 z2 : fmt_d z1 = fmt_d z2 → z1 = z2.
Proof.
  intros H. apply (f_equal parse_signed) in H.
  rewrite !parse_signed_fmt in H. by injection H.
Qed.

Definition is_digit (c : ascii) : bool :=
  let n := nat_of_ascii c in (48 <=? n)%nat && (n <=? 57)%nat.

Lemma occurs_string_of_uint c u :
  is_digit c = false → occurs c (NilEmpty.string_of_uint u) = false.
Proof.
  intros Hc. induction u as [|u IH|u IH|u IH|u IH|u IH|u IH|u IH|u IH|u IH|u IH];
    [done| ..]; simpl; rewrite IH, orb_false_r; apply bool_decide_eq_false;
    intros <-; discriminate.
Qed.

(** A printed integer contains neither a space nor any other separator. *)
Lemma occurs_fmt_d c z : is_digit c = false → c ≠ "-"%char → occurs c (fmt_d z) = false.
Proof.
  intros Hc Hm.
  assert (∀ u, occurs c (NilZero.string_of_uint u) = false) as Hu.
  { intros u. destruct u; [|by apply occurs_string_of_uint ..].
    simpl. rewrite orb_false_r. apply bool_decide_eq_false. intros <-. discriminate. }
  unfold fmt_d, NilZero.string_of_int. destruct (Z.to_int z) as [u|u]; [done|].
  simpl. rewrite Hu, orb_false_r. by apply bool_decide_eq_false.
Qed.

Lemma occurs_space_fmt_d z : occurs space (fmt_d z) = false.
Proof. by apply occurs_fmt_d. Qed.

Lemma occurs_app c s1 s2 : occurs c (s1 ++ s2) = occurs c s1 || occurs c s2.
Proof. induction s1 as [|a s1 IH]; simpl; [done|]. by rewrite IH, orb_assoc. Qed.

(** ** Lemmas: sorting *)
Lemma sort_Strings_perm l : Permutation (sort_Strings l) l.
Proof. apply merge_sort_Permutation. Qed.

Lemma sort_Strings_sorted l : Sorted String.le (sort_Strings l).
Proof. apply Sorted_merge_sort. apply _. Qed.

(** Sorting depends only on the multiset of its arguments. *)
Lemma sort_Strings_unique l1 l2 :
  Permutation l1 l2 → sort_Strings l1 = sort_Strings l2.
Proof.
  intros H. apply (Sorted_unique String.le); try apply sort_Strings_sorted.
  by rewrite !sort_Strings_perm.
Qed.

(** Strings and byte slices have the same length and content. *)
Lemma string_app_assoc (s1 s2 s3 : string) : (s1 ++ s2) ++ s3 = s1 ++ s2 ++ s3.
Proof. induction s1 as [|a s1 IH]; simpl; [done|].
  change (String a ((s1 ++ s2) ++ s3) = String a (s1 ++ s2 ++ s3)). by rewrite IH.
Qed.

Lemma string_app_nil_r (s : string) : s ++ "" = s.
Proof.
  induction s as [|a s IH]; simpl; [done|].
  change (String a (s ++ "") = String a s). by rewrite IH.
Qed.

Create HintDb gostrings discriminated.
#[export] Hint Resolve occurs_space_fmt_d Split_nonempty SplitN_nonempty : gostrings.
