(* ===== verification/Wire.v ===== *)
(** * The wire format: [NewCmdline] and [NewServerCmdline]

    engine/cmd_interface.go (client connections) and engine/s2s_server.go
    (connections between servers) both receive a byte slice and cut it into a
    command name and its parameters.  Byte slices are [list byte]; slice
    expressions are checked and panic when out of range, so "never panics" is
    a theorem about the parsers and not an artefact of the model. *)
From Stdlib Require Import ZArith Lia.
From Stdlib Require Strings.Byte.
From S2P Require Import Prelude GoStrings.

Local Open Scope string_scope.
Local Open Scope list_scope.
Local Open Scope Z_scope.

Abbreviation byte := Corelib.Init.Byte.byte (only parsing).

(** [string(b)] and [[]byte(s)] *)
Definition string_of_bytes (b : list byte) : string := String.string_of_list_byte b.
Definition bytes_of_string (s : string) : list byte := String.list_byte_of_string s.

Definition len {A} (l : list A) : Z := Z.of_nat (length l).

(** [b[lo:hi]].  The bound is [len b]; Go allows up to [cap b], so a slice
    expression that does not panic here does not panic in Go. *)
Definition slice {S A} (b : list A) (lo hi : Z) : M S (list A) :=
  if (0 <=? lo) && (lo <=? hi) && (hi <=? len b)
  then mret (take (Z.to_nat (hi - lo)) (drop (Z.to_nat lo) b))
  else panic "slice bounds out of range".

(** ** 32-bit big-endian integers *)
Definition byte_Z (b : byte) : Z := Z.of_N (Byte.to_N b).
Definition Z_byte (z : Z) : byte :=
  match Byte.of_N (Z.to_N (z mod 256)) with Some b => b | None => Byte.x00 end.

Definition sign32 (u : Z) : Z := if u <? 2 ^ 31 then u else u - 2 ^ 32.

(** [binary.Read(buf, binary.BigEndian, &v)] with [v int32]: with fewer than
    four bytes it fails, the error is dropped and [v] keeps its value [old]. *)
Definition read_int32 (b : list byte) (old : Z) : Z :=
  match b with
  | b0 :: b1 :: b2 :: b3 :: _ =>
      sign32 (((byte_Z b0 * 256 + byte_Z b1) * 256 + byte_Z b2) * 256 + byte_Z b3)
  | _ => old
  end.

(** The four bytes a peer writes for a length. *)
Definition be32 (z : Z) : list byte :=
  [Z_byte (z / 2 ^ 24); Z_byte (z / 2 ^ 16); Z_byte (z / 2 ^ 8); Z_byte z].

(** ** engine/cmd_interface.go *)
Definition CMD_VIDO_CHAT : string := "vido".

Record Cmdline : Type := mkCmdline {
  Cmd : string;
  Params : string;
  Params2 : list byte;
  cl_client : ptr
}.

Definition NewCmdline {S} (input : list byte) (cli : ptr) : M S (error + Cmdline) :=
  if len input <? 4 then mret (inl (NewError "message has damaged")) else
  b4 ← slice input 0 4;
  let headerLen := read_int32 b4 0 in
  let headL := headerLen in
  if headL <=? 0 then mret (inl (NewError "skip")) else
  if len input <? headL + 4 then mret (inl (NewError "message has damaged")) else
  h ← slice input 4 (headL + 4);
  let cmd := string_of_bytes h in
  if headL + 4 + 4 <? len input then
    b4' ← slice input (headL + 4) (headL + 4 + 4);
    let bodyL := read_int32 b4' headerLen in
    if negb (len input =? headL + 4 + 4 + bodyL)
    then mret (inl (NewError "message has damaged")) else
    body ← slice input (headL + 4 + 4) (headL + 4 + 4 + bodyL);
    if String.eqb cmd CMD_VIDO_CHAT
    then mret (inr (mkCmdline cmd "" body cli))
    else mret (inr (mkCmdline cmd (string_of_bytes body) [] cli))
  else mret (inr (mkCmdline cmd "" [] cli)).

(** ** engine/s2s_server.go *)
Record ServerCmdline : Type := mkServerCmdline {
  SCmd : string;
  SParams : list byte
}.

Definition NewServerCmdline {S} (input : list byte) : M S (error + ServerCmdline) :=
  if len input <? 4 then mret (inl (NewError "message has been damaged")) else
  b4 ← slice input 0 4;
  let headLen := read_int32 b4 0 in
  if headLen <=? 0 then mret (inl (NewError "message has been damaged")) else
  if len input <? headLen + 4 then mret (inl (NewError "message has damaged")) else
  h ← slice input 4 (headLen + 4);
  let cmd := string_of_bytes h in
  if len input <=? 4 + headLen + 4 then mret (inl (NewError "message has damaged")) else
  b4' ← slice input (headLen + 4) (headLen + 4 + 4);
  let bodyLen := read_int32 b4' 0 in
  if negb (len input =? 4 + headLen + 4 + bodyLen)
  then mret (inl (NewError "message has damaged")) else
  ps ← slice input (4 + headLen + 4) (4 + headLen + 4 + bodyLen);
  mret (inr (mkServerCmdline cmd ps)).

(** ** The grammar the parsers accept *)

(** A length-prefixed block. *)
Definition block32 (b : list byte) : list byte := be32 (len b) ++ b.

(** A message between servers: two non-empty blocks. *)
Definition server_frame (input h body : list byte) : Prop :=
  h ≠ [] ∧ body ≠ [] ∧ len h < 2 ^ 31 ∧ len body < 2 ^ 31
  ∧ input = block32 h ++ block32 body.

(** A message from a client: a non-empty block, then either a second non-empty
    block or at most four more bytes, which are ignored. *)
Definition client_frame (input h body : list byte) : Prop :=
  h ≠ [] ∧ len h < 2 ^ 31 ∧
  ((body ≠ [] ∧ len body < 2 ^ 31 ∧ input = block32 h ++ block32 body)
   ∨ (body = [] ∧ ∃ rest, (length rest ≤ 4)%nat ∧ input = block32 h ++ rest)).

(** What a client frame means as a command. *)
Definition cmdline_of (h body : list byte) (cli : ptr) : Cmdline :=
  let cmd := string_of_bytes h in
  if String.eqb cmd CMD_VIDO_CHAT then mkCmdline cmd "" body cli
  else mkCmdline cmd (string_of_bytes body) [] cli.

(** ** Lemmas: bytes and slices *)
Lemma byte_Z_range b : 0 <= byte_Z b < 256.
Proof. unfold byte_Z. pose proof (Byte.to_N_bounded b). lia. Qed.

Lemma Z_byte_Z z : byte_Z (Z_byte z) = z mod 256.
Proof.
  unfold byte_Z, Z_byte. pose proof (Z.mod_pos_bound z 256 eq_refl) as Hb.
  destruct (Byte.of_N (Z.to_N (z mod 256))) as [b|] eqn:E.
  - apply Byte.to_of_N in E. rewrite E, Z2N.id; lia.
  - apply Byte.of_N_None_iff in E. lia.
Qed.

Lemma byte_Z_byte b z : z mod 256 = byte_Z b → Z_byte z = b.
Proof.
  intros H. unfold Z_byte. rewrite H. unfold byte_Z. rewrite N2Z.id.
  by rewrite Byte.of_to_N.
Qed.

Lemma four_bytes z :
  ((z / 2 ^ 24 mod 256 * 256 + z / 2 ^ 16 mod 256) * 256 + z / 2 ^ 8 mod 256) * 256
  + z mod 256 = z mod 2 ^ 32.
Proof.
  change (2 ^ 32) with (256 * (256 * (256 * 256))).
  rewrite !(Z.rem_mul_r _ 256) by lia. rewrite !Z.div_div by lia.
  change (2 ^ 24) with (256 * 256 * 256). change (2 ^ 16) with (256 * 256).
  change (2 ^ 8) with 256. ring.
Qed.

Lemma read_be32 z r old :
  - 2 ^ 31 <= z < 2 ^ 31 → read_int32 (be32 z ++ r) old = z.
Proof.
  intros Hz. unfold be32, read_int32. cbn [app]. rewrite !Z_byte_Z, four_bytes.
  unfold sign32. pose proof (Z.mod_pos_bound z (2 ^ 32) eq_refl).
  pose proof (Z.div_mod z (2 ^ 32)) as E.
  change (2 ^ 31) with 2147483648 in *. change (2 ^ 32) with 4294967296 in *.
  destruct (Z.ltb_spec (z mod 4294967296) 2147483648); nia.
Qed.

Lemma read_be32_only z old : - 2 ^ 31 <= z < 2 ^ 31 → read_int32 (be32 z) old = z.
Proof. intros Hz. pose proof (read_be32 z [] old Hz) as E. by rewrite app_nil_r in E. Qed.

(** The byte at weight [m] of a number written in base 256. *)
Lemma byte_at z m b r k :
  z = (b + 256 * k) * m + r → 0 <= r < m → 0 <= b < 256 → z / m mod 256 = b.
Proof.
  intros Hz Hr Hb. replace (z / m) with (b + 256 * k).
  - symmetry. apply (Z.mod_unique _ _ k); lia.
  - apply (Z.div_unique _ _ _ r); lia.
Qed.

Lemma sign32_shift u : ∃ k, sign32 u = u + 2 ^ 32 * k.
Proof. unfold sign32. case_match; [exists 0 | exists (-1)]; lia. Qed.

Lemma be32_read b old : length b = 4%nat → be32 (read_int32 b old) = b.
Proof.
  destruct b as [|b0 [|b1 [|b2 [|b3 [|]]]]]; try done. intros _.
  pose proof (byte_Z_range b0). pose proof (byte_Z_range b1).
  pose proof (byte_Z_range b2). pose proof (byte_Z_range b3).
  unfold be32, read_int32. destruct (sign32_shift
    (((byte_Z b0 * 256 + byte_Z b1) * 256 + byte_Z b2) * 256 + byte_Z b3)) as [k ->].
  change (2 ^ 24) with 16777216. change (2 ^ 16) with 65536. change (2 ^ 8) with 256.
  change (2 ^ 32) with 4294967296. repeat f_equal; apply byte_Z_byte.
  - apply (byte_at _ _ _ ((byte_Z b1 * 256 + byte_Z b2) * 256 + byte_Z b3) k); lia.
  - apply (byte_at _ _ _ (byte_Z b2 * 256 + byte_Z b3) (byte_Z b0 + 256 * k)); lia.
  - apply (byte_at _ _ _ (byte_Z b3) (byte_Z b0 * 256 + byte_Z b1 + 65536 * k)); lia.
  - rewrite <- (Z.div_1_r (_ + _)).
    apply (byte_at _ _ _ 0 ((byte_Z b0 * 256 + byte_Z b1) * 256 + byte_Z b2 + 16777216 * k)); lia.
Qed.

Lemma read_int32_bound b old : length b = 4%nat → - 2 ^ 31 <= read_int32 b old < 2 ^ 31.
Proof.
  destruct b as [|b0 [|b1 [|b2 [|b3 [|]]]]]; try done. intros _.
  pose proof (byte_Z_range b0). pose proof (byte_Z_range b1).
  pose proof (byte_Z_range b2). pose proof (byte_Z_range b3).
  unfold read_int32, sign32.
  change (2 ^ 31) with 2147483648. change (2 ^ 32) with 4294967296.
  destruct (Z.ltb_spec (((byte_Z b0 * 256 + byte_Z b1) * 256 + byte_Z b2) * 256
                        + byte_Z b3) 2147483648); lia.
Qed.

Lemma length_be32 z : length (be32 z) = 4%nat.
Proof. done. Qed.

Lemma len_app {A} (a b : list A) : len (a ++ b) = len a + len b.
Proof. unfold len. rewrite length_app. lia. Qed.

Lemma len_nonneg {A} (a : list A) : 0 <= len a.
Proof. unfold len. lia. Qed.

Lemma len_be32 z : len (be32 z) = 4.
Proof. done. Qed.

Lemma len_pos {A} (a : list A) : a ≠ [] → 0 < len a.
Proof. destruct a; [done|]. unfold len. simpl. lia. Qed.

Lemma slice_in {S A} (b : list A) lo hi (s : S) :
  0 <= lo <= hi → hi <= len b →
  slice b lo hi s = (Ret (take (Z.to_nat (hi - lo)) (drop (Z.to_nat lo) b)), s).
Proof.
  intros. unfold slice.
  rewrite (proj2 (Z.leb_le 0 lo)), (proj2 (Z.leb_le lo hi)), (proj2 (Z.leb_le hi (len b))) by lia.
  done.
Qed.

(** The middle of a concatenation. *)
Lemma slice_mid {S A} (a m r : list A) lo hi (s : S) :
  lo = len a → hi = len a + len m →
  slice (a ++ m ++ r) lo hi s = (Ret m, s).
Proof.
  intros -> ->. pose proof (len_nonneg a). pose proof (len_nonneg m).
  pose proof (len_nonneg r). rewrite slice_in; [|lia|rewrite !len_app; lia].
  replace (len a + len m - len a) with (len m) by lia. unfold len.
  rewrite !Nat2Z.id, drop_app_length, take_app_length. done.
Qed.

Lemma slice_end {S A} (a m : list A) lo hi (s : S) :
  lo = len a → hi = len a + len m → slice (a ++ m) lo hi s = (Ret m, s).
Proof. intros. rewrite <- (app_nil_r m) at 1. by apply slice_mid. Qed.

(** Cutting a list at a position inside it. *)
Lemma split_at {A} (l : list A) n :
  0 <= n <= len l → ∃ a r, l = a ++ r ∧ len a = n.
Proof.
  intros [H1 H2]. exists (take (Z.to_nat n) l), (drop (Z.to_nat n) l).
  split; [by rewrite take_drop|]. unfold len in *. rewrite length_take. lia.
Qed.

Lemma len_length {A} (l : list A) n : len l = Z.of_nat n → length l = n.
Proof. unfold len. lia. Qed.

(** Four leading bytes, read as a length and written back. *)
Lemma split_be32 (l : list byte) :
  4 <= len l → ∃ z r, l = be32 z ++ r ∧ - 2 ^ 31 <= z < 2 ^ 31.
Proof.
  intros H. destruct (split_at l 4) as (b & r & -> & Hb); [lia|].
  apply (len_length _ 4) in Hb. exists (read_int32 b 0), r.
  rewrite be32_read by done. split; [done|]. by apply read_int32_bound.
Qed.

(** ** The parsers against the grammar *)
Lemma NewServerCmdline_sound {S} input (s : S) :
  ∃ r, NewServerCmdline input s = (Ret r, s) ∧
       ∀ c, r = inr c → ∃ h body, server_frame input h body
                                  ∧ c = mkServerCmdline (string_of_bytes h) body.
Proof.
  unfold NewServerCmdline.
  destruct (Z.ltb_spec (len input) 4); [eexists; split; [done|by intros]|].
  destruct (split_be32 input) as (z & r & -> & Hz); [lia|].
  erewrite bind_ret_run by (by apply (slice_mid [] (be32 z) r)).
  rewrite read_be32_only by done.
  destruct (Z.leb_spec z 0); [eexists; split; [done|by intros]|].
  destruct (Z.ltb_spec (len (be32 z ++ r)) (z + 4)) as [|Hl]; [eexists; split; [done|by intros]|].
  rewrite len_app, len_be32 in *.
  destruct (split_at r z) as (h & r2 & -> & Hh); [lia|].
  erewrite bind_ret_run by (apply slice_mid; rewrite ?len_be32; lia).
  rewrite len_app in *.
  destruct (Z.leb_spec (4 + (len h + len r2)) (4 + z + 4)) as [|Hl2];
    [eexists; split; [done|by intros]|].
  destruct (split_be32 r2) as (zb & body & -> & Hzb); [lia|].
  rewrite (app_assoc (be32 z) h).
  erewrite bind_ret_run by (apply slice_mid; rewrite ?len_app, ?len_be32; lia).
  rewrite read_be32_only by done.
  rewrite !len_app, !len_be32 in *.
  destruct (Z.eqb_spec (4 + (len h + (4 + len body))) (4 + z + 4 + zb)) as [Hb|];
    [|eexists; split; [done|by intros]].
  cbn [negb]. rewrite (app_assoc (be32 z ++ h)).
  erewrite bind_ret_run by (apply slice_end; rewrite ?len_app, ?len_be32; lia).
  eexists; split; [done|]. intros c [= <-]. exists h, body. unfold server_frame, block32.
  assert (z = len h) as -> by lia. assert (zb = len body) as -> by lia.
  repeat split; try lia; [intros -> | intros -> |]; try (unfold len in *; simpl in *; lia).
  by rewrite <- !app_assoc.
Qed.

Lemma NewServerCmdline_complete {S} input h body (s : S) :
  server_frame input h body →
  NewServerCmdline input s = (Ret (inr (mkServerCmdline (string_of_bytes h) body)), s).
Proof.
  intros (Hh & Hb & Hh31 & Hb31 & ->). apply len_pos in Hh, Hb.
  unfold NewServerCmdline, block32. rewrite <- !app_assoc, !len_app, !len_be32.
  rewrite (proj2 (Z.ltb_ge _ 4)) by lia.
  erewrite bind_ret_run by (by apply (slice_mid [] (be32 (len h)))).
  rewrite read_be32_only by lia.
  rewrite (proj2 (Z.leb_gt (len h) 0)), (proj2 (Z.ltb_ge _ (len h + 4))) by lia.
  erewrite bind_ret_run by (apply slice_mid; rewrite ?len_be32; lia).
  rewrite (proj2 (Z.leb_gt _ (4 + len h + 4))) by lia.
  rewrite (app_assoc (be32 (len h)) h).
  erewrite bind_ret_run by (apply slice_mid; rewrite ?len_app, ?len_be32; lia).
  rewrite read_be32_only by lia.
  rewrite (proj2 (Z.eqb_eq _ (4 + len h + 4 + len body))) by lia.
  cbn [negb]. rewrite (app_assoc (be32 (len h) ++ h)).
  by erewrite bind_ret_run by (apply slice_end; rewrite ?len_app, ?len_be32; lia).
Qed.

Lemma cmdline_of_if {S} h body cli (s : S) :
  (if String.eqb (string_of_bytes h) CMD_VIDO_CHAT
   then mret (inr (mkCmdline (string_of_bytes h) "" body cli))
   else mret (inr (mkCmdline (string_of_bytes h) (string_of_bytes body) [] cli))
   : M S (error + Cmdline)) s = (Ret (inr (cmdline_of h body cli)), s).
Proof. unfold cmdline_of. by destruct (String.eqb _ _). Qed.

Lemma cmdline_of_nil h cli : cmdline_of h [] cli = mkCmdline (string_of_bytes h) "" [] cli.
Proof. unfold cmdline_of. by destruct (String.eqb _ _). Qed.

Lemma NewCmdline_sound {S} input cli (s : S) :
  ∃ r, NewCmdline input cli s = (Ret r, s) ∧
       ∀ c, r = inr c → ∃ h body, client_frame input h body ∧ c = cmdline_of h body cli.
Proof.
  unfold NewCmdline.
  destruct (Z.ltb_spec (len input) 4); [eexists; split; [done|by intros]|].
  destruct (split_be32 input) as (z & r & -> & Hz); [lia|].
  erewrite bind_ret_run by (by apply (slice_mid [] (be32 z) r)).
  rewrite read_be32_only by done.
  destruct (Z.leb_spec z 0); [eexists; split; [done|by intros]|].
  destruct (Z.ltb_spec (len (be32 z ++ r)) (z + 4)) as [|Hl]; [eexists; split; [done|by intros]|].
  rewrite len_app, len_be32 in *.
  destruct (split_at r z) as (h & r2 & -> & Hh); [lia|].
  assert (h ≠ []) by (intros ->; unfold len in *; simpl in *; lia).
  erewrite bind_ret_run by (apply slice_mid; rewrite ?len_be32; lia).
  rewrite len_app in *. subst z.
  destruct (Z.ltb_spec (len h + 4 + 4) (4 + (len h + len r2))) as [Hl2|Hl2].
  2:{ eexists; split; [done|]. intros c [= <-]. exists h, []. rewrite cmdline_of_nil.
      repeat split; [done|lia|]. right. split; [done|]. exists r2.
      unfold block32, len in *. rewrite <- app_assoc. split; [lia|done]. }
  destruct (split_be32 r2) as (zb & body & -> & Hzb); [lia|].
  rewrite (app_assoc (be32 (len h)) h).
  erewrite bind_ret_run by (apply slice_mid; rewrite ?len_app, ?len_be32; lia).
  rewrite read_be32_only by done. rewrite !len_app, !len_be32 in *.
  destruct (Z.eqb_spec (4 + (len h + (4 + len body))) (len h + 4 + 4 + zb)) as [Hb|];
    [|eexists; split; [done|by intros]].
  cbn [negb]. rewrite (app_assoc (be32 (len h) ++ h)).
  erewrite bind_ret_run by (apply slice_end; rewrite ?len_app, ?len_be32; lia).
  rewrite cmdline_of_if. eexists; split; [done|]. intros c [= <-]. exists h, body.
  assert (zb = len body) as -> by lia. repeat split; [done|lia|]. left.
  unfold block32. rewrite <- !app_assoc. repeat split; [intros ->; unfold len in *; simpl in *; lia|lia].
Qed.

Lemma NewCmdline_complete {S} input h body cli (s : S) :
  client_frame input h body →
  NewCmdline input cli s = (Ret (inr (cmdline_of h body cli)), s).
Proof.
  intros (Hh & Hh31 & [(Hb & Hb31 & ->)|(-> & rest & Hr & ->)]); apply len_pos in Hh;
    unfold NewCmdline, block32; rewrite <- !app_assoc, !len_app, !len_be32;
    [apply len_pos in Hb | pose proof (len_nonneg rest)];
    rewrite (proj2 (Z.ltb_ge _ 4)) by lia;
    erewrite bind_ret_run by (by apply (slice_mid [] (be32 (len h))));
    rewrite read_be32_only by lia;
    rewrite (proj2 (Z.leb_gt (len h) 0)), (proj2 (Z.ltb_ge _ (len h + 4))) by lia;
    erewrite bind_ret_run by (apply slice_mid; rewrite ?len_be32; lia).
  - rewrite (proj2 (Z.ltb_lt (len h + 4 + 4) _)) by lia.
    rewrite (app_assoc (be32 (len h)) h).
    erewrite bind_ret_run by (apply slice_mid; rewrite ?len_app, ?len_be32; lia).
    rewrite read_be32_only by lia.
    rewrite (proj2 (Z.eqb_eq _ (len h + 4 + 4 + len body))) by lia.
    cbn [negb]. rewrite (app_assoc (be32 (len h) ++ h)).
    erewrite bind_ret_run by (apply slice_end; rewrite ?len_app, ?len_be32; lia).
    apply cmdline_of_if.
  - rewrite (proj2 (Z.ltb_ge (len h + 4 + 4) _)) by (unfold len in *; lia).
    by rewrite cmdline_of_nil.
Qed.

Lemma string_of_bytes_inj b1 b2 : string_of_bytes b1 = string_of_bytes b2 → b1 = b2.
Proof.
  intros H. apply (f_equal String.list_byte_of_string) in H. unfold string_of_bytes in H.
  by rewrite !String.list_byte_of_string_of_list_byte in H.
Qed.

Lemma string_of_bytes_of_string s : string_of_bytes (bytes_of_string s) = s.
Proof. apply String.string_of_list_byte_of_string. Qed.

Lemma bytes_of_string_of_bytes b : bytes_of_string (string_of_bytes b) = b.
Proof. apply String.list_byte_of_string_of_list_byte. Qed.

(** ** Properties *)

(** (C25) [NewCmdline] decides the client grammar: on every input it returns
    (no slice expression is out of range), it returns a command exactly when
    the input is a client frame, and the command is the one the frame encodes. *)
Theorem NewCmdline_spec {S} (input : list byte) (cli : ptr) (s : S) :
  ∃ r, NewCmdline input cli s = (Ret r, s) ∧
       ∀ c, r = inr c ↔ ∃ h body, client_frame input h body ∧ c = cmdline_of h body cli.
Proof.
  destruct (NewCmdline_sound input cli s) as (r & Hr & Hs). exists r.
  split; [done|]. intros c. split; [apply Hs|].
  intros (h & body & Hf & ->). rewrite (NewCmdline_complete _ _ _ _ s Hf) in Hr. congruence.
Qed.

(** (C26) [NewServerCmdline] decides the server-to-server grammar in the same
    sense: it always returns, and accepts exactly the frames of two non-empty
    length-prefixed blocks. *)
Theorem NewServerCmdline_spec {S} (input : list byte) (s : S) :
  ∃ r, NewServerCmdline input s = (Ret r, s) ∧
       ∀ c, r = inr c ↔ ∃ h body, server_frame input h body
                                  ∧ c = mkServerCmdline (string_of_bytes h) body.
Proof.
  destruct (NewServerCmdline_sound input s) as (r & Hr & Hs). exists r.
  split; [done|]. intros c. split; [apply Hs|].
  intros (h & body & Hf & ->). rewrite (NewServerCmdline_complete _ _ _ s Hf) in Hr. congruence.
Qed.
