(* ===== verification/Deps.v ===== *)
(** * The code pushd calls but does not contain, as interfaces

    Nothing here models code of the repository.  Each class lists the
    operations of one third-party package or service exactly as far as src/
    calls them; the companion [...Laws] class states the documented behaviour
    the theorems may rely on.  [RefDeps] gives a concrete instance of every
    class and proves its laws, so no theorem is stated over an empty class. *)
From Stdlib Require Import ZArith.
From S2P Require Import Prelude GoStrings.

Local Open Scope string_scope.
Local Open Scope list_scope.

(** ** Dynamic values

    [interface{}], [bson.M], [[]interface{}] and [[]string] as they are handed
    to, or read back from, the Mongo driver and encoding/json.  A [bson.M] is
    its list of key/value pairs. *)
#[warnings="-register-all"]
Inductive value : Type :=
| VNil
| VInt (z : Z)                        (* int *)
| VInt64 (z : Z)                      (* int64 *)
| VStr (s : string)
| VOid (s : string)                   (* bson.ObjectId: twelve raw bytes *)
| VTime (ns : Z)                      (* time.Time *)
| VOther (s : string)                 (* a number or boolean out of JSON *)
| VArr (l : list value)
| VDoc (fs : list (string * value)).

#[export] Instance value_nil_dec (v : value) : Decision (v = VNil).
Proof. destruct v; (by left) || by right. Defined.

(** [m[k]] on a map: the entry, if there is one. *)
Fixpoint field (k : string) (fs : list (string * value)) : option value :=
  match fs with
  | [] => None
  | (k', v) :: fs' => if String.eqb k k' then Some v else field k fs'
  end.

(** Type assertions [x.(T)]: a panic when the dynamic type differs. *)
Definition as_doc {S} (v : value) : M S (list (string * value)) :=
  match v with VDoc fs => mret fs | _ => panic "interface conversion: not bson.M" end.
Definition as_arr {S} (v : value) : M S (list value) :=
  match v with VArr l => mret l | _ => panic "interface conversion: not []interface{}" end.
Definition as_str {S} (v : value) : M S string :=
  match v with VStr s => mret s | _ => panic "interface conversion: not string" end.
Definition as_int {S} (v : value) : M S Z :=
  match v with VInt z => mret z | _ => panic "interface conversion: not int" end.
Definition as_int64 {S} (v : value) : M S Z :=
  match v with VInt64 z => mret z | _ => panic "interface conversion: not int64" end.
Definition as_oid {S} (v : value) : M S string :=
  match v with VOid s => mret s | _ => panic "interface conversion: not bson.ObjectId" end.

(** [x.(bson.M)[k]], [nil] when the key is absent. *)
Definition doc_get {S} (v : value) (k : string) : M S value :=
  fs ← as_doc v; mret (default VNil (field k fs)).

Section within_values.
  Context {S : Type} (R : relation S) `{!PreOrder R}.

Lemma within_as_doc v : within R (as_doc v).
Proof. destruct v; eauto with within typeclass_instances. Qed.
Lemma within_as_arr v : within R (as_arr v).
Proof. destruct v; eauto with within typeclass_instances. Qed.
Lemma within_as_str v : within R (as_str v).
Proof. destruct v; eauto with within typeclass_instances. Qed.
Lemma within_as_int v : within R (as_int v).
Proof. destruct v; eauto with within typeclass_instances. Qed.
Lemma within_as_int64 v : within R (as_int64 v).
Proof. destruct v; eauto with within typeclass_instances. Qed.
Lemma within_as_oid v : within R (as_oid v).
Proof. destruct v; eauto with within typeclass_instances. Qed.
Lemma within_doc_get v k : within R (doc_get v k).
Proof. apply within_bind; [done|apply within_as_doc|]. intros. by apply within_ret. Qed.
End within_values.
#[export] Hint Resolve within_as_doc within_as_arr within_as_str within_as_int
  within_as_int64 within_as_oid within_doc_get : within.

(** [[]string] to a value. *)
Definition VStrs (l : list string) : value := VArr (VStr <$> l).

(** ** gopkg.in/mgo.v2: the MongoDB driver

    Every call may change the state of the database, fail, or both.  A
    collection is named by its database and its name; [VNil] stands for "no
    projection". *)
Record coll : Type := mkcoll { coll_db : string; coll_name : string }.

Class Mongo : Type := {
  db : Type;
  (** [C(c).Find(q).Select(p).One(&result)] *)
  mgo_one : db → coll → value → value → db * (error + value);
  (** [C(c).Find(q).Select(p).All(&result)]: the documents and the error *)
  mgo_all : db → coll → value → value → db * (list value * option error);
  (** [C(c).Find(q).Apply(mgo.Change{Update: u, ReturnNew: true}, &result)] *)
  mgo_apply : db → coll → value → value → db * (error + value);
  mgo_insert : db → coll → list value → db * option error;
  mgo_update : db → coll → value → value → db * option error;
  mgo_upsert : db → coll → value → value → db * option error;
  mgo_remove : db → coll → value → db * option error;
  (** [bulk.Update(docs...); bulk.Run()] and [bulk.Upsert(docs...); bulk.Run()] *)
  mgo_bulk_update : db → coll → list (value * value) → db * option error;
  mgo_bulk_upsert : db → coll → list (value * value) → db * option error
}.

(** ** gopkg.in/mgo.v2/bson: object ids *)
Class Bson : Type := {
  IsObjectIdHex : string → bool;
  (** [None]: the call panics *)
  ObjectIdHex : string → option string;
  Hex : string → string
}.

Class BsonLaws `{Bson} : Prop := {
  (** "Calling this function with an invalid hex representation will cause a
      runtime panic. See the IsObjectIdHex function." *)
  ObjectIdHex_valid s : IsObjectIdHex s = true → ∃ o, ObjectIdHex s = Some o;
  (** a hex string has no space in it *)
  Hex_nospace o : occurs space (Hex o) = false
}.

(** ** The clock, the random sources and the codecs

    The [nat] is the number of calls made so far, so that successive calls may
    differ. *)
Class Env : Type := {
  UnixNano : nat → Z;                  (* time.Now().UnixNano() *)
  rand_Rand : nat → nat → string;      (* golib/str.Rand(n) *)
  NewObjectId : nat → string;          (* bson.NewObjectId() *)
  sha256_hex : string → string;        (* hex of a SHA-256 digest *)
  json_Marshal : value → error + string;
  json_Unmarshal : string → error + value
}.

(** ** github.com/nicholaskh/golib/cache: an LRU cache *)
Class LruCache : Type := {
  lru : Type → Type;
  NewLruCache : ∀ {V}, Z → lru V;
  (** [Get] also marks the entry as recently used *)
  lru_Get : ∀ {V}, lru V → string → lru V * option V;
  lru_Set : ∀ {V}, lru V → string → V → lru V;
  lru_GetOrAdd : ∀ {V}, lru V → string → V → lru V * V;
  lru_Del : ∀ {V}, lru V → string → lru V;
  lru_Len : ∀ {V}, lru V → Z
}.

Definition lru_find `{LruCache} {V} (c : lru V) (k : string) : option V := (lru_Get c k).2.

(** An entry just stored is found; storing one entry may evict others; looking
    up changes recency only. *)
Class LruLaws `{LruCache} : Prop := {
  lru_find_new V n k : lru_find (NewLruCache (V := V) n) k = None;
  lru_find_Get V (c : lru V) k k' : lru_find (lru_Get c k).1 k' = lru_find c k';
  lru_find_Set V (c : lru V) k v : lru_find (lru_Set c k v) k = Some v;
  lru_find_Set_ne V (c : lru V) k k' v :
    k ≠ k' → lru_find (lru_Set c k v) k' = lru_find c k'
             ∨ lru_find (lru_Set c k v) k' = None;
  lru_GetOrAdd_spec V (c : lru V) k v :
    (lru_GetOrAdd c k v).2 = default v (lru_find c k)
    ∧ lru_find (lru_GetOrAdd c k v).1 k = Some (default v (lru_find c k));
  lru_GetOrAdd_ne V (c : lru V) k k' v :
    k ≠ k' → lru_find (lru_GetOrAdd c k v).1 k' = lru_find c k'
             ∨ lru_find (lru_GetOrAdd c k v).1 k' = None;
  lru_find_Del V (c : lru V) k : lru_find (lru_Del c k) k = None;
  lru_find_Del_ne V (c : lru V) k k' :
    k ≠ k' → lru_find (lru_Del c k) k' = lru_find c k'
}.

(** ** github.com/nicholaskh/golib/concurrent/map *)
Class ConcurrentMap : Type := {
  cmap : Type → Type;
  cmap_New : ∀ {V}, cmap V;
  cmap_Get : ∀ {V}, cmap V → string → option V;
  cmap_Set : ∀ {V}, cmap V → string → V → cmap V;
  cmap_Remove : ∀ {V}, cmap V → string → cmap V
}.

Class CmapLaws `{ConcurrentMap} : Prop := {
  cmap_Get_New V k : cmap_Get (cmap_New (V := V)) k = None;
  cmap_Get_Set V (m : cmap V) k v k' :
    cmap_Get (cmap_Set m k v) k' = if decide (k = k') then Some v else cmap_Get m k';
  cmap_Get_Remove V (m : cmap V) k k' :
    cmap_Get (cmap_Remove m k) k' = if decide (k = k') then None else cmap_Get m k'
}.

(** ** github.com/nicholaskh/golib/set: a set of [interface{}] values

    [set_elems] lists the members in the order one [range] over the set yields
    them; Go leaves that order unspecified. *)
Class GoSet : Type := {
  goset : Type → Type;
  set_NewSet : ∀ {A}, goset A;
  set_Add : ∀ {A} `{EqDecision A}, goset A → A → goset A * bool;
  set_Remove : ∀ {A} `{EqDecision A}, goset A → A → goset A;
  set_Contains : ∀ {A} `{EqDecision A}, goset A → A → bool;
  set_elems : ∀ {A}, goset A → list A
}.

Class GoSetLaws `{GoSet} : Prop := {
  set_elems_New A : set_elems (set_NewSet (A := A)) = [];
  set_elems_Add A `{EqDecision A} (s : goset A) x y :
    y ∈ set_elems (set_Add s x).1 ↔ y = x ∨ y ∈ set_elems s;
  set_Add_new A `{EqDecision A} (s : goset A) x :
    (set_Add s x).2 = bool_decide (x ∉ set_elems s);
  set_elems_Remove A `{EqDecision A} (s : goset A) x y :
    y ∈ set_elems (set_Remove s x) ↔ y ≠ x ∧ y ∈ set_elems s;
  set_Contains_elems A `{EqDecision A} (s : goset A) x :
    set_Contains s x = bool_decide (x ∈ set_elems s);
  set_elems_NoDup A (s : goset A) : NoDup (set_elems s)
}.

(** ** Everything together *)
Class Externals : Type := {
  ext_mongo :: Mongo;
  ext_bson :: Bson;
  ext_env :: Env;
  ext_lru :: LruCache;
  ext_cmap :: ConcurrentMap;
  ext_set :: GoSet
}.

Create Rewrite HintDb deps.
#[export] Hint Rewrite @lru_find_new @lru_find_Get @lru_find_Set @lru_find_Del
  using (typeclasses eauto) : deps.
#[export] Hint Rewrite @cmap_Get_New @cmap_Get_Set @cmap_Get_Remove
  using (typeclasses eauto) : deps.

(** The loop that inserts a slice into a set. *)
Lemma set_elems_foldl `{GoSetLaws} {A} `{EqDecision A} (l : list A) (s : goset A) y :
  y ∈ set_elems (foldl (λ s x, (set_Add s x).1) s l) ↔ y ∈ l ∨ y ∈ set_elems s.
Proof.
  revert s. induction l as [|x l IH]; intros s; simpl.
  - split; [by right|]. by intros [[]%not_elem_of_nil|].
  - rewrite IH, set_elems_Add, elem_of_cons. tauto.
Qed.
