(* ===== verification/RefDeps.v ===== *)
(** * Concrete instances of the external interfaces

    A small in-memory implementation of each class of [Deps], with the proofs
    of its laws.  The witnesses evaluate the server's definitions over these
    instances.  They are test doubles: no theorem of the library depends on
    them, and they become visible with [Import Ref] only. *)
From Stdlib Require Import ZArith.
From S2P Require Import Prelude GoStrings Deps.

Local Open Scope string_scope.
Local Open Scope list_scope.

Module Ref.

(** ** A set: a list without duplicates *)
#[export] Instance ref_set : GoSet := {|
  goset A := { l : list A | NoDup l };
  set_NewSet A := exist _ [] (NoDup_nil_2);
  set_Add A _ s x :=
    match decide (x ∈ `s) with
    | left _ => (s, false)
    | right n => (exist _ (x :: `s) (NoDup_cons_2 _ _ n (proj2_sig s)), true)
    end;
  set_Remove A _ s x :=
    exist _ (filter (λ y, y ≠ x) (`s)) (NoDup_filter _ _ (proj2_sig s));
  set_Contains A _ s x := bool_decide (x ∈ `s);
  set_elems A s := `s
|}.

#[export] Instance ref_set_laws : GoSetLaws.
Proof.
  split; simpl; try done.
  - intros A ? [l Hl] x y. simpl. destruct (decide (x ∈ l)); simpl; set_solver.
  - intros A ? [l Hl] x. simpl. destruct (decide (x ∈ l)); simpl; symmetry;
      [apply bool_decide_eq_false | apply bool_decide_eq_true]; set_solver.
  - intros A ? [l Hl] x y. simpl. by rewrite list_elem_of_filter.
  - intros A [l Hl]. done.
Qed.

(** ** An LRU cache: most recently used first, at least one entry *)
Fixpoint assoc {V} (k : string) (l : list (string * V)) : option V :=
  match l with
  | [] => None
  | (k', v) :: l' => if decide (k = k') then Some v else assoc k l'
  end.

Definition assoc_del {V} (k : string) (l : list (string * V)) : list (string * V) :=
  filter (λ p, p.1 ≠ k) l.

Definition ref_Set {V} (c : nat * list (string * V)) (k : string) (v : V) :=
  (c.1, (k, v) :: take (c.1) (assoc_del k c.2)).

#[export] Instance ref_lru : LruCache := {|
  lru V := (nat * list (string * V))%type;
  NewLruCache V n := (pred (Z.to_nat n), []);
  lru_Get V c k := (c, assoc k c.2);
  lru_Set V c k v := ref_Set c k v;
  lru_GetOrAdd V c k v :=
    match assoc k c.2 with Some w => (c, w) | None => (ref_Set c k v, v) end;
  lru_Del V c k := (c.1, assoc_del k c.2);
  lru_Len V c := Z.of_nat (length c.2)
|}.

Lemma assoc_del_eq {V} k (l : list (string * V)) : assoc k (assoc_del k l) = None.
Proof.
  unfold assoc_del. induction l as [|[k' v] l IH]; [done|]. rewrite filter_cons. simpl.
  case_decide; simpl; [rewrite decide_False by done|]; done.
Qed.

Lemma assoc_del_ne {V} k k' (l : list (string * V)) :
  k ≠ k' → assoc k' (assoc_del k l) = assoc k' l.
Proof.
  intros Hne. unfold assoc_del. induction l as [|[k2 v] l IH]; [done|].
  rewrite filter_cons. simpl. case_decide as Hd; simpl; rewrite IH; [done|].
  rewrite (decide_False (P := k' = k2)); congruence.
Qed.

Lemma assoc_take {V} k n (l : list (string * V)) :
  assoc k (take n l) = assoc k l ∨ assoc k (take n l) = None.
Proof.
  revert n. induction l as [|[k' v] l IH]; intros [|n]; simpl; auto.
  case_decide; auto.
Qed.

Lemma ref_Set_ne {V} (c : nat * list (string * V)) k k' v :
  k ≠ k' → assoc k' (ref_Set c k v).2 = assoc k' c.2 ∨ assoc k' (ref_Set c k v).2 = None.
Proof.
  intros Hne. simpl. rewrite decide_False by done.
  destruct (assoc_take k' c.1 (assoc_del k c.2)) as [->| ->]; [|by right].
  left. by apply assoc_del_ne.
Qed.

#[export] Instance ref_lru_laws : LruLaws.
Proof.
  split; unfold lru_find; simpl; try done.
  - intros. by rewrite decide_True.
  - intros. by apply ref_Set_ne.
  - intros V c k v. destruct (assoc k c.2) eqn:E; simpl; [by rewrite E|].
    by rewrite decide_True.
  - intros V c k k' v Hne. destruct (assoc k c.2) eqn:E; [by left|]. by apply ref_Set_ne.
  - intros. apply assoc_del_eq.
  - intros. by apply assoc_del_ne.
Qed.

(** ** A concurrent map *)
#[export] Instance ref_cmap : ConcurrentMap := {|
  cmap V := gmap string V;
  cmap_New V := ∅;
  cmap_Get V m k := m !! k;
  cmap_Set V m k v := <[k := v]> m;
  cmap_Remove V m k := delete k m
|}.

#[export] Instance ref_cmap_laws : CmapLaws.
Proof.
  split; simpl; intros.
  - apply lookup_empty.
  - apply lookup_insert.
  - apply lookup_delete.
Qed.

(** ** Object ids: twenty-four hexadecimal digits *)
Definition is_hex (c : ascii) : bool :=
  let n := nat_of_ascii c in
  ((48 <=? n) && (n <=? 57) || (97 <=? n) && (n <=? 102) || (65 <=? n) && (n <=? 70))%nat.

Fixpoint all_hex (s : string) : bool :=
  match s with EmptyString => true | String a s' => is_hex a && all_hex s' end.

(** Ids are kept as their hexadecimal form, blanks removed. *)
Fixpoint only_hex (s : string) : string :=
  match s with
  | EmptyString => ""
  | String a s' => if is_hex a then String a (only_hex s') else only_hex s'
  end.

#[export] Instance ref_bson : Bson := {|
  IsObjectIdHex s := (String.length s =? 24)%nat && all_hex s;
  ObjectIdHex s := if (String.length s =? 24)%nat && all_hex s then Some s else None;
  Hex := only_hex
|}.

#[export] Instance ref_bson_laws : BsonLaws.
Proof.
  split; simpl.
  - intros s Hs. rewrite Hs. eauto.
  - intros o. induction o as [|a o IH]; simpl; [done|].
    destruct (is_hex a) eqn:E; [|done]. simpl. rewrite IH, orb_false_r.
    apply bool_decide_eq_false. intros ->. discriminate.
Qed.

(** ** A clock that advances by one second per call, fixed codecs *)
#[export] Instance ref_env : Env := {|
  UnixNano n := (1500000000 + Z.of_nat n) * 1000000000;
  rand_Rand n _ := "rand" +:+ fmt_d (Z.of_nat n);
  NewObjectId n := "0123456789abcdef0123456" +:+ String (ascii_of_nat (48 + n mod 10)) "";
  sha256_hex s := "sha256:" +:+ s;
  json_Marshal v := inr "{}";
  json_Unmarshal s := inl (NewError "unexpected end of JSON input")
|}%Z.

(** ** A document store

    A collection is a list of documents.  Queries compare fields for equality
    or with [$lt], [$gt], [$ne]; updates understand the operators the server
    sends.  Projections are ignored: the whole document is returned. *)
Fixpoint value_eqb (v w : value) {struct v} : bool :=
  match v, w with
  | VNil, VNil => true
  | VInt a, VInt b | VInt64 a, VInt64 b | VTime a, VTime b => Z.eqb a b
  | VStr a, VStr b | VOid a, VOid b | VOther a, VOther b => String.eqb a b
  | VArr l, VArr l' =>
      (fix go l l' := match l, l' with
                      | [], [] => true
                      | x :: l, y :: l' => value_eqb x y && go l l'
                      | _, _ => false
                      end) l l'
  | VDoc l, VDoc l' =>
      (fix go l l' := match l, l' with
                      | [], [] => true
                      | (k, x) :: l, (k', y) :: l' => String.eqb k k' && value_eqb x y && go l l'
                      | _, _ => false
                      end) l l'
  | _, _ => false
  end.

Fixpoint path_get (p : list string) (v : value) : option value :=
  match p, v with
  | [], _ => Some v
  | k :: p', VDoc fs => field k fs ≫= path_get p'
  | _, _ => None
  end.

Fixpoint field_set (k : string) (o : option value) (fs : list (string * value)) :=
  match fs with
  | [] => match o with Some v => [(k, v)] | None => [] end
  | (k', w) :: fs' =>
      if String.eqb k k'
      then match o with Some v => (k, v) :: fs' | None => fs' end
      else (k', w) :: field_set k o fs'
  end.

Fixpoint path_alter (f : option value → option value) (p : list string) (v : value) : value :=
  match p, v with
  | [k], VDoc fs => VDoc (field_set k (f (field k fs)) fs)
  | k :: p', VDoc fs =>
      VDoc (field_set k (Some (path_alter f p' (default (VDoc []) (field k fs)))) fs)
  | _, _ => v
  end.

Definition dots (s : string) : list string := Split "." s.

Definition match_cond (c : value) (o : option value) : bool :=
  match c, o with
  | VDoc [("$lt", VInt64 a)], Some (VInt64 b) => (b <? a)%Z
  | VDoc [("$gt", VInt64 a)], Some (VInt64 b) => (a <? b)%Z
  | VDoc [("$ne", w)], Some v => negb (value_eqb v w)
  | VDoc [("$ne", _)], None => true
  | _, Some v => value_eqb c v
  | _, None => false
  end.

Definition matches (q d : value) : bool :=
  match q with
  | VDoc fs => forallb (λ '(k, c), match_cond c (path_get (dots k) d)) fs
  | _ => false
  end.

Definition arr_of (o : option value) : list value :=
  match o with Some (VArr l) => l | _ => [] end.

Definition add_to_set (vs l : list value) : list value :=
  foldl (λ l v, if existsb (value_eqb v) l then l else l ++ [v]) l vs.

Definition update1 (op k : string) (v : value) (d : value) : value :=
  let alter f := path_alter f (dots k) d in
  if String.eqb op "$set" then alter (λ _, Some v)
  else if String.eqb op "$unset" then alter (λ _, None)
  else if String.eqb op "$push" then alter (λ o, Some (VArr (arr_of o ++ [v])))
  else if String.eqb op "$addToSet" then
    alter (λ o, Some (VArr (match v with
                            | VDoc [("$each", VArr vs)] => add_to_set vs (arr_of o)
                            | _ => add_to_set [v] (arr_of o)
                            end)))
  else if String.eqb op "$pull" then
    alter (λ o, Some (VArr (List.filter (λ w, negb (value_eqb v w)) (arr_of o))))
  else if String.eqb op "$pullAll" then
    alter (λ o, Some (VArr (List.filter (λ w, negb (existsb (value_eqb w) (arr_of (Some v))))
                              (arr_of o))))
  else d.

Definition update_doc (u d : value) : value :=
  match u with
  | VDoc ops =>
      foldl (λ d '(op, args), match args with
                              | VDoc kvs => foldl (λ d '(k, v), update1 op k v d) d kvs
                              | _ => d
                              end) d ops
  | _ => d
  end.

Definition store : Type := gmap string (list value).
Definition docs (s : store) (c : coll) : list value := default [] (s !! coll_name c).

Fixpoint update_first (q : value) (f : value → value) (l : list value) : option (list value) :=
  match l with
  | [] => None
  | d :: l' => if matches q d then Some (f d :: l') else cons d <$> update_first q f l'
  end.

Fixpoint remove_first (q : value) (l : list value) : option (list value) :=
  match l with
  | [] => None
  | d :: l' => if matches q d then Some l' else cons d <$> remove_first q l'
  end.

Definition mem_update (s : store) (c : coll) (q u : value) : store * option error :=
  match update_first q (update_doc u) (docs s c) with
  | Some l => (<[coll_name c := l]> s, None)
  | None => (s, Some ErrNotFound)
  end.

Definition mem_upsert (s : store) (c : coll) (q u : value) : store * option error :=
  match update_first q (update_doc u) (docs s c) with
  | Some l => (<[coll_name c := l]> s, None)
  | None => (<[coll_name c := docs s c ++ [update_doc u q]]> s, None)
  end.

Definition mem_insert1 (s : store) (c : coll) (d : value) : store * option error :=
  match path_get ["_id"] d with
  | Some i => if existsb (matches (VDoc [("_id", i)])) (docs s c)
              then (s, Some (LastError "duplicate key"))
              else (<[coll_name c := docs s c ++ [d]]> s, None)
  | None => (<[coll_name c := docs s c ++ [d]]> s, None)
  end.

Fixpoint mem_insert (s : store) (c : coll) (ds : list value) : store * option error :=
  match ds with
  | [] => (s, None)
  | d :: ds' => match mem_insert1 s c d with
                | (s', None) => mem_insert s' c ds'
                | r => r
                end
  end.

#[export] Instance ref_mongo : Mongo := {|
  db := store;
  mgo_one s c q _ :=
    (s, match List.find (matches q) (docs s c) with
        | Some d => inr d | None => inl ErrNotFound end);
  mgo_all s c q _ := (s, (List.filter (matches q) (docs s c), None));
  mgo_apply s c q u :=
    match List.find (matches q) (docs s c) with
    | Some d => ((mem_update s c q u).1, inr (update_doc u d))
    | None => (s, inl ErrNotFound)
    end;
  mgo_insert := mem_insert;
  mgo_update := mem_update;
  mgo_upsert := mem_upsert;
  mgo_remove s c q :=
    match remove_first q (docs s c) with
    | Some l => (<[coll_name c := l]> s, None)
    | None => (s, Some ErrNotFound)
    end;
  mgo_bulk_update s c ps :=
    (foldl (λ s '(q, u), (mem_update s c q u).1) s ps, None);
  mgo_bulk_upsert s c ps :=
    (foldl (λ s '(q, u), (mem_upsert s c q u).1) s ps, None)
|}.

#[export] Instance ref_externals : Externals := {|
  ext_mongo := ref_mongo; ext_bson := ref_bson; ext_env := ref_env;
  ext_lru := ref_lru; ext_cmap := ref_cmap; ext_set := ref_set
|}.
End Ref.
