(* ===== verification/Config.v ===== *)
(** * Configuration: package config

    [ConfigPushd.LoadConfig] (config/pushd.go), [ConfigMongo.LoadConfig]
    (config/mongo.go) and [ConfigRedis.LoadConfig] (config/redis.go) over an
    abstract jsconf document, and the three derived questions the server asks:
    [EnableStorage], [IsDistMode] and [GetS2sAddr]. *)
From Stdlib Require Import ZArith Lia.
From S2P Require Import Prelude GoStrings.

Local Open Scope string_scope.
Local Open Scope Z_scope.

(** ** github.com/nicholaskh/jsconf

    A getter returns the configured value or the default it is given.  A Go
    [[]string] that may be [nil] is an [option]. *)
Class JsConf : Type := {
  conf : Type;
  conf_String : conf → string → string → string;
  conf_Int : conf → string → Z → Z;
  conf_Duration : conf → string → Z → Z;
  conf_StringList : conf → string → option (list string) → option (list string);
  conf_Section : conf → string → error + conf
}.

Definition Second : Z := 1000000000.
Definition Minute : Z := 60 * Second.

Definition MSG_FLUSH_EVERY_TRX : Z := 0.
Definition MSG_FLUSH_EVERY_SECOND : Z := 1.
Definition S2S_PORT : Z := 2223.

Record ConfigRedis : Type := mkRedis {
  redis_Addr : string; redis_ConnTimeout : Z; redis_ReadTimeout : Z; redis_WriteTimeout : Z
}.

Record ConfigMongo : Type := mkMongo {
  mongo_Addr : string; mongo_Database : string; mongo_UserName : string;
  mongo_Password : string; mongo_ConnTimeout : Z; mongo_OperationTimeout : Z;
  mongo_SyncTimeout : Z
}.

Record ConfigPushd : Type := mkPushd {
  TcpListenAddr : string;
  SessionTimeout : Z;
  ServInitialGoroutineNum : Z;
  LongPollingListenAddr : string;
  LongPollingSessionTimeout : Z;
  StatsListenAddr : string;
  ProfListenAddr : string;
  S2sListenAddr : string;
  S2sSessionTimeout : Z;
  S2sIntialGoroutineNum : Z;
  S2sChannelPeersMaxItems : Z;
  EtcServers : option (list string);
  OffSenderPoolNum : Z;
  MsgQueueAddrs : option (list string);
  ChannelInfoCacheNum : Z;
  JpushAppKey : string;
  JpushSecretKey : string;
  MetricsLogfile : string;
  StatsOutputInterval : Z;
  PubsubChannelMaxItems : Z;
  MsgStorage : string;
  MaxStorageOutstandingMsg : Z;
  MsgFlushPolicy : Z;
  MsgStorageWriteBufferSize : Z;
  MaxCacheMsgsEveryChannel : Z;
  Redis : ConfigRedis;
  Mongo_ : ConfigMongo
}.

Definition EnableStorage (c : ConfigPushd) : bool := negb (String.eqb (MsgStorage c) "").
Definition IsDistMode (c : ConfigPushd) : bool :=
  match EtcServers c with Some _ => true | None => false end.

(** [strings.Split] never returns an empty slice, so [parts[0]] exists. *)
Definition GetS2sAddr (servAddr : string) : string :=
  let parts := Split ":" servAddr in
  let ip := default "" (head parts) in
  ip +:+ ":" +:+ fmt_d S2S_PORT.

(** [if len(l) == 0 { l = nil }] *)
Definition nil_if_empty (l : option (list string)) : option (list string) :=
  match l with Some [] => None | _ => l end.

Section load.
  Context `{JC : JsConf}.

Definition LoadRedis (cf : conf) : ConfigRedis :=
  mkRedis (conf_String cf "addr" ":6379")
    (conf_Duration cf "conn_timeout" (Second * 5))
    (conf_Duration cf "read_timeout" (Second * 5))
    (conf_Duration cf "write_timeout" (Second * 5)).

(** The fields of [new(ConfigRedis)] *)
Definition zeroRedis : ConfigRedis := mkRedis "" 0 0 0.

Definition LoadMongo {S} (cf : conf) : M S ConfigMongo :=
  let addr := conf_String cf "addr" ":27017" in
  let database := conf_String cf "database" "" in
  let username := conf_String cf "username" "" in
  let password := conf_String cf "password" "" in
  if String.eqb database "" then panic "database in pushd.conf is empty" else
  mret (mkMongo addr database username password
          (conf_Duration cf "conn_timeout" (Second * 5))
          (conf_Duration cf "operation_timeout" (Second * 5))
          (conf_Duration cf "sync_timeout" (Second * 5))).

Definition LoadConfig {S} (cf : conf) : M S ConfigPushd :=
  let tcp := conf_String cf "tcp_listen_addr" ":2222" in
  let sess := conf_Duration cf "session_timeout" (Minute * 2) in
  let serv := conf_Int cf "serv_initial_goroutine_num" 200 in
  let lp := conf_String cf "long_polling_listen_addr" "" in
  let lpt := if String.eqb lp "" then 0
             else conf_Duration cf "long_polling_session_timeout" Minute in
  let stats := conf_String cf "stats_listen_addr" ":9020" in
  let prof := conf_String cf "prof_listen_addr" ":9021" in
  let s2s := GetS2sAddr tcp in
  let s2st := conf_Duration cf "s2s_conn_timeout" (Minute * 2) in
  let s2sg := conf_Int cf "s2s_initial_goroutine_num" 8 in
  let s2sm := conf_Int cf "s2s_channel_peers_max_items" 200000 in
  let chinfo := conf_Int cf "channel_info_cache_num" 100000 in
  let etc := nil_if_empty (conf_StringList cf "etc_servers" None) in
  let mq := nil_if_empty (conf_StringList cf "message_queue_addrs" None) in
  let offn := conf_Int cf "offline_sender_pool_num" 1 in
  let mlog := conf_String cf "metrics_logfile" "metrics.log" in
  let sout := conf_Duration cf "stats_output_interval" (Minute * 10) in
  let pubsub := conf_Int cf "pubsub_channel_max_items" 200000 in
  let storage := conf_String cf "msg_storage" "" in
  '(outst, policy, wbuf, cachen) ←
    (if String.eqb storage "" then mret (0, 0, 0, 0) else
     let outst := conf_Int cf "max_storage_outstanding_msg" 100 in
     let policy := conf_Int cf "msg_storage_flush_policy" MSG_FLUSH_EVERY_TRX in
     if negb (policy =? MSG_FLUSH_EVERY_TRX) && negb (policy =? MSG_FLUSH_EVERY_SECOND)
     then panic "invalid msg flush policy"
     else mret (outst, policy, conf_Int cf "msg_storage_write_buffer_size" 10000,
                conf_Int cf "max_cache_msgs_every_channel" 3000) : M S (Z * Z * Z * Z));
  let jkey := conf_String cf "jpushAppKey" "" in
  if String.eqb jkey "" then panic "jpushAppkey not set" else
  let jsec := conf_String cf "jpushSecretKey" "" in
  if String.eqb jsec "" then panic "jpushSecretKey not set" else
  let redis := match conf_Section cf "redis" with
               | inr section => LoadRedis section
               | inl _ => zeroRedis
               end in
  match conf_Section cf "mongodb" with
  | inl _ => panic "Mongodb config not found"
  | inr section =>
      mongo ← LoadMongo section;
      mret (mkPushd tcp sess serv lp lpt stats prof s2s s2st s2sg s2sm etc offn mq chinfo
              jkey jsec mlog sout pubsub storage outst policy wbuf cachen redis mongo)
  end.

(** What a configuration file must contain. *)
Definition acceptable (cf : conf) : Prop :=
  (conf_String cf "msg_storage" "" ≠ "" →
   conf_Int cf "msg_storage_flush_policy" 0 = 0 ∨ conf_Int cf "msg_storage_flush_policy" 0 = 1)
  ∧ conf_String cf "jpushAppKey" "" ≠ "" ∧ conf_String cf "jpushSecretKey" "" ≠ ""
  ∧ ∃ section, conf_Section cf "mongodb" = inr section
               ∧ conf_String section "database" "" ≠ "".

(** What the rest of the server relies on in a loaded configuration. *)
Definition well_formed (c : ConfigPushd) : Prop :=
  S2sListenAddr c = GetS2sAddr (TcpListenAddr c)
  ∧ EtcServers c ≠ Some [] ∧ MsgQueueAddrs c ≠ Some []
  ∧ (EnableStorage c = true → MsgFlushPolicy c = MSG_FLUSH_EVERY_TRX
                              ∨ MsgFlushPolicy c = MSG_FLUSH_EVERY_SECOND)
  ∧ JpushAppKey c ≠ "" ∧ JpushSecretKey c ≠ "" ∧ mongo_Database (Mongo_ c) ≠ "".

(** ** Lemmas *)
Lemma nil_if_empty_ne l : nil_if_empty l ≠ Some [].
Proof. by destruct l as [[|]|]. Qed.

Lemma GetS2sAddr_host ip port :
  occurs ":" ip = false → GetS2sAddr (ip +:+ String ":" port) = ip +:+ ":2223".
Proof. intros H. unfold GetS2sAddr. by rewrite Split_app. Qed.

(** ** Properties *)

(** Loading either panics or yields a configuration on which the server's
    assumptions hold, and it succeeds exactly on the acceptable files: a known
    flush policy when storage is on, both push keys, and a mongodb section with
    a database name. *)
Theorem LoadConfig_spec {S} (cf : conf) (s : S) :
  match LoadConfig cf s with
  | (Ret c, s') => s' = s ∧ acceptable cf ∧ well_formed c
  | (Panic _, s') => s' = s ∧ ¬ acceptable cf
  | (Block, _) => False
  end.
Proof.
  unfold LoadConfig, LoadMongo, acceptable, well_formed, MSG_FLUSH_EVERY_TRX,
    MSG_FLUSH_EVERY_SECOND, EnableStorage.
  destruct (String.eqb_spec (conf_String cf "msg_storage" "") "") as [Es|Es];
    [|destruct (Z.eqb_spec (conf_Int cf "msg_storage_flush_policy" 0) 0) as [Ep|Ep];
      [|destruct (Z.eqb_spec (conf_Int cf "msg_storage_flush_policy" 0) 1) as [Ep'|Ep']]];
    mred; try (split; [done|]; intros (H & _); naive_solver);
    (destruct (String.eqb_spec (conf_String cf "jpushAppKey" "") "");
       [split; [done|]; naive_solver|]);
    (destruct (String.eqb_spec (conf_String cf "jpushSecretKey" "") "");
       [split; [done|]; naive_solver|]);
    (destruct (conf_Section cf "mongodb") as [e|sec]; [split; [done|]; naive_solver|]);
    (destruct (String.eqb_spec (conf_String sec "database" "") "");
       [split; [done|]; naive_solver|]); cbn;
    rewrite ?Es, ?Ep, ?Ep'; repeat split; auto using nil_if_empty_ne; try naive_solver.
Qed.

(** The server-to-server address depends on the host only: every listen
    address [host:port] of a machine maps to the same gateway [host:2223],
    and the map is idempotent. *)
Theorem GetS2sAddr_canonical (ip port : string) (H : occurs ":" ip = false) :
  GetS2sAddr (ip +:+ String ":" port) = ip +:+ ":2223"
  ∧ GetS2sAddr (GetS2sAddr (ip +:+ String ":" port)) = GetS2sAddr (ip +:+ String ":" port).
Proof.
  rewrite (GetS2sAddr_host _ _ H). split; [done|]. by rewrite (GetS2sAddr_host ip "2223" H).
Qed.
End load.

Lemma GetS2sAddr_canonical_witness :
  GetS2sAddr "10.0.0.7:2222" = "10.0.0.7:2223"
  ∧ GetS2sAddr (GetS2sAddr "10.0.0.7:2222") = GetS2sAddr "10.0.0.7:2222".
Proof. apply (GetS2sAddr_canonical "10.0.0.7" "2222"). vm_compute. reflexivity. Defined.

(** A configuration the witnesses of the library run with: storage in MongoDB
    with the given flush policy, [etc_servers] as given. *)
Definition example_config (policy : Z) (etc : option (list string)) : ConfigPushd :=
  mkPushd "10.0.0.7:2222" (2 * Minute) 200 "" 0 ":9020" ":9021" "10.0.0.7:2223" (2 * Minute) 8
    200000 etc 2 (Some ["127.0.0.1:9092"]) 1000 "app" "secret" "metrics.log" (10 * Minute)
    200000 "mongodb" 100 policy 10000 3000 (mkRedis "" 0 0 0)
    (mkMongo ":27017" "pushd" "" "" (5 * Second) (5 * Second) (5 * Second)).
