(* ===== verification/Flags.v ===== *)
(** * Command-line flags (daemon/pushd/option.go, cmd/pushd-cli/option.go,
      daemon/benchmark/option.go)

    The three programs declare their flags with Go's package flag and call
    [flag.Parse].  Here is what that package does with a command line, as far as
    the programs use it: strings, booleans, integers and durations, and a bad
    command line that ends the process.  The versions are those of Go 1.4
    (.travis.yml): no underscores and no binary or "0o" integers.  A
    duration is read with floating-point arithmetic by package time, so
    [ParseDuration] is a parameter. *)
From Stdlib Require Import DecimalFacts DecimalPos DecimalString.
From S2P Require Import Prelude GoStrings.

Local Open Scope string_scope.
Local Open Scope list_scope.
Local Open Scope Z_scope.

(** ** Values *)
Class DurationText : Type := { ParseDuration : string → option Z }.

Definition digit_value (c : ascii) : option Z :=
  let n := Z.of_nat (nat_of_ascii c) in
  if (48 <=? n) && (n <=? 57) then Some (n - 48)
  else if (97 <=? n) && (n <=? 122) then Some (n - 97 + 10)
  else if (65 <=? n) && (n <=? 90) then Some (n - 65 + 10)
  else None.

Fixpoint digits_in (base acc : Z) (s : string) : option Z :=
  match s with
  | EmptyString => Some acc
  | String c s' =>
      d ← digit_value c;
      if d <? base then digits_in base (acc * base + d) s' else None
  end.

(** The base is in the prefix: "0x" is hexadecimal, "0" octal. *)
Definition ParseUint0 (s : string) : option Z :=
  match s with
  | EmptyString => None
  | String "0" (String a s') =>
      if Ascii.eqb a "x" || Ascii.eqb a "X" then
        match s' with EmptyString => None | _ => digits_in 16 0 s' end
      else digits_in 8 0 s
  | String "0" EmptyString => digits_in 8 0 s
  | _ => digits_in 10 0 s
  end.

Definition parse_signed0 (s : string) : option Z :=
  match s with
  | String "-" s' => Z.opp <$> ParseUint0 s'
  | String "+" s' => ParseUint0 s'
  | _ => ParseUint0 s
  end.

(** [strconv.ParseInt(s, 0, 64)] *)
Definition ParseInt0 (s : string) : option Z :=
  z ← parse_signed0 s; if is_int64 z then Some z else None.

(** [strconv.ParseBool] *)
Definition ParseBool (s : string) : option bool :=
  if bool_decide (s ∈ ["1"; "t"; "T"; "true"; "TRUE"; "True"]) then Some true
  else if bool_decide (s ∈ ["0"; "f"; "F"; "false"; "FALSE"; "False"]) then Some false
  else None.

Inductive fvalue : Type := FStr (s : string) | FBool (b : bool) | FInt (z : Z) | FDur (ns : Z).
Inductive fkind : Type := KStr | KBool | KInt | KDur.
#[global] Instance fkind_eq_dec : EqDecision fkind.
Proof. solve_decision. Defined.

Definition kind (v : fvalue) : fkind :=
  match v with FStr _ => KStr | FBool _ => KBool | FInt _ => KInt | FDur _ => KDur end.

(** The declared flags with their values: [StringVar] and the like put a flag
    there with its default. *)
Abbreviation FlagSet := (gmap string fvalue).

(** ** flag.Parse *)
Inductive failure : Type :=
| BadSyntax (s : string) | NotDefined (name : string) | Help
| NeedsArgument (name : string) | InvalidValue (name value : string).

Inductive parsed : Type := Parsed (fs : FlagSet) (args : list string) | Failed (e : failure).

(** What an argument is: the flag is what follows one dash or two, up to "=". *)
Inductive argument : Type :=
| NonFlag | Terminator | Malformed | Flag (name : string) (value : option string).

Definition named (name : string) : argument :=
  match name with
  | EmptyString => Malformed
  | String a _ =>
      if Ascii.eqb a "-" || Ascii.eqb a "=" then Malformed
      else match cut "=" name with
           | Some (n, v) => Flag n (Some v)
           | None => Flag name None
           end
  end.

Definition classify (s : string) : argument :=
  match s with
  | String "-" (String "-" EmptyString) => Terminator
  | String "-" (String "-" name) => named name
  | String "-" (String a s') => named (String a s')
  | _ => NonFlag
  end.

Section flags.
  Context {DT : DurationText}.

(** [Value.Set] *)
Definition Set_ (k : fkind) (s : string) : option fvalue :=
  match k with
  | KStr => Some (FStr s)
  | KBool => FBool <$> ParseBool s
  | KInt => FInt <$> ParseInt0 s
  | KDur => FDur <$> ParseDuration s
  end.

Fixpoint Parse (fs : FlagSet) (args : list string) : parsed :=
  match args with
  | [] => Parsed fs []
  | s :: rest =>
      match classify s with
      | NonFlag => Parsed fs args
      | Terminator => Parsed fs rest
      | Malformed => Failed (BadSyntax s)
      | Flag name value =>
          match fs !! name with
          | None =>
              Failed (if bool_decide (name ∈ ["help"; "h"]) then Help else NotDefined name)
          | Some fv =>
              let value := match value, kind fv with None, KBool => Some "true" | _, _ => value end in
              match value, rest with
              | Some v, _ =>
                  match Set_ (kind fv) v with
                  | Some fv' => Parse (<[name := fv']> fs) rest
                  | None => Failed (InvalidValue name v)
                  end
              | None, v :: rest' =>
                  match Set_ (kind fv) v with
                  | Some fv' => Parse (<[name := fv']> fs) rest'
                  | None => Failed (InvalidValue name v)
                  end
              | None, [] => Failed (NeedsArgument name)
              end
          end
      end
  end.

(** ** The command lines *)

(** One setting on a command line. *)
Inductive form : Type := Bare | Equals | NextArg.
Record setting : Type := mkSetting {
  s_double : bool; s_name : string; s_form : form; s_text : string
}.

Definition dashes (b : bool) : string := if b then "--" else "-".
Definition spell (a : setting) : list string :=
  let flag := dashes (s_double a) +:+ s_name a in
  match s_form a with
  | Bare => [flag]
  | Equals => [flag +:+ "=" +:+ s_text a]
  | NextArg => [flag; s_text a]
  end.

(** A bare boolean flag is true; only the others take the next argument. *)
Definition form_ok (f : form) (k : fkind) (text : string) : bool :=
  match f, k with
  | Bare, KBool => String.eqb text "true"
  | Bare, _ => false
  | Equals, _ => true
  | NextArg, KBool => false
  | NextArg, _ => true
  end.

Definition apply_setting (fs : FlagSet) (a : setting) : option FlagSet :=
  fv ← fs !! s_name a;
  if form_ok (s_form a) (kind fv) (s_text a) then
    fv' ← Set_ (kind fv) (s_text a); Some (<[s_name a := fv']> fs)
  else None.

Fixpoint apply_all (fs : FlagSet) (l : list setting) : option FlagSet :=
  match l with
  | [] => Some fs
  | a :: l' => fs' ← apply_setting fs a; apply_all fs' l'
  end.

(** A name a flag can be called by. *)
Definition callable (name : string) : bool :=
  match name with
  | EmptyString => false
  | String a _ => negb (Ascii.eqb a "-") && negb (occurs "=" name)
  end.

(** What ends the flags: "--", which is dropped, or an argument that is none. *)
Definition flags_end (sep rest : list string) : Prop :=
  sep = ["--"] ∨ sep = [] ∧ match rest with [] => True | s :: _ => classify s = NonFlag end.

(** ** Lemmas: one argument *)
Lemma callable_cons name :
  callable name = true → ∃ a s, name = String a s ∧ a ≠ "-"%char ∧ a ≠ "="%char ∧ occurs "=" name = false.
Proof.
  destruct name as [|a s]; [done|]. unfold callable. rewrite andb_true_iff, !negb_true_iff.
  intros [Ha%Ascii.eqb_neq Ho]. exists a, s. split_and!; try done. intros ->. discriminate Ho.
Qed.

Lemma classify_single a s : a ≠ "-"%char → classify (String "-" (String a s)) = named (String a s).
Proof. intros Ha. simpl. destruct a as [[] [] [] [] [] [] [] []]; done. Qed.

Lemma classify_double a s :
  classify (String "-" (String "-" (String a s))) = named (String a s).
Proof. reflexivity. Qed.

Lemma classify_dashes b a s :
  a ≠ "-"%char → classify (dashes b +:+ String a s) = named (String a s).
Proof. intros Ha. destruct b; [done|]. by apply classify_single. Qed.

Lemma named_callable name : callable name = true → named name = Flag name None.
Proof.
  intros (a & s & -> & Ha & He & Ho)%callable_cons. unfold named.
  apply Ascii.eqb_neq in Ha, He. rewrite Ha, He. simpl orb. by rewrite cut_noocc.
Qed.

Lemma named_equals name t :
  callable name = true → named (name +:+ "=" +:+ t) = Flag name (Some t).
Proof.
  intros (a & s & -> & Ha & He & Ho)%callable_cons. unfold named.
  change (String a s +:+ "=" +:+ t) with (String a (s +:+ String "=" t)).
  apply Ascii.eqb_neq in Ha, He. cbv iota. rewrite Ha, He. simpl orb. cbv iota.
  change (String a (s +:+ String "=" t)) with (String a s +:+ String "=" t). by rewrite cut_app.
Qed.

Definition value_text (v : option string) : string :=
  match v with Some t => "=" +:+ t | None => "" end.

Lemma named_inv s name v :
  named s = Flag name v → callable name = true ∧ s = name +:+ value_text v.
Proof.
  destruct s as [|a s]; [done|]. unfold named.
  destruct (Ascii.eqb_spec a "-") as [|Ha]; [done|]. destruct (Ascii.eqb_spec a "=") as [|He]; [done|].
  simpl orb. destruct (cut "=" (String a s)) as [[n t]|] eqn:E; intros [= <- <-].
  - apply cut_Some in E as [Hs Ho]. split; [|exact Hs]. destruct n as [|a' n].
    + by injection Hs as ->.
    + injection Hs as <- _. unfold callable. rewrite Ho. by apply Ascii.eqb_neq in Ha as ->.
  - assert (occurs "=" (String a s) = false) as Ho.
    { destruct (occurs "=" (String a s)) eqn:Ho; [|done]. clear -E Ho. exfalso. revert E Ho.
      generalize (String a s) as t. induction t as [|b t IH]; simpl; [done|].
      case_decide as Hb; [done|]. rewrite (bool_decide_eq_false_2 _ Hb). simpl.
      destruct (cut "=" t) as [[? ?]|]; [done|]. auto. }
    unfold callable. rewrite Ho, string_app_nil_r. by apply Ascii.eqb_neq in Ha as ->.
Qed.

Lemma classify_flag s name v :
  classify s = Flag name v → callable name = true ∧ ∃ b, s = dashes b +:+ name +:+ value_text v.
Proof.
  destruct s as [|a s]; [done|]. destruct (ascii_dec a "-") as [->|Ha].
  2: { simpl. destruct a as [[] [] [] [] [] [] [] []]; done. }
  destruct s as [|a s]; [done|]. destruct (ascii_dec a "-") as [->|Ha].
  - destruct s as [|a s]; [done|]. rewrite classify_double. intros [Hc ->]%named_inv. split; [done|]. by exists true.
  - rewrite classify_single by done. intros [Hc ->]%named_inv. split; [done|]. by exists false.
Qed.

Lemma classify_terminator s : classify s = Terminator → s = "--".
Proof.
  assert (∀ t, named t ≠ Terminator) as Hn.
  { intros [|a t]; [done|]. unfold named. destruct (_ || _); [done|]. by destruct (cut _ _) as [[? ?]|]. }
  destruct s as [|a s]; [done|]. destruct (ascii_dec a "-") as [->|Ha].
  2: { simpl. destruct a as [[] [] [] [] [] [] [] []]; done. }
  destruct s as [|a s]; [done|]. destruct (ascii_dec a "-") as [->|Ha].
  - destruct s as [|a s]; [done|]. rewrite classify_double. by intros ?%Hn.
  - rewrite classify_single by done. by intros ?%Hn.
Qed.

(** The argument of a setting. *)
Lemma classify_spell a :
  callable (s_name a) = true →
  ∃ s, head (spell a) = Some s
    ∧ classify s = Flag (s_name a) (match s_form a with Equals => Some (s_text a) | _ => None end).
Proof.
  intros Hc. destruct (callable_cons _ Hc) as (x & t & Hn & Hx & _ & _).
  assert (∀ u, classify (dashes (s_double a) +:+ s_name a +:+ u) = named (s_name a +:+ u)) as Hd.
  { intros u. rewrite Hn. by apply (classify_dashes _ x (t +:+ u)). }
  destruct a as [b name f text]. unfold spell. simpl in *.
  destruct f; (eexists; split; [reflexivity|]).
  - rewrite <- (string_app_nil_r name) at 1. rewrite Hd, string_app_nil_r. by apply named_callable.
  - rewrite string_app_assoc, Hd. by apply named_equals.
  - rewrite <- (string_app_nil_r name) at 1. rewrite Hd, string_app_nil_r. by apply named_callable.
Qed.

(** ** Lemmas: the whole line *)
Lemma Parse_setting fs fs' a rest :
  callable (s_name a) = true → apply_setting fs a = Some fs' →
  Parse fs (spell a ++ rest) = Parse fs' rest.
Proof.
  intros Hc. destruct (classify_spell a Hc) as (s & Hs & Hk). unfold apply_setting.
  destruct (fs !! s_name a) as [fv|] eqn:Hfv; [|done]. cbn [mbind option_bind].
  destruct (form_ok _ _ _) eqn:Hf; [|done].
  destruct (Set_ (kind fv) (s_text a)) as [fv'|] eqn:Hset; [|done]. intros [= <-].
  destruct a as [b name f text]. unfold spell in *. simpl in *.
  destruct f; injection Hs as Hs; rewrite <- Hs in Hk; simpl; rewrite Hk, Hfv.
  - destruct (kind fv); try done. apply String.eqb_eq in Hf as ->. by rewrite Hset.
  - by rewrite Hset.
  - destruct (kind fv) eqn:Ek; try done; by rewrite Hset.
Qed.

Lemma Parse_end fs sep rest : flags_end sep rest → Parse fs (sep ++ rest) = Parsed fs rest.
Proof.
  intros [->|[-> He]]; [done|]. destruct rest as [|s rest]; [done|]. simpl. by rewrite He.
Qed.

Lemma Parse_complete fs fs' l sep rest :
  Forall (λ a, callable (s_name a) = true) l → apply_all fs l = Some fs' → flags_end sep rest →
  Parse fs (concat (spell <$> l) ++ sep ++ rest) = Parsed fs' rest.
Proof.
  intros Hl. revert fs. induction Hl as [|a l Ha _ IH]; intros fs.
  - intros [= <-] He. exact (Parse_end fs sep rest He).
  - cbn [apply_all]. destruct (apply_setting fs a) as [fs1|] eqn:E; [|done]. cbn [mbind option_bind].
    intros H He. csimpl. rewrite <- app_assoc, (Parse_setting fs fs1) by done. by apply IH.
Qed.

Lemma Parse_sound fs fs' args rest :
  Parse fs args = Parsed fs' rest →
  ∃ l sep, args = concat (spell <$> l) ++ sep ++ rest ∧ Forall (λ a, callable (s_name a) = true) l
    ∧ apply_all fs l = Some fs' ∧ flags_end sep rest.
Proof.
  remember (length args) as n eqn:Hn. assert (length args ≤ n)%nat as Hlen by lia. clear Hn.
  revert fs args Hlen. induction n as [|n IH]; intros fs args Hlen Hp.
  { destruct args; [|simpl in Hlen; lia]. injection Hp as <- <-.
    exists [], []. split_and!; try done. right. done. }
  destruct args as [|s args].
  { injection Hp as <- <-. exists [], []. split_and!; try done. right. done. }
  simpl in Hlen. cbn [Parse] in Hp. destruct (classify s) as [| | |name value] eqn:Hk.
  - injection Hp as <- <-. exists [], []. split_and!; try done. right. by rewrite Hk.
  - injection Hp as <- <-. apply classify_terminator in Hk as ->.
    exists [], ["--"]. split_and!; try done. by left.
  - done.
  - apply classify_flag in Hk as [Hc [b ->]].
    destruct (fs !! name) as [fv|] eqn:Hfv; [|done].
    assert (∀ f text args', form_ok f (kind fv) text = true →
      (dashes b +:+ name +:+ value_text value) :: args = spell (mkSetting b name f text) ++ args' →
      match Set_ (kind fv) text with
      | Some fv' => Parse (<[name := fv']> fs) args' = Parsed fs' rest
      | None => False
      end → (length args' ≤ n)%nat →
      ∃ l sep, (dashes b +:+ name +:+ value_text value) :: args = concat (spell <$> l) ++ sep ++ rest
        ∧ Forall (λ a, callable (s_name a) = true) l ∧ apply_all fs l = Some fs' ∧ flags_end sep rest) as Hgo.
    { intros f text args' Hf Hargs Hset Hle. destruct (Set_ (kind fv) text) as [fv'|] eqn:Es; [|done].
      destruct (IH _ _ Hle Hset) as (l & sep & -> & Hl & Ha & He).
      exists (mkSetting b name f text :: l), sep. rewrite Hargs. csimpl. rewrite <- app_assoc.
      split_and!; [done|by constructor| |done]. cbn [apply_all]. unfold apply_setting. simpl.
      rewrite Hfv. simpl. rewrite Hf, Es. done. }
    destruct value as [t|].
    + apply (Hgo Equals t args); [by destruct (kind fv)|unfold spell; simpl; by rewrite string_app_assoc| |lia].
      destruct (kind fv); by destruct (Set_ _ t).
    + assert (dashes b +:+ name +:+ value_text None = dashes b +:+ name) as Hd
        by (unfold value_text; by rewrite string_app_nil_r).
      destruct (decide (kind fv = KBool)) as [Ek|Ek].
      * apply (Hgo Bare "true" args); [by rewrite Ek|by rewrite Hd| |lia].
        rewrite Ek in Hp |- *. exact Hp.
      * destruct args as [|v args]; [by destruct (kind fv)|].
        apply (Hgo NextArg v args); [by destruct (kind fv)|by rewrite Hd| |simpl in Hlen; lia].
        destruct (kind fv); try done; by destruct (Set_ _ v).
Qed.

(** ** What the settings leave behind *)
Definition admissible (fs : FlagSet) (a : setting) : Prop :=
  ∃ fv, fs !! s_name a = Some fv ∧ form_ok (s_form a) (kind fv) (s_text a) = true
        ∧ is_Some (Set_ (kind fv) (s_text a)).

(** The last setting of a flag counts. *)
Fixpoint last_text (l : list setting) (name : string) : option string :=
  match l with
  | [] => None
  | a :: l' =>
      match last_text l' name with
      | Some t => Some t
      | None => if decide (s_name a = name) then Some (s_text a) else None
      end
  end.

Definition value_after (fs : FlagSet) (l : list setting) (name : string) : option fvalue :=
  fv ← fs !! name;
  match last_text l name with Some t => Set_ (kind fv) t | None => Some fv end.

Lemma Set_kind k t fv : Set_ k t = Some fv → kind fv = k.
Proof. destruct k; simpl; intros H; [by injection H as <-|..]; by apply fmap_Some in H as (? & _ & ->). Qed.

(** Values may change under a flag set, kinds do not. *)
Abbreviation kinds fs := (kind <$> (fs : FlagSet)).

Lemma apply_setting_kinds fs a fs' : apply_setting fs a = Some fs' → kinds fs' = kinds fs.
Proof.
  unfold apply_setting. destruct (fs !! s_name a) as [fv|] eqn:Hfv; [|done]. cbn [mbind option_bind].
  destruct (form_ok _ _ _); [|done]. destruct (Set_ _ _) as [fv'|] eqn:Hs; [|done]. intros [= <-].
  apply Set_kind in Hs. rewrite fmap_insert, Hs. apply insert_id. by rewrite lookup_fmap, Hfv.
Qed.

Lemma admissible_kinds fs fs' a : kinds fs = kinds fs' → admissible fs a → admissible fs' a.
Proof.
  intros Hk (fv & Hfv & H). assert (kinds fs' !! s_name a = Some (kind fv)) as Hk'
    by (rewrite <- Hk, lookup_fmap, Hfv; done).
  rewrite lookup_fmap in Hk'. apply fmap_Some in Hk' as (fv' & Hfv' & E). exists fv'. by rewrite <- E.
Qed.

Lemma apply_setting_admissible fs a : is_Some (apply_setting fs a) ↔ admissible fs a.
Proof.
  unfold apply_setting, admissible. split.
  - intros [fs' H]. destruct (fs !! s_name a) as [fv|]; [|done]. exists fv. cbn [mbind option_bind] in H.
    destruct (form_ok _ _ _); [|done]. destruct (Set_ _ _) as [fv'|]; [|done]. split_and!; by eauto.
  - intros (fv & -> & Hf & fv' & Hs). cbn [mbind option_bind]. rewrite Hf, Hs. by eexists.
Qed.

Lemma apply_setting_lookup fs a fs' name :
  apply_setting fs a = Some fs' →
  fs' !! name = if decide (s_name a = name) then fv ← fs !! name; Set_ (kind fv) (s_text a)
                else fs !! name.
Proof.
  unfold apply_setting. destruct (fs !! s_name a) as [fv|] eqn:Hfv; [|done]. cbn [mbind option_bind].
  destruct (form_ok _ _ _); [|done]. destruct (Set_ _ _) as [fv'|] eqn:Hs; [|done]. intros [= <-].
  case_decide as E; [subst; by rewrite lookup_insert_eq, Hfv|by rewrite lookup_insert_ne].
Qed.

Lemma value_after_cons fs fs' a l name :
  apply_setting fs a = Some fs' → value_after fs' l name = value_after fs (a :: l) name.
Proof.
  intros Ha. pose proof (apply_setting_kinds _ _ _ Ha) as Hk.
  pose proof (apply_setting_lookup _ _ _ name Ha) as Hn. unfold value_after. cbn [last_text].
  assert (kinds fs' !! name = kinds fs !! name) as Hkn by by rewrite Hk.
  rewrite !lookup_fmap in Hkn. destruct (last_text l name) as [t|].
  - destruct (fs' !! name), (fs !! name); simpl in Hkn; try done. injection Hkn as Hkn. simpl.
    by rewrite Hkn.
  - rewrite Hn. case_decide; [|done]. destruct (fs !! name) as [fv|]; [|done]. simpl.
    by destruct (Set_ _ _).
Qed.

Lemma apply_all_spec fs l fs' :
  apply_all fs l = Some fs' ↔ Forall (admissible fs) l ∧ ∀ name, fs' !! name = value_after fs l name.
Proof.
  revert fs. induction l as [|a l IH]; intros fs; cbn [apply_all].
  { split.
    - intros [= <-]. split; [done|]. intros name. unfold value_after. simpl. by destruct (fs !! name).
    - intros [_ H]. f_equal. apply map_eq. intros name. rewrite H. unfold value_after. simpl.
      by destruct (fs !! name). }
  rewrite Forall_cons, <- apply_setting_admissible.
  destruct (apply_setting fs a) as [fs1|] eqn:E; cbn [mbind option_bind].
  - rewrite IH. pose proof (apply_setting_kinds _ _ _ E) as Hk.
    assert (Forall (admissible fs1) l ↔ Forall (admissible fs) l) as ->.
    { split; intros H; (eapply Forall_impl; [exact H|]); intros x; by apply admissible_kinds. }
    setoid_rewrite (value_after_cons fs fs1 a l _ E). split; [intros [? ?]|intros [[_ ?] ?]]; auto.
  - split; [done|]. intros [[[? ?] _] _]. done.
Qed.

(** A command line is accepted exactly when it is a list of settings, each of a
    declared flag and with a text of its kind, followed by the end of the flags;
    every flag then has the value its last setting gave it, or its default. *)
Theorem Parse_spec (fs fs' : FlagSet) (args rest : list string) :
  Parse fs args = Parsed fs' rest ↔
  ∃ l sep, args = concat (spell <$> l) ++ sep ++ rest ∧ flags_end sep rest
    ∧ Forall (λ a, callable (s_name a) = true ∧ admissible fs a) l
    ∧ ∀ name, fs' !! name = value_after fs l name.
Proof.
  split.
  - intros (l & sep & -> & Hc & [Ha Hv]%apply_all_spec & He)%Parse_sound.
    exists l, sep. rewrite Forall_and. auto.
  - intros (l & sep & -> & He & [Hc Ha]%Forall_and & Hv). apply Parse_complete; [done| |done].
    by apply apply_all_spec.
Qed.
End flags.

(** ** Reading the values back *)
Definition str_flag (fs : FlagSet) (name : string) : string :=
  match fs !! name with Some (FStr s) => s | _ => "" end.
Definition bool_flag (fs : FlagSet) (name : string) : bool :=
  match fs !! name with Some (FBool b) => b | _ => false end.
Definition int_flag (fs : FlagSet) (name : string) : Z :=
  match fs !! name with Some (FInt z) => z | _ => 0 end.
Definition dur_flag (fs : FlagSet) (name : string) : Z :=
  match fs !! name with Some (FDur z) => z | _ => 0 end.

(** How a program comes out of its flags: it runs, or it has ended.  A bad
    command line ends it with status 2 ([flag.ExitOnError]). *)
Inductive startup (A : Type) : Type :=
| Started (a : A)
| Exited (code : Z)
| Crashed (msg : string).
Arguments Started {A} a.
Arguments Exited {A} code.
Arguments Crashed {A} msg.

Definition flag_Parse {DT : DurationText} {A} (fs : FlagSet) (args : list string)
    (k : FlagSet → startup A) : startup A :=
  match Parse fs args with
  | Parsed fs' _ => k fs'
  | Failed _ => Exited 2
  end.

Definition text_of (l : list setting) (name d : string) : string := default d (last_text l name).

Section values.
  Context {DT : DurationText}.

Lemma last_text_in l name t :
  last_text l name = Some t → ∃ a, a ∈ l ∧ s_name a = name ∧ s_text a = t.
Proof.
  induction l as [|a l IH]; [done|]. cbn [last_text]. destruct (last_text l name) as [t'|].
  - intros [= ->]. destruct (IH eq_refl) as (b & ? & ?). exists b. split; [by right|done].
  - case_decide; [|done]. intros [= <-]. exists a. split; [by left|done].
Qed.

(** A declared flag keeps its kind. *)
Lemma value_after_typed fs l name fv :
  fs !! name = Some fv → Forall (admissible fs) l →
  ∃ fv', value_after fs l name = Some fv'
    ∧ match last_text l name with
      | Some t => Set_ (kind fv) t = Some fv'
      | None => fv' = fv
      end.
Proof.
  intros Hfv Hl. unfold value_after. rewrite Hfv. cbn [mbind option_bind].
  destruct (last_text l name) as [t|] eqn:E; [|by exists fv].
  destruct (last_text_in _ _ _ E) as (a & Ha & Hn & Ht).
  rewrite Forall_forall in Hl. destruct (Hl a Ha) as (fv0 & Hfv0 & _ & fv' & Hs).
  rewrite Hn, Hfv in Hfv0. injection Hfv0 as <-. rewrite Ht in Hs. by exists fv'.
Qed.

Section after.
  Context (fs fs' : FlagSet) (l : list setting).
  Context (Hl : Forall (admissible fs) l) (Hfs : ∀ name, fs' !! name = value_after fs l name).

Ltac read_flag Hn :=
  destruct (value_after_typed fs l _ _ Hn Hl) as (fv' & Hv & Ht); rewrite <- Hfs in Hv;
  unfold text_of; destruct (last_text l _) as [t|]; simpl in Ht |- *; rewrite ?Hv;
  [|by subst fv'].

Lemma str_after name d : fs !! name = Some (FStr d) → str_flag fs' name = text_of l name d.
Proof. intros Hn. unfold str_flag. read_flag Hn. by injection Ht as <-. Qed.

Lemma bool_after name d b :
  fs !! name = Some (FBool b) → ParseBool d = Some b →
  ParseBool (text_of l name d) = Some (bool_flag fs' name).
Proof. intros Hn Hd. unfold bool_flag. read_flag Hn. by apply fmap_Some in Ht as (? & ? & ->). Qed.

Lemma int_after name d z :
  fs !! name = Some (FInt z) → ParseInt0 d = Some z →
  ParseInt0 (text_of l name d) = Some (int_flag fs' name).
Proof. intros Hn Hd. unfold int_flag. read_flag Hn. by apply fmap_Some in Ht as (? & ? & ->). Qed.

Lemma dur_after name z :
  fs !! name = Some (FDur z) →
  match last_text l name with
  | Some t => ParseDuration t = Some (dur_flag fs' name)
  | None => dur_flag fs' name = z
  end.
Proof. intros Hn. unfold dur_flag. read_flag Hn. by apply fmap_Some in Ht as (? & ? & ->). Qed.
End after.

(** The settings of a command line, and what ends it. *)
Definition settings (fs : FlagSet) (args : list string) (l : list setting) : Prop :=
  Forall (λ a, callable (s_name a) = true ∧ admissible fs a) l
  ∧ ∃ sep rest, args = concat (spell <$> l) ++ sep ++ rest ∧ flags_end sep rest.

Lemma apply_all_admissible fs l : Forall (admissible fs) l → is_Some (apply_all fs l).
Proof.
  revert fs. induction l as [|a l IH]; intros fs; [by eexists|].
  rewrite Forall_cons, <- apply_setting_admissible. intros [[fs1 E] Hl]. cbn [apply_all]. rewrite E.
  apply IH. eapply Forall_impl; [exact Hl|]. intros x. apply admissible_kinds.
  symmetry. by eapply apply_setting_kinds.
Qed.

(** How a program gets past its flags. *)
Lemma flag_Parse_spec {A} fs args (k : FlagSet → startup A) a :
  flag_Parse fs args k = Started a ↔
  ∃ l fs', settings fs args l ∧ (∀ name, fs' !! name = value_after fs l name) ∧ k fs' = Started a.
Proof.
  unfold flag_Parse. split.
  - destruct (Parse fs args) as [fs' rest|] eqn:E; [|done]. intros Hk.
    apply Parse_spec in E as (l & sep & -> & He & Hl & Hv). exists l, fs'.
    split; [|done]. split; [done|]. by exists sep, rest.
  - intros (l & fs' & (Hl & sep & rest & -> & He) & Hv & Hk).
    assert (Parse fs (concat (spell <$> l) ++ sep ++ rest) = Parsed fs' rest) as ->; [|done].
    apply Parse_spec. by exists l, sep.
Qed.

(** A program's options are read off the flags its settings leave. *)
Lemma settings_flags fs args l :
  settings fs args l →
  Forall (admissible fs) l ∧ ∃ fs' : FlagSet, ∀ name, fs' !! name = value_after fs l name.
Proof.
  intros ([_ Hl]%Forall_and & _). split; [done|].
  destruct (apply_all_admissible fs l Hl) as [fs' H]. exists fs'. by apply apply_all_spec in H as [_ H].
Qed.
End values.

(** ** Numbers *)
Lemma digits_in_cons acc c d s :
  digit_value c = Some d → d < 10 → digits_in 10 acc (String c s) = digits_in 10 (acc * 10 + d) s.
Proof. intros Hd Hlt. cbn [digits_in]. rewrite Hd. cbn [mbind option_bind]. destruct (Z.ltb_spec d 10); [done|lia]. Qed.

Lemma digits_in_uint p u :
  digits_in 10 (Z.pos p) (NilEmpty.string_of_uint u) = Some (Z.pos (Pos.of_uint_acc u p)).
Proof.
  revert p. induction u; intros p; [done|..]; cbn [Pos.of_uint_acc NilEmpty.string_of_uint];
    rewrite <- IHu; (erewrite digits_in_cons; [|vm_compute; reflexivity|done]); f_equal; lia.
Qed.

Lemma to_uint_no_zero p u : Pos.to_uint p ≠ Decimal.D0 u.
Proof.
  intros H. pose proof (Unsigned.to_of (Decimal.D0 u)) as Ht.
  assert (N.pos p = Pos.of_uint (Decimal.D0 u)) as Hp by (rewrite <- H; symmetry; apply Unsigned.of_to).
  rewrite <- Hp in Ht. simpl in Ht. rewrite H in Ht. unfold Decimal.unorm in Ht.
  destruct (Decimal.nzhead (Decimal.D0 u)) eqn:E; try done.
  - injection Ht as ->. discriminate Hp.
  - by apply nzhead_nonzero in E.
Qed.

Lemma ParseUint0_pos p : ParseUint0 (NilZero.string_of_uint (Pos.to_uint p)) = Some (Z.pos p).
Proof.
  pose proof (Unsigned.of_to p) as Hof.
  pose proof (to_uint_nonnil p) as Hnil. pose proof (to_uint_no_zero p) as Hz.
  destruct (Pos.to_uint p) as [|u|u|u|u|u|u|u|u|u|u] eqn:E; [done|by destruct (Hz u)|..];
    cbn [NilZero.string_of_uint NilEmpty.string_of_uint ParseUint0 digits_in digit_value mbind option_bind];
    simpl in Hof; injection Hof as Hof; rewrite <- Hof; apply digits_in_uint.
Qed.

(** [ParseInt(Sprintf("%d", z), 0, 64)] is [z] for an int64: a printed number
    has no leading zero that would make it octal. *)
Lemma ParseInt0_fmt z : ParseInt0 (fmt_d z) = if is_int64 z then Some z else None.
Proof.
  unfold ParseInt0. assert (parse_signed0 (fmt_d z) = Some z) as ->; [|done].
  unfold fmt_d. destruct z as [|p|p]; [reflexivity|..]; pose proof (ParseUint0_pos p) as H;
    cbn [Z.to_int NilZero.string_of_int].
  - pose proof (to_uint_nonnil p). destruct (Pos.to_uint p); [done|exact H..].
  - unfold parse_signed0. by rewrite H.
Qed.
