(* ===== verification/Sessions.v ===== *)
(** * Database sessions (db/mongo.go, db/redis.go)

    Both packages open one session on first use and keep it in a package
    variable that no lock protects.  The functions are given step by step, as
    the goroutines that call them interleave; a sequential call is a run of one
    goroutine. *)
From S2P Require Import Prelude GoStrings Config.

Local Open Scope string_scope.
Local Open Scope list_scope.

(** ** gopkg.in/mgo.v2 and redigo: dialling

    The number is that of the call since start-up: two calls with the same
    arguments may end differently. *)
Class Dialer : Type := {
  session : Type;
  mgo_Dial : nat → string → error + session;
  mgo_Login : nat → session → string → string → string → option error;
  redis_DialTimeout : nat → string → Z → Z → Z → error + session
}.

Section sessions.
  Context {DL : Dialer} (cfg : ConfigPushd).

(** ** MgoSession *)

(** [mgoSession] and the number of calls made; [m_logged], which no code reads,
    lists the sessions on which a login was accepted. *)
Record mstate : Type := mkM {
  mgoSession : option session;
  m_calls : nat;
  m_logged : list session
}.

(** Where a goroutine is in [MgoSession]. *)
Inductive mpc : Type :=
| MCheck                                  (* if mgoSession == nil *)
| MDial                                   (* mgoSession, err = mgo.Dial(...) *)
| MDb                                     (* database := mgoSession.DB(...) *)
| MLogin (database : option session)      (* database.Login(...) *)
| MRead                                   (* return mgoSession *)
| MRet (s : option session)
| MPanic (msg : string).

Definition credentials : bool :=
  negb (String.eqb (mongo_UserName (Mongo_ cfg)) "")
  && negb (String.eqb (mongo_Password (Mongo_ cfg)) "").

Definition dial (n : nat) : error + session := mgo_Dial n (mongo_Addr (Mongo_ cfg)).
Definition login (n : nat) (x : session) : option error :=
  mgo_Login n x (mongo_Database (Mongo_ cfg)) (mongo_UserName (Mongo_ cfg))
    (mongo_Password (Mongo_ cfg)).

Definition MgoSession_step (s : mstate) (c : mpc) : option (mstate * mpc) :=
  let n := m_calls s in
  match c with
  | MCheck => Some (s, match mgoSession s with None => MDial | Some _ => MRead end)
  | MDial =>
      match dial n with
      | inl e => Some (mkM None (S n) (m_logged s), MPanic ("Connect to mongo error: " +:+ Error e))
      | inr x => Some (mkM (Some x) (S n) (m_logged s), MDb)
      end
  | MDb => Some (s, if credentials then MLogin (mgoSession s) else MRead)
  | MLogin None => Some (s, MPanic "invalid memory address or nil pointer dereference")
  | MLogin (Some x) =>
      match login n x with
      | Some _ => Some (mkM (mgoSession s) (S n) (m_logged s), MPanic "database auth faild")
      | None => Some (mkM (mgoSession s) (S n) (x :: m_logged s), MRead)
      end
  | MRead => Some (s, MRet (mgoSession s))
  | MRet _ | MPanic _ => None
  end.

(** One goroutine on its own; a call takes at most five steps. *)
Fixpoint run_alone (n : nat) (s : mstate) (c : mpc) : mstate * mpc :=
  match n with
  | O => (s, c)
  | S n' => match MgoSession_step s c with
            | Some (s', c') => run_alone n' s' c'
            | None => (s, c)
            end
  end.
Definition MgoSession (s : mstate) : mstate * mpc := run_alone 5 s MCheck.

(** Several goroutines. *)
Record msys : Type := mkMSys { m_sh : mstate; m_threads : gmap nat mpc }.

Inductive mstep : msys → msys → Prop :=
| mstep_call s t :
    m_threads s !! t = None → mstep s (mkMSys (m_sh s) (<[t := MCheck]> (m_threads s)))
| mstep_run s t c s' c' :
    m_threads s !! t = Some c → MgoSession_step (m_sh s) c = Some (s', c') →
    mstep s (mkMSys s' (<[t := c']> (m_threads s))).

Definition m_started : msys := mkMSys (mkM None 0 []) ∅.

(** ** RedisConn *)
Record rstate : Type := mkR { redisConn : option session; r_calls : nat }.

Definition RedisConn : M rstate (option session) :=
  o ← gets redisConn;
  match o with
  | Some _ => gets redisConn
  | None =>
      n ← gets r_calls;
      let r := Redis cfg in
      match redis_DialTimeout n (redis_Addr r) (redis_ConnTimeout r) (redis_ReadTimeout r)
              (redis_WriteTimeout r) with
      | inl e => _ ← modify (λ _, mkR None (S n));
                 panic ("Connect to redis error: " +:+ Error e)
      | inr x => _ ← modify (λ _, mkR (Some x) (S n)); gets redisConn
      end
  end.

(** ** Lemmas *)

(** The dialled sessions of a run in which no dial fails. *)
Definition dialled (x : session) : Prop := ∃ n, dial n = inr x.

Definition m_ok (s : msys) : Prop :=
  (∀ x, mgoSession (m_sh s) = Some x → dialled x)
  ∧ ∀ t c, m_threads s !! t = Some c →
      match c with
      | MDb | MRead => mgoSession (m_sh s) ≠ None
      | MLogin o => mgoSession (m_sh s) ≠ None ∧ o ≠ None
      | MRet o => ∃ x, o = Some x ∧ dialled x
      | _ => True
      end.

Lemma m_ok_step s s' : (∀ n e, dial n ≠ inl e) → m_ok s → mstep s s' → m_ok s'.
Proof.
  intros Hd [Hx Ht] Hs. destruct Hs as [s t Hnew|s t c s1 c1 Hc Hrun].
  { split; [done|]. simpl. intros t' c. rewrite lookup_insert_Some.
    intros [[<- <-]|[_ Hc]]; [done|by apply (Ht t')]. }
  pose proof (Ht t c Hc) as Hk.
  assert (mgoSession s1 ≠ None ∨ mgoSession s1 = mgoSession (m_sh s)) as Hmono.
  { destruct c as [| | |[x|]| | |]; simpl in Hrun;
      try (destruct (dial _) as [e|y] eqn:E; [by destruct (Hd _ _ E)|]);
      try (destruct (login _ _)); simplify_eq; first [by right | by left]. }
  assert ((∀ x, mgoSession s1 = Some x → dialled x)
          ∧ match c1 with
            | MDb | MRead => mgoSession s1 ≠ None
            | MLogin o => mgoSession s1 ≠ None ∧ o ≠ None
            | MRet o => ∃ x, o = Some x ∧ dialled x
            | _ => True
            end) as [Hx1 Hc1].
  { destruct c as [| | |[x|]| | |]; simpl in Hrun.
    - simplify_eq. split; [done|]. by destruct (mgoSession (m_sh s)).
    - destruct (dial _) as [e|x] eqn:E; [by destruct (Hd _ _ E)|]. simplify_eq. simpl.
      split; [|done]. intros y [= <-]. by eexists.
    - simplify_eq. split; [done|]. by destruct credentials.
    - destruct Hk. destruct (login _ x); by simplify_eq.
    - by destruct Hk.
    - simplify_eq. split; [done|]. destruct (mgoSession (m_sh s)) as [x|]; [eauto|done].
    - done.
    - done. }
  split; [exact Hx1|]. simpl. intros t' c'. rewrite lookup_insert_Some.
  intros [[<- <-]|[_ Hc']]; [exact Hc1|]. specialize (Ht t' c' Hc').
  destruct c'; try done; try (destruct Hmono as [|Hm]; [done|by rewrite Hm]).
  destruct Ht as [? ?]. split; [|done]. destruct Hmono as [|Hm]; [done|by rewrite Hm].
Qed.

(** ** Properties *)

(** (C40) What a call of [MgoSession] does when no other goroutine is in it.  A
    session that is there is returned as it is; otherwise the server is dialled,
    and with credentials logged in to, and both must succeed for a session to be
    returned.  A failed dial leaves the variable nil, so that the next call dials
    again.  A failed login leaves the session in it: the next call returns that
    session, on which no login has been accepted. *)
Theorem MgoSession_spec (s : mstate) :
  MgoSession s =
    match mgoSession s with
    | Some x => (s, MRet (Some x))
    | None =>
        match dial (m_calls s) with
        | inl e => (mkM None (S (m_calls s)) (m_logged s),
                    MPanic ("Connect to mongo error: " +:+ Error e))
        | inr x =>
            if credentials then
              match login (S (m_calls s)) x with
              | None => (mkM (Some x) (S (S (m_calls s))) (x :: m_logged s), MRet (Some x))
              | Some _ => (mkM (Some x) (S (S (m_calls s))) (m_logged s), MPanic "database auth faild")
              end
            else (mkM (Some x) (S (m_calls s)) (m_logged s), MRet (Some x))
        end
    end
  ∧ ((MgoSession s).2 = MPanic "database auth faild" →
     ∃ x, MgoSession (MgoSession s).1 = ((MgoSession s).1, MRet (Some x))
          ∧ m_logged (MgoSession s).1 = m_logged s).
Proof.
  assert (∀ t x, mgoSession t = Some x → MgoSession t = (t, MRet (Some x))) as Hset.
  { intros t x Hx. unfold MgoSession. simpl. rewrite Hx. simpl. by rewrite Hx. }
  match goal with |- MgoSession s = ?r ∧ _ => assert (MgoSession s = r) as HE end.
  { destruct (mgoSession s) as [x|] eqn:E; [by apply Hset|].
    unfold MgoSession. simpl. rewrite E. simpl.
    destruct (dial (m_calls s)) as [e|x]; simpl; [done|].
    destruct credentials; simpl; [|done]. by destruct (login _ x). }
  split; [exact HE|]. rewrite HE. repeat case_match; simpl; try done.
  intros _. eexists. split; [by apply Hset|done].
Qed.

(** The variable is shared without a lock.  As long as no dial fails, every
    goroutine that gets a session gets one that was dialled, whatever the
    interleaving; but with credentials there is an interleaving in which a
    goroutine gets the session while the one that opened it has yet to log in. *)
Theorem MgoSession_shared (Hd : ∀ n e, dial n ≠ inl e) :
  (∀ s t o, rtc mstep m_started s → m_threads s !! t = Some (MRet o) →
     ∃ x, o = Some x ∧ dialled x)
  ∧ (credentials = true →
     ∃ s x, rtc mstep m_started s ∧ m_threads s !! 2%nat = Some (MRet (Some x))
            ∧ m_threads s !! 1%nat = Some (MLogin (Some x)) ∧ m_logged (m_sh s) = []).
Proof.
  split.
  - intros s t o Hr Ht. assert (m_ok s) as [_ Hok]; [|by apply (Hok t (MRet o))].
    assert (m_ok m_started) as H0 by (split; [done|]; intros t' c; simpl; by rewrite lookup_empty). revert H0.
    induction Hr as [|a b c Hab _ IH]; [done|]. intros Ha. apply IH; [done|].
    by apply (m_ok_step a).
  - intros Hcr. destruct (dial 0) as [e|x] eqn:E; [by destruct (Hd _ _ E)|].
    eexists _, x. split; [|split; [|split]].
    + eapply rtc_l; [by apply (mstep_call _ 1)|].
      eapply rtc_l; [by eapply (mstep_run _ 1 MCheck)|].
      eapply rtc_l; [eapply (mstep_run _ 1 MDial); [done|]; simpl; rewrite E; reflexivity|].
      eapply rtc_l; [eapply (mstep_run _ 1 MDb); [done|]; simpl; rewrite Hcr; reflexivity|].
      eapply rtc_l; [by apply (mstep_call _ 2)|].
      eapply rtc_l; [by eapply (mstep_run _ 2 MCheck)|].
      eapply rtc_l; [by eapply (mstep_run _ 2 MRead)|].
      apply rtc_refl.
    + reflexivity.
    + reflexivity.
    + reflexivity.
Qed.

(** A failed dial leaves nothing behind: the next call dials again. *)
Lemma RedisConn_retries s :
  redisConn s = None →
  match RedisConn s with
  | (Ret o, s') => is_Some o ∧ redisConn s' = o ∧ RedisConn s' = (Ret o, s')
  | (_, s') => redisConn s' = None
  end.
Proof.
  intros E. unfold RedisConn. mred. rewrite E. destruct (redis_DialTimeout _ _ _ _ _); cbn; [done|].
  eauto.
Qed.
End sessions.

(** A server that always answers and accepts no login. *)
#[local] Instance example_dialer : Dialer := {|
  session := nat;
  mgo_Dial n _ := inr n;
  mgo_Login _ _ _ _ _ := Some (NewError "auth fails");
  redis_DialTimeout n _ _ _ _ := inr n
|}.

Definition example_cfg : ConfigPushd :=
  let c := example_config 0 None in
  mkPushd (TcpListenAddr c) (SessionTimeout c) (ServInitialGoroutineNum c) (LongPollingListenAddr c)
    (LongPollingSessionTimeout c) (StatsListenAddr c) (ProfListenAddr c) (S2sListenAddr c)
    (S2sSessionTimeout c) (S2sIntialGoroutineNum c) (S2sChannelPeersMaxItems c) (EtcServers c)
    (OffSenderPoolNum c) (MsgQueueAddrs c) (ChannelInfoCacheNum c) (JpushAppKey c)
    (JpushSecretKey c) (MetricsLogfile c) (StatsOutputInterval c) (PubsubChannelMaxItems c)
    (MsgStorage c) (MaxStorageOutstandingMsg c) (MsgFlushPolicy c) (MsgStorageWriteBufferSize c)
    (MaxCacheMsgsEveryChannel c) (Redis c)
    (mkMongo ":27017" "pushd" "user" "secret" Second Second Second).

(** The first call panics, the second returns the session. *)
Lemma MgoSession_spec_witness :
  let r := MgoSession example_cfg (mkM None 0 []) in
  r.2 = MPanic "database auth faild" ∧ ∃ x, MgoSession example_cfg r.1 = (r.1, MRet (Some x)).
Proof.
  intros r. destruct (MgoSession_spec example_cfg (mkM None 0 [])) as [_ H].
  assert (r.2 = MPanic "database auth faild") as Hr by reflexivity. split; [exact Hr|].
  destruct (H Hr) as (x & Hx & _). exists x. exact Hx.
Defined.

Lemma MgoSession_shared_witness :
  ∃ s x, rtc (mstep example_cfg) m_started s ∧ m_threads s !! 2%nat = Some (MRet (Some x))
         ∧ m_logged (m_sh s) = [].
Proof.
  assert (∀ n e, dial example_cfg n ≠ inl e) as Hd by (intros n e H; discriminate H).
  destruct (MgoSession_shared example_cfg Hd) as [_ H].
  destruct (H eq_refl) as (s & x & Hr & Ht & _ & Hl). exists s, x. auto.
Defined.
