(* ===== verification/Cli.v ===== *)
(** * The Go client and the command line (client/go/client.go, cmd/pushd-cli/)

    [PushdClient] is a connection with a protocol in front of it.  The command
    line runs two goroutines over one client: the reader prints what the server
    sends and closes the client at the end of the stream, the main loop sends
    the lines that are typed.  They share [done] and the client without a lock.
    The terminal and the history file are gnureadline's: the prompts it is asked
    to show and the lines it is asked to remember are recorded. *)
From Stdlib Require Strings.Byte.
From S2P Require Import Prelude GoStrings Wire Config Flags.

Local Open Scope string_scope.
Local Open Scope list_scope.

(** ** golib's [server.Protocol] and the network *)
Class Protocol : Type := { Marshal : list byte → list byte }.

(** What [proto.Read] returns besides the bytes. *)
Inductive rerr : Type := RNone | REof | RErr (text : string).

(** ** PushdClient *)
Section client.
  Context {PR : Protocol}.

(** [Conn] is nil while the client is not connected; the protocol is given the
    same connection.  [wire] is what has been written to each connection. *)
Record PushdClient : Type := mkPushdClient {
  serverAddr : string;
  Conn : option nat;
  proto_conn : option nat;
  connTimeout : Z;
  readTimeout : Z;
  wire : list (nat * list byte);
  closed : list nat
}.

Definition NewPushdClient (addr : string) (connTimeout readTimeout : Z) : PushdClient :=
  mkPushdClient addr None None connTimeout readTimeout [] [].

Definition set_conn (conn proto : option nat) (closed : list nat) (c : PushdClient) : PushdClient :=
  mkPushdClient (serverAddr c) conn proto (connTimeout c) (readTimeout c) (wire c) closed.

(** [r] is what [net.Dial] returns. *)
Definition Connect (r : error + nat) : M PushdClient (option error) := λ c,
  match r with
  | inl e => (Ret (Some e), set_conn None (proto_conn c) (closed c) c)
  | inr k => (Ret None, set_conn (Some k) (Some k) (closed c) c)
  end.

Definition nil_deref : string := "invalid memory address or nil pointer dereference".

Definition Write (msg : list byte) : M PushdClient unit := λ c,
  match Conn c with
  | None => (Panic nil_deref, c)
  | Some k => (Ret tt, mkPushdClient (serverAddr c) (Conn c) (proto_conn c) (connTimeout c)
                         (readTimeout c) (wire c ++ [(k, Marshal msg)]) (closed c))
  end.

(** [r] is what [proto.Read] returns. *)
Definition Read (r : list byte * rerr) : M PushdClient (list byte * rerr) := mret r.

Definition IsConnected (c : PushdClient) : bool :=
  match Conn c with Some _ => true | None => false end.

Definition Close : M PushdClient unit := λ c,
  match Conn c with
  | None => (Panic nil_deref, c)
  | Some k => (Ret tt, set_conn None None (closed c ++ [k]) c)
  end.

(** ** CommandLine *)

(** [s] without the newlines at its end: [strings.TrimRight(s, "\n")]. *)
Fixpoint TrimRight (s : string) : string :=
  match s with
  | EmptyString => ""
  | String a s' =>
      let t := TrimRight s' in
      if String.eqb t "" && Ascii.eqb a "010"%char then "" else String a t
  end.

Inductive reader_pc : Type := RLoop | RClose | RDone | RStop.
Inductive main_pc : Type := MTop | MReadline | MProcess (line : string) | MExit.

(** What appears on the terminal: a text given to [hint], its arguments filled
    in, or a prompt. *)
Inductive output : Type := Text (b : list byte) | Prompt (s : string).

(** [prompt] is the variable of the main loop, [history] the lines given to
    [AddHistory], [lines] the lines that have been processed; [crash] is set by
    a panic in either goroutine, which ends the process. *)
Record cli : Type := mkCli {
  client : PushdClient;
  done_ : bool;
  reader : reader_pc;
  main_ : main_pc;
  prompt : string;
  screen : list output;
  history : list string;
  lines : list string;
  crash : option string
}.

Definition with_main (m : main_pc) (s : cli) : cli :=
  mkCli (client s) (done_ s) (reader s) m (prompt s) (screen s) (history s) (lines s) (crash s).
Definition with_reader (r : reader_pc) (s : cli) : cli :=
  mkCli (client s) (done_ s) r (main_ s) (prompt s) (screen s) (history s) (lines s) (crash s).
Definition with_done (s : cli) : cli :=
  mkCli (client s) true (reader s) (main_ s) (prompt s) (screen s) (history s) (lines s) (crash s).
Definition with_client (c : PushdClient) (s : cli) : cli :=
  mkCli c (done_ s) (reader s) (main_ s) (prompt s) (screen s) (history s) (lines s) (crash s).
Definition with_prompt (p : string) (s : cli) : cli :=
  mkCli (client s) (done_ s) (reader s) (main_ s) p (screen s) (history s) (lines s) (crash s).
Definition put (o : output) (s : cli) : cli :=
  mkCli (client s) (done_ s) (reader s) (main_ s) (prompt s) (screen s ++ [o]) (history s) (lines s) (crash s).
Definition with_line (l : string) (s : cli) : cli :=
  mkCli (client s) (done_ s) (reader s) (main_ s) (prompt s) (screen s) (history s) (lines s ++ [l]) (crash s).
Definition AddHistory (l : string) (s : cli) : cli :=
  mkCli (client s) (done_ s) (reader s) (main_ s) (prompt s) (screen s) (history s ++ [l]) (lines s) (crash s).
Definition crashed (e : string) (s : cli) : cli :=
  mkCli (client s) (done_ s) (reader s) (main_ s) (prompt s) (screen s) (history s) (lines s) (Some e).

Definition COMMAND_PROMPT : string := "pushd> ".
Definition hint (b : list byte) (s : cli) : cli := put (Text b) s.
Definition rePrompt (s : cli) : cli := put (Prompt COMMAND_PROMPT) s.

Definition on_client {A} (m : M PushdClient A) (k : cli → cli) (s : cli) : cli :=
  match m (client s) with
  | (Ret _, c) => k (with_client c s)
  | (Panic e, _) => crashed e s
  | (Block, _) => s
  end.

(** The end of a round of the reader: [res[len(res)-1]] of an empty result
    panics. *)
Definition show (res : list byte) (s : cli) : cli :=
  match last res with
  | None => crashed "index out of range" s
  | Some b => rePrompt (hint (if Byte.eqb b Byte.x0a then res else res ++ [Byte.x0a]) s)
  end.

Definition read_error (text : string) : list byte := bytes_of_string ("Read error: " +:+ text).

(** The reader, with what [Read] returned where it reads. *)
Definition reader_step (r : list byte * rerr) (s : cli) : cli :=
  match reader s with
  | RLoop =>
      match (Read r (client s)).1 with
      | Ret (res, RNone) => show res s
      | Ret (_, REof) => with_reader RClose (hint (read_error "EOF") s)
      | Ret (res, RErr t) => show res (hint (read_error t) s)
      | _ => s
      end
  | RClose => on_client Close (with_reader RDone) s
  | RDone => with_reader RStop (with_done s)
  | RStop => s
  end.

Definition processInput (line : string) (s : cli) : cli :=
  if String.eqb line "quit" then with_done s
  else if String.eqb line "" then rePrompt s
  else on_client (Write (bytes_of_string line)) (AddHistory line) s.

(** The main loop, with what [Readline] returned where it reads. *)
Definition main_step (l : string * option string) (s : cli) : cli :=
  match main_ s with
  | MTop => if done_ s then with_main MExit s else with_main MReadline (put (Prompt (prompt s)) s)
  | MReadline =>
      let s := with_prompt "" s in
      let s := match l.2 with
               | Some e => hint (bytes_of_string ("Read user input error: " +:+ e)) s
               | None => s
               end in
      with_main (MProcess (TrimRight l.1)) s
  | MProcess line => with_main MTop (processInput line (with_line line s))
  | MExit => s
  end.

(** Either goroutine, until the process has exited or crashed. *)
Inductive cli_step : cli → cli → Prop :=
| step_reader r s : crash s = None → main_ s ≠ MExit → cli_step s (reader_step r s)
| step_main l s : crash s = None → main_ s ≠ MExit → cli_step s (main_step l s).

(** ** main *)
Record options : Type := mkOptions { addr : string }.

Definition cli_flags : FlagSet := {[ "a" := FStr "127.0.0.1:2222" ]}.

Definition parseFlags {DT : DurationText} (args : list string) : startup options :=
  flag_Parse cli_flags args (λ fs, Started (mkOptions (str_flag fs "a"))).

Definition WELCOME_HINT : string :=
  "Welcome to the Pushd command line interface.  Commands end with \n"
    +:+ String "010" (String "010" "").

Definition newCommandLine (o : options) : cli :=
  mkCli (NewPushdClient (addr o) (Second * 2) (Second * 5)) false RLoop MTop COMMAND_PROMPT [] [] [] None.

(** The two goroutines, from where [run] starts them; [r] is what [net.Dial]
    returns. *)
Definition run (r : error + nat) (s : cli) : startup cli :=
  match Connect r (client s) with
  | (Ret None, c) => Started (with_client c s)
  | (Ret (Some e), _) => Crashed (Error e)
  | (Panic e, _) => Crashed e
  | (Block, _) => Crashed ""
  end.

Definition main {DT : DurationText} (args : list string) (r : error + nat) : startup cli :=
  match parseFlags args with
  | Started o => run r (hint (bytes_of_string WELCOME_HINT) (newCommandLine o))
  | Exited code => Exited code
  | Crashed e => Crashed e
  end.

(** [main] where [Connect] gives connection [k]. *)
Definition connected (a : string) (k : nat) : cli :=
  with_client (set_conn (Some k) (Some k) [] (NewPushdClient a (Second * 2) (Second * 5)))
    (hint (bytes_of_string WELCOME_HINT) (newCommandLine (mkOptions a))).

(** ** What the loops keep *)

(** The lines that are meant for the server. *)
Definition requests (ls : list string) : list string := filter (λ l, l ≠ "quit" ∧ l ≠ "") ls.
Definition sent_as (k : nat) (ls : list string) : list (nat * list byte) :=
  (λ l, (k, Marshal (bytes_of_string l))) <$> ls.

Lemma requests_snoc ls l :
  requests (ls ++ [l]) = requests ls ++ (if decide (l ≠ "quit" ∧ l ≠ "") then [l] else []).
Proof. unfold requests. by rewrite filter_app, filter_cons, filter_nil. Qed.

Record cli_inv (k : nat) (s : cli) : Prop := {
  ci_conn : match reader s with
            | RLoop | RClose => Conn (client s) = Some k ∧ closed (client s) = []
            | RDone | RStop => Conn (client s) = None ∧ closed (client s) = [k]
            end;
  ci_sent : match crash s with
            | None => wire (client s) = sent_as k (requests (lines s)) ∧ history s = requests (lines s)
            | Some e => ∃ rest, sent_as k (requests (lines s)) = wire (client s) ++ rest
                ∧ (e = "index out of range" ∧ rest = []
                   ∨ e = nil_deref ∧ Conn (client s) = None ∧ length rest = 1)
            end;
  ci_quit : match main_ s with
            | MReadline | MProcess _ => "quit" ∉ lines s
            | _ => ∀ l1 l2, lines s = l1 ++ "quit" :: l2 → done_ s = true ∧ l2 = []
            end
}.

Lemma show_inv k res s : crash s = None → cli_inv k s → cli_inv k (show res s).
Proof.
  intros Hc [H1 H2 H3]. rewrite Hc in H2. unfold show. destruct (last res) as [b|].
  - split; simpl; try done. by rewrite Hc.
  - split; simpl; try done. exists []. rewrite app_nil_r. destruct H2. auto.
Qed.

Lemma hint_inv k b s : cli_inv k s → cli_inv k (hint b s).
Proof. intros [H1 H2 H3]. by split. Qed.

Lemma reader_inv k r s : crash s = None → cli_inv k s → cli_inv k (reader_step r s).
Proof.
  intros Hc Hi. unfold reader_step. destruct (reader s) eqn:Er.
  - destruct r as [res [| |t]].
    + by apply show_inv.
    + destruct Hi as [H1 H2 H3]. rewrite Er in H1. split; simpl; done.
    + apply show_inv; [done|]. by apply hint_inv.
  - destruct Hi as [H1 H2 H3]. rewrite Er in H1. destruct H1 as [H1 H1'].
    unfold on_client, Close. simpl. rewrite H1. simpl. split; simpl; try done.
    + by rewrite H1'.
    + by rewrite Hc in *.
  - destruct Hi as [H1 H2 H3]. rewrite Er in H1. split; simpl; try done.
    destruct (main_ s); try done; intros l1 l2 Hl; by destruct (H3 l1 l2 Hl).
  - done.
Qed.

(** A new element at the end of a list is its first occurrence. *)
Lemma snoc_first {A} (l l1 l2 : list A) x : x ∉ l → l ++ [x] = l1 ++ x :: l2 → l2 = [].
Proof.
  intros Hx. destruct l2 as [|y l2 _] using rev_ind; [done|]. intros Heq.
  assert (l ++ [x] = (l1 ++ x :: l2) ++ [y]) as [-> _]%app_inj_tail by (by rewrite Heq, <- app_assoc).
  set_solver.
Qed.

Lemma snoc_other {A} (l l1 l2 : list A) x y : x ∉ l → x ≠ y → l ++ [y] = l1 ++ x :: l2 → False.
Proof.
  intros Hx Hne Hl. assert (x ∈ l ++ [y]) as Hin by (rewrite Hl; set_solver). set_solver.
Qed.

Lemma process_inv k line s :
  crash s = None → main_ s = MProcess line → cli_inv k s →
  cli_inv k (with_main MTop (processInput line (with_line line s))).
Proof.
  intros Hc Em [H1 H2 H3]. rewrite Hc in H2. destruct H2 as [H2 H2']. rewrite Em in H3.
  unfold processInput, on_client, Write. simpl.
  destruct (String.eqb_spec line "quit") as [->|Hlq]; [|destruct (String.eqb_spec line "") as [->|Hle]].
  - split; simpl; [done| |]; [rewrite Hc|].
    + rewrite requests_snoc, decide_False, app_nil_r by naive_solver. done.
    + intros l1 l2 Hl. split; [done|]. by apply (snoc_first (lines s) l1 l2 "quit").
  - split; simpl; [done| |]; [rewrite Hc|].
    + rewrite requests_snoc, decide_False, app_nil_r by naive_solver. done.
    + intros l1 l2 Hl. by destruct (snoc_other (lines s) l1 l2 "quit" "").
  - assert (requests (lines s ++ [line]) = requests (lines s) ++ [line]) as Hr.
    { by rewrite requests_snoc, decide_True. }
    assert (∀ l1 l2, lines s ++ [line] = l1 ++ "quit" :: l2 → done_ s = true ∧ l2 = []) as Hq.
    { intros l1 l2 Hl. by destruct (snoc_other (lines s) l1 l2 "quit" line). }
    destruct (Conn (client s)) as [k'|] eqn:Ek; simpl.
    + assert (k' = k) as -> by (destruct (reader s); naive_solver).
      split; simpl; [done| |exact Hq]. rewrite Hc, Hr, H2, H2'. unfold sent_as.
      by rewrite fmap_app.
    + split; simpl; [by rewrite Ek| |exact Hq]. exists (sent_as k [line]).
      rewrite Hr, H2. split; [apply fmap_app|]. right. by rewrite Ek.
Qed.

Lemma main_inv k l s : crash s = None → cli_inv k s → cli_inv k (main_step l s).
Proof.
  intros Hc Hi. unfold main_step. destruct (main_ s) as [| |line|] eqn:Em.
  - destruct Hi as [H1 H2 H3]. rewrite Em in H3.
    destruct (done_ s) eqn:Ed; split; simpl; try done; [by rewrite Ed|].
    intros (l1 & l2 & Hl)%list_elem_of_split. by destruct (H3 l1 l2 Hl).
  - destruct Hi as [H1 H2 H3]. rewrite Em in H3. rewrite Hc in H2.
    destruct l as [l [e|]]; split; simpl; try done; by rewrite Hc.
  - by apply process_inv.
  - done.
Qed.

Lemma cli_inv_connected addr k : cli_inv k (connected addr k).
Proof. split; simpl; [done|done|]. by intros [|? ?]. Qed.

Lemma cli_inv_rtc k s s' : cli_inv k s → rtc cli_step s s' → cli_inv k s'.
Proof.
  intros Hi Hr. induction Hr as [|s1 s2 s3 Hs _ IH]; [done|]. apply IH.
  destruct Hs; [by apply reader_inv|by apply main_inv].
Qed.

(** ** Properties *)

(** The command line starts in one way.  [main] gets to its two goroutines
    exactly when the flags can be parsed and the server can be dialled; the
    client is then connected to the address that was asked for, and the welcome
    is on the screen. *)
Theorem cli_starts {DT : DurationText} (args : list string) (r : error + nat) (s : cli) :
  main args r = Started s ↔
  ∃ l k, settings cli_flags args l ∧ r = inr k
    ∧ s = connected (text_of l "a" "127.0.0.1:2222") k.
Proof.
  unfold main. split.
  - destruct (parseFlags args) as [o| |] eqn:E; try done. intros Hr.
    apply flag_Parse_spec in E as (l & fs & Hs & Hv & [= <-]).
    destruct (settings_flags _ _ _ Hs) as [Hl _]. destruct r as [e|k]; [done|]. injection Hr as <-.
    exists l, k. split; [done|]. split; [done|].
    rewrite <- (str_after cli_flags fs l Hl Hv "a" "127.0.0.1:2222") by done. reflexivity.
  - intros (l & k & Hs & -> & ->). destruct (settings_flags _ _ _ Hs) as [Hl [fs Hv]].
    assert (parseFlags args = Started (mkOptions (text_of l "a" "127.0.0.1:2222"))) as ->; [|done].
    apply flag_Parse_spec. exists l, fs. split; [done|]. split; [done|].
    by rewrite <- (str_after cli_flags fs l Hl Hv "a" "127.0.0.1:2222").
Qed.

(** What the command line sends is what was typed.  In every state of the
    two goroutines that has not crashed, the connection has been sent exactly
    the lines typed so far, in order and marshalled, the blank ones and [quit]
    left out, the history has recorded the same lines, and nothing has been
    typed after [quit].  A crash has one of two causes: a read that gave no
    bytes, or a line typed after the server closed the connection, which is
    lost. *)
Theorem cli_sends (addr : string) (k : nat) (s : cli) (Hr : rtc cli_step (connected addr k) s) :
  (∀ l1 l2, lines s = l1 ++ "quit" :: l2 → l2 = [])
  ∧ match crash s with
    | None => wire (client s) = sent_as k (requests (lines s)) ∧ history s = requests (lines s)
    | Some e =>
        e = "index out of range" ∧ wire (client s) = sent_as k (requests (lines s))
        ∨ e = nil_deref ∧ closed (client s) = [k]
          ∧ ∃ l ls, requests (lines s) = ls ++ [l] ∧ wire (client s) = sent_as k ls
    end.
Proof.
  destruct (cli_inv_rtc k _ _ (cli_inv_connected addr k) Hr) as [H1 H2 H3]. split.
  - intros l1 l2 Hl. destruct (main_ s); try by destruct (H3 l1 l2 Hl).
    all: destruct H3; rewrite Hl; set_solver.
  - destruct (crash s) as [e|]; [|exact H2].
    destruct H2 as (rest & Hs & [[-> ->]|(-> & Hn & Hlen)]).
    + left. by rewrite Hs, app_nil_r.
    + right. split; [done|]. split; [destruct (reader s); naive_solver|].
      apply fmap_app_inv in Hs as (ls & [|l [|]] & Hl & -> & ->); try done.
      by exists l, ls.
Qed.

Lemma late_line c k p scr h ls line :
  Conn c = Some k → TrimRight line ≠ "quit" → TrimRight line ≠ "" →
  ∃ s, rtc cli_step (mkCli c false RLoop MTop p scr h ls None) s ∧ crash s = Some nil_deref
       ∧ reader s = RStop ∧ done_ s = true ∧ wire (client s) = wire c.
Proof.
  intros Hk Hq%String.eqb_neq Hb%String.eqb_neq. eexists. split.
  { eapply rtc_l; [by apply (step_main ("", None))|]. cbn.
    eapply rtc_l; [by apply (step_reader ([], REof))|]. cbn.
    eapply rtc_l; [by apply (step_reader ([], REof))|]. unfold reader_step, on_client, Close. cbn. rewrite Hk.
    eapply rtc_l; [by apply (step_reader ([], REof))|]. cbn.
    eapply rtc_l; [by apply (step_main (line, None))|]. cbn.
    apply rtc_once. by apply (step_main ("", None)). }
  unfold main_step, processInput, on_client, Write. cbn. rewrite Hq, Hb. done.
Qed.

(** The end of the connection is noticed too late.  While the main loop waits
    for a line, the server closes the connection: the reader closes the client
    and ends, and the next line that is typed makes the process panic. *)
Theorem cli_late_line (addr line : string) (k : nat)
    (Hq : TrimRight line ≠ "quit") (Hb : TrimRight line ≠ "") :
  ∃ s, rtc cli_step (connected addr k) s ∧ crash s = Some nil_deref ∧ reader s = RStop
       ∧ done_ s = true ∧ wire (client s) = [].
Proof.
  by apply (late_line (set_conn (Some k) (Some k) [] (NewPushdClient addr (Second * 2) (Second * 5))) k
              COMMAND_PROMPT [Text (bytes_of_string WELCOME_HINT)] [] [] line).
Qed.
End client.

#[local] Instance example_protocol : Protocol := {| Marshal := block32 |}.

Lemma cli_sends_witness :
  ∃ s, rtc cli_step (connected "127.0.0.1:2222" 7) s ∧ crash s = None
       ∧ wire (client s) = sent_as 7 ["ping"].
Proof.
  set (s0 := connected "127.0.0.1:2222" 7). set (s1 := main_step ("", None) s0).
  set (s2 := main_step ("ping", None) s1). set (s := main_step ("", None) s2).
  assert (rtc cli_step s0 s) as Hr.
  { apply (rtc_l _ _ s1); [by apply (step_main ("", None) s0)|].
    apply (rtc_l _ _ s2); [by apply (step_main ("ping", None) s1)|].
    apply (rtc_once s2 s). by apply (step_main ("", None) s2). }
  exists s. split; [exact Hr|]. split; [reflexivity|].
  exact (proj1 (proj2 (cli_sends "127.0.0.1:2222" 7 s Hr))).
Defined.

Lemma cli_late_line_witness :
  ∃ s, rtc cli_step (connected "127.0.0.1:2222" 7) s ∧ crash s = Some nil_deref.
Proof.
  destruct (cli_late_line "127.0.0.1:2222" "ping" 7) as (s & Hr & Hc & _);
    [discriminate|discriminate|].
  exists s. split; [exact Hr|exact Hc].
Defined.
