(* ===== verification/Benchmark.v ===== *)
(** * The load generator (daemon/benchmark/main.go, daemon/benchmark/option.go)

    [conns] is shared by the goroutines of a round, each of which works on a
    batch of its own: here is that the batches cut the connections into
    disjoint pieces that leave none out, what a round writes, and how the
    program ends.  The numbers are below 2^53, where [float64] is exact. *)
From S2P Require Import Prelude GoStrings Config Flags.

Local Open Scope string_scope.
Local Open Scope list_scope.
Local Open Scope Z_scope.

(** ** option.go *)
Record options : Type := mkOptions {
  concurrency : Z;
  requests : Z;
  addr : string;
  logFile : string;
  logLevel : string;
  crashLogFile : string;
  showVersion : bool;
  connTimeout : Z;
  batchSize : Z
}.

Definition bench_flags : FlagSet :=
  list_to_map [("c", FInt 10000); ("n", FInt 30); ("h", FStr "127.0.0.1:2222"); ("v", FBool false);
               ("log", FStr "stdout"); ("level", FStr "info"); ("crashlog", FStr "panic.dump");
               ("tw", FDur (Second * 2)); ("b", FInt 500)].

Definition options_of (fs : FlagSet) : options :=
  mkOptions (int_flag fs "c") (int_flag fs "n") (str_flag fs "h") (str_flag fs "log")
    (str_flag fs "level") (str_flag fs "crashlog") (bool_flag fs "v") (dur_flag fs "tw")
    (int_flag fs "b").

Definition parseFlags {DT : DurationText} (args : list string) : startup options :=
  flag_Parse bench_flags args (λ fs, Started (options_of fs)).

(** ** The batches *)

(** [for connLeft := concurrency; connLeft > 0; connLeft -= batchSize], with the
    size and the first index of each batch; [None] when [fuel] rounds are not
    enough. *)
Fixpoint batches (fuel : nat) (batchSize connLeft batchStart : Z) : option (list (Z * Z)) :=
  if 0 <? connLeft then
    match fuel with
    | O => None
    | S fuel' =>
        let thisBatch := Z.min connLeft batchSize in
        cons (thisBatch, batchStart)
          <$> batches fuel' batchSize (connLeft - batchSize) (batchStart + thisBatch)
    end
  else Some [].

(** The indices a batch touches. *)
Definition indices (b : Z * Z) : list Z := seqZ b.2 b.1.

(** ** The connections *)
Section bench.
  Context {net_Conn : Type}.

(** A slice of interface values; nil where the dial has failed. *)
Record bench : Type := mkBench {
  conns : list (option net_Conn);
  lostConns : Z;
  written : list (net_Conn * string);
  closed_ : list net_Conn
}.

(** [make([]net.Conn, options.concurrency)] panics on a negative length. *)
Definition init {DT : DurationText} (args : list string) : startup (options * bench) :=
  match parseFlags args with
  | Started o =>
      if concurrency o <? 0 then Crashed "makeslice: len out of range"
      else Started (o, mkBench (replicate (Z.to_nat (concurrency o)) None) 0 [] [])
  | Exited code => Exited code
  | Crashed e => Crashed e
  end.

Definition nth_conn (i : Z) : M bench (option net_Conn) := λ s,
  if i <? 0 then (Panic "index out of range", s) else
  match conns s !! Z.to_nat i with
  | Some c => (Ret c, s)
  | None => (Panic "index out of range", s)
  end.

Definition set_conn (i : Z) (c : option net_Conn) : M bench unit := λ s,
  if (i <? 0) || (Z.of_nat (length (conns s)) <=? i) then (Panic "index out of range", s)
  else (Ret tt, mkBench (<[Z.to_nat i := c]> (conns s)) (lostConns s) (written s) (closed_ s)).

Definition write (c : net_Conn) (msg : string) : M bench unit :=
  modify (λ s, mkBench (conns s) (lostConns s) (written s ++ [(c, msg)]) (closed_ s)).

(** [dial i] is what [net.DialTimeout] returns for connection [i]. *)
Definition batchConn (dial : Z → error + net_Conn) (batchSize firstNum : Z) : M bench unit :=
  mapM_ (λ i,
    match dial (firstNum + i) with
    | inr c => set_conn (firstNum + i) (Some c)
    | inl _ =>
        _ ← set_conn (firstNum + i) None;
        modify (λ s, mkBench (conns s) (lostConns s + 1) (written s) (closed_ s))
    end) (seqZ 0 batchSize).

Definition bench_msg (i round : Z) : string :=
  if i mod 2 =? 1 then "sub channel" +:+ fmt_d round +:+ String "010" ""
  else "pub channel" +:+ fmt_d round +:+ " hello" +:+ String "010" "".

Definition batchWrite (batchSize firstNum round : Z) : M bench unit :=
  mapM_ (λ i,
    o ← nth_conn (firstNum + i);
    match o with
    | Some c => write c (bench_msg i round)
    | None => mret tt
    end) (seqZ 0 batchSize).

(** [conn.Close()] on a nil interface panics. *)
Definition shutdown : M bench unit :=
  l ← gets conns;
  mapM_ (λ o,
    match o with
    | Some c => modify (λ s, mkBench (conns s) (lostConns s) (written s) (closed_ s ++ [c]))
    | None => panic "invalid memory address or nil pointer dereference"
    end) l.

(** The goroutines of a round work on disjoint parts of [conns], see below: here
    they run one after the other.  [fuel] bounds the number of batches. *)
Definition each_batch (fuel : nat) (concurrency batchSize : Z) (f : Z → Z → M bench unit)
    : M bench unit :=
  match batches fuel batchSize concurrency 0 with
  | None => block
  | Some l => mapM_ (λ b, f b.1 b.2) l
  end.

Definition buildConns (fuel : nat) (dial : Z → error + net_Conn) (concurrency batchSize : Z)
    : M bench unit :=
  each_batch fuel concurrency batchSize (batchConn dial).

Definition main (fuel : nat) (dial : Z → error + net_Conn) (o : options) : M bench unit :=
  _ ← buildConns fuel dial (concurrency o) (batchSize o);
  _ ← mapM_ (λ i, each_batch fuel (concurrency o) (batchSize o) (λ n first, batchWrite n first i))
        (seqZ 0 (requests o));
  shutdown.

(** ** The goroutines of buildConns, interleaved *)

(** Each has a list of connections left to dial; [lostConns++] is a load and a
    store. *)
Inductive dpc : Type := DDial | DLoad | DStore (v : Z).
Abbreviation dialer := (list Z * dpc)%type.

Definition dial_step (dial : Z → error + net_Conn) (g : dialer) : M bench dialer :=
  match g with
  | ([], pc) => mret ([], pc)
  | (i :: todo, DDial) =>
      match dial i with
      | inr c => _ ← set_conn i (Some c); mret (todo, DDial)
      | inl _ => _ ← set_conn i None; mret (i :: todo, DLoad)
      end
  | (i :: todo, DLoad) => v ← gets lostConns; mret (i :: todo, DStore v)
  | (_ :: todo, DStore v) =>
      _ ← modify (λ s, mkBench (conns s) (v + 1) (written s) (closed_ s)); mret (todo, DDial)
  end.

Inductive dials_step (dial : Z → error + net_Conn) : list dialer * bench → list dialer * bench → Prop :=
| dials_one l1 g l2 s g' s' :
    g.1 ≠ [] → dial_step dial g s = (Ret g', s') →
    dials_step dial (l1 ++ g :: l2, s) (l1 ++ g' :: l2, s').

Definition launched (l : list (Z * Z)) : list dialer := (λ b, (indices b, DDial)) <$> l.

(** ** Lemmas *)
Lemma batches_cover b n start fuel :
  0 < b → n ≤ Z.of_nat fuel * b →
  ∃ l, batches fuel b n start = Some l ∧ concat (indices <$> l) = seqZ start n
       ∧ Forall (λ x, 0 < x.1 ≤ b) l.
Proof.
  intros Hb. revert n start. induction fuel as [|fuel IH]; intros n start Hn; cbn [batches].
  - destruct (Z.ltb_spec 0 n); [lia|]. exists []. rewrite seqZ_nil by lia. by repeat constructor.
  - destruct (Z.ltb_spec 0 n); [|exists []; rewrite seqZ_nil by lia; by repeat constructor].
    destruct (IH (n - b) (start + Z.min n b)) as (l & -> & Hl & Hall); [lia|].
    exists ((Z.min n b, start) :: l). split; [done|]. split.
    + csimpl. rewrite Hl. unfold indices. simpl. destruct (Z.le_gt_cases n b).
      * rewrite (seqZ_nil (start + _)), app_nil_r by lia. f_equal. lia.
      * rewrite Z.min_r by lia. rewrite <- seqZ_app by lia. f_equal. lia.
    + constructor; [simpl; lia|done].
Qed.

(** One write, or none where there is no connection. *)
Definition write_one (first round i : Z) : M bench unit :=
  o ← nth_conn (first + i);
  match o with Some c => write c (bench_msg i round) | None => mret tt end.

Definition after_writes (ms : list (net_Conn * string)) (s : bench) : bench :=
  mkBench (conns s) (lostConns s) (written s ++ ms) (closed_ s).

Lemma write_one_run first round i s :
  0 ≤ first + i → first + i < Z.of_nat (length (conns s)) →
  ∃ o, drop (Z.to_nat (first + i)) (conns s) = o :: drop (Z.to_nat (first + Z.succ i)) (conns s)
       ∧ write_one first round i s =
           (Ret tt, after_writes ((λ c, (c, bench_msg i round)) <$> option_list o) s).
Proof.
  intros H1 H2. destruct (lookup_lt_is_Some_2 (conns s) (Z.to_nat (first + i))) as [o Ho]; [lia|].
  exists o. split.
  - rewrite (drop_S _ o) by done. do 2 f_equal. lia.
  - assert (nth_conn (first + i) s = (Ret o, s)) as Hnth.
    { unfold nth_conn. destruct (Z.ltb_spec (first + i) 0); [lia|]. by rewrite Ho. }
    unfold write_one. mstep Hnth. destruct o as [c|]; [done|].
    unfold after_writes. simpl. rewrite app_nil_r. by destruct s.
Qed.

Lemma after_writes_app ms ms' s : after_writes ms' (after_writes ms s) = after_writes (ms ++ ms') s.
Proof. unfold after_writes. simpl. by rewrite app_assoc. Qed.

Lemma writes_run first round k j s :
  0 ≤ first → 0 ≤ j → first + j + Z.of_nat k ≤ Z.of_nat (length (conns s)) →
  ∃ ms, mapM_ (write_one first round) (seqZ j (Z.of_nat k)) s = (Ret tt, after_writes ms s)
    ∧ ms.*1 = omap id (take k (drop (Z.to_nat (first + j)) (conns s)))
    ∧ Forall (λ m, ∃ i, m.2 = bench_msg i round) ms.
Proof.
  revert j s. induction k as [|k IH]; intros j s Hf Hj Hle.
  - exists []. rewrite seqZ_nil by lia. unfold after_writes. rewrite app_nil_r. by destruct s.
  - rewrite seqZ_cons by lia. rewrite Nat2Z.inj_succ, Z.pred_succ. cbn [mapM_].
    destruct (write_one_run first round j s) as (o & Hdrop & Hrun); [lia|lia|]. mstep Hrun.
    set (ms1 := _ <$> option_list o).
    destruct (IH (Z.succ j) (after_writes ms1 s)) as (ms & -> & Hms & Hall); [lia|lia|simpl; lia|].
    rewrite after_writes_app. exists (ms1 ++ ms). split; [done|]. rewrite Hdrop. simpl in Hms.
    split; [|apply Forall_app; split; [by destruct o; repeat econstructor|done]].
    rewrite fmap_app, Hms. by destruct o.
Qed.

(** What a batch writes, when its indices exist. *)
Lemma batchWrite_run n first round s :
  0 ≤ first → 0 ≤ n → first + n ≤ Z.of_nat (length (conns s)) →
  ∃ ms, batchWrite n first round s = (Ret tt, after_writes ms s)
    ∧ ms.*1 = omap id (take (Z.to_nat n) (drop (Z.to_nat first) (conns s)))
    ∧ Forall (λ m, ∃ i, m.2 = bench_msg i round) ms.
Proof.
  intros Hf Hn Hle. destruct (writes_run first round (Z.to_nat n) 0 s) as (ms & Hrun & Hrest);
    [lia..|]. rewrite Z2Nat.id in Hrun by lia. rewrite Z.add_0_r in Hrest. by exists ms.
Qed.

Lemma round_run b fuel n start round l s :
  0 < b → batches fuel b n start = Some l → 0 ≤ start →
  start + Z.max 0 n = Z.of_nat (length (conns s)) →
  ∃ ms, mapM_ (λ x, batchWrite x.1 x.2 round) l s = (Ret tt, after_writes ms s)
    ∧ ms.*1 = omap id (drop (Z.to_nat start) (conns s))
    ∧ Forall (λ m, ∃ i, m.2 = bench_msg i round) ms.
Proof.
  intros Hb. revert n start l s. induction fuel as [|fuel IH]; intros n start l s; cbn [batches];
    destruct (Z.ltb_spec 0 n); try done.
  2: destruct (batches fuel b (n - b) (start + Z.min n b)) as [l'|] eqn:E; [|done].
  2: intros [= <-] Hst Hlen; cbn [mapM_ fst snd].
  1,3: intros [= <-] Hst Hlen; exists []; rewrite drop_ge by lia; unfold after_writes;
    rewrite app_nil_r; by destruct s.
  destruct (batchWrite_run (Z.min n b) start round s) as (ms1 & Hrun & Hms1 & Hall1); [lia..|].
  mstep Hrun.
  destruct (IH (n - b) (start + Z.min n b) l' (after_writes ms1 s)) as (ms2 & -> & Hms2 & Hall2);
    [done|lia|simpl; lia|].
  rewrite after_writes_app. exists (ms1 ++ ms2). split; [done|].
  split; [|by apply Forall_app]. simpl in Hms2. rewrite fmap_app, Hms1, Hms2.
  rewrite <- omap_app. f_equal. rewrite Z2Nat.inj_add, <- drop_drop by lia. apply take_drop.
Qed.

(** ** Lemmas: dialling *)
Section dialling.
  Context (dial : Z → error + net_Conn) (n : Z).

Definition dialled (i : Z) : option net_Conn :=
  match dial i with inr c => Some c | inl _ => None end.
Definition fails (i : Z) : bool := match dial i with inl _ => true | inr _ => false end.
Definition failures (l : list Z) : Z := Z.of_nat (length (List.filter fails l)).

(** The failures a goroutine has still to count, and its dials to come. *)
Definition owed (gs : list dialer) : Z := failures (concat gs.*1).
Definition undialled (g : dialer) : list Z := match g.2 with DDial => g.1 | _ => tail g.1 end.

Definition goroutine_ok (F : Z) (gs : list dialer) (g : dialer) : Prop :=
  (∀ i, i ∈ g.1 → 0 ≤ i < n)
  ∧ (g.2 ≠ DDial → match g.1 with i :: _ => fails i = true | [] => False end)
  ∧ match g.2 with DStore v => 0 ≤ v ≤ F - owed gs | _ => True end.

Record dials_inv (F : Z) (x : list dialer * bench) : Prop := {
  di_len : Z.of_nat (length (conns x.2)) = n;
  di_ok : Forall (goroutine_ok F x.1) x.1;
  di_set i : 0 ≤ i < n → i ∉ concat (undialled <$> x.1) → conns x.2 !! Z.to_nat i = Some (dialled i);
  di_lost : 0 ≤ lostConns x.2 ≤ F - owed x.1;
  di_some : owed x.1 < F → 1 ≤ lostConns x.2
}.

Lemma failures_app l1 l2 : failures (l1 ++ l2) = failures l1 + failures l2.
Proof. unfold failures. rewrite List.filter_app, length_app. lia. Qed.

Lemma owed_at l1 g l2 : owed (l1 ++ g :: l2) = owed l1 + failures g.1 + owed l2.
Proof. unfold owed. rewrite fmap_app, concat_app, failures_app. csimpl. rewrite failures_app. lia. Qed.

Lemma failures_cons i l : failures (i :: l) = (if fails i then 1 else 0) + failures l.
Proof. unfold failures. cbn [List.filter]. destruct (fails i); cbn [length]; lia. Qed.

Lemma set_conn_run i c s :
  0 ≤ i < Z.of_nat (length (conns s)) →
  set_conn i c s = (Ret tt, mkBench (<[Z.to_nat i := c]> (conns s)) (lostConns s) (written s) (closed_ s)).
Proof.
  intros Hi. unfold set_conn. destruct (Z.ltb_spec i 0), (Z.leb_spec (Z.of_nat (length (conns s))) i); lia || done.
Qed.

(** The state after a dial. *)
Lemma di_set_dial s i (U U' : list Z) :
  Z.of_nat (length (conns s)) = n → 0 ≤ i < n → (∀ j, j ∈ U → j = i ∨ j ∈ U') →
  (∀ j, 0 ≤ j < n → j ∉ U → conns s !! Z.to_nat j = Some (dialled j)) →
  ∀ j, 0 ≤ j < n → j ∉ U' → <[Z.to_nat i := dialled i]> (conns s) !! Z.to_nat j = Some (dialled j).
Proof.
  intros Hlen Hi HU Hs j Hj Hn. destruct (decide (j = i)) as [->|Hne].
  - apply list_lookup_insert_eq. lia.
  - rewrite list_lookup_insert_ne by lia. apply Hs; [done|]. intros H. by destruct (HU j H).
Qed.

(** A goroutine whose count is no larger than before stays in order. *)
Lemma goroutine_ok_mono F gs gs' g : owed gs' ≤ owed gs → goroutine_ok F gs g → goroutine_ok F gs' g.
Proof. intros Hle (H1 & H2 & H3). split_and!; [done..|]. destruct g.2; lia || done. Qed.
Lemma undialled_at l1 g l2 j :
  j ∈ concat (undialled <$> l1 ++ g :: l2)
  ↔ j ∈ concat (undialled <$> l1) ∨ j ∈ undialled g ∨ j ∈ concat (undialled <$> l2).
Proof. rewrite fmap_app, concat_app. csimpl. by rewrite !elem_of_app. Qed.

(** A goroutine's step that leaves the connections alone. *)
Lemma dials_inv_count F l1 g g' l2 s s' :
  dials_inv F (l1 ++ g :: l2, s) → conns s' = conns s → undialled g' = undialled g →
  failures g'.1 ≤ failures g.1 →
  goroutine_ok F (l1 ++ g' :: l2) g' →
  0 ≤ lostConns s' ≤ F - owed (l1 ++ g' :: l2) →
  (owed (l1 ++ g' :: l2) < F → 1 ≤ lostConns s') →
  dials_inv F (l1 ++ g' :: l2, s').
Proof.
  intros [H1 H2 H3 H4 H5] Hc Hu Hf Hok Hl Hs. simpl in *.
  split; simpl; [by rewrite Hc| |..|done|done].
  - apply Forall_app in H2 as [Ha [_ Hb]%Forall_cons].
    assert (owed (l1 ++ g' :: l2) ≤ owed (l1 ++ g :: l2)) as Hle by (rewrite !owed_at; lia).
    apply Forall_app. split; [|constructor; [done|]]; (eapply Forall_impl; [eassumption|]);
      intros x; by apply goroutine_ok_mono.
  - intros j Hj Hn. rewrite Hc. apply H3; [done|]. rewrite undialled_at, <- Hu, <- undialled_at. done.
Qed.

Lemma dials_inv_dial F l1 i todo g' l2 s :
  dials_inv F (l1 ++ (i :: todo, DDial) :: l2, s) →
  undialled g' = todo → (∀ j, j ∈ g'.1 → j ∈ i :: todo) → failures g'.1 = failures (i :: todo) →
  (g'.2 = DDial ∨ g'.2 = DLoad ∧ g'.1 = i :: todo ∧ fails i = true) →
  dials_inv F (l1 ++ g' :: l2,
    mkBench (<[Z.to_nat i := dialled i]> (conns s)) (lostConns s) (written s) (closed_ s)).
Proof.
  intros [H1 H2 H3 H4 H5] Hu Hin Hf Hpc. simpl in *.
  apply Forall_app in H2 as [Ha [(Hi & _) Hb]%Forall_cons]. simpl in Hi.
  assert (owed (l1 ++ g' :: l2) = owed (l1 ++ (i :: todo, DDial) :: l2)) as Ho
    by (rewrite !owed_at, Hf; done).
  split; simpl; [by rewrite length_insert| | |by rewrite Ho|by rewrite Ho].
  - apply Forall_app. split; [|constructor];
      try (eapply Forall_impl; [eassumption|]; intros x; apply goroutine_ok_mono; by rewrite Ho).
    split_and!; [by auto| |].
    + intros Hne. destruct Hpc as [?|(_ & -> & ?)]; [done|done].
    + by destruct Hpc as [->|(-> & _)].
  - intros j Hj Hn. eapply di_set_dial; [exact H1|apply Hi; by left| |exact H3|exact Hj|exact Hn].
    intros x. rewrite !undialled_at, Hu. unfold undialled. simpl. set_solver.
Qed.

Lemma dials_inv_step F x y : dials_inv F x → dials_step dial x y → dials_inv F y.
Proof.
  intros Hi Hs. destruct Hs as [l1 [[|i todo] pc] l2 s g' s' Hne Hrun]; [done|].
  pose proof Hi as [H1 H2 _ H4 H5]. simpl in H1, H4, H5.
  apply Forall_app in H2 as [_ [(Hr & Hh & Hv) _]%Forall_cons]. simpl in Hr, Hh, Hv.
  assert (set_conn i (dialled i) s = (Ret tt,
    mkBench (<[Z.to_nat i := dialled i]> (conns s)) (lostConns s) (written s) (closed_ s))) as Hset.
  { apply set_conn_run. rewrite H1. apply Hr. by left. }
  destruct pc as [| |v]; simpl in Hrun.
  - pose proof (dials_inv_dial F l1 i todo g' l2 s Hi) as Hd.
    assert (fails i = match dialled i with None => true | Some _ => false end) as Hfi
      by (unfold fails, dialled; by destruct (dial i)).
    unfold dialled in Hset, Hfi, Hd. destruct (dial i) as [e|c];
      rewrite (bind_ret_run _ _ _ _ _ Hset) in Hrun; injection Hrun as <- <-; apply Hd; try done.
    + by right.
    + intros j Hj. by right.
    + by rewrite failures_cons, Hfi.
    + by left.
  - injection Hrun as <- <-. apply (dials_inv_count F l1 (i :: todo, DLoad) _ l2 s); try done.
    + split_and!; [done|by intros _; apply Hh|]. simpl. rewrite owed_at in *. simpl in *. lia.
    + rewrite owed_at in *. simpl in *. lia.
    + rewrite owed_at in *. simpl in *. lia.
  - injection Hrun as <- <-. specialize (Hh ltac:(done)). rewrite owed_at in *. simpl in *.
    rewrite failures_cons, Hh in *.
    apply (dials_inv_count F l1 (i :: todo, DStore v) _ l2 s); try done; simpl;
      rewrite ?owed_at, ?failures_cons, ?Hh; simpl; try lia.
    split_and!; [|done|done]. intros j Hj. apply Hr. by right.
Qed.
Lemma launched_todo l : concat (launched l).*1 = concat (indices <$> l).
Proof. unfold launched. induction l as [|b l IH]; [done|]. csimpl. by rewrite IH. Qed.

Lemma launched_undialled l : concat (undialled <$> launched l) = concat (indices <$> l).
Proof. unfold launched. induction l as [|b l IH]; [done|]. csimpl. by rewrite IH. Qed.

Lemma dials_inv_launched l s :
  concat (indices <$> l) = seqZ 0 n → Z.of_nat (length (conns s)) = n → lostConns s = 0 →
  dials_inv (failures (seqZ 0 n)) (launched l, s).
Proof.
  intros Hl Hlen H0. assert (owed (launched l) = failures (seqZ 0 n)) as Ho
    by (unfold owed; by rewrite launched_todo, Hl).
  split; simpl; [done| | |rewrite Ho, H0; lia|rewrite Ho; lia].
  - apply Forall_forall. intros g Hg. split_and!.
    + intros i Hi. change (0 ≤ i < 0 + n). apply elem_of_seqZ. rewrite <- Hl, <- launched_todo.
      apply elem_of_concat. exists g.1.
      split; [by apply list_elem_of_fmap_2|done].
    + apply list_elem_of_fmap_1 in Hg as (b & -> & _). done.
    + apply list_elem_of_fmap_1 in Hg as (b & -> & _). done.
  - intros i Hi Hn. rewrite launched_undialled, Hl in Hn. destruct Hn. by apply elem_of_seqZ.
Qed.

Lemma dials_inv_rtc F x y : dials_inv F x → rtc (dials_step dial) x y → dials_inv F y.
Proof. intros Hi Hr. revert Hi. induction Hr as [|x y z Hs _ IH]; eauto using dials_inv_step. Qed.

Lemma dial_step_runs F l1 g l2 s :
  dials_inv F (l1 ++ g :: l2, s) → ∃ g' s', dial_step dial g s = (Ret g', s').
Proof.
  intros [H1 H2 _ _ _]. simpl in *. apply Forall_app in H2 as [_ [(Hr & _) _]%Forall_cons].
  destruct g as [[|i todo] [| |v]]; try (by eexists _, _). simpl in *.
  destruct (dial i) as [e|c].
  - erewrite bind_ret_run; [by eexists _, _|]. apply set_conn_run. rewrite H1. apply Hr. by left.
  - erewrite bind_ret_run; [by eexists _, _|]. apply set_conn_run. rewrite H1. apply Hr. by left.
Qed.
End dialling.

(** ** Properties *)

(** A round of the benchmark writes one message to each connection.  With a
    positive batch size the loop ends, its batches cover the indices from 0 to
    [concurrency] exactly, in order and none larger than [batchSize], and the
    batches of a round write exactly one line, a [sub] or a [pub] of that round,
    to every connection that could be dialled.  With a batch size of 0 the loop
    never ends. *)
Theorem benchmark_round (concurrency batchSize round : Z) (s : bench)
    (Hn : 0 ≤ concurrency) (Hb : 0 ≤ batchSize) (Hlen : Z.of_nat (length (conns s)) = concurrency) :
  if decide (batchSize = 0) then
    ∀ fuel, 0 < concurrency → batches fuel batchSize concurrency 0 = None
  else
    ∃ l ms, batches (Z.to_nat concurrency) batchSize concurrency 0 = Some l
      ∧ concat (indices <$> l) = seqZ 0 concurrency
      ∧ Forall (λ x, 0 < x.1 ≤ batchSize) l
      ∧ each_batch (Z.to_nat concurrency) concurrency batchSize (λ n first, batchWrite n first round) s =
          (Ret tt, mkBench (conns s) (lostConns s) (written s ++ ms) (closed_ s))
      ∧ ms.*1 = omap id (conns s)
      ∧ Forall (λ m, ∃ i, m.2 = bench_msg i round) ms.
Proof.
  case_decide as H0.
  - intros fuel Hc. subst batchSize. clear Hlen Hn. generalize 0 at 2 as start.
    induction fuel as [|fuel IH]; intros start; cbn [batches];
      destruct (Z.ltb_spec 0 concurrency); try lia; [done|]. by rewrite Z.sub_0_r, IH.
  - destruct (batches_cover batchSize concurrency 0 (Z.to_nat concurrency))
      as (l & Hl & Hcov & Hall); [lia|nia|].
    destruct (round_run batchSize (Z.to_nat concurrency) concurrency 0 round l s) as (ms & Hrun & Hms & Hmsg); [lia|done|lia|lia|].
    exists l, ms. split_and!; try done. unfold each_batch. by rewrite Hl.
Qed.

(** The command line decides how many connections there are.  [init] succeeds
    exactly when the flags can be parsed and the concurrency is not negative;
    the options are what was asked for, and there is a place for each
    connection. *)
Theorem benchmark_starts {DT : DurationText} (args : list string) (o : options) (s : bench) :
  init args = Started (o, s) →
  ∃ l, settings bench_flags args l
    ∧ ParseInt0 (text_of l "c" "10000") = Some (concurrency o)
    ∧ ParseInt0 (text_of l "n" "30") = Some (requests o)
    ∧ ParseInt0 (text_of l "b" "500") = Some (batchSize o)
    ∧ addr o = text_of l "h" "127.0.0.1:2222"
    ∧ 0 ≤ concurrency o ∧ Z.of_nat (length (conns s)) = concurrency o
    ∧ omap id (conns s) = [].
Proof.
  unfold init. destruct (parseFlags args) as [o1| |] eqn:E; try done.
  apply flag_Parse_spec in E as (l & fs & Hs & Hv & [= <-]).
  destruct (settings_flags _ _ _ Hs) as [Hl _].
  destruct (Z.ltb_spec (concurrency (options_of fs)) 0); [done|]. intros [= <- <-].
  exists l. simpl in *.
  split_and!; [done|by eapply int_after..|by eapply str_after|done| |].
  - rewrite length_replicate. lia.
  - by induction (Z.to_nat _).
Qed.

(** Dialling under every schedule.  The goroutines of [buildConns] never panic,
    and one that has not finished can go on; when all have finished, every
    connection is what its own dial returned, whatever the interleaving.
    [lostConns], which they increment without a lock, is not above the number of
    failed dials, and not 0 if there was one. *)
Theorem buildConns_interleaved (dial : Z → error + net_Conn) (concurrency batchSize : Z)
    (l : list (Z * Z)) (s : bench) (x : list dialer * bench)
    (Hn : 0 ≤ concurrency) (Hb : 0 < batchSize)
    (Hl : batches (Z.to_nat concurrency) batchSize concurrency 0 = Some l)
    (Hlen : Z.of_nat (length (conns s)) = concurrency) (H0 : lostConns s = 0)
    (Hr : rtc (dials_step dial) (launched l, s) x) :
  (∀ l1 g l2, x.1 = l1 ++ g :: l2 → g.1 ≠ [] → ∃ g' s', dials_step dial x (l1 ++ g' :: l2, s'))
  ∧ (Forall (λ g, g.1 = []) x.1 →
      conns x.2 = dialled dial <$> seqZ 0 concurrency
      ∧ Z.min 1 (failures dial (seqZ 0 concurrency)) ≤ lostConns x.2
          ≤ failures dial (seqZ 0 concurrency)).
Proof.
  destruct (batches_cover batchSize concurrency 0 (Z.to_nat concurrency)) as (l' & Hl' & Hcov & _);
    [lia|nia|]. rewrite Hl in Hl'. injection Hl' as <-.
  pose proof (dials_inv_launched dial concurrency l s Hcov Hlen H0) as Hi.
  apply (dials_inv_rtc dial concurrency _ _ x) in Hi; [|done]. destruct x as [gs s']. split.
  - simpl. intros l1 g l2 -> Hg.
    destruct (dial_step_runs dial concurrency _ _ _ _ _ Hi) as (g' & s1 & Hs).
    exists g', s1. by apply dials_one.
  - simpl. intros Hdone. destruct Hi as [H1 _ H3 H4 H5]. simpl in *.
    assert (owed dial gs = 0 ∧ concat (undialled <$> gs) = []) as [Ho Hu].
    { clear -Hdone. unfold owed. induction Hdone as [|[[|] pc] gs Hg _ [IH1 IH2]]; try done. csimpl.
      rewrite IH2. split; [exact IH1|by destruct pc]. }
    rewrite Ho in H4, H5. split; [|lia]. apply list_eq. intros k.
    destruct (decide (k < Z.to_nat concurrency)%nat) as [Hk|Hk].
    + rewrite list_lookup_fmap, lookup_seqZ_lt by lia. simpl.
      rewrite <- H3; [f_equal; lia|lia|]. rewrite Hu. set_solver.
    + rewrite !lookup_ge_None_2; [done|rewrite length_fmap, length_seqZ; lia|lia].
Qed.

(** Two failed dials can be counted as one. *)
Lemma lost_count (dial : Z → error + net_Conn) (e0 e1 : error) :
  dial 0 = inl e0 → dial 1 = inl e1 →
  ∃ s, rtc (dials_step dial) (launched [(1, 0); (1, 1)], mkBench [None; None] 0 [] [])
         ([([], DDial); ([], DDial)], s) ∧ lostConns s = 1.
Proof.
  intros H0 H1. eexists. split.
  { assert (∀ pc s g s', dial_step dial ([0], pc) s = (Ret g, s') → ∀ h,
              dials_step dial ([([0], pc); h], s) ([g; h], s')) as Ha.
    { intros pc s g s' Hs h. by apply (dials_one dial [] ([0], pc) [h]). }
    assert (∀ pc s g s', dial_step dial ([1], pc) s = (Ret g, s') → ∀ h,
              dials_step dial ([h; ([1], pc)], s) ([h; g], s')) as Hb.
    { intros pc s g s' Hs h. by apply (dials_one dial [h] ([1], pc) []). }
    eapply rtc_l; [eapply Ha; simpl; by rewrite H0|].
    eapply rtc_l; [eapply Hb; simpl; by rewrite H1|].
    eapply rtc_l; [by eapply Ha|]. eapply rtc_l; [by eapply Hb|].
    eapply rtc_l; [by eapply Ha|]. apply rtc_once. by eapply Hb. }
  done.
Qed.

(** The program ends in a panic when a connection could not be dialled, and
    leaves the later ones open. *)
Lemma shutdown_panics l1 l2 s :
  conns s = (Some <$> l1) ++ None :: l2 →
  ∃ e, (shutdown s).1 = Panic e ∧ closed_ (shutdown s).2 = closed_ s ++ l1.
Proof.
  unfold shutdown. intros Hc. rewrite (bind_ret_run (gets conns) _ s _ s eq_refl), Hc. clear Hc.
  revert s. induction l1 as [|c l1 IH]; intros s.
  - cbn. eexists. by rewrite app_nil_r.
  - cbn [fmap list_fmap app mapM_]. rewrite (bind_ret_run (modify _) _ s tt _ eq_refl).
    edestruct IH as (e & He & Hcl). rewrite He, Hcl. exists e. split; [done|]. simpl.
    by rewrite <- app_assoc.
Qed.
End bench.

Lemma benchmark_round_witness :
  let s := mkBench [Some 1%nat; None; Some 2%nat] 1 [] [] in
  ∃ l ms, batches 3 2 3 0 = Some l
    ∧ each_batch 3 3 2 (λ n first, batchWrite n first 5) s = (Ret tt, mkBench (conns s) 1 ms [])
    ∧ ms.*1 = [1%nat; 2%nat].
Proof.
  intros s. destruct (benchmark_round 3 2 5 s) as (l & ms & Hl & _ & _ & Hrun & Hms & _);
    [lia|lia|reflexivity|].
  exists l, ms. split; [exact Hl|]. split; [exact Hrun|exact Hms].
Defined.
