(* ===== verification/SenderPool.v ===== *)
(** * The pool of off-line push senders (engine/offpush.go)

    [initOffSenderPool] fills the pool; [ObtainOneOffSender] hands the senders
    out in turn to any number of goroutines with a compare-and-swap loop.  The
    loop is modelled as a step relation, one step per access to the shared
    [baton], and shown to refine an atomic round-robin counter. *)
From Stdlib Require Import ZArith Lia.
From S2P Require Import Prelude GoStrings Config.

Local Open Scope string_scope.
Local Open Scope list_scope.
Local Open Scope Z_scope.

(** Two's complement reduction to [int32] *)
Definition wrap32 (z : Z) : Z := (z + 2 ^ 31) mod 2 ^ 32 - 2 ^ 31.

(** A [*Sender] holds a JPush client, made from the two configured keys. *)
Record Sender : Type := mkSender { jpush_secret : string; jpush_app : string }.

Record OffSenderPool : Type := mkPool {
  pool : list (option Sender);     (* [None]: a nil interface *)
  baton : Z;
  size : Z
}.

(** The address is accepted and ignored, as in the source. *)
Definition newSender (cfg : ConfigPushd) (address : string) : error + Sender :=
  inr (mkSender (JpushSecretKey cfg) (JpushAppKey cfg)).

(** The loop [for i := 0; i < capacity; i++] of [initOffSenderPool], from
    index [i], filling [pool[i]] with a sender for [addrs[i%length]].  On error
    the clean-up closes nothing: it asserts the type [Sender] on values of type
    [*Sender]. *)
Fixpoint fill_pool (mk : string → error + Sender) (addrs : list string) (i n : nat)
    : error + list (option Sender) :=
  match n with
  | O => inr []
  | S n' =>
      match mk (default "" (addrs !! (i mod length addrs)%nat)) with
      | inl e => inl e
      | inr t => match fill_pool mk addrs (S i) n' with
                 | inl e => inl e
                 | inr ts => inr (Some t :: ts)
                 end
      end
  end.

Definition initOffSenderPool {S} (cfg : ConfigPushd) (capacity : Z) (addrs : list string)
    : M S (error + OffSenderPool) :=
  match addrs with
  | [] => mret (inl (NewError "地址为空"))
  | _ =>
      if capacity <? 0 then panic "makeslice: len out of range" else
      match fill_pool (newSender cfg) addrs 0 (Z.to_nat capacity) with
      | inl e => mret (inl e)
      | inr ts => mret (inr (mkPool ts 0 (wrap32 capacity)))
      end
  end.

(** ** [ObtainOneOffSender], one goroutine

    The program points of the loop; the second read overwrites the first. *)
Inductive pc : Type :=
| PStart                  (* before [now = atomic.LoadInt32(&this.baton)] *)
| PLoaded (now : Z)       (* before [now = senderPool.baton] *)
| PCas (now : Z)          (* before the compare-and-swap *)
| PDone (hitLoc : Z)      (* after the loop: [return this.pool[hitLoc]] *)
| PPanic.                 (* integer divide by zero *)

Definition hit_of (now sz : Z) : Z := Z.rem (wrap32 (now + 1)) sz.

Definition pc_step (p : OffSenderPool) (c : pc) : OffSenderPool * pc :=
  match c with
  | PStart => (p, PLoaded (baton p))
  | PLoaded _ => (p, PCas (baton p))
  | PCas now =>
      if size p =? 0 then (p, PPanic) else
      let hitLoc := hit_of now (size p) in
      if baton p =? now then (mkPool (pool p) hitLoc (size p), PDone hitLoc)
      else (p, PStart)
  | PDone h => (p, PDone h)
  | PPanic => (p, PPanic)
  end.

(** ** All goroutines

    [hits] is a history: the slots handed out so far, oldest first. *)
Record sys : Type := mkSys { shared : OffSenderPool; threads : gmap nat pc; hits : list Z }.

Definition is_done (c : pc) : list Z := match c with PDone h => [h] | _ => [] end.

Inductive step : sys → sys → Prop :=
| step_call s t :
    threads s !! t = None →
    step s (mkSys (shared s) (<[t := PStart]> (threads s)) (hits s))
| step_run s t c p' c' :
    threads s !! t = Some c → is_done c = [] → pc_step (shared s) c = (p', c') →
    step s (mkSys p' (<[t := c']> (threads s)) (hits s ++ is_done c')).

Definition started (ts : list (option Sender)) (n : Z) : sys := mkSys (mkPool ts 0 n) ∅ [].

(** The specification: slot [k+1 mod n] to the [k]-th caller to be served. *)
Definition round_robin (n : Z) (k : nat) : Z := (Z.of_nat k + 1) mod n.

Definition inv (ts : list (option Sender)) (n : Z) (s : sys) : Prop :=
  size (shared s) = n ∧ pool (shared s) = ts
  ∧ baton (shared s) = Z.of_nat (length (hits s)) mod n
  ∧ hits s = round_robin n <$> seq 0 (length (hits s))
  ∧ (∀ t c, threads s !! t = Some c →
       c ≠ PPanic ∧ (∀ h, c = PDone h → h ∈ hits s)).

(** One goroutine running alone for [k] steps. *)
Fixpoint solo (k : nat) (p : OffSenderPool) (c : pc) : OffSenderPool * pc :=
  match k with
  | O => (p, c)
  | S k' => let '(p', c') := pc_step p c in solo k' p' c'
  end.

(** A schedule: each entry lets one goroutine take one step. *)
Definition sched_step (s : sys) (t : nat) : sys :=
  match threads s !! t with
  | None => mkSys (shared s) (<[t := PStart]> (threads s)) (hits s)
  | Some c =>
      match is_done c with
      | [] => let '(p', c') := pc_step (shared s) c in
              mkSys p' (<[t := c']> (threads s)) (hits s ++ is_done c')
      | _ => s
      end
  end.

(** ** Lemmas *)
Lemma sched_rtc (l : list nat) s : rtc step s (foldl sched_step s l).
Proof.
  revert s. induction l as [|t l IH]; intros s; [apply rtc_refl|].
  simpl. transitivity (sched_step s t); [|apply IH].
  unfold sched_step. destruct (threads s !! t) as [c|] eqn:Ht;
    [|by apply rtc_once, step_call].
  destruct (is_done c) eqn:Hd; [|apply rtc_refl].
  destruct (pc_step (shared s) c) as [p' c'] eqn:E. apply rtc_once.
  by eapply step_run.
Qed.

Lemma hit_of_mod k n :
  0 < n < 2 ^ 31 → hit_of (k mod n) n = (k + 1) mod n.
Proof.
  intros Hn. unfold hit_of. pose proof (Z.mod_pos_bound k n ltac:(lia)) as Hk.
  assert (wrap32 (k mod n + 1) = k mod n + 1) as ->.
  { unfold wrap32. rewrite Z.mod_small; lia. }
  rewrite Z.rem_mod_nonneg by lia. by rewrite Zplus_mod_idemp_l.
Qed.

Lemma round_robin_snoc n k :
  (round_robin n <$> seq 0 k) ++ [round_robin n k] = round_robin n <$> seq 0 (S k).
Proof. rewrite seq_S, fmap_app. done. Qed.

Lemma inv_started ts n : 0 < n → inv ts n (started ts n).
Proof. intros Hn. split_and!; try done. Qed.

Lemma inv_run ts n s t c p' c' :
  0 < n < 2 ^ 31 → inv ts n s → threads s !! t = Some c → is_done c = [] →
  pc_step (shared s) c = (p', c') →
  inv ts n (mkSys p' (<[t := c']> (threads s)) (hits s ++ is_done c')).
Proof.
  intros Hn (Hsz & Hpl & Hb & Hh & Ht) Hc Hd Hstep.
  assert (∀ c1 hs, c1 ≠ PPanic → (∀ h, c1 = PDone h → h ∈ hs) → hits s ⊆ hs →
    ∀ t' c2, <[t := c1]> (threads s) !! t' = Some c2 →
    c2 ≠ PPanic ∧ (∀ h, c2 = PDone h → h ∈ hs)) as Hthr.
  { intros c1 hs Hc1 Hc1d Hsub t' c2. rewrite lookup_insert. case_decide.
    - by intros [= <-].
    - intros [? Hin]%Ht. split; [done|]. intros h ->. by apply Hsub, Hin. }
  destruct c as [|now|now|h|]; simpl in *; try done;
    [injection Hstep as <- <- | injection Hstep as <- <- |
     destruct (Z.eqb_spec (size (shared s)) 0); [lia|];
     destruct (Z.eqb_spec (baton (shared s)) now) as [<-|Hne]; injection Hstep as <- <- |
     by destruct (Ht _ _ Hc) as [[] _]];
    simpl; rewrite ?app_nil_r; unfold inv; simpl;
    try (split_and!; [done..|]; apply Hthr; naive_solver).
  rewrite Hb, Hsz, hit_of_mod, length_app, Nat.add_1_r by done.
  split_and!; [done|done| | |].
  - f_equal. lia.
  - rewrite <- round_robin_snoc. by f_equal.
  - apply Hthr; [done| | set_solver]. intros h [= <-]. set_solver.
Qed.

Lemma inv_step ts n s s' : 0 < n < 2 ^ 31 → inv ts n s → step s s' → inv ts n s'.
Proof.
  intros Hn Hi Hstep. destruct Hstep as [s t Hnone | s t c p' c' Hc Hd Hs];
    [|by eapply inv_run].
  destruct Hi as (? & ? & ? & ? & Ht). split_and!; try done.
  intros t' c. simpl. rewrite lookup_insert. case_decide; [by intros [= <-] | apply Ht].
Qed.

Lemma inv_reachable ts n s :
  0 < n < 2 ^ 31 → rtc step (started ts n) s → inv ts n s.
Proof.
  intros Hn Hr. apply (rtc_ind_r (R := step) (inv ts n) (started ts n));
    [by apply inv_started; lia | eauto using inv_step | done].
Qed.

Lemma fill_pool_ok cfg addrs i n :
  fill_pool (newSender cfg) addrs i n
  = inr (replicate n (Some (mkSender (JpushSecretKey cfg) (JpushAppKey cfg)))).
Proof. revert i. induction n as [|n IH]; intros i; simpl; [done|]. by rewrite IH. Qed.

(** ** Properties *)

(** (C39) Whatever the interleaving of the goroutines in the compare-and-swap
    loop, the senders are handed out in strict rotation: the [k]-th call to get
    past the loop gets slot [(k+1) mod n], every slot handed out is an index of
    the pool, and no goroutine panics. *)
Theorem ObtainOneOffSender_round_robin (ts : list (option Sender)) (s : sys)
    (Hn : 0 < Z.of_nat (length ts) < 2 ^ 31)
    (Hr : rtc step (started ts (Z.of_nat (length ts))) s) :
  hits s = round_robin (Z.of_nat (length ts)) <$> seq 0 (length (hits s))
  ∧ (∀ t h, threads s !! t = Some (PDone h) →
       h ∈ hits s ∧ is_Some (pool (shared s) !! Z.to_nat h))
  ∧ (∀ t, threads s !! t ≠ Some PPanic).
Proof.
  destruct (inv_reachable ts _ s Hn Hr) as (Hsz & Hpl & Hb & Hh & Ht).
  split_and!; [done| |].
  - intros t h Hth. destruct (Ht _ _ Hth) as [_ Hin]. specialize (Hin h eq_refl).
    split; [done|]. rewrite Hpl. apply lookup_lt_is_Some_2. rewrite Hh in Hin.
    apply list_elem_of_fmap in Hin as (k & -> & _). unfold round_robin.
    pose proof (Z.mod_pos_bound (Z.of_nat k + 1) (Z.of_nat (length ts))). lia.
  - intros t Hp. by destruct (Ht _ _ Hp) as [[] _].
Qed.

(** The loop terminates for a goroutine that is left alone: from any
    program point it returns a slot within four of its own steps, whatever
    stale value it had read before. *)
Theorem ObtainOneOffSender_terminates (p : OffSenderPool) (c : pc)
    (Hsz : size p ≠ 0) (Hc : c ≠ PPanic) :
  ∃ k h, (k ≤ 4)%nat ∧ (solo k p c).2 = PDone h.
Proof.
  assert (∃ h, (solo 1 p (PCas (baton p))).2 = PDone h) as [h Hh].
  { simpl. rewrite (proj2 (Z.eqb_neq _ _) Hsz), Z.eqb_refl. eauto. }
  destruct c as [|now|now|h'|]; [| | | |done].
  - by exists 3%nat, h; split; [lia|].
  - by exists 2%nat, h; split; [lia|].
  - destruct (Z.eqb_spec (baton p) now) as [<-|Hne].
    + by exists 1%nat, h; split; [lia|].
    + exists 4%nat, h. split; [lia|]. simpl.
      rewrite (proj2 (Z.eqb_neq _ _) Hsz), (proj2 (Z.eqb_neq _ _) Hne). exact Hh.
  - by exists 0%nat, h'; split; [lia|].
Qed.

(** [initOffSenderPool] refuses an empty address list and otherwise
    builds a pool of exactly [capacity] usable senders, the state from which
    the rotation starts. *)
Theorem initOffSenderPool_spec {S} (cfg : ConfigPushd) (capacity : Z) (addrs : list string)
    (s : S) (Hcap : 0 <= capacity < 2 ^ 31) :
  initOffSenderPool cfg capacity addrs s
  = (Ret (match addrs with
          | [] => inl (NewError "地址为空")
          | _ => inr (shared (started
                   (replicate (Z.to_nat capacity)
                      (Some (mkSender (JpushSecretKey cfg) (JpushAppKey cfg)))) capacity))
          end), s).
Proof.
  unfold initOffSenderPool. destruct addrs as [|a addrs]; [done|].
  rewrite (proj2 (Z.ltb_ge capacity 0)) by lia. rewrite fill_pool_ok. cbn.
  unfold wrap32. rewrite Z.mod_small by lia.
  by replace (capacity + 2 ^ 31 - 2 ^ 31) with capacity by lia.
Qed.

(** Two goroutines race for the same baton value: one loses, retries and gets
    the next slot. *)
Lemma ObtainOneOffSender_round_robin_witness :
  let ts := replicate 2 (Some (mkSender "secret" "app")) in
  let s := foldl sched_step (started ts 2) [0; 1; 0; 1; 0; 1; 0; 1; 1; 1; 1]%nat in
  hits s = [1; 0] ∧ hits s = round_robin 2 <$> seq 0 (length (hits s)).
Proof.
  intros ts s. split; [vm_compute; reflexivity|].
  apply (ObtainOneOffSender_round_robin ts s); [done | apply sched_rtc].
Defined.

Lemma ObtainOneOffSender_terminates_witness :
  ∃ k h, (k ≤ 4)%nat ∧ (solo k (mkPool [Some (mkSender "s" "a")] 0 1) (PCas 7)).2 = PDone h.
Proof. apply ObtainOneOffSender_terminates; discriminate. Defined.

Lemma initOffSenderPool_spec_witness :
  ∃ cfg p, initOffSenderPool cfg 3 ["127.0.0.1:1"] tt = (Ret (inr p), tt) ∧ size p = 3.
Proof.
  set (cfg := example_config 0 None).
  exists cfg. eexists. split; [apply (initOffSenderPool_spec cfg 3 ["127.0.0.1:1"] tt); done|].
  reflexivity.
Defined.
