(* ===== verification/UserIdCache.v ===== *)
(** * The cache from chat rooms to their members (engine/offpush.go)

    [ChannelToUserIds] is an LRU cache from a channel id to a pointer to a
    [UserIdCollection]; the collections live in a heap, since the code keeps
    and mutates pointers to them.  The component refines a partial map from
    channels to sets of user ids in which any entry other than the one being
    written may disappear. *)
From S2P Require Import Prelude GoStrings Deps RefDeps.

Local Open Scope string_scope.
Local Open Scope list_scope.

Section cache.
  Context {LC : LruCache} {GS : GoSet}.

(** [UserIdCollection]: its lock is implicit, every operation below being
    atomic with respect to it. *)
Record UserIdCollection : Type := mkUserIds { userIds : goset string }.

Definition newUserIdCollection : UserIdCollection := mkUserIds set_NewSet.

Record ChannelToUserIds : Type := mkCache {
  uc_lru : lru ptr;
  uc_heap : gmap ptr UserIdCollection
}.

Definition newChannelToUserIds (maxChannelCache : Z) : ChannelToUserIds :=
  mkCache (NewLruCache maxChannelCache) ∅.

(** ** Operations *)
Definition set_lru (c : lru ptr) : M ChannelToUserIds unit :=
  modify (λ st, mkCache c (uc_heap st)).

Definition lru_get_or_add (channel : string) (p : ptr) : M ChannelToUserIds ptr :=
  c ← gets uc_lru;
  let '(c', v) := lru_GetOrAdd c channel p in
  _ ← set_lru c'; mret v.

(** [new(UserIdCollection)] *)
Definition alloc_collection (col : UserIdCollection) : M ChannelToUserIds ptr := λ st,
  let p := fresh (dom (uc_heap st)) in
  (Ret p, mkCache (uc_lru st) (<[p := col]> (uc_heap st))).

Definition addNewKeyEmptyValue (channel : string) : M ChannelToUserIds ptr :=
  p ← alloc_collection newUserIdCollection;
  lru_get_or_add channel p.

Definition getValue (channel : string) : M ChannelToUserIds (option ptr) :=
  c ← gets uc_lru;
  let '(c', o) := lru_Get c channel in
  _ ← set_lru c'; mret o.

Definition load_collection (p : ptr) : M ChannelToUserIds UserIdCollection :=
  h ← gets uc_heap; deref "invalid memory address or nil pointer dereference" (h !! p).

Definition store_collection (p : ptr) (col : UserIdCollection) : M ChannelToUserIds unit :=
  modify (λ st, mkCache (uc_lru st) (<[p := col]> (uc_heap st))).

Definition find_or_create (channel : string) : M ChannelToUserIds ptr :=
  o ← getValue channel;
  match o with
  | Some p => mret p
  | None => addNewKeyEmptyValue channel
  end.

Definition AddUserId (channel userId : string) : M ChannelToUserIds unit :=
  p ← find_or_create channel;
  col ← load_collection p;
  store_collection p (mkUserIds (set_Add (userIds col) userId).1).

Definition AddAllUserIds (channel : string) (freshUserIds : list string)
    : M ChannelToUserIds unit :=
  p ← find_or_create channel;
  col ← load_collection p;
  store_collection p
    (mkUserIds (foldl (λ s userId, (set_Add s userId).1) (userIds col) freshUserIds)).

Definition RemoveUserId (channel userId : string) : M ChannelToUserIds unit :=
  o ← getValue channel;
  match o with
  | None => mret tt
  | Some p =>
      col ← load_collection p;
      store_collection p (mkUserIds (set_Remove (userIds col) userId))
  end.

(** [make([]string, len(userIds))] followed by one [append] per member: the
    result starts with as many empty strings as the room has members. *)
Definition GetUserIdsByChannel (channel : string) : M ChannelToUserIds (option (list string)) :=
  o ← getValue channel;
  match o with
  | None => mret None
  | Some p =>
      col ← load_collection p;
      let elems := set_elems (userIds col) in
      mret (Some (replicate (length elems) "" ++ elems))
  end.

Definition Exists (channel : string) : M ChannelToUserIds bool :=
  r ← GetUserIdsByChannel channel;
  mret (match r with Some _ => true | None => false end).

Definition Del (channel : string) : M ChannelToUserIds unit :=
  c ← gets uc_lru; set_lru (lru_Del c channel).

(** ** The operations as data, and their specification *)
Inductive op : Type :=
| OpAdd (channel userId : string)
| OpAddAll (channel : string) (us : list string)
| OpRemove (channel userId : string)
| OpGet (channel : string)
| OpExists (channel : string)
| OpDel (channel : string).

Definition run_op (o : op) : M ChannelToUserIds (option (list string)) :=
  match o with
  | OpAdd c u => _ ← AddUserId c u; mret None
  | OpAddAll c us => _ ← AddAllUserIds c us; mret None
  | OpRemove c u => _ ← RemoveUserId c u; mret None
  | OpGet c => GetUserIdsByChannel c
  | OpExists c => b ← Exists c; mret (if b : bool then Some [] else None)
  | OpDel c => _ ← Del c; mret None
  end.

Definition rooms : Type := string → option (gset string).

(** Entry [c] becomes [v]; any other entry stays or is evicted. *)
Definition write (c : string) (v : option (gset string)) (m m' : rooms) : Prop :=
  m' c = v ∧ ∀ c', c' ≠ c → m' c' = m c' ∨ m' c' = None.

(** A list that shows a set: blanks, then the members once each. *)
Definition shows (l : list string) (s : gset string) : Prop :=
  ∃ l', l = replicate (size s) "" ++ l' ∧ NoDup l' ∧ list_to_set l' = s.

Definition spec_op (o : op) (m : rooms) (r : option (list string)) (m' : rooms) : Prop :=
  match o with
  | OpAdd c u => r = None ∧ write c (Some ({[u]} ∪ default ∅ (m c))) m m'
  | OpAddAll c us => r = None ∧ write c (Some (list_to_set us ∪ default ∅ (m c))) m m'
  | OpRemove c u =>
      r = None ∧ ∀ c', m' c' = if decide (c' = c) then (.∖ {[u]}) <$> m c else m c'
  | OpGet c => (∀ c', m' c' = m c') ∧ match m c, r with
                        | Some s, Some l => shows l s
                        | None, None => True
                        | _, _ => False
                        end
  | OpExists c => (∀ c', m' c' = m c') ∧ r = (λ _, []) <$> m c
  | OpDel c => r = None ∧ ∀ c', m' c' = if decide (c' = c) then None else m c'
  end.

Inductive spec_run : list op → rooms → list (option (list string)) → rooms → Prop :=
| spec_run_nil m : spec_run [] m [] m
| spec_run_cons o ops m r m1 rs m2 :
    spec_op o m r m1 → spec_run ops m1 rs m2 → spec_run (o :: ops) m (r :: rs) m2.

(** What the concrete state says about each room. *)
Definition members (st : ChannelToUserIds) : rooms := λ c,
  p ← lru_find (uc_lru st) c;
  col ← uc_heap st !! p;
  Some (list_to_set (set_elems (userIds col))).

(** Every cached pointer is live, and no two rooms share a collection. *)
Definition cache_wf (st : ChannelToUserIds) : Prop :=
  (∀ c p, lru_find (uc_lru st) c = Some p → is_Some (uc_heap st !! p))
  ∧ (∀ c c' p, lru_find (uc_lru st) c = Some p → lru_find (uc_lru st) c' = Some p → c = c').
(** The state after a lookup: only recency has changed. *)
Definition touch (c : string) (st : ChannelToUserIds) : ChannelToUserIds :=
  mkCache (lru_Get (uc_lru st) c).1 (uc_heap st).

(** ** Lemmas *)
Context {LL : LruLaws} {GL : GoSetLaws}.

(** No cached room gets another collection. *)
Definition lru_kept (st st' : ChannelToUserIds) : Prop := ∀ c p,
  lru_find (uc_lru st) c = Some p →
  lru_find (uc_lru st') c = Some p ∨ lru_find (uc_lru st') c = None.

Lemma getValue_run c st : getValue c st = (Ret (lru_find (uc_lru st) c), touch c st).
Proof. unfold getValue, lru_find, touch. mred. by destruct (lru_Get (uc_lru st) c). Qed.

Lemma members_touch c st c' : members (touch c st) c' = members st c'.
Proof. unfold members, touch. simpl. by rewrite lru_find_Get. Qed.

Lemma wf_touch c st : cache_wf st → cache_wf (touch c st).
Proof.
  unfold cache_wf, touch. simpl. intros [Hl Hi]. split.
  - intros c' p. rewrite lru_find_Get. apply Hl.
  - intros c1 c2 p. rewrite !lru_find_Get. apply Hi.
Qed.

Lemma members_Some st c p col :
  lru_find (uc_lru st) c = Some p → uc_heap st !! p = Some col →
  members st c = Some (list_to_set (set_elems (userIds col))).
Proof. intros H1 H2. unfold members. by rewrite H1; simpl; rewrite H2. Qed.

Lemma members_None st c : lru_find (uc_lru st) c = None → members st c = None.
Proof. intros H1. unfold members. by rewrite H1. Qed.

(** A cached room has a live collection. *)
Lemma wf_lookup st c p :
  cache_wf st → lru_find (uc_lru st) c = Some p → ∃ col, uc_heap st !! p = Some col.
Proof. intros [Hl _] Hp. by destruct (Hl _ _ Hp) as [col Hcol]; exists col. Qed.

(** Inserting a fresh empty collection for an absent room. *)
Lemma add_new_run c st :
  cache_wf st → lru_find (uc_lru st) c = None →
  ∃ p st', addNewKeyEmptyValue c st = (Ret p, st') ∧ cache_wf st'
    ∧ lru_find (uc_lru st') c = Some p ∧ uc_heap st' !! p = Some newUserIdCollection
    ∧ lru_kept st st'
    ∧ ∀ c', c' ≠ c → members st' c' = members st c' ∨ members st' c' = None.
Proof.
  intros [Hl Hi] Hnone. unfold addNewKeyEmptyValue, lru_get_or_add, alloc_collection.
  mred. set (p := fresh (dom (uc_heap st))).
  destruct (lru_GetOrAdd_spec _ (uc_lru st) c p) as [Hv Hf].
  pose proof (λ c' Hne, lru_GetOrAdd_ne _ (uc_lru st) c c' p Hne) as Hne.
  destruct (lru_GetOrAdd (uc_lru st) c p) as [l' v]. simpl in *. rewrite Hnone in Hv, Hf.
  simpl in *. subst v.
  assert (uc_heap st !! p = None) as Hp
    by apply not_elem_of_dom, is_fresh.
  assert (∀ c' q, c' ≠ c → lru_find l' c' = Some q → lru_find (uc_lru st) c' = Some q) as Hold.
  { intros c' q Hc Hq. destruct (Hne c' (not_eq_sym Hc)) as [E|E]; congruence. }
  assert (∀ c' q, c' ≠ c → lru_find l' c' = Some q → p ≠ q) as Hpq.
  { intros c' q Hc Hq <-. destruct (Hl c' p (Hold _ _ Hc Hq)) as [? ?]. congruence. }
  eexists p, _. split; [done|]. simpl. split_and!; [split|exact Hf|apply lookup_insert_eq| |].
  - intros c' q Hq. destruct (decide (c' = c)) as [->|Hc]; simpl in *.
    + rewrite Hf in Hq. injection Hq as <-. rewrite lookup_insert_eq. eauto.
    + rewrite lookup_insert_ne by eauto. eauto.
  - simpl. intros c1 c2 q H1 H2.
    destruct (decide (c1 = c)) as [->|Hc1], (decide (c2 = c)) as [->|Hc2]; try done.
    + exfalso. apply (Hpq c2 q); [done..|congruence].
    + exfalso. apply (Hpq c1 q); [done..|congruence].
    + by apply (Hi c1 c2 q); apply Hold.
  - intros c' q Hq. destruct (decide (c' = c)) as [->|Hc]; [congruence|].
    simpl. destruct (Hne c' (not_eq_sym Hc)) as [E|E]; [left|right]; congruence.
  - intros c' Hc. unfold members. simpl. destruct (lru_find l' c') as [q|] eqn:Eq; [|by right].
    left. rewrite (Hold _ _ Hc Eq). simpl. by rewrite lookup_insert_ne by eauto.
Qed.

Lemma find_or_create_run c st :
  cache_wf st →
  ∃ p st' col, find_or_create c st = (Ret p, st') ∧ cache_wf st'
    ∧ lru_find (uc_lru st') c = Some p ∧ uc_heap st' !! p = Some col
    ∧ list_to_set (set_elems (userIds col)) =@{gset string} default ∅ (members st c)
    ∧ lru_kept st st'
    ∧ ∀ c', c' ≠ c → members st' c' = members st c' ∨ members st' c' = None.
Proof.
  intros Hwf. unfold find_or_create. mstep (getValue_run c st).
  destruct (lru_find (uc_lru st) c) as [p|] eqn:E.
  - destruct (wf_lookup _ _ _ Hwf E) as [col Hcol].
    exists p, (touch c st), col. split_and!; try done.
    + by apply wf_touch.
    + simpl. by rewrite lru_find_Get.
    + by rewrite (members_Some _ _ _ _ E Hcol).
    + intros c' q Hq. left. simpl. by rewrite lru_find_Get.
    + intros c' _. left. apply members_touch.
  - destruct (add_new_run c (touch c st)) as (p & st' & Hrun & Hwf' & Hf & Hh & Hk & Hm).
    + by apply wf_touch.
    + simpl. by rewrite lru_find_Get.
    + exists p, st', newUserIdCollection. split_and!; try done.
      * rewrite members_None by done. simpl. by rewrite set_elems_New.
      * intros c' q Hq. apply Hk. simpl. by rewrite lru_find_Get.
      * intros c' Hc. rewrite <- (members_touch c st c'). by apply Hm.
Qed.

(** Overwriting the collection of one room. *)
Lemma store_run c p col st :
  cache_wf st → lru_find (uc_lru st) c = Some p →
  let st' := mkCache (uc_lru st) (<[p := col]> (uc_heap st)) in
  cache_wf st' ∧ members st' c = Some (list_to_set (set_elems (userIds col)))
  ∧ ∀ c', c' ≠ c → members st' c' = members st c'.
Proof.
  intros [Hl Hi] Hp st'. split_and!.
  - split; [|done]. simpl. intros c' q Hq. rewrite lookup_insert. case_decide; eauto.
  - apply (members_Some _ _ p); [done|]. apply lookup_insert_eq.
  - intros c' Hc. unfold members. simpl. destruct (lru_find (uc_lru st) c') as [q|] eqn:E; [|done].
    simpl. rewrite lookup_insert_ne; [done|]. intros ->. by apply Hc, (Hi _ _ q).
Qed.

Lemma write_store c p col st st1 v :
  cache_wf st1 → lru_find (uc_lru st1) c = Some p →
  (∀ c', c' ≠ c → members st1 c' = members st c' ∨ members st1 c' = None) →
  list_to_set (set_elems (userIds col)) = v →
  ∃ st', store_collection p col st1 = (Ret tt, st') ∧ cache_wf st'
         ∧ write c (Some v) (members st) (members st').
Proof.
  intros Hwf Hp Hm <-. destruct (store_run c p col st1 Hwf Hp) as (Hwf' & Hc & Ho).
  eexists. split; [reflexivity|]. split; [done|]. split; [done|].
  intros c' Hc'. rewrite Ho by done. by apply Hm.
Qed.

(** The elements of a collection, as [GetUserIdsByChannel] returns them. *)
Lemma shows_elems (col : UserIdCollection) :
  shows (replicate (length (set_elems (userIds col))) "" ++ set_elems (userIds col))
        (list_to_set (set_elems (userIds col))).
Proof.
  exists (set_elems (userIds col)). pose proof (set_elems_NoDup _ (userIds col)) as Hnd.
  split_and!; [|done|done]. by rewrite size_list_to_set.
Qed.

Lemma GetUserIds_run c st :
  cache_wf st →
  ∃ r, GetUserIdsByChannel c st = (Ret r, touch c st)
       ∧ match members st c, r with
         | Some s, Some l => shows l s
         | None, None => True
         | _, _ => False
         end.
Proof.
  intros Hwf. unfold GetUserIdsByChannel. mstep (getValue_run c st).
  destruct (lru_find (uc_lru st) c) as [p|] eqn:E.
  - destruct (wf_lookup _ _ _ Hwf E) as [col Hcol]. unfold load_collection. mred.
    rewrite Hcol. eexists. split; [done|]. rewrite (members_Some _ _ _ _ E Hcol).
    apply shows_elems.
  - rewrite members_None by done. by exists None.
Qed.

(** Changing the collection of a room, created if need be. *)
Lemma change_room_run c (f : goset string → goset string) (us : gset string) st :
  cache_wf st →
  (∀ s x, x ∈ set_elems (f s) ↔ x ∈ us ∨ x ∈ set_elems s) →
  ∃ st', (p ← find_or_create c; col ← load_collection p;
          store_collection p (mkUserIds (f (userIds col)))) st = (Ret tt, st')
         ∧ cache_wf st' ∧ write c (Some (us ∪ default ∅ (members st c))) (members st) (members st').
Proof.
  intros Hwf Hf.
  destruct (find_or_create_run c st Hwf) as (p & st1 & col & Hrun & Hwf1 & Hp & Hcol & Hm & _ & Ho).
  destruct (write_store c p (mkUserIds (f (userIds col))) st st1
              (us ∪ default ∅ (members st c))) as (st2 & Hst & Hwf2 & Hw); try done.
  { apply set_eq. intros x. simpl. rewrite elem_of_list_to_set, Hf, <- Hm. set_solver. }
  exists st2. split_and!; try done. unfold load_collection. mred. rewrite Hrun. mred.
  by rewrite Hcol, Hst.
Qed.

Lemma RemoveUserId_run c u st :
  cache_wf st →
  ∃ st', RemoveUserId c u st = (Ret tt, st') ∧ cache_wf st'
         ∧ ∀ c', members st' c' = if decide (c' = c) then (.∖ {[u]}) <$> members st c
                                  else members st c'.
Proof.
  intros Hwf. unfold RemoveUserId. mstep (getValue_run c st).
  destruct (lru_find (uc_lru st) c) as [p|] eqn:E.
  - destruct (wf_lookup _ _ _ Hwf E) as [col Hcol]. unfold load_collection. mred. rewrite Hcol.
    destruct (store_run c p (mkUserIds (set_Remove (userIds col) u)) (touch c st))
      as (Hwf' & Hc & Ho); [by apply wf_touch|simpl; by rewrite lru_find_Get|].
    eexists. split; [reflexivity|]. split; [exact Hwf'|].
    intros c'. case_decide as Hd; [subst|rewrite (Ho _ Hd); apply members_touch].
    rewrite Hc, (members_Some _ _ _ _ E Hcol). simpl. f_equal. apply set_eq. intros x.
    rewrite elem_of_list_to_set, set_elems_Remove. set_solver.
  - eexists. split; [reflexivity|]. split; [by apply wf_touch|].
    intros c'. rewrite members_touch. case_decide; [subst|done]. by rewrite members_None.
Qed.

Lemma Del_run c st :
  cache_wf st →
  ∃ st', Del c st = (Ret tt, st') ∧ cache_wf st'
         ∧ ∀ c', members st' c' = if decide (c' = c) then None else members st c'.
Proof.
  intros [Hl Hi]. unfold Del, set_lru. mred. eexists. split; [reflexivity|].
  assert (∀ c' q, lru_find (lru_Del (uc_lru st) c) c' = Some q →
                  lru_find (uc_lru st) c' = Some q) as Hsub.
  { intros c' q. destruct (decide (c' = c)) as [->|Hc];
      [by rewrite lru_find_Del | by rewrite lru_find_Del_ne]. }
  split; [split; simpl; eauto|]. intros c'. unfold members. simpl.
  case_decide as Hd; [subst; by rewrite lru_find_Del|]. by rewrite lru_find_Del_ne.
Qed.

Lemma run_op_spec o st :
  cache_wf st →
  ∃ r st', run_op o st = (Ret r, st') ∧ cache_wf st' ∧ spec_op o (members st) r (members st').
Proof.
  intros Hwf. destruct o as [c u|c us|c u|c|c|c]; cbn [run_op].
  - destruct (change_room_run c (λ s, (set_Add s u).1) {[u]} st Hwf) as (st' & Hr & ? & ?).
    { intros s x. rewrite set_elems_Add. set_solver. }
    exists None, st'. unfold AddUserId. by mstep Hr.
  - destruct (change_room_run c (λ s, foldl (λ s u, (set_Add s u).1) s us)
                (list_to_set us) st Hwf) as (st' & Hr & ? & ?).
    { intros s x. rewrite set_elems_foldl. set_solver. }
    exists None, st'. unfold AddAllUserIds. by mstep Hr.
  - destruct (RemoveUserId_run c u st Hwf) as (st' & Hr & ? & ?).
    exists None, st'. by mstep Hr.
  - destruct (GetUserIds_run c st Hwf) as (r & Hr & Hv). exists r, (touch c st).
    split; [done|]. split; [by apply wf_touch|]. split; [apply members_touch|done].
  - destruct (GetUserIds_run c st Hwf) as (r & Hr & Hv). unfold Exists. mred. rewrite Hr.
    eexists _, _. split; [reflexivity|]. split; [by apply wf_touch|].
    split; [apply members_touch|]. by destruct (members st c), r.
  - destruct (Del_run c st Hwf) as (st' & Hr & ? & ?).
    exists None, st'. by mstep Hr.
Qed.

Lemma run_ops_spec ops st :
  cache_wf st →
  ∃ rs st', collectM run_op ops st = (Ret rs, st')
            ∧ cache_wf st' ∧ spec_run ops (members st) rs (members st').
Proof.
  revert st. induction ops as [|o ops IH]; intros st Hwf.
  - exists [], st. split_and!; [done|done|constructor].
  - destruct (run_op_spec o st Hwf) as (r & st1 & Hr & Hwf1 & Hs).
    destruct (IH st1 Hwf1) as (rs & st2 & Hrs & Hwf2 & Hss).
    exists (r :: rs), st2. cbn [collectM]. mstep Hr. mstep Hrs.
    split_and!; [done|done|by econstructor].
Qed.

Lemma cache_wf_new n : cache_wf (newChannelToUserIds n).
Proof. split; simpl; intros *; by rewrite lru_find_new. Qed.

Lemma members_new n c : members (newChannelToUserIds n) c = None.
Proof. unfold members. simpl. by rewrite lru_find_new. Qed.

(** ** Properties *)

(** (C28) [ChannelToUserIds] refines a map from rooms to sets of user ids: from
    an empty cache, any sequence of operations runs without a nil dereference,
    keeps the store free of aliasing, and every result and every new content is
    one the specification allows; only whole rooms can be evicted. *)
Theorem ChannelToUserIds_refines (n : Z) (ops : list op) :
  ∃ rs st', collectM run_op ops (newChannelToUserIds n) = (Ret rs, st')
    ∧ cache_wf st' ∧ spec_run ops (members (newChannelToUserIds n)) rs (members st')
    ∧ ∀ c, members (newChannelToUserIds n) c = None.
Proof.
  destruct (run_ops_spec ops _ (cache_wf_new n)) as (rs & st' & ? & ? & ?).
  exists rs, st'. split_and!; [done..|apply members_new].
Qed.
End cache.

Import Ref.

Lemma ChannelToUserIds_refines_witness :
  ∃ rs st', collectM run_op [OpAddAll "room" ["u1"; "u2"]; OpRemove "room" "u1"; OpGet "room"]
              (newChannelToUserIds 10) = (Ret rs, st') ∧ rs = [None; None; Some [""; "u2"]].
Proof.
  destruct (ChannelToUserIds_refines 10
    [OpAddAll "room" ["u1"; "u2"]; OpRemove "room" "u1"; OpGet "room"])
    as (rs & st' & Hrun & _).
  exists rs, st'. split; [exact Hrun|]. vm_compute in Hrun. congruence.
Defined.
