(* ===== verification/Base.v ===== *)
(** * Database, clock and random sources as one state

    Most of the engine reads the clock, draws ids and talks to MongoDB; this
    file gives those calls as operations of the state monad over [Base]. *)
From S2P Require Import Prelude GoStrings Deps RefDeps.

Local Open Scope string_scope.
Local Open Scope list_scope.

Section base.
  Context {MG : Mongo} {EN : Env}.

(** [b_tick] counts the draws from the clock and the random sources. *)
Record Base : Type := mkBase { b_db : db; b_tick : nat }.

Definition on_db {A} (f : db → db * A) : M Base A := λ b,
  let '(d, r) := f (b_db b) in (Ret r, mkBase d (b_tick b)).

Definition draw {A} (f : nat → A) : M Base A := λ b,
  (Ret (f (b_tick b)), mkBase (b_db b) (S (b_tick b))).

(** [time.Now().UnixNano()] and [time.Now().Unix()] *)
Definition now_UnixNano : M Base Z := draw UnixNano.
Definition now_Unix : M Base Z := draw (λ n, UnixNano n / 1000000000)%Z.
Definition draw_rand (n : nat) : M Base string := draw (λ k, rand_Rand k n).
Definition draw_oid : M Base string := draw NewObjectId.

(** [db.MgoSession().DB("pushd").C(name)] *)
Definition C (name : string) : coll := mkcoll "pushd" name.

Definition findOne (c : coll) (q p : value) : M Base (error + value) :=
  on_db (λ d, mgo_one d c q p).
Definition findAll (c : coll) (q p : value) : M Base (list value * option error) :=
  on_db (λ d, mgo_all d c q p).
Definition applyOne (c : coll) (q u : value) : M Base (error + value) :=
  on_db (λ d, mgo_apply d c q u).
Definition insert_ (c : coll) (ds : list value) : M Base (option error) :=
  on_db (λ d, mgo_insert d c ds).
Definition update_ (c : coll) (q u : value) : M Base (option error) :=
  on_db (λ d, mgo_update d c q u).
Definition upsert_ (c : coll) (q u : value) : M Base (option error) :=
  on_db (λ d, mgo_upsert d c q u).
Definition remove_ (c : coll) (q : value) : M Base (option error) :=
  on_db (λ d, mgo_remove d c q).
Definition bulkUpdate (c : coll) (ps : list (value * value)) : M Base (option error) :=
  on_db (λ d, mgo_bulk_update d c ps).
Definition bulkUpsert (c : coll) (ps : list (value * value)) : M Base (option error) :=
  on_db (λ d, mgo_bulk_upsert d c ps).

(** [bson.M{"_id": id}] *)
Definition by_id (id : string) : value := VDoc [("_id", VStr id)].

(** [fmt.Sprintf("channel_stat.%s", channelId)] *)
Definition channelKey (channelId : string) : string := "channel_stat." +:+ channelId.
End base.

Import Ref.

(** The empty database of the reference store. *)
Definition example_base : Base (MG := ref_mongo) := mkBase (MG := ref_mongo) (∅ : store) 0.
