(* ===== verification/Storage.v ===== *)
(** * Message storage: package engine/storage

    [Serv] (storage.go) moves messages from the queue that [EnqueueMsg] fills
    to the storage driver, either one by one or through a write buffer that a
    second goroutine flushes every second.  The two goroutines and the
    producers are modelled as a step relation.  The Mongo driver
    (storage_mgo.go) is one implementation of the driver interface. *)
From Stdlib Require Import ZArith Lia Wellfounded.
From S2P Require Import Prelude GoStrings Deps RefDeps Base Config.

Local Open Scope string_scope.
Local Open Scope list_scope.
Local Open Scope nat_scope.

Section storage.
  Context {MG : Mongo} {EN : Env}.

Record MsgTuple : Type := mkMsg {
  m_Channel : string; m_Msg : string; m_Ts : Z; m_Uuid : string; m_MsgId : Z
}.

Record ChanUuidsTuple : Type := mkChanUuids {
  cu_ChannelId : string; cu_ChannelName : string; cu_Uuids : list string; cu_IsDel : bool
}.

(** The interface [storageDriver]. *)
Record storageDriver : Type := mkDriver {
  drv_store : MsgTuple → M Base (option error);
  drv_storeMulti : list MsgTuple → M Base (option error);
  drv_fetchByChannelAndTs : string → Z → M Base (list value * option error);
  drv_bindUuidToChannel : string → string → list string → M Base (option error);
  drv_rmUuidFromChannel : string → list string → M Base (option error)
}.

(** ** The Mongo driver *)
Definition msg_doc (mt : MsgTuple) : value :=
  VDoc [("channel", VStr (m_Channel mt)); ("msg", VStr (m_Msg mt)); ("ts", VInt64 (m_Ts mt));
        ("msgid", VInt64 (m_MsgId mt)); ("uuid", VStr (m_Uuid mt))].

Definition mongo_store (mt : MsgTuple) : M Base (option error) :=
  insert_ (C "msg_log") [msg_doc mt].

Definition mongo_storeMulti (mts : list MsgTuple) : M Base (option error) :=
  insert_ (C "msg_log") (msg_doc <$> mts).

Definition mongo_fetchByChannelAndTs (channel : string) (ts : Z)
    : M Base (list value * option error) :=
  if String.eqb channel "" then mret ([], Some (NewError "No channel specified")) else
  '(result, err) ← findAll (C "msg_log")
     (VDoc [("ts", VDoc [("$gt", VInt64 ts)]); ("channel", VStr channel)])
     (VDoc [("_id", VInt 0)]);
  match result with
  | [] => mret ([], None)
  | _ => mret (result, err)
  end.

(** [bson.M{"_id": v}] paired with an update, for each [v] of a list *)
Definition for_each (ids : list string) (u : value) : list (value * value) :=
  (λ v, (by_id v, u)) <$> ids.

Definition mongo_bindUuidToChannel (channelName channelId : string) (uuids : list string)
    : M Base (option error) :=
  if String.eqb channelId "" then mret (Some (NewError "channelId is empty")) else
  if (length uuids =? 0)%nat then mret (Some (NewError "uuids are empty")) else
  err ← (if String.eqb channelName ""
         then update_ (C "channel_uuids") (by_id channelId)
                (VDoc [("$addToSet", VDoc [("uuids", VDoc [("$each", VStrs uuids)])])])
         else insert_ (C "channel_uuids")
                [VDoc [("_id", VStr channelId); ("channel", VStr channelName);
                       ("uuids", VStrs uuids)]]);
  ts ← now_UnixNano;
  match err with
  | Some e => mret (Some e)
  | None =>
      _ ← bulkUpsert (C "uuid_channels")
            (for_each uuids (VDoc [("$addToSet", VDoc [("channels", VStr channelId)])]));
      bulkUpdate (C "user_info")
        (for_each uuids (VDoc [("$set", VDoc [(channelKey channelId, VInt64 ts)])]))
  end.

Definition mongo_rmUuidFromChannel (channelId : string) (uuids : list string)
    : M Base (option error) :=
  if String.eqb channelId "" then mret (Some (NewError "channel is empty")) else
  if (length uuids =? 0)%nat then mret (Some (NewError "uuids is empty")) else
  err ← update_ (C "channel_uuids") (by_id channelId)
          (VDoc [("$pullAll", VDoc [("uuids", VStrs uuids)])]);
  _ ← remove_ (C "channel_uuids") (VDoc [("_id", VStr channelId); ("uuids", VStrs [])]);
  match err with
  | Some e => mret (Some e)
  | None =>
      _ ← bulkUpdate (C "uuid_channels")
            (for_each uuids (VDoc [("$pull", VDoc [("channels", VStr channelId)])]));
      bulkUpdate (C "user_info")
        (for_each uuids (VDoc [("$unset", VDoc [(channelKey channelId, VInt 1)])]))
  end.

Definition newMongodbDriver : storageDriver :=
  mkDriver mongo_store mongo_storeMulti mongo_fetchByChannelAndTs
    mongo_bindUuidToChannel mongo_rmUuidFromChannel.

(** [nil] for any name but "mongodb" *)
Definition factory (driverType : string) : option storageDriver :=
  if String.eqb driverType "mongodb" then Some newMongodbDriver else None.

(** ** Functions of storage.go that only touch the database *)
Definition FetchUuidsAboutChannel (channelId : string) : M Base (list string) :=
  r ← findOne (C "channel_uuids") (by_id channelId)
        (VDoc [("uuids", VInt 1); ("_id", VInt 0)]);
  match r with
  | inr result => v ← doc_get result "uuids"; uuids ← as_arr v; collectM as_str uuids
  | inl _ => mret []
  end.

Definition FetchHistory (driver : option storageDriver) (channel : string) (ts : Z)
    : M Base (list value * option error) :=
  d ← deref "invalid memory address or nil pointer dereference" driver;
  drv_fetchByChannelAndTs d channel ts.

(** cache.go: the in-memory cache is disabled, both methods do nothing. *)
Definition cache_Store (mt : MsgTuple) : option error := None.
Definition cache_GetRange (channel : string) (ts : Z) : list value := [].

(** engine/history.go *)
Definition history (channel : string) (ts : Z) : list value * option error :=
  (cache_GetRange channel ts, None).
Definition fullHistory := FetchHistory.

(** The second goroutine of [Serv], on one tuple from the unbuffered
    [chanUuidsQueue] (nothing in the repository sends on it). *)
Definition serve_chanUuids (d : storageDriver) (cu : ChanUuidsTuple) : M Base (option error) :=
  if cu_IsDel cu then drv_rmUuidFromChannel d (cu_ChannelId cu) (cu_Uuids cu)
  else drv_bindUuidToChannel d (cu_ChannelName cu) (cu_ChannelId cu) (cu_Uuids cu).

(** ** [Serv]: the goroutines *)
Inductive main_pc : Type :=
| MRecv                      (* at [mt := <-msgQueue] *)
| MHold (mt : MsgTuple).     (* [mt] received, not yet stored or buffered *)

Inductive flush_pc : Type :=
| FWait                                          (* waiting for the ticker *)
| FCollect (todo : nat) (records : list MsgTuple). (* in the loop over cLen *)

(** [sent] and [handed] are histories: what [EnqueueMsg] put in the queue and
    what was passed to [store] or [storeMulti], oldest first. *)
Record serv : Type := mkServ {
  sv_base : Base;
  msgQueue : gochan MsgTuple;
  writeBuffer : gochan MsgTuple;
  sv_main : main_pc;
  sv_flush : flush_pc;
  sent : list MsgTuple;
  handed : list MsgTuple
}.

(** [Init]: the channels with their configured capacities. *)
Definition Init (cfg : ConfigPushd) (b : Base) : serv :=
  mkServ b (mkchan (Z.to_nat (MaxStorageOutstandingMsg cfg)) [])
    (mkchan (if Z.eqb (MsgFlushPolicy cfg) MSG_FLUSH_EVERY_TRX then 0
             else Z.to_nat (MsgStorageWriteBufferSize cfg)) [])
    MRecv FWait [] [].

(** A producer's [EnqueueMsg]; on an unbuffered queue it meets the receiver. *)
Inductive enqueue : serv → serv → Prop :=
| EnqueueMsg_buf b q wb m f s h mt :
    chan_full q = false →
    enqueue (mkServ b q wb m f s h) (mkServ b (chan_push mt q) wb m f (s ++ [mt]) h)
| EnqueueMsg_meet b q wb f s h mt :
    ch_cap q = 0 → ch_buf q = [] →
    enqueue (mkServ b q wb MRecv f s h) (mkServ b q wb (MHold mt) f (s ++ [mt]) h).

(** The two goroutines of [Serv]. *)
Inductive serve (policy : Z) (d : storageDriver) : serv → serv → Prop :=
| serv_recv b q n mt wb f s h :
    serve policy d (mkServ b (mkchan n (mt :: q)) wb MRecv f s h)
                   (mkServ b (mkchan n q) wb (MHold mt) f s h)
| serv_store b q wb mt f s h :
    policy = MSG_FLUSH_EVERY_TRX →
    serve policy d (mkServ b q wb (MHold mt) f s h)
                   (mkServ (drv_store d mt b).2 q wb MRecv f s (h ++ [mt]))
| serv_buffer b q wb mt f s h :
    policy ≠ MSG_FLUSH_EVERY_TRX → chan_full wb = false →
    serve policy d (mkServ b q wb (MHold mt) f s h)
                   (mkServ b q (chan_push mt wb) MRecv f s h)
| serv_tick b q wb m s h :
    policy = MSG_FLUSH_EVERY_SECOND → ch_buf wb ≠ [] →
    serve policy d (mkServ b q wb m FWait s h)
                   (mkServ b q wb m (FCollect (length (ch_buf wb)) []) s h)
| serv_collect b q n mt wb m k rs s h :
    serve policy d (mkServ b q (mkchan n (mt :: wb)) m (FCollect (S k) rs) s h)
                   (mkServ b q (mkchan n wb) m (FCollect k (rs ++ [mt])) s h)
| serv_flush b q wb m rs s h :
    serve policy d (mkServ b q wb m (FCollect 0 rs) s h)
                   (mkServ (drv_storeMulti d rs b).2 q wb m FWait s (h ++ rs)).

Definition serv_step (policy : Z) (d : storageDriver) (s s' : serv) : Prop :=
  enqueue s s' ∨ serve policy d s s'.

(** The messages in flight, oldest first. *)
Definition held (m : main_pc) : list MsgTuple := match m with MHold mt => [mt] | MRecv => [] end.
Definition collected (f : flush_pc) : list MsgTuple :=
  match f with FCollect _ rs => rs | FWait => [] end.
Definition in_flight (s : serv) : list MsgTuple :=
  collected (sv_flush s) ++ ch_buf (writeBuffer s) ++ held (sv_main s) ++ ch_buf (msgQueue s).

Definition serv_inv (s : serv) : Prop :=
  sent s = handed s ++ in_flight s
  ∧ match sv_flush s with
    | FWait => True
    | FCollect k rs => k ≤ length (ch_buf (writeBuffer s)) ∧ 0 < k + length rs
    end.

(** With [EVERY_TRX] the flusher never leaves its start and the buffer is empty. *)
Definition trx_inv (policy : Z) (s : serv) : Prop :=
  policy = MSG_FLUSH_EVERY_TRX → sv_flush s = FWait ∧ ch_buf (writeBuffer s) = [].

(** How much work the goroutines have left. *)
Definition weight (s : serv) : nat :=
  5 * length (ch_buf (msgQueue s)) + 4 * length (held (sv_main s))
  + 3 * length (ch_buf (writeBuffer s)) + 2 * length (collected (sv_flush s))
  + match sv_flush s with FWait => 1 | FCollect _ _ => 0 end.

(** ** Lemmas *)
Lemma serv_inv_step policy d s s' :
  trx_inv policy s → serv_inv s → serv_step policy d s s' → serv_inv s'.
Proof.
  intros Htrx [Hs Hf] Hstep. unfold trx_inv in Htrx. unfold serv_inv, in_flight in *.
  destruct Hstep as [Hstep|Hstep]; destruct Hstep; simpl in *; subst; split;
    try (repeat rewrite <- app_assoc; simpl; done);
    try (by destruct f); rewrite ?length_app; simpl; try lia.
  - match goal with E : ch_buf _ = [] |- _ => rewrite E end.
    rewrite app_nil_r. by rewrite <- !app_assoc.
  - destruct (Htrx eq_refl) as [-> ->]. simpl. by rewrite <- app_assoc.
  - destruct f; [done|]. lia.
  - split; [lia|]. destruct (ch_buf wb); simpl; [done|lia].
Qed.

Lemma trx_inv_step policy d s s' :
  trx_inv policy s → serv_step policy d s s' → trx_inv policy s'.
Proof.
  intros Hi [Hstep|Hstep] Hp; specialize (Hi Hp); destruct Hstep; simpl in *;
    naive_solver.
Qed.

Lemma serve_weight policy d s s' : serv_inv s → serve policy d s s' → weight s' < weight s.
Proof.
  intros [Hs Hf] Hstep. destruct Hstep; unfold weight; simpl in *;
    rewrite ?length_app; simpl in *; lia.
Qed.

(** When neither goroutine can move, nothing is in flight. *)
Lemma serve_stuck policy d s :
  (policy = MSG_FLUSH_EVERY_TRX ∨ policy = MSG_FLUSH_EVERY_SECOND) →
  (policy = MSG_FLUSH_EVERY_SECOND → 0 < ch_cap (writeBuffer s)) →
  trx_inv policy s → serv_inv s → (∀ s', ¬ serve policy d s s') → in_flight s = [].
Proof.
  intros Hp Hcap Htrx [_ Hf] Hno.
  destruct s as [b [nq q] [nw wb] m f sn h]. unfold in_flight, trx_inv in *. simpl in *.
  destruct f as [|[|k] rs]; simpl in *.
  - assert (wb = []) as ->.
    { destruct wb as [|mt wb]; [done|]. destruct Hp as [Hp|Hp]; [by destruct (Htrx Hp)|].
      exfalso. by eapply Hno, serv_tick. }
    destruct m as [|mt].
    + destruct q as [|mt q]; [done|]. exfalso. by eapply Hno, serv_recv.
    + exfalso. destruct Hp as [Hp|Hp]; [by eapply Hno, serv_store|].
      eapply Hno, serv_buffer; [by rewrite Hp|]. unfold chan_full. simpl.
      specialize (Hcap Hp). by destruct nw; [lia|].
  - exfalso. by eapply Hno, serv_flush.
  - destruct wb as [|mt wb]; simpl in *; [lia|]. exfalso. by eapply Hno, serv_collect.
Qed.
Lemma serve_frame policy d s s' :
  serve policy d s s' → sent s' = sent s ∧ ch_cap (writeBuffer s') = ch_cap (writeBuffer s).
Proof. by destruct 1. Qed.

Definition all_inv (policy : Z) (cap : nat) (s : serv) : Prop :=
  trx_inv policy s ∧ serv_inv s ∧ ch_cap (writeBuffer s) = cap.

Lemma all_inv_step policy d cap s s' :
  all_inv policy cap s → serv_step policy d s s' → all_inv policy cap s'.
Proof.
  intros (Ht & Hi & Hc) Hstep. split_and!; [by eapply trx_inv_step|by eapply serv_inv_step|].
  destruct Hstep as [Hstep|Hstep]; [by destruct Hstep|].
  by rewrite (proj2 (serve_frame _ _ _ _ Hstep)).
Qed.

Lemma all_inv_rtc policy d cap s s' :
  rtc (serv_step policy d) s s' → all_inv policy cap s → all_inv policy cap s'.
Proof. induction 1; eauto using all_inv_step. Qed.

Lemma all_inv_init cfg b :
  all_inv (MsgFlushPolicy cfg) (ch_cap (writeBuffer (Init cfg b))) (Init cfg b).
Proof. split_and!; [by split|by split|done]. Qed.

Lemma serve_sn policy d cap s : all_inv policy cap s → sn (serve policy d) s.
Proof.
  remember (weight s) as w eqn:Hw. revert s Hw.
  induction w as [w IH] using lt_wf_ind. intros s -> Hi. constructor. intros s' Hs.
  apply (IH (weight s')); [|done|].
  - destruct Hi as (_ & Hi & _). by apply (serve_weight policy d).
  - eapply all_inv_step; [done|by right].
Qed.

(** ** Properties *)

(** The storage pipeline is a FIFO: in every reachable state of the
    producers and of the two goroutines, under either flush policy, the
    messages passed to the driver so far followed by the messages in flight
    (records being flushed, write buffer, message in hand, queue) are exactly
    the messages enqueued, in order: none is lost, duplicated or reordered. *)
Theorem Serv_fifo (cfg : ConfigPushd) (d : storageDriver) (b : Base) (s : serv)
    (Hr : rtc (serv_step (MsgFlushPolicy cfg) d) (Init cfg b) s) :
  sent s = handed s ++ in_flight s.
Proof. apply (all_inv_rtc _ _ _ _ _ Hr (all_inv_init cfg b)). Qed.

(** (C27) The storage goroutines cannot get stuck or run for ever: from any
    reachable state, with a known flush policy and a non-empty write buffer
    capacity when one is used, every run of the two goroutines terminates, and
    when it can go no further every enqueued message has been handed to the
    driver. *)
Theorem Serv_drains (cfg : ConfigPushd) (d : storageDriver) (b : Base) (s : serv)
    (Hp : MsgFlushPolicy cfg = MSG_FLUSH_EVERY_TRX ∨ MsgFlushPolicy cfg = MSG_FLUSH_EVERY_SECOND)
    (Hcap : (0 < MsgStorageWriteBufferSize cfg)%Z)
    (Hr : rtc (serv_step (MsgFlushPolicy cfg) d) (Init cfg b) s) :
  sn (serve (MsgFlushPolicy cfg) d) s
  ∧ ∀ s', rtc (serve (MsgFlushPolicy cfg) d) s s' → nf (serve (MsgFlushPolicy cfg) d) s' →
          handed s' = sent s.
Proof.
  pose proof (all_inv_rtc _ _ _ _ _ Hr (all_inv_init cfg b)) as Hi.
  split; [by eapply serve_sn|]. intros s' Hr' Hnf.
  assert (sent s' = sent s) as <-.
  { clear -Hr'. induction Hr' as [|x y z Hxy _ IH]; [done|].
    by rewrite IH, (proj1 (serve_frame _ _ _ _ Hxy)). }
  assert (all_inv (MsgFlushPolicy cfg) (ch_cap (writeBuffer (Init cfg b))) s') as (Ht & Hs & Hc).
  { eapply all_inv_rtc, Hi. eapply rtc_subrel, Hr'. by right. }
  rewrite (proj1 Hs), (serve_stuck _ d s' Hp), app_nil_r; [done| |done|done|].
  - intros Hsec. rewrite Hc. simpl. rewrite Hsec. simpl. lia.
  - intros s'' Hs''. apply Hnf. by exists s''.
Qed.
End storage.

Import Ref.

(** Two messages: the first is being flushed while the second is in hand. *)
Definition example_m1 : MsgTuple := mkMsg "room" "hello" 1 "u1" 7.
Definition example_m2 : MsgTuple := mkMsg "room" "world" 2 "u2" 8.
Definition example_serv : serv (MG := ref_mongo) :=
  mkServ example_base (mkchan 100 []) (mkchan (Z.to_nat 10000) []) (MHold example_m2)
    (FCollect 0 [example_m1]) [example_m1; example_m2] [].

Lemma example_run :
  rtc (serv_step (MsgFlushPolicy (example_config 1 None)) newMongodbDriver)
    (Init (example_config 1 None) example_base) example_serv.
Proof.
  eapply rtc_l; [left; by apply EnqueueMsg_buf with (mt := example_m1)|].
  eapply rtc_l; [right; apply serv_recv|].
  eapply rtc_l; [right; by apply serv_buffer|].
  eapply rtc_l; [left; by apply EnqueueMsg_buf with (mt := example_m2)|].
  eapply rtc_l; [right; apply serv_recv|].
  eapply rtc_l; [right; by apply serv_tick|].
  eapply rtc_l; [right; apply serv_collect|].
  apply rtc_refl.
Qed.

Lemma Serv_fifo_witness :
  sent example_serv = handed example_serv ++ in_flight example_serv.
Proof. exact (Serv_fifo (example_config 1 None) newMongodbDriver _ _ example_run). Defined.

Lemma Serv_drains_witness :
  sn (serve (MsgFlushPolicy (example_config 1 None)) newMongodbDriver) example_serv.
Proof.
  apply (Serv_drains (example_config 1 None) newMongodbDriver example_base);
    [by right | done | apply example_run].
Defined.
