(* ===== verification/Router.v ===== *)
(** * Peers and routing (engine/router.go, engine/etcClient.go, engine/s2s_proxy.go)

    The router keeps one [*Peer] per other server and an LRU cache from a
    channel to the set of peers interested in it.  Sets and peers live in
    heaps: the cache hands out the set it stores, and the callers mutate it in
    place. *)
From Stdlib Require Import ZArith Lia.
From S2P Require Import Prelude GoStrings Wire Deps RefDeps Config.

Local Open Scope string_scope.
Local Open Scope list_scope.
Local Open Scope nat_scope.

(** ** TCP connections to other servers: [net] and golib's [server.Client]

    [None] for a connection is a nil [*server.Client]; whether golib's methods
    survive a nil receiver is its own business, hence the [option] result. *)
Class Net : Type := {
  net : Type;
  conn : Type;
  net_ResolveTCPAddr : string → bool;
  net_Dial : net → string → string → net * (error + conn);
  net_IsConnected : net → option conn → net * option bool;
  net_WriteFormatBinMsg : net → option conn → string → list byte → net * option error;
}.

Definition RETRY_CNT : nat := 2.
Definition S2S_SUB_CMD : string := "sub".
Definition S2S_PUB_CMD : string := "pub".
Definition S2S_UNSUB_CMD : string := "unsub".
Definition S2S_PUSH_BINARY_MESSAGE : string := "push_bin_msg".
Definition S2S_PUSH_STRING_MESSAGE : string := "push_str_msg".

Section router.
  Context {LC : LruCache} {GS : GoSet} {NT : Net}.

Record Peer : Type := mkPeer { p_addr : string; p_client : option conn }.

(** A set of [*Peer]: [None] is the nil pointer that [Peers[addr]] yields for
    an unknown address. *)
Definition PeerSet : Type := goset (option ptr).

Record Router : Type := mkRouter {
  Peers : gmap string ptr;
  r_cache : lru ptr;                 (* channel -> *set *)
  r_sets : gmap ptr PeerSet;         (* heap of sets *)
  r_peers : gmap ptr Peer;           (* heap of peers *)
  r_net : net;
  r_readers : list conn              (* connections with a reader goroutine *)
}.

Definition NewRouter (maxCacheItems : Z) (n : net) : Router :=
  mkRouter ∅ (NewLruCache maxCacheItems) ∅ ∅ n [].

Definition put_cache (c : lru ptr) : M Router unit :=
  modify (λ r, mkRouter (Peers r) c (r_sets r) (r_peers r) (r_net r) (r_readers r)).
Definition put_set (p : ptr) (s : PeerSet) : M Router unit :=
  modify (λ r, mkRouter (Peers r) (r_cache r) (<[p := s]> (r_sets r)) (r_peers r)
                 (r_net r) (r_readers r)).
Definition put_peer (p : ptr) (x : Peer) : M Router unit :=
  modify (λ r, mkRouter (Peers r) (r_cache r) (r_sets r) (<[p := x]> (r_peers r))
                 (r_net r) (r_readers r)).
Definition put_addr (a : string) (p : ptr) : M Router unit :=
  modify (λ r, mkRouter (<[a := p]> (Peers r)) (r_cache r) (r_sets r) (r_peers r)
                 (r_net r) (r_readers r)).
Definition add_reader (c : conn) : M Router unit :=
  modify (λ r, mkRouter (Peers r) (r_cache r) (r_sets r) (r_peers r) (r_net r)
                 (r_readers r ++ [c])).
Definition on_net {A} (f : net → net * A) : M Router A := λ r,
  let '(n, a) := f (r_net r) in
  (Ret a, mkRouter (Peers r) (r_cache r) (r_sets r) (r_peers r) n (r_readers r)).

(** ** Channels *)
Definition LookupPeersByChannel (channel : string) : M Router (option ptr) :=
  c ← gets r_cache;
  let '(c', o) := lru_Get c channel in
  _ ← put_cache c'; mret o.

Definition load_set (p : ptr) : M Router PeerSet :=
  h ← gets r_sets; deref "assignment to entry in nil map" (h !! p).

Definition new_set : M Router ptr := λ r,
  let p := fresh (dom (r_sets r)) in
  (Ret p, mkRouter (Peers r) (r_cache r) (<[p := set_NewSet]> (r_sets r)) (r_peers r)
            (r_net r) (r_readers r)).

Definition AddPeerToChannel (peerAddr channel : string) : M Router (option error) :=
  o ← LookupPeersByChannel channel;
  p ← match o with Some p => mret p | None => new_set end;
  peers ← load_set p;
  addrs ← gets Peers;
  let '(peers', succ) := set_Add peers (addrs !! peerAddr) in
  _ ← put_set p peers';
  if (succ : bool) then
    c ← gets r_cache;
    _ ← put_cache (lru_Set c channel p); mret None
  else mret None.

Definition RemovePeerFromChannel (peerAddr channel : string) : M Router (option error) :=
  o ← LookupPeersByChannel channel;
  match o with
  | None => mret (Some (NewError "specified channel not exists"))
  | Some p =>
      peers ← load_set p;
      addrs ← gets Peers;
      _ ← put_set p (set_Remove peers (addrs !! peerAddr));
      mret None
  end.

(** ** Connections *)

(** Dial with the listen address as local address; on success the peer gets
    its client and a goroutine that reads until the connection ends. *)
Definition initClientConn (cfg : ConfigPushd) (p : ptr) : M Router (option error) :=
  if negb (net_ResolveTCPAddr (TcpListenAddr cfg)) then panic "ResolveTCPAddr" else
  h ← gets r_peers;
  peer ← deref "nil peer" (h !! p);
  r ← on_net (λ n, net_Dial n (TcpListenAddr cfg) (p_addr peer));
  match r with
  | inl e => mret (Some e)
  | inr c =>
      _ ← put_peer p (mkPeer (p_addr peer) (Some c));
      _ ← add_reader c;
      mret None
  end.

Definition NewPeer (cfg : ConfigPushd) (addr : string) : M Router ptr :=
  h ← gets r_peers;
  let p := fresh (dom h) in
  _ ← put_peer p (mkPeer addr None);
  _ ← initClientConn cfg p;
  mret p.

Definition connectPeer (cfg : ConfigPushd) (server : string) : M Router unit :=
  if String.eqb server (S2sListenAddr cfg) then mret tt else
  peer ← NewPeer cfg server;
  put_addr server peer.

(** The goroutine of [watchPeers], on one list received from [eventChan]. *)
Definition watchPeers_event (cfg : ConfigPushd) (servers : list string) : M Router unit :=
  mapM_ (connectPeer cfg) servers.

(** [this.client.IsConnected()] and [this.client.WriteFormatBinMsg(op, msg)] *)
Definition peer_client (p : ptr) : M Router (option conn) :=
  h ← gets r_peers; peer ← deref "nil peer" (h !! p); mret (p_client peer).

Definition peer_IsConnected (p : ptr) : M Router bool :=
  c ← peer_client p;
  o ← on_net (λ n, net_IsConnected n c);
  deref "nil client" o.

Definition peer_Write (p : ptr) (op : string) (msg : list byte) : M Router (option error) :=
  c ← peer_client p;
  on_net (λ n, net_WriteFormatBinMsg n c op msg).

(** The retry loop, [n] iterations left. *)
Fixpoint retry (cfg : ConfigPushd) (p : ptr) (op : string) (msg : list byte) (n : nat)
    : M Router unit :=
  match n with
  | O => mret tt
  | S n' =>
      err ← initClientConn cfg p;
      match err with
      | Some _ => retry cfg p op msg n'
      | None =>
          err ← peer_Write p op msg;
          match err with
          | None => mret tt
          | Some _ => retry cfg p op msg n'
          end
      end
  end.

Definition WriteFormatMsg (cfg : ConfigPushd) (p : ptr) (op : string) (msg : list byte)
    : M Router unit :=
  b ← peer_IsConnected p;
  if (b : bool) then
    err ← peer_Write p op msg;
    match err with
    | None => mret tt
    | Some _ => retry cfg p op msg RETRY_CNT
    end
  else retry cfg p op msg RETRY_CNT.

(** ** What a send does to the network *)

(** The calls on the network made by a send, with their success. *)
Inductive action : Type := ADial (ok : bool) | AWrite (ok : bool) | AProbe.

Inductive net_run (laddr addr op : string) (msg : list byte) : net → list action → net → Prop :=
| net_done n : net_run laddr addr op msg n [] n
| net_dial n n' r l n2 :
    net_Dial n laddr addr = (n', r) → net_run laddr addr op msg n' l n2 →
    net_run laddr addr op msg n (ADial (match r with inr _ => true | inl _ => false end) :: l) n2
| net_write n c n' e l n2 :
    net_WriteFormatBinMsg n c op msg = (n', e) → net_run laddr addr op msg n' l n2 →
    net_run laddr addr op msg n (AWrite (match e with None => true | Some _ => false end) :: l) n2
| net_probe n c n' o l n2 :
    net_IsConnected n c = (n', o) → net_run laddr addr op msg n' l n2 →
    net_run laddr addr op msg n (AProbe :: l) n2.

Definition dials (l : list action) : nat :=
  length (List.filter (λ a, match a with ADial _ => true | _ => false end) l).
Definition writes (l : list action) : nat :=
  length (List.filter (λ a, match a with AWrite _ => true | _ => false end) l).

(** No network call follows a write that succeeded. *)
Fixpoint stops_on_success (l : list action) : Prop :=
  match l with
  | [] => True
  | AWrite true :: l' => l' = []
  | _ :: l' => stops_on_success l'
  end.

(** A peer object with the given address, connected or not. *)
Definition with_peer (p : ptr) (addr : string) (r : Router) : Prop :=
  ∃ c, r_peers r !! p = Some (mkPeer addr c).

(** ** Lemmas *)
Lemma net_dial_fail laddr addr op msg n n' e l n2 :
  net_Dial n laddr addr = (n', inl e) → net_run laddr addr op msg n' l n2 →
  net_run laddr addr op msg n (ADial false :: l) n2.
Proof. intros. by apply (net_dial _ _ _ _ n n' (inl e)). Qed.

Lemma net_dial_ok laddr addr op msg n n' c l n2 :
  net_Dial n laddr addr = (n', inr c) → net_run laddr addr op msg n' l n2 →
  net_run laddr addr op msg n (ADial true :: l) n2.
Proof. intros. by apply (net_dial _ _ _ _ n n' (inr c)). Qed.

Lemma net_write_fail laddr addr op msg n c n' e l n2 :
  net_WriteFormatBinMsg n c op msg = (n', Some e) → net_run laddr addr op msg n' l n2 →
  net_run laddr addr op msg n (AWrite false :: l) n2.
Proof. intros. by apply (net_write _ _ _ _ n c n' (Some e)). Qed.

Lemma net_write_ok laddr addr op msg n c n' :
  net_WriteFormatBinMsg n c op msg = (n', None) →
  net_run laddr addr op msg n [AWrite true] n'.
Proof. intros. apply (net_write _ _ _ _ n c n' None); [done|constructor]. Qed.

Hint Resolve net_dial_fail net_dial_ok net_write_fail net_write_ok : core.

Lemma initClientConn_run cfg p addr r :
  with_peer p addr r →
  (∃ e r', initClientConn cfg p r = (Panic e, r') ∧ r_net r' = r_net r)
  ∨ (∃ o r' x, initClientConn cfg p r = (Ret o, r') ∧ with_peer p addr r'
       ∧ net_Dial (r_net r) (TcpListenAddr cfg) addr = (r_net r', x)
       ∧ (o = None ↔ match x with inr _ => True | inl _ => False end)).
Proof.
  intros [c Hp]. unfold initClientConn, on_net.
  destruct (net_ResolveTCPAddr (TcpListenAddr cfg)); [right|left; by eexists _, _].
  cbn [negb]. mred. rewrite Hp. cbn.
  destruct (net_Dial (r_net r) (TcpListenAddr cfg) addr) as [n' [e|c']] eqn:Ed; cbn.
  - eexists _, _, _. split_and!; [done|by exists c|reflexivity|done].
  - eexists _, _, _. split_and!; [done| |reflexivity|done].
    exists (Some c'). apply lookup_insert_eq.
Qed.

Lemma peer_Write_run p addr op msg r :
  with_peer p addr r →
  ∃ c n' e r', net_WriteFormatBinMsg (r_net r) c op msg = (n', e)
    ∧ peer_Write p op msg r = (Ret e, r') ∧ r_net r' = n' ∧ with_peer p addr r'.
Proof.
  intros [c Hp]. unfold peer_Write, peer_client. mred. rewrite Hp. cbn.
  unfold on_net. destruct (net_WriteFormatBinMsg (r_net r) c op msg) as [n' e] eqn:Ew.
  exists c, n', e. eexists. split_and!; try done. by exists c.
Qed.

Lemma retry_run cfg p addr op msg n r :
  with_peer p addr r →
  ∃ l, net_run (TcpListenAddr cfg) addr op msg (r_net r) l (r_net (retry cfg p op msg n r).2)
       ∧ dials l ≤ n ∧ writes l ≤ dials l ∧ stops_on_success l.
Proof.
  revert r. induction n as [|n IH]; intros r Hp; cbn [retry].
  { exists []. split_and!; [constructor|done|done|done]. }
  destruct (initClientConn_run cfg p addr r Hp)
    as [(e & r' & Hi & Hn)|(o & r' & x & Hi & Hp' & Hd & Ho)]; mstep Hi.
  { exists []. simpl. rewrite Hn. split_and!; [constructor|cbn; lia|done|done]. }
  destruct o as [e|].
  - destruct (IH r' Hp') as (l & Hl & ? & ? & ?). exists (ADial false :: l).
    destruct x as [e'|c']; [|discriminate (proj2 Ho I)].
    split_and!; [eauto|unfold dials, writes in *; simpl; lia..|done].
  - destruct x as [e'|c']; [by destruct (proj1 Ho eq_refl)|].
    destruct (peer_Write_run p addr op msg r' Hp') as (c & n' & e & r2 & Hw & Hrun & <- & Hp2).
    mstep Hrun. destruct e as [e|].
    + destruct (IH r2 Hp2) as (l & Hl & ? & ? & ?). exists (ADial true :: AWrite false :: l).
      split_and!; [eauto|unfold dials, writes in *; simpl; lia..|done].
    + exists [ADial true; AWrite true].
      split_and!; [eauto|unfold dials, writes in *; simpl; lia..|done].
Qed.

(** [NewPeer] allocates a peer with its address and leaves the others alone. *)
Lemma NewPeer_run cfg addr r :
  net_ResolveTCPAddr (TcpListenAddr cfg) = true →
  ∃ p r', NewPeer cfg addr r = (Ret p, r') ∧ with_peer p addr r' ∧ Peers r' = Peers r
          ∧ ∀ q a, with_peer q a r → with_peer q a r'.
Proof.
  intros Hres. unfold NewPeer. mred. set (p := fresh (dom (r_peers r))).
  unfold initClientConn, on_net. rewrite Hres. cbn [negb]. mred. rewrite lookup_insert_eq. cbn.
  assert (r_peers r !! p = None) as Hp by apply not_elem_of_dom, is_fresh.
  destruct (net_Dial (r_net r) (TcpListenAddr cfg) addr) as [n' [e|c]]; cbn;
    eexists _, _; (split_and!; [done| |done|]).
  - exists None. apply lookup_insert_eq.
  - intros q a [c Hq]. exists c. simpl. rewrite lookup_insert_ne; congruence.
  - exists (Some c). apply lookup_insert_eq.
  - intros q a [c' Hq]. exists c'. simpl. rewrite !lookup_insert_ne; congruence.
Qed.

(** Every registered address is another server's and leads to its peer. *)
Definition router_wf (cfg : ConfigPushd) (r : Router) : Prop :=
  ∀ a p, Peers r !! a = Some p → a ≠ S2sListenAddr cfg ∧ with_peer p a r.

Lemma connectPeer_run cfg s r :
  net_ResolveTCPAddr (TcpListenAddr cfg) = true → router_wf cfg r →
  ∃ r', connectPeer cfg s r = (Ret tt, r') ∧ router_wf cfg r'
        ∧ (s ≠ S2sListenAddr cfg → is_Some (Peers r' !! s))
        ∧ ∀ a, is_Some (Peers r !! a) → is_Some (Peers r' !! a).
Proof.
  intros Hres Hwf. unfold connectPeer.
  destruct (String.eqb_spec s (S2sListenAddr cfg)) as [Hs|Hs]; [by exists r|].
  destruct (NewPeer_run cfg s r Hres) as (p & r1 & Hrun & Hp & HP & Hkeep). mstep Hrun.
  eexists. split; [reflexivity|]. simpl. split_and!.
  - intros a q. simpl. rewrite lookup_insert. case_decide as Ha.
    + intros [= <-]. by subst a.
    + rewrite HP. intros [? Hq]%Hwf. split; [done|]. apply (Hkeep _ _ Hq).
  - intros _. rewrite lookup_insert_eq. eauto.
  - intros a. rewrite lookup_insert, HP. case_decide; eauto.
Qed.

(** ** Properties *)

(** (C31) A message for a peer is written at most once with success: one
    attempt on the existing connection, then at most [RETRY_CNT] rounds of
    reconnecting and writing, stopping at the first write that succeeds. *)
Theorem WriteFormatMsg_at_most_once (cfg : ConfigPushd) (p : ptr) (addr op : string)
    (msg : list byte) (r : Router) (Hp : with_peer p addr r) :
  ∃ l, net_run (TcpListenAddr cfg) addr op msg (r_net r) l
         (r_net (WriteFormatMsg cfg p op msg r).2)
       ∧ dials l ≤ RETRY_CNT ∧ writes l ≤ S RETRY_CNT ∧ stops_on_success l.
Proof.
  unfold WriteFormatMsg, peer_IsConnected, peer_client. destruct Hp as [c Hp]. mred.
  rewrite Hp. cbn. unfold on_net.
  destruct (net_IsConnected (r_net r) c) as [n1 o] eqn:Ec. cbn.
  set (r1 := mkRouter _ _ _ _ n1 _).
  assert (with_peer p addr r1) as Hp1 by (by exists c).
  assert (∀ l r', net_run (TcpListenAddr cfg) addr op msg n1 l (r_net r') →
                  net_run (TcpListenAddr cfg) addr op msg (r_net r) (AProbe :: l) (r_net r'))
    as Hprobe by (intros; by eapply net_probe).
  destruct o as [[]|]; cbn.
  - destruct (peer_Write_run p addr op msg r1 Hp1) as (c' & n' & e & r2 & Hw & Hrun & <- & Hp2).
    rewrite Hrun. destruct e as [e|].
    + destruct (retry_run cfg p addr op msg RETRY_CNT r2 Hp2) as (l & Hl & ? & ? & ?).
      exists (AProbe :: AWrite false :: l).
      split_and!; [apply (Hprobe (AWrite false :: l)); by eapply (net_write_fail _ _ _ _ n1 c')|unfold dials, writes in *; simpl; lia..|done].
    + exists [AProbe; AWrite true].
      split_and!; [apply (Hprobe [AWrite true] r2); by apply (net_write_ok _ _ _ _ _ c')|unfold dials, writes in *; simpl; lia..|done].
  - destruct (retry_run cfg p addr op msg RETRY_CNT r1 Hp1) as (l & Hl & ? & ? & ?).
    exists (AProbe :: l).
    split_and!; [by apply Hprobe|unfold dials, writes in *; simpl; lia..|done].
  - exists [AProbe]. split_and!; [apply (Hprobe [] r1); constructor|cbn; lia..|done].
Qed.

(** On every list of servers announced by the registry the router
    connects to all of them except itself: afterwards each announced address
    other than the server's own is registered, no registration is lost, the
    server never becomes its own peer, and each registered address leads to a
    live peer object carrying that address. *)
Theorem watchPeers_registers (cfg : ConfigPushd) (servers : list string) (r : Router)
    (Hres : net_ResolveTCPAddr (TcpListenAddr cfg) = true) (Hwf : router_wf cfg r) :
  ∃ r', watchPeers_event cfg servers r = (Ret tt, r') ∧ router_wf cfg r'
    ∧ (∀ s, s ∈ servers → s ≠ S2sListenAddr cfg → is_Some (Peers r' !! s))
    ∧ (∀ a, is_Some (Peers r !! a) → is_Some (Peers r' !! a)).
Proof.
  unfold watchPeers_event. revert r Hwf. induction servers as [|s l IH]; intros r Hwf.
  - exists r. split_and!; [done|done|by intros ? ?%not_elem_of_nil|done].
  - destruct (connectPeer_run cfg s r Hres Hwf) as (r1 & Hrun & Hwf1 & Hs & Hk1).
    destruct (IH r1 Hwf1) as (r2 & Hrun2 & Hwf2 & Hl & Hk2). exists r2. cbn [mapM_].
    mstep Hrun. split_and!; [done|done| |by eauto].
    intros s' [->|Hin]%elem_of_cons Hne; eauto.
Qed.
End router.

Import Ref.

(** ** A scripted network

    Each call consumes the next scripted outcome; past the script every call
    succeeds. *)
#[export] Instance ref_net : Net := {|
  net := list bool;
  conn := nat;
  net_ResolveTCPAddr _ := true;
  net_Dial n _ _ := match n with
                    | false :: n' => (n', inl (NewError "connection refused"))
                    | _ => (tail n, inr 0)
                    end;
  net_IsConnected n c := (tail n, Some (default true (head n)));
  net_WriteFormatBinMsg n c _ _ := match n with
                                   | false :: n' => (n', Some (NewError "broken pipe"))
                                   | _ => (tail n, None)
                                   end
|}.

(** The old connection is gone, the first reconnection is refused, the second
    works. *)
Definition example_router : Router :=
  mkRouter ∅ (NewLruCache 10) ∅ {[ 0 := mkPeer "10.0.0.8:2223" (Some 7) ]}
    ([false; false; true; true] : net) [].

Lemma WriteFormatMsg_at_most_once_witness :
  ∃ l, net_run "10.0.0.7:2222" "10.0.0.8:2223" "sub" [] (r_net example_router) l
         (r_net (WriteFormatMsg (example_config 0 None) 0 "sub" [] example_router).2)
       ∧ dials l ≤ RETRY_CNT ∧ writes l ≤ S RETRY_CNT ∧ stops_on_success l.
Proof.
  apply (WriteFormatMsg_at_most_once (example_config 0 None) 0 "10.0.0.8:2223").
  exists (Some 7). vm_compute. reflexivity.
Defined.

Lemma watchPeers_registers_witness :
  ∃ r', watchPeers_event (example_config 0 None) ["10.0.0.7:2223"; "10.0.0.8:2223"]
          (NewRouter 10 ([] : @net ref_net)) = (Ret tt, r')
        ∧ is_Some (Peers r' !! "10.0.0.8:2223") ∧ router_wf (example_config 0 None) r'.
Proof.
  destruct (watchPeers_registers (example_config 0 None) ["10.0.0.7:2223"; "10.0.0.8:2223"]
              (NewRouter 10 ([] : @net ref_net))) as (r' & Hrun & Hwf & Hin & _); [done|by intros ? ?|].
  exists r'. split_and!; [exact Hrun | apply Hin; [set_solver|discriminate] | exact Hwf].
Defined.
