(* ===== verification/PeerReader.v ===== *)
(** * The reader goroutine of a peer connection (engine/router.go)

    Every connection to another server gets a goroutine that reads from it until
    it ends, and then closes it.  It names the connection by the field
    [this.client], which a reconnection overwrites. *)
From S2P Require Import Prelude GoStrings Wire Deps RefDeps Config Router.

Local Open Scope string_scope.
Local Open Scope list_scope.

(** ** golib's [server.Client] once more

    [net_Read] parks ([None]), delivers data, or fails.  [ended n c] says that the
    connection [c] is over.  A read fails only on a connection that is over, and
    never parks there; a connection that has been closed is over; no call on one
    connection ends another, or brings one back. *)
Class PeerNet `{Net} : Type := {
  net_Read : net → conn → net * option (option error);
  net_Close : net → conn → net;
  ended : net → conn → Prop
}.

Class PeerNetLaws `{PeerNet} : Prop := {
  read_ended n c n' r : net_Read n c = (n', r) → ∀ c', ended n' c' ↔ ended n c';
  read_fails n c n' r : net_Read n c = (n', r) → ended n c ↔ ∃ e, r = Some (Some e);
  close_ends n c : ended (net_Close n c) c;
  close_others n c c' : c' ≠ c → ended (net_Close n c) c' ↔ ended n c'
}.

(** Where the goroutine is: about to evaluate [this.client.Read(input)], in that
    call, about to evaluate [this.client.Close()], or over. *)
Inductive rpc `{Net} : Type := RRead | RWait (c : conn) | RClose | ROver.

Section reader.
  Context {LC : LruCache} {GS : GoSet} {NT : Net} {PN : PeerNet}.

(** One statement of the reader of peer [p]; parked in [Read], it blocks. *)
Definition reader_step (p : ptr) (st : rpc) : M Router rpc :=
  match st with
  | RRead => c ← peer_client p; c ← deref "nil client" c; mret (RWait c)
  | RWait c =>
      r ← on_net (λ n, net_Read n c);
      match r with
      | None => block
      | Some None => mret RRead
      | Some (Some _) => mret RClose
      end
  | RClose =>
      c ← peer_client p; c ← deref "nil client" c;
      _ ← on_net (λ n, (net_Close n c, tt)); mret ROver
  | ROver => mret ROver
  end.

(** The router with the readers of its connections. *)
Record rsys : Type := mkRsys { rs_router : Router; rs_threads : gmap nat (ptr * rpc) }.

(** A send to the peer [p] starts a reader for each connection it opened. *)
Definition start_readers (p : ptr) (k : nat) (ts : gmap nat (ptr * rpc)) : gmap nat (ptr * rpc) :=
  Nat.iter k (λ ts, <[fresh (dom ts) := (p, RRead)]> ts) ts.

Inductive rstep (cfg : ConfigPushd) : rsys → rsys → Prop :=
| rstep_send s p op m r' :
    WriteFormatMsg cfg p op m (rs_router s) = (Ret tt, r') →
    rstep cfg s (mkRsys r' (start_readers p (length (r_readers r') - length (r_readers (rs_router s)))
                              (rs_threads s)))
| rstep_reader s t p st st' r' :
    rs_threads s !! t = Some (p, st) → reader_step p st (rs_router s) = (Ret st', r') →
    rstep cfg s (mkRsys r' (<[t := (p, st')]> (rs_threads s))).

Lemma reader_run cfg s t p st st' r' :
  rs_threads s !! t = Some (p, st) → reader_step p st (rs_router s) = (Ret st', r') →
  rtc (rstep cfg) s (mkRsys r' (<[t := (p, st')]> (rs_threads s))).
Proof. intros Ht Hr. by eapply rtc_once, rstep_reader. Qed.

Context {PL : PeerNetLaws}.

(** ** Lemmas *)
Definition with_net (n : net) (r : Router) : Router :=
  mkRouter (Peers r) (r_cache r) (r_sets r) (r_peers r) n (r_readers r).

Lemma read_run p c r :
  ended (r_net r) c →
  ∃ n', reader_step p (RWait c) r = (Ret RClose, with_net n' r)
        ∧ ∀ c', ended n' c' ↔ ended (r_net r) c'.
Proof.
  intros He. unfold reader_step, on_net. mred. destruct (net_Read (r_net r) c) as [n' o] eqn:E.
  destruct (proj1 (read_fails _ _ _ _ E) He) as [e ->]. exists n'. split; [done|].
  by apply (read_ended _ _ _ _ E).
Qed.

Lemma close_run p addr c r :
  r_peers r !! p = Some (mkPeer addr (Some c)) →
  reader_step p RClose r = (Ret ROver, with_net (net_Close (r_net r) c) r).
Proof. intros Hp. unfold reader_step, peer_client, on_net. mred. by rewrite Hp. Qed.

Lemma look_run p addr c r :
  r_peers r !! p = Some (mkPeer addr (Some c)) → reader_step p RRead r = (Ret (RWait c), r).
Proof. intros Hp. unfold reader_step, peer_client. mred. by rewrite Hp. Qed.

(** ** Properties *)

(** (C32) An old reader takes the new connection down.  When a peer has been
    reconnected, the goroutine that reads from the connection of before learns
    of its end and closes [this.client], which by now is the new connection,
    alive until then; the reader of that one fails in turn and closes it again. *)
Theorem stale_reader (cfg : ConfigPushd) (s : rsys) (t1 t2 : nat) (p : ptr) (addr : string)
    (c1 c2 : conn)
    (Ht1 : rs_threads s !! t1 = Some (p, RWait c1)) (Ht2 : rs_threads s !! t2 = Some (p, RWait c2))
    (Hne : t1 ≠ t2) (Hp : r_peers (rs_router s) !! p = Some (mkPeer addr (Some c2)))
    (He1 : ended (r_net (rs_router s)) c1) (He2 : ¬ ended (r_net (rs_router s)) c2) :
  ∃ s', rtc (rstep cfg) s s' ∧ r_peers (rs_router s') = r_peers (rs_router s)
    ∧ ended (r_net (rs_router s')) c2
    ∧ rs_threads s' = <[t1 := (p, ROver)]> (<[t2 := (p, ROver)]> (rs_threads s)).
Proof.
  destruct s as [r ts]. simpl in *.
  destruct (read_run p c1 r He1) as (n1 & Hr1 & Hn1). set (r1 := with_net n1 r) in *.
  pose proof (close_run p addr c2 r1 Hp) as Hr2. set (r2 := with_net _ r1) in *.
  destruct (read_run p c2 r2) as (n3 & Hr3 & Hn3); [apply close_ends|]. set (r3 := with_net n3 r2) in *.
  pose proof (close_run p addr c2 r3 Hp) as Hr4. set (r4 := with_net _ r3) in *.
  exists (mkRsys r4 (<[t2 := (p, ROver)]> (<[t2 := (p, RClose)]>
                      (<[t1 := (p, ROver)]> (<[t1 := (p, RClose)]> ts))))).
  split; [|split; [done|split; [apply close_ends|]]].
  - trans (mkRsys r1 (<[t1 := (p, RClose)]> ts)); [by eapply (reader_run cfg (mkRsys r ts))|].
    trans (mkRsys r2 (<[t1 := (p, ROver)]> (<[t1 := (p, RClose)]> ts))).
    { eapply (reader_run cfg (mkRsys r1 _)); [apply lookup_insert_eq|exact Hr2]. }
    trans (mkRsys r3 (<[t2 := (p, RClose)]> (<[t1 := (p, ROver)]> (<[t1 := (p, RClose)]> ts)))).
    { eapply (reader_run cfg (mkRsys r2 _)); [|exact Hr3]. simpl. by rewrite !lookup_insert_ne. }
    eapply (reader_run cfg (mkRsys r3 _)); [apply lookup_insert_eq|exact Hr4].
  - simpl. rewrite !insert_insert_eq. by rewrite insert_insert_ne.
Qed.

(** A reader whose connection has not been replaced closes that connection and
    no other, and is over. *)
Theorem reader_closes_own (cfg : ConfigPushd) (s : rsys) (t : nat) (p : ptr) (addr : string) (c : conn)
    (Ht : rs_threads s !! t = Some (p, RWait c))
    (Hp : r_peers (rs_router s) !! p = Some (mkPeer addr (Some c)))
    (He : ended (r_net (rs_router s)) c) :
  ∃ s', rtc (rstep cfg) s s' ∧ r_peers (rs_router s') = r_peers (rs_router s)
    ∧ rs_threads s' = <[t := (p, ROver)]> (rs_threads s)
    ∧ ∀ c', c' ≠ c → ended (r_net (rs_router s')) c' ↔ ended (r_net (rs_router s)) c'.
Proof.
  destruct s as [r ts]. simpl in *.
  destruct (read_run p c r He) as (n1 & Hr1 & Hn1). set (r1 := with_net n1 r) in *.
  pose proof (close_run p addr c r1 Hp) as Hr2. set (r2 := with_net _ r1) in *.
  exists (mkRsys r2 (<[t := (p, ROver)]> (<[t := (p, RClose)]> ts))).
  split; [|split; [done|split; [by rewrite insert_insert_eq|]]].
  - trans (mkRsys r1 (<[t := (p, RClose)]> ts)); [by eapply (reader_run cfg (mkRsys r ts))|].
    eapply (reader_run cfg (mkRsys r1 _)); [apply lookup_insert_eq|exact Hr2].
  - intros c' Hne. simpl. by rewrite close_others.
Qed.
End reader.

Import Ref.

(** ** A network that knows which connections are over *)
Definition mortal_net : Net := {|
  net := gset nat;
  conn := nat;
  net_ResolveTCPAddr _ := true;
  net_Dial n _ _ := (n, inr (fresh n));
  net_IsConnected n c := (n, c ← c; Some (bool_decide (c ∉ n)));
  net_WriteFormatBinMsg n c _ _ :=
    (n, match c with
        | Some c => if decide (c ∈ n) then Some (NewError "broken pipe") else None
        | None => Some (NewError "nil client")
        end)
|}.
#[local] Existing Instance mortal_net.

#[local] Instance mortal_peers : PeerNet := {|
  net_Read n c := (n : gset nat, if decide (c ∈ (n : gset nat)) then Some (Some (NewError "EOF")) else None);
  net_Close n c := {[c]} ∪ (n : gset nat);
  ended n c := c ∈ (n : gset nat)
|}.

#[local] Instance mortal_laws : PeerNetLaws.
Proof.
  split; simpl.
  - by intros n c n' r [= <- _].
  - intros n c n' r [= <- <-]. case_decide; split; try done; [by eexists|by intros [e [=]]].
  - intros n c. set_solver.
  - intros n c c' Hne. set_solver.
Qed.

(** Connection 0 to the peer is over; a send has opened another one. *)
Definition broken : rsys (NT := mortal_net) :=
  mkRsys (mkRouter {[ "10.0.0.8:2223" := 0%nat ]} (NewLruCache 10) ∅
            {[ 0%nat := mkPeer "10.0.0.8:2223" (Some 0%nat : option (@conn mortal_net)) ]}
            ({[0%nat]} : gset nat) [0%nat : @conn mortal_net])
         {[ 0%nat := (0%nat, RWait (0%nat : @conn mortal_net)) ]}.

Definition reconnected : rsys (NT := mortal_net) :=
  let r := rs_router broken in
  let r' := (WriteFormatMsg (example_config 0 None) 0 "push_str_msg" [] r).2 in
  mkRsys r' (<[1%nat := (0%nat, RWait (1%nat : @conn mortal_net))]>
               (start_readers 0 (length (r_readers r') - length (r_readers r)) (rs_threads broken))).

(** The send and the first statement of the new reader lead there. *)
Lemma reconnected_run : rtc (rstep (example_config 0 None)) broken reconnected.
Proof.
  eapply rtc_l.
  - apply (rstep_send (example_config 0 None) broken 0%nat "push_str_msg" []).
    vm_compute. reflexivity.
  - apply (reader_run (example_config 0 None) (mkRsys _ _) 1%nat 0%nat RRead).
    + vm_compute. reflexivity.
    + vm_compute. reflexivity.
Qed.

Lemma stale_reader_witness :
  ∃ s', rtc (rstep (example_config 0 None)) broken s'
        ∧ ended (r_net (rs_router s')) (1%nat : @conn mortal_net).
Proof.
  destruct (stale_reader (example_config 0 None) reconnected 0 1 0 "10.0.0.8:2223"
    (0%nat : @conn mortal_net) (1%nat : @conn mortal_net)) as (s' & Hr & _ & He & _);
    [vm_compute; reflexivity|vm_compute; reflexivity|discriminate|vm_compute; reflexivity| | |].
  - apply (bool_decide_unpack (0%nat ∈ (r_net (rs_router reconnected) : gset nat))). vm_compute. exact I.
  - apply (bool_decide_unpack (1%nat ∉ (r_net (rs_router reconnected) : gset nat))). vm_compute. exact I.
  - exists s'. split; [|exact He]. transitivity reconnected; [exact reconnected_run|exact Hr].
Defined.

Lemma reader_closes_own_witness :
  ∃ s', rtc (rstep (example_config 0 None)) broken s'
        ∧ rs_threads s' = {[ 0%nat := (0%nat, ROver) ]}.
Proof.
  destruct (reader_closes_own (example_config 0 None) broken 0 0 "10.0.0.8:2223"
    (0%nat : @conn mortal_net)) as (s' & Hr & _ & Ht & _);
    [vm_compute; reflexivity|vm_compute; reflexivity| |].
  - apply (bool_decide_unpack (0%nat ∈ (r_net (rs_router broken) : gset nat))). vm_compute. exact I.
  - exists s'. split; [exact Hr|]. rewrite Ht. reflexivity.
Defined.
