(* ===== verification/RouterSets.v ===== *)
(** * The channels of the router (engine/router.go)

    [AddPeerToChannel], [RemovePeerFromChannel] and [LookupPeersByChannel] keep, in
    an LRU cache of shared sets, the peers interested in a channel.  They refine
    a partial map from channels to sets of peers. *)
From S2P Require Import Prelude GoStrings Wire Deps RefDeps Config Router.

Local Open Scope string_scope.
Local Open Scope list_scope.

Section sets.
  Context {LC : LruCache} {GS : GoSet} {NT : Net} {LL : LruLaws} {GL : GoSetLaws}.

(** ** The operations and their specification *)
Inductive chan_op : Type :=
| OpAddPeer (addr ch : string)
| OpRemovePeer (addr ch : string)
| OpLookup (ch : string).

Inductive chan_res : Type :=
| ResErr (e : option error)
| ResSet (s : option (gset (option ptr))).

(** The set that a lookup hands out, read at once. *)
Definition read_set (o : option ptr) : M Router (option (gset (option ptr))) :=
  match o with
  | None => mret None
  | Some p => s ← load_set p; mret (Some (list_to_set (set_elems s)))
  end.

Definition run_chan (o : chan_op) : M Router chan_res :=
  match o with
  | OpAddPeer a ch => e ← AddPeerToChannel a ch; mret (ResErr e)
  | OpRemovePeer a ch => e ← RemovePeerFromChannel a ch; mret (ResErr e)
  | OpLookup ch => o ← LookupPeersByChannel ch; s ← read_set o; mret (ResSet s)
  end.

(** The peers interested in a channel; an address that is not a peer's stands for
    the nil pointer. *)
Definition chan_map : Type := string → option (gset (option ptr)).

Definition spec_chan (ps : gmap string ptr) (o : chan_op) (m : chan_map) (x : chan_res)
    (m' : chan_map) : Prop :=
  match o with
  | OpAddPeer a ch => x = ResErr None ∧ m' ch = Some ({[ps !! a]} ∪ default ∅ (m ch))
      ∧ ∀ c, c ≠ ch → m' c = m c ∨ m' c = None
  | OpRemovePeer a ch =>
      x = ResErr (match m ch with Some _ => None | None => Some (NewError "specified channel not exists") end)
      ∧ ∀ c, m' c = if decide (c = ch) then (.∖ {[ps !! a]}) <$> m ch else m c
  | OpLookup ch => x = ResSet (m ch) ∧ ∀ c, m' c = m c
  end.

Inductive spec_chans (ps : gmap string ptr) : list chan_op → chan_map → list chan_res → chan_map → Prop :=
| spec_chans_nil m : spec_chans ps [] m [] m
| spec_chans_cons o os m x m1 xs m2 :
    spec_chan ps o m x m1 → spec_chans ps os m1 xs m2 → spec_chans ps (o :: os) m (x :: xs) m2.

(** ** What the router's state means *)
Definition interested (r : Router) : chan_map := λ ch,
  p ← lru_find (r_cache r) ch; s ← r_sets r !! p; Some (list_to_set (set_elems s)).

(** Every cached pointer is live, and no two channels share a set. *)
Definition sets_wf (r : Router) : Prop :=
  (∀ c p, lru_find (r_cache r) c = Some p → is_Some (r_sets r !! p))
  ∧ ∀ c c' p, lru_find (r_cache r) c = Some p → lru_find (r_cache r) c' = Some p → c = c'.

(** The peers, their connections and the network. *)
Definition same_peers (r r' : Router) : Prop :=
  Peers r' = Peers r ∧ r_peers r' = r_peers r ∧ r_net r' = r_net r ∧ r_readers r' = r_readers r.

Definition with_sets (c : lru ptr) (h : gmap ptr PeerSet) (r : Router) : Router :=
  mkRouter (Peers r) c h (r_peers r) (r_net r) (r_readers r).

(** ** Lemmas *)
Lemma lookup_run ch r :
  LookupPeersByChannel ch r =
    (Ret (lru_find (r_cache r) ch), with_sets (lru_Get (r_cache r) ch).1 (r_sets r) r).
Proof. unfold LookupPeersByChannel, lru_find. mred. by destruct (lru_Get (r_cache r) ch). Qed.

Lemma load_set_run p s r : r_sets r !! p = Some s → load_set p r = (Ret s, r).
Proof. intros Hs. unfold load_set, mbind, M_bind, gets, deref. by rewrite Hs. Qed.

Lemma interested_at ch p s r :
  lru_find (r_cache r) ch = Some p → r_sets r !! p = Some s →
  interested r ch = Some (list_to_set (set_elems s)).
Proof.
  intros Hf Hs. unfold interested, mbind, option_bind. rewrite Hf. by rewrite Hs.
Qed.

(** The state once the set of [ch], at [p], is [s]; the cache [c] may have lost
    other channels. *)
Lemma with_sets_spec ch p (s : PeerSet) c r :
  sets_wf r → lru_find c ch = Some p →
  (∀ c' q, c' ≠ ch → lru_find c c' = Some q → lru_find (r_cache r) c' = Some q) →
  (lru_find (r_cache r) ch = Some p ∨ r_sets r !! p = None) →
  let r' := with_sets c (<[p := s]> (r_sets r)) r in
  sets_wf r' ∧ interested r' ch = Some (list_to_set (set_elems s))
  ∧ ∀ c', c' ≠ ch → interested r' c' = interested r c' ∨ interested r' c' = None.
Proof.
  intros [Hl Hi] Hf Hold Hp r'.
  assert (∀ c' q, c' ≠ ch → lru_find c c' = Some q → q ≠ p) as Hne.
  { intros c' q Hc Hq ->. specialize (Hold _ _ Hc Hq). destruct Hp as [Hp|Hp].
    - by apply Hc, (Hi c' ch p).
    - destruct (Hl _ _ Hold). congruence. }
  split_and!; [split|..]; simpl.
  - intros c' q Hq. rewrite lookup_insert. case_decide; [by eexists|].
    destruct (decide (c' = ch)) as [->|Hc]; [congruence|]. apply (Hl c'). by apply Hold.
  - intros c1 c2 q H1 H2. destruct (decide (c1 = ch)) as [->|Hc1], (decide (c2 = ch)) as [->|Hc2]; try done.
    + destruct (Hne c2 q); congruence.
    + destruct (Hne c1 q); congruence.
    + apply (Hi c1 c2 q); by apply Hold.
  - unfold interested. simpl. by rewrite Hf; simpl; rewrite lookup_insert_eq.
  - intros c' Hc. unfold interested. simpl. destruct (lru_find c c') as [q|] eqn:E; [|by right].
    left. rewrite (Hold _ _ Hc E). simpl. by rewrite lookup_insert_ne by (symmetry; by apply (Hne c')).
Qed.

Lemma Add_run a ch r :
  sets_wf r →
  ∃ r', AddPeerToChannel a ch r = (Ret None, r') ∧ sets_wf r' ∧ same_peers r r'
    ∧ spec_chan (Peers r) (OpAddPeer a ch) (interested r) (ResErr None) (interested r').
Proof.
  intros Hwf. unfold AddPeerToChannel. mstep (lookup_run ch r). set (c1 := (lru_Get (r_cache r) ch).1).
  set (x := Peers r !! a).
  assert (∀ c', lru_find c1 c' = lru_find (r_cache r) c') as Hc1 by (intros; apply lru_find_Get).
  (* from a set [s] at [p], the one of the channel so far *)
  assert (∀ p s h, h !! p = Some s → <[p := (set_Add s x).1]> h = <[p := (set_Add s x).1]> (r_sets r) →
    (lru_find (r_cache r) ch = Some p ∧ interested r ch = Some (list_to_set (set_elems s))
     ∨ lru_find (r_cache r) ch = None ∧ r_sets r !! p = None ∧ set_elems s = []) →
    ∃ r', (peers ← load_set p; addrs ← gets Peers;
           let '(peers', succ) := set_Add peers (addrs !! a) in
           _ ← put_set p peers';
           if (succ : bool) then c ← gets r_cache; _ ← put_cache (lru_Set c ch p); mret None
           else mret None) (with_sets c1 h r) = (Ret (None : option error), r')
      ∧ sets_wf r' ∧ same_peers r r'
      ∧ spec_chan (Peers r) (OpAddPeer a ch) (interested r) (ResErr None) (interested r')) as Hmain.
  { intros p s h Hs Hh Hcase. mstep (load_set_run p s (with_sets c1 h r) Hs). mred.
    change (Peers r !! a) with x. pose proof (set_Add_new _ s x) as Hnew.
    pose proof (λ y, set_elems_Add _ s x y) as Hel.
    assert (∀ c, lru_find c ch = Some p →
      (∀ c' q, c' ≠ ch → lru_find c c' = Some q → lru_find (r_cache r) c' = Some q) →
      let r' := with_sets c (<[p := (set_Add s x).1]> h) r in
      sets_wf r' ∧ same_peers r r'
      ∧ spec_chan (Peers r) (OpAddPeer a ch) (interested r) (ResErr None) (interested r')) as Hend.
    { intros c Hf Hold. rewrite Hh.
      destruct (with_sets_spec ch p (set_Add s x).1 c r Hwf Hf Hold) as (H1 & H2 & H3); [tauto|].
      split; [done|]. split; [done|]. split; [done|]. split; [|exact H3]. etransitivity; [exact H2|]. fold x. f_equal.
      apply set_eq. intros y. rewrite elem_of_list_to_set, Hel, elem_of_union, elem_of_singleton.
      destruct Hcase as [[_ ->]|(Hn & _ & ->)]; simpl; [by rewrite elem_of_list_to_set|].
      unfold interested. rewrite Hn. simpl. set_solver. }
    destruct (set_Add s x) as [s' b]. simpl in *. destruct b; simpl.
    - eexists. split; [reflexivity|]. apply Hend.
      + by rewrite lru_find_Set.
      + intros c' q Hne Hq. rewrite <- Hc1. destruct (lru_find_Set_ne _ c1 ch c' p) as [E|E]; congruence.
    - eexists. split; [reflexivity|]. apply Hend.
      + destruct Hcase as [[Hf _]|(_ & _ & He)]; [by rewrite Hc1|].
        symmetry in Hnew. apply bool_decide_eq_false in Hnew. destruct Hnew. rewrite He. apply not_elem_of_nil.
      + intros c' q _. by rewrite Hc1. }
  destruct (lru_find (r_cache r) ch) as [p|] eqn:E.
  - destruct Hwf as [Hl Hi]. destruct (Hl ch p E) as [s Hs].
    rewrite (bind_ret_run (mret p) _ _ p _ eq_refl). apply (Hmain p s); [done|done|].
    left. split; [done|]. by apply (interested_at ch p).
  - set (p := fresh (dom (r_sets r))).
    assert (r_sets r !! p = None) as Hp by apply not_elem_of_dom, is_fresh.
    rewrite (bind_ret_run new_set _ (with_sets c1 (r_sets r) r) p (with_sets c1 (<[p := set_NewSet]> (r_sets r)) r) eq_refl).
    apply (Hmain p set_NewSet); [apply lookup_insert_eq|apply insert_insert_eq|].
    right. split_and!; [done|done|apply set_elems_New].
Qed.

Lemma Remove_peer_run a ch r :
  sets_wf r →
  ∃ e r', RemovePeerFromChannel a ch r = (Ret e, r') ∧ sets_wf r' ∧ same_peers r r'
    ∧ spec_chan (Peers r) (OpRemovePeer a ch) (interested r) (ResErr e) (interested r').
Proof.
  intros Hwf. unfold RemovePeerFromChannel. mstep (lookup_run ch r).
  set (c1 := (lru_Get (r_cache r) ch).1). pose proof Hwf as [Hl Hi].
  assert (∀ c', lru_find c1 c' = lru_find (r_cache r) c') as Hc1 by (intros; apply lru_find_Get).
  destruct (lru_find (r_cache r) ch) as [p|] eqn:E.
  - destruct (Hl ch p E) as [s Hs].
    mstep (load_set_run p s (with_sets c1 (r_sets r) r) Hs). mred. eexists _, _. split; [reflexivity|].
    destruct (with_sets_spec ch p (set_Remove s (Peers r !! a)) c1 r Hwf) as (H1 & H2 & _);
      [by rewrite Hc1|intros c' q _; by rewrite Hc1|by left|].
    split; [exact H1|]. split; [done|]. unfold spec_chan.
    assert (interested r ch = Some (list_to_set (set_elems s))) as Hm.
    { by apply (interested_at ch p). }
    rewrite Hm. split; [done|]. intros c. case_decide as Hc.
    + subst c. etransitivity; [exact H2|]. simpl. f_equal. apply set_eq. intros y.
      rewrite elem_of_list_to_set, set_elems_Remove. set_solver.
    + unfold interested. simpl. rewrite Hc1. destruct (lru_find (r_cache r) c) as [q|] eqn:Eq; [|done].
      simpl. rewrite lookup_insert_ne; [done|]. intros ->. by apply Hc, (Hi c ch q).
  - eexists _, _. split; [reflexivity|].
    assert (interested r ch = None) as Hm by (unfold interested; by rewrite E).
    split; [|split; [done|split; [by rewrite Hm|]]].
    + split; simpl; setoid_rewrite Hc1; done.
    + intros c. rewrite Hm. unfold interested. simpl. rewrite Hc1. case_decide; [subst; by rewrite E|done].
Qed.

Lemma run_chan_spec o r :
  sets_wf r →
  ∃ x r', run_chan o r = (Ret x, r') ∧ sets_wf r' ∧ same_peers r r'
    ∧ spec_chan (Peers r) o (interested r) x (interested r').
Proof.
  intros Hwf. destruct o as [a ch|a ch|ch]; cbn [run_chan].
  - destruct (Add_run a ch r Hwf) as (r' & Hr & ?). mstep Hr. by eexists _, _.
  - destruct (Remove_peer_run a ch r Hwf) as (e & r' & Hr & ?). mstep Hr. by eexists _, _.
  - mstep (lookup_run ch r). set (r1 := with_sets _ _ r).
    assert (∀ c, lru_find (r_cache r1) c = lru_find (r_cache r) c) as Hc by (intros; apply lru_find_Get).
    assert (∀ c, interested r1 c = interested r c) as Hm.
    { intros c. unfold interested. by rewrite Hc. }
    assert (read_set (lru_find (r_cache r) ch) r1 = (Ret (interested r ch), r1)) as Hr.
    { destruct (lru_find (r_cache r) ch) as [p|] eqn:E.
      - destruct Hwf as [Hl _]. destruct (Hl ch p E) as [s Hs]. unfold read_set.
        mstep (load_set_run p s r1 Hs). by rewrite (interested_at ch p s r E Hs).
      - unfold interested. by rewrite E. }
    mstep Hr. eexists _, _. split; [reflexivity|]. split; [|split; [done|by split]].
    destruct Hwf as [Hl Hi]. split; simpl; setoid_rewrite lru_find_Get; done.
Qed.

Lemma sets_wf_new n (nt : net) : sets_wf (NewRouter n nt).
Proof. split; simpl; intros *; by rewrite lru_find_new. Qed.

(** ** Properties *)

(** The router's channels refine a map from channels to sets of peers: any
    sequence of additions, removals and lookups runs without a nil dereference,
    with the results and the contents the map allows; an addition may evict other
    channels, whole; an address that is no peer's puts a nil peer into the set;
    and neither the peers nor their connections are touched. *)
Theorem channels_refine (os : list chan_op) (r : Router) (Hwf : sets_wf r) :
  ∃ xs r', collectM run_chan os r = (Ret xs, r') ∧ sets_wf r' ∧ same_peers r r'
    ∧ spec_chans (Peers r) os (interested r) xs (interested r').
Proof.
  revert r Hwf. induction os as [|o os IH]; intros r Hwf; cbn [collectM].
  - exists [], r. split_and!; [done..|constructor].
  - destruct (run_chan_spec o r Hwf) as (x & r1 & Hr & Hwf1 & Hp1 & Hs). mstep Hr.
    destruct (IH r1 Hwf1) as (xs & r2 & Hrs & Hwf2 & Hp2 & Hss). mstep Hrs.
    eexists _, _. split; [reflexivity|]. split; [done|].
    destruct Hp1 as (H1 & H2 & H3 & H4), Hp2 as (H5 & H6 & H7 & H8).
    split; [split_and!; congruence|]. rewrite H1 in Hss. by econstructor.
Qed.
End sets.

Import Ref.

(** One peer is known; the other address is not a peer's. *)
Definition chan_ops : list chan_op :=
  [OpAddPeer "10.0.0.8:2223" "room"; OpAddPeer "10.0.0.9:2223" "room";
   OpRemovePeer "10.0.0.9:2223" "room"; OpLookup "room"; OpRemovePeer "10.0.0.8:2223" "den"].
Definition chan_router : Router (NT := ref_net) :=
  mkRouter {[ "10.0.0.8:2223" := 3%nat ]} (NewLruCache 10) ∅ ∅ ([] : @net ref_net) [].

Lemma channels_refine_witness :
  ∃ xs r', collectM run_chan chan_ops chan_router = (Ret xs, r') ∧ sets_wf r'
    ∧ spec_chans {[ "10.0.0.8:2223" := 3%nat ]} chan_ops (interested chan_router) xs (interested r').
Proof.
  destruct (channels_refine chan_ops chan_router) as (xs & r' & Hrun & Hwf & _ & Hs).
  { split; intros *; done. }
  exists xs, r'. split; [exact Hrun|]. split; [exact Hwf|exact Hs].
Defined.

Example chan_ops_run : (collectM run_chan chan_ops chan_router).1
  = Ret [ResErr None; ResErr None; ResErr None; ResSet (Some {[Some 3%nat]});
         ResErr (Some (NewError "specified channel not exists"))].
Proof. vm_compute. reflexivity. Qed.
