(* ===== verification/World.v ===== *)
(** * The server's global state

    pushd keeps its state in package variables: the registries of package
    engine ([UuidToClient], [PubsubChannels], [channelToUserIds], [Proxy]), the
    storage queue, the configuration.  [World] gathers them, together with the
    heap of [*Client] objects, the goroutines that have been spawned but have
    not run yet, and what has been written to the connections. *)
From S2P Require Import Prelude GoStrings Wire Deps Config Base UserIdCache Storage Router.

Local Open Scope string_scope.
Local Open Scope list_scope.
Local Open Scope Z_scope.

(** [config.PushdConf], set once at startup. *)
Class Global : Type := PushdConf : ConfigPushd.

(** ** engine/client.go, data *)
Definition TYPE_CLIENT : Z := 1.
Definition TYPE_SERVER : Z := 2.
Definition CLIENT_STATE_CREATE : Z := 0.
Definition CLIENT_STATE_INIT_DOEN : Z := 1.
Definition CLIENT_STATE_DEAD : Z := 2.

Record TokenInfo : Type := mkToken { token : string; expire : Z }.

(** [Type] is a [uint8].  The embedded [*server.Client], golib's connection,
    has no state of its own here: reads, writes and the close of the
    connection are events of the world. *)
Record Client : Type := mkClient {
  Channels : gmap string Z;
  Type_ : Z;
  uuid : string;
  tokenInfo : TokenInfo;
  PushId : string;
  IsAllowForceNotify : bool;
  state : Z
}.

(** [NewClient]; the fields it does not set have their zero value. *)
Definition NewClient : Client := mkClient ∅ 0 "" (mkToken "" 0) "" false CLIENT_STATE_CREATE.

(** A [go] statement: the call that will run in its own goroutine. *)
Inductive Task : Type :=
| GoWriteFormatMsg (cli : ptr) (op msg : string)
| GoWriteFormatBinMsg (cli : ptr) (op : string) (msg : list byte)
| GoInitChatEnv (cli : ptr) (uuid : string)
| GoPeerWrite (peer : option ptr) (cmd : string) (msg : list byte).

(** What the connection of a client sees of the server. *)
Inductive Event : Type :=
| EWrite (cli : ptr) (op : string) (msg : list byte)
| EDeadline (cli : ptr)
| EClose (cli : ptr)
| ES2sDeadline (conn : nat)   (* connections from other servers *)
| ES2sClose (conn : nat)
| EHttp (text : string)       (* written to an HTTP response *)
| EHttpClose.                 (* the hijacked connection of a request is closed *)

(** What [Proto.Read] returns on a connection: bytes, or an error that is
    [io.EOF], a [net.Error] with its two flags, or anything else. *)
Inductive read : Type :=
| ReadOk (input : list byte)
| ReadEOF
| ReadNetErr (timeout temporary : bool)
| ReadOtherErr.

Section world.
  Context {EX : Externals} {NT : Net}.

(** engine/s2s_proxy.go *)
Record ForwardTuple : Type := mkForward { f_peers : PeerSet; f_msg : list byte; f_cmd : string }.
Definition NewForwardTuple (peers : PeerSet) (msg : list byte) (cmd : string) : ForwardTuple :=
  mkForward peers msg cmd.
Record S2sProxy : Type := mkProxy { px_Router : Router; px_ForwardTuple : gochan ForwardTuple }.

(** [w_proxy] is [None] while [engine.Proxy] is nil, [w_driver] while
    [storage.driver] is nil; a nil [msgQueue] is a channel of capacity 0. *)
Record World : Type := mkWorld {
  w_base : Base;
  w_clients : gmap ptr Client;            (* heap *)
  w_uuids : cmap ptr;                     (* UuidToClient *)
  w_cache : ChannelToUserIds;             (* channelToUserIds *)
  w_pubsub : lru (cmap ptr);              (* PubsubChannels *)
  w_proxy : option S2sProxy;
  w_skipAcl : goset string;               (* skipAclCmd *)
  w_msgQueue : gochan MsgTuple;
  w_driver : option storageDriver;
  w_tasks : list Task;
  w_out : list Event
}.

Definition set_base (b : Base) (w : World) : World :=
  mkWorld b (w_clients w) (w_uuids w) (w_cache w) (w_pubsub w) (w_proxy w) (w_skipAcl w)
    (w_msgQueue w) (w_driver w) (w_tasks w) (w_out w).
Definition set_clients (h : gmap ptr Client) (w : World) : World :=
  mkWorld (w_base w) h (w_uuids w) (w_cache w) (w_pubsub w) (w_proxy w) (w_skipAcl w)
    (w_msgQueue w) (w_driver w) (w_tasks w) (w_out w).
Definition set_uuids (m : cmap ptr) (w : World) : World :=
  mkWorld (w_base w) (w_clients w) m (w_cache w) (w_pubsub w) (w_proxy w) (w_skipAcl w)
    (w_msgQueue w) (w_driver w) (w_tasks w) (w_out w).
Definition set_cache (c : ChannelToUserIds) (w : World) : World :=
  mkWorld (w_base w) (w_clients w) (w_uuids w) c (w_pubsub w) (w_proxy w) (w_skipAcl w)
    (w_msgQueue w) (w_driver w) (w_tasks w) (w_out w).
Definition set_pubsub (p : lru (cmap ptr)) (w : World) : World :=
  mkWorld (w_base w) (w_clients w) (w_uuids w) (w_cache w) p (w_proxy w) (w_skipAcl w)
    (w_msgQueue w) (w_driver w) (w_tasks w) (w_out w).
Definition set_proxy (p : option S2sProxy) (w : World) : World :=
  mkWorld (w_base w) (w_clients w) (w_uuids w) (w_cache w) (w_pubsub w) p (w_skipAcl w)
    (w_msgQueue w) (w_driver w) (w_tasks w) (w_out w).
Definition set_skipAcl (s : goset string) (w : World) : World :=
  mkWorld (w_base w) (w_clients w) (w_uuids w) (w_cache w) (w_pubsub w) (w_proxy w) s
    (w_msgQueue w) (w_driver w) (w_tasks w) (w_out w).
Definition set_msgQueue (q : gochan MsgTuple) (w : World) : World :=
  mkWorld (w_base w) (w_clients w) (w_uuids w) (w_cache w) (w_pubsub w) (w_proxy w)
    (w_skipAcl w) q (w_driver w) (w_tasks w) (w_out w).
Definition set_tasks (l : list Task) (w : World) : World :=
  mkWorld (w_base w) (w_clients w) (w_uuids w) (w_cache w) (w_pubsub w) (w_proxy w)
    (w_skipAcl w) (w_msgQueue w) (w_driver w) l (w_out w).
Definition set_out (l : list Event) (w : World) : World :=
  mkWorld (w_base w) (w_clients w) (w_uuids w) (w_cache w) (w_pubsub w) (w_proxy w)
    (w_skipAcl w) (w_msgQueue w) (w_driver w) (w_tasks w) l.

(** ** The components' operations on the world *)
Definition onBase {A} (m : M Base A) : M World A := zoom w_base set_base m.
Definition onCache {A} (m : M ChannelToUserIds A) : M World A := zoom w_cache set_cache m.
Definition onQueue {A} (m : M (gochan MsgTuple) A) : M World A := zoom w_msgQueue set_msgQueue m.

(** [Proxy.Router] and [Proxy.ForwardTuple] panic while [Proxy] is nil. *)
Definition onProxy {A} (m : M S2sProxy A) : M World A := λ w,
  match w_proxy w with
  | None => (Panic "invalid memory address or nil pointer dereference", w)
  | Some px => let '(o, px') := m px in (o, set_proxy (Some px') w)
  end.
Definition onRouter {A} (m : M Router A) : M World A :=
  onProxy (zoom px_Router (λ r px, mkProxy r (px_ForwardTuple px)) m).
Definition onForward {A} (m : M (gochan ForwardTuple) A) : M World A :=
  onProxy (zoom px_ForwardTuple (λ c px, mkProxy (px_Router px) c) m).

Definition spawn (t : Task) : M World unit := modify (λ w, set_tasks (w_tasks w ++ [t]) w).
Definition emit (e : Event) : M World unit := modify (λ w, set_out (w_out w ++ [e]) w).

(** [*p] and [*p = c] *)
Definition get_client (p : ptr) : M World Client :=
  h ← gets w_clients; deref "invalid memory address or nil pointer dereference" (h !! p).
Definition put_client (p : ptr) (c : Client) : M World unit :=
  modify (λ w, set_clients (<[p := c]> (w_clients w)) w).
Definition upd_client (p : ptr) (f : Client → Client) : M World unit :=
  c ← get_client p; put_client p (f c).
Definition new_client (c : Client) : M World ptr := λ w,
  let p := fresh (dom (w_clients w)) in (Ret p, set_clients (<[p := c]> (w_clients w)) w).

(** One draw from the clock or a random source. *)
Definition tick (w : World) : World :=
  set_base (mkBase (b_db (w_base w)) (S (b_tick (w_base w)))) w.

Lemma now_UnixNano_run w :
  onBase now_UnixNano w = (Ret (UnixNano (b_tick (w_base w))), tick w).
Proof. done. Qed.

Lemma now_Unix_run w :
  onBase now_Unix w = (Ret (UnixNano (b_tick (w_base w)) / 1000000000), tick w).
Proof. done. Qed.

(** A request to the database, seen from the world. *)
Lemma onBase_req {A} (f : db → db * A) w :
  onBase (on_db f) w = (Ret (f (b_db (w_base w))).2,
                        set_base (mkBase (f (b_db (w_base w))).1 (b_tick (w_base w))) w).
Proof. unfold onBase, zoom, on_db. by destruct (f (b_db (w_base w))). Qed.

Lemma get_client_run p c w : w_clients w !! p = Some c → get_client p w = (Ret c, w).
Proof. intros H. unfold get_client. mred. by rewrite H. Qed.

Lemma upd_client_run p c f w :
  w_clients w !! p = Some c →
  upd_client p f w = (Ret tt, set_clients (<[p := f c]> (w_clients w)) w).
Proof. intros H. unfold upd_client. by mstep (get_client_run p c w H). Qed.

(** ** Frame lemmas: what the components' operations cannot do *)
Section frames.
  Context (R : relation World) `{!PreOrder R}.

(** Overwriting one component is an instance of [R]. *)
Definition ignores {S} (put : S → World → World) : Prop := ∀ s w, R w (put s w).

Lemma within_onBase {B} (m : M Base B) : ignores set_base → within R (onBase m).
Proof. intros H. apply within_zoom. intros w s. apply H. Qed.

Lemma within_onCache {B} (m : M ChannelToUserIds B) : ignores set_cache → within R (onCache m).
Proof. intros H. apply within_zoom. intros w s. apply H. Qed.

Lemma within_onQueue {B} (m : M (gochan MsgTuple) B) :
  ignores set_msgQueue → within R (onQueue m).
Proof. intros H. apply within_zoom. intros w s. apply H. Qed.

Lemma within_onProxy {B} (m : M S2sProxy B) : ignores set_proxy → within R (onProxy m).
Proof.
  intros H w. unfold onProxy. destruct (w_proxy w) as [px|]; [|reflexivity].
  destruct (m px). apply H.
Qed.

Lemma within_spawn t : ignores set_tasks → within R (spawn t).
Proof. intros H w. apply H. Qed.

Lemma within_emit e : ignores set_out → within R (emit e).
Proof. intros H w. apply H. Qed.

Lemma within_get_client p : within R (get_client p).
Proof. unfold get_client. apply within_bind; eauto with within typeclass_instances. Qed.

Lemma within_put_client p c : ignores set_clients → within R (put_client p c).
Proof. intros H w. apply H. Qed.

(** An update of one client that [R] allows. *)
Lemma within_upd_client p f :
  (∀ w c, w_clients w !! p = Some c → R w (set_clients (<[p := f c]> (w_clients w)) w)) →
  within R (upd_client p f).
Proof.
  intros H w. unfold upd_client, get_client, put_client. mred.
  destruct (w_clients w !! p) as [c|] eqn:E; simpl; [by apply H|reflexivity].
Qed.
End frames.

(** Most code only writes to the database, the caches, the queues and the
    connections: a relation that allows that is [Inert]. *)
Definition is_write (t : Task) : Prop :=
  match t with GoInitChatEnv _ _ => False | _ => True end.

(** The operations of [ChannelToUserIds]. *)
Inductive cache_op : ∀ {A}, M ChannelToUserIds A → Prop :=
| co_Add c u : cache_op (AddUserId c u)
| co_AddAll c us : cache_op (AddAllUserIds c us)
| co_Remove c u : cache_op (RemoveUserId c u)
| co_Get c : cache_op (GetUserIdsByChannel c)
| co_Exists c : cache_op (Exists c)
| co_Del c : cache_op (Del c).

Class Inert (R : relation World) : Prop := {
  inert_preorder :: PreOrder R;
  inert_base : ignores R set_base;
  inert_cache A (m : M ChannelToUserIds A) : cache_op m → within R (onCache m);
  inert_pubsub : ignores R set_pubsub;
  inert_proxy : ignores R set_proxy;
  inert_queue : ignores R set_msgQueue;
  inert_spawn t w : is_write t → R w (set_tasks (w_tasks w ++ [t]) w)
}.

Lemma within_spawn_write (R : relation World) `{!Inert R} t : is_write t → within R (spawn t).
Proof. intros Ht w. by apply inert_spawn. Qed.

Lemma within_modify_pubsub (R : relation World) `{!Inert R} c : within R (modify (set_pubsub c)).
Proof. intros w. apply inert_pubsub. Qed.
End world.

#[export] Hint Resolve within_onBase within_onQueue within_onProxy
  within_get_client within_spawn_write within_modify_pubsub : within.
#[export] Hint Resolve inert_base inert_cache inert_pubsub inert_proxy inert_queue : within.
#[export] Hint Constructors cache_op : within.
#[export] Hint Extern 1 (is_write _) => exact I : within.
#[export] Hint Extern 1 (PreOrder _) => typeclasses eauto : within.
#[export] Hint Extern 1 (Inert _) => typeclasses eauto : within.

(** [frame] proves that a definition stays [within] a relation, statement by
    statement. *)
Ltac frame_step :=
  match goal with
  | |- within _ (mbind _ _) => apply within_bind; [typeclasses eauto| |intros ?]
  | |- within _ (mapM_ _ _) => apply within_mapM_; [typeclasses eauto|intros ?]
  | |- within _ (loop_ret _ _) => apply within_loop_ret; [typeclasses eauto|intros ?]
  | |- within _ (collectM _ _) => apply within_collectM; [typeclasses eauto|intros ?]
  | |- within _ (let _ := _ in _) => cbv zeta
  | |- within _ (match ?x with _ => _ end) => destruct x
  end.
Ltac frame := repeat (first [solve [eauto 3 with within] | frame_step]); eauto with within.
