(* ===== verification/PubSub.v ===== *)
(** * Publishing (engine/pubsub.go, part of engine/offpush.go, engine/s2s_proxy.go)

    A message for a channel goes to the members of the channel that are
    connected here and, in distributed mode, to every other server.  The
    registry [UuidToClient] leads from a user id to its connection. *)
From S2P Require Import Prelude GoStrings Wire Deps RefDeps Config Base UserIdCache Storage.
From S2P Require Import Router World.

Local Open Scope string_scope.
Local Open Scope list_scope.
Local Open Scope Z_scope.

Definition OUTPUT_RCIV : string := "RCIV".

(** ** engine/constants.go: the types of the records of the message log *)
Definition ErrNotPermit : error := NewError "Not Permit".
Definition MESSAGE_TYPE_NORMAL : Z := 0.
Definition CREATE_CHAT_ROOM : Z := 2.
Definition RETRACT_MESSAGE : Z := 3.
Definition SOME_ONE_JOIN_CHAT_ROOM : Z := 4.
Definition SOME_ONE_QUIT_CHAT_ROOM : Z := 5.
Definition SOME_ONE_EXPELLED_FROM_CHAT_ROOM : Z := 6.
Definition SOME_ONE_MODIFY_NAME_OF_CHAT_ROOM : Z := 7.
Definition SOME_ONE_BE_INVITED_OT_CHAT_ROOM : Z := 8.
Definition FACE_TO_FACE_SOME_ONE_JOIN_CHAT_ROOM : Z := 9.
Definition MASTER_CHANGE_CHAT_ROOM : Z := 11.
Definition MESSAGE_FOR_PERSON : Z := 1000.

(** [fmt.Sprintf] with verbs separated by single spaces. *)
Definition spaced (l : list string) : string := Join l " ".

Section pubsub.
  Context {EX : Externals} {NT : Net} {CF : Global}.

(** ** The registry [UuidClientMap] and the channels [PubsubChans] *)
Definition NewPubsubChannels (maxChannelItems : Z) : lru (cmap ptr) := NewLruCache maxChannelItems.
Definition NewUuidClientMap : cmap ptr := cmap_New.

Definition AddClient (uid : string) (client : ptr) : M World unit :=
  modify (λ w, set_uuids (cmap_Set (w_uuids w) uid client) w).

Definition GetClient (uid : string) : M World (option ptr) :=
  gets (λ w, cmap_Get (w_uuids w) uid).

Definition Remove (uid : string) (client : ptr) : M World unit :=
  o ← GetClient uid;
  match o with
  | None => mret tt
  | Some _ =>
      (* under [cli.Mutex] *)
      cli ← GetClient uid;
      if bool_decide (cli = Some client)
      then modify (λ w, set_uuids (cmap_Remove (w_uuids w) uid) w)
      else mret tt
  end.

(** ** Channels: the bodies of these three are commented out in the source *)
Definition PubsubGet (channel : string) : M World (option (cmap ptr)) :=
  c ← gets w_pubsub;
  let '(c', o) := lru_Get c channel in
  _ ← modify (set_pubsub c'); mret o.
Definition Subscribe (cli : ptr) (channel : string) : M World string := mret "".
Definition Unsubscribe (cli : ptr) (channel : string) : M World string := mret "".
Definition UnsubscribeAllChannels (cli : ptr) : M World unit := mret tt.

(** ** The members of a channel (engine/offpush.go) *)
Definition LoadUserIdsFromDatabase (channel : string) : M World (error + list string) :=
  r ← onBase (findOne (C "channel_uuids") (by_id channel)
                (VDoc [("uuids", VInt 1); ("_id", VInt 0)]));
  match r with
  | inl _ => mret (inl (NewError "database error"))
  | inr result =>
      fs ← as_doc result;
      match field "uuids" fs with
      | None => mret (inl (NewError "no uuids"))
      | Some t =>
          tempUserIds ← as_arr t;
          us ← collectM as_str tempUserIds;
          _ ← onCache (AddAllUserIds channel us);
          mret (inr us)
      end
  end.

Definition LoadUserIdsByChannel (channel : string) : M World (list string) :=
  o ← onCache (GetUserIdsByChannel channel);
  match o with
  | Some us => mret us
  | None =>
      r ← LoadUserIdsFromDatabase channel;
      mret (match r with inl _ => [] | inr us => us end)
  end.

Definition fetchAllMatchUserIds := LoadUserIdsByChannel.

(** ** Delivery *)
Definition pushOne (op ownerId : string) (msg : list byte) (ele : string) : M World unit :=
  o ← GetClient ele;
  match o with
  | None => mret tt
  | Some cli =>
      c ← get_client cli;
      if String.eqb (uuid c) ownerId then mret tt
      else spawn (GoWriteFormatBinMsg cli op msg)
  end.

Definition pushToNativeClient (op channelId ownerId : string) (msg : list byte)
    : M World unit :=
  us ← fetchAllMatchUserIds channelId;
  mapM_ (pushOne op ownerId msg) us.

Definition PushToClients (msg : string) (us : list string) : M World unit :=
  mapM_ (λ ele,
    o ← GetClient ele;
    match o with
    | None => mret tt
    | Some cli => spawn (GoWriteFormatBinMsg cli OUTPUT_RCIV (bytes_of_string msg))
    end) us.

(** Every value of [Proxy.Router.Peers], collected in a set. *)
Definition all_peers (r : Router) : PeerSet :=
  foldl (λ s v, (set_Add s v).1) set_NewSet ((Some ∘ snd) <$> map_to_list (Peers r)).

Definition forwardToAllOtherServer (cmd : string) (message : list byte) : M World unit :=
  if negb (IsDistMode PushdConf) || String.eqb cmd "" || (length message =? 0)%nat
  then mret tt else
  r ← onProxy (gets px_Router);
  onForward (chan_send (NewForwardTuple (all_peers r) message cmd)).

Definition forwardToOtherServerInChannel (cmd channelId : string) (message : list byte)
    : M World unit :=
  if negb (IsDistMode PushdConf) || String.eqb cmd "" || String.eqb channelId ""
     || (length message =? 0)%nat
  then mret tt else
  r ← onProxy (gets px_Router);
  onForward (chan_send (NewForwardTuple (all_peers r) message cmd)).

Definition PublishStrMsg (channel msg ownerId : string) (isToOtherServer : bool)
    : M World unit :=
  _ ← pushToNativeClient OUTPUT_RCIV channel ownerId (bytes_of_string msg);
  if isToOtherServer then
    let msg2 := spaced [channel; msg] in
    forwardToAllOtherServer S2S_PUSH_STRING_MESSAGE (bytes_of_string msg2)
  else mret tt.

Definition PublishBinMsg (channel ownerId : string) (msg : list byte) (isToOtherServer : bool)
    : M World unit :=
  _ ← pushToNativeClient CMD_VIDO_CHAT channel ownerId msg;
  if isToOtherServer then
    let buff := bytes_of_string channel ++ bytes_of_string " " ++ msg in
    forwardToAllOtherServer CMD_VIDO_CHAT buff
  else mret tt.

(** The text a subscriber receives for a published message. *)
Definition clientMsg (channel userId : string) (ts msgId : Z) (msg : string) : string :=
  spaced [fmt_d MESSAGE_TYPE_NORMAL; channel; userId; fmt_d ts; fmt_d msgId; msg].

Definition EnqueueMsg (channel msg uid : string) (ts msgId : Z) : M World unit :=
  onQueue (chan_send (mkMsg channel msg ts uid msgId)).

Definition Publish (channel msg userId : string) (msgId : Z) (fromS2s : bool)
    : M World string :=
  ts ← onBase now_UnixNano;
  _ ← PublishStrMsg channel (clientMsg channel userId ts msgId msg) userId (negb fromS2s);
  let _ := cache_Store (mkMsg channel msg ts userId 0) in
  _ ← (if negb fromS2s && EnableStorage PushdConf
       then EnqueueMsg channel msg userId ts msgId else mret tt);
  mret "".

(** ** [S2sProxy.WaitMsg]: one round of its loop, parked while nothing is queued *)
Definition chan_recv {A} : M (gochan A) A := λ c,
  match ch_buf c with
  | [] => (Block, c)
  | x :: l => (Ret x, mkchan (ch_cap c) l)
  end.

Definition WaitMsg_round : M World unit :=
  tuple ← onForward chan_recv;
  mapM_ (λ peer, spawn (GoPeerWrite peer (f_cmd tuple) (f_msg tuple)))
    (set_elems (f_peers tuple)).

(** [n] rounds *)
Fixpoint WaitMsg (n : nat) : M World unit :=
  match n with O => mret tt | S n' => _ ← WaitMsg_round; WaitMsg n' end.

(** ** Publishing is inert *)
Section frame.
  Context (R : relation World) `{!Inert R}.

Lemma within_GetClient u : within R (GetClient u).
Proof. unfold GetClient. frame. Qed.
Hint Resolve within_GetClient : within.

Lemma within_PubsubGet ch : within R (PubsubGet ch).
Proof. unfold PubsubGet. frame. Qed.

Lemma within_LoadUserIdsFromDatabase ch : within R (LoadUserIdsFromDatabase ch).
Proof. unfold LoadUserIdsFromDatabase. frame. Qed.
Hint Resolve within_LoadUserIdsFromDatabase : within.

Lemma within_LoadUserIdsByChannel ch : within R (LoadUserIdsByChannel ch).
Proof. unfold LoadUserIdsByChannel. frame. Qed.
Hint Resolve within_LoadUserIdsByChannel : within.

Lemma within_pushToNativeClient op ch owner msg : within R (pushToNativeClient op ch owner msg).
Proof. unfold pushToNativeClient, fetchAllMatchUserIds, pushOne. frame. Qed.
Hint Resolve within_pushToNativeClient : within.

Lemma within_PushToClients msg us : within R (PushToClients msg us).
Proof. unfold PushToClients. frame. Qed.

Lemma within_forward cmd m : within R (forwardToAllOtherServer cmd m).
Proof. unfold forwardToAllOtherServer, onForward. frame. Qed.
Hint Resolve within_forward : within.

Lemma within_PublishStrMsg ch msg owner b : within R (PublishStrMsg ch msg owner b).
Proof. unfold PublishStrMsg. frame. Qed.
Hint Resolve within_PublishStrMsg : within.

Lemma within_PublishBinMsg ch owner msg b : within R (PublishBinMsg ch owner msg b).
Proof. unfold PublishBinMsg. frame. Qed.

Lemma within_Publish ch msg u id b : within R (Publish ch msg u id b).
Proof. unfold Publish, EnqueueMsg. frame. Qed.
End frame.

(** ** Specification vocabulary *)

(** The connection that a message of [owner] reaches for member [u]. *)
Definition recipient (w : World) (owner u : string) : option ptr :=
  p ← cmap_Get (w_uuids w) u;
  c ← w_clients w !! p;
  if String.eqb (uuid c) owner then None else Some p.

(** The registry has no dangling pointer: registered connections are objects of
    the heap, whatever state they are in. *)
Definition registry_valid (w : World) : Prop :=
  ∀ u p, cmap_Get (w_uuids w) u = Some p → is_Some (w_clients w !! p).

Definition push_all (op owner : string) (msg : list byte) (us : list string) (w : World) : World :=
  set_tasks (w_tasks w ++ ((λ p, GoWriteFormatBinMsg p op msg) <$> omap (recipient w owner) us)) w.

(** The room [ch] has just been looked up. *)
Definition looked_up (ch : string) (w : World) : World := set_cache (touch ch (w_cache w)) w.

(** [m] has been queued for every other server. *)
Definition forwarded (cmd : string) (m : list byte) (px : S2sProxy) : S2sProxy :=
  mkProxy (px_Router px)
    (chan_push (mkForward (all_peers (px_Router px)) m cmd) (px_ForwardTuple px)).

Context {LL : LruLaws} {GL : GoSetLaws} {CL : CmapLaws}.

(** ** Lemmas *)
Lemma GetClient_run u w : GetClient u w = (Ret (cmap_Get (w_uuids w) u), w).
Proof. done. Qed.

Lemma set_tasks_nil w : set_tasks (w_tasks w ++ []) w = w.
Proof. rewrite app_nil_r. by destruct w. Qed.

Lemma pushOne_run op owner msg u w :
  registry_valid w → pushOne op owner msg u w = (Ret tt, push_all op owner msg [u] w).
Proof.
  intros Hl. unfold pushOne, push_all, recipient. mstep (GetClient_run u w). simpl.
  destruct (cmap_Get (w_uuids w) u) as [p|] eqn:E; simpl; [|by rewrite set_tasks_nil].
  destruct (Hl u p E) as [c Hc]. mstep (get_client_run p c w Hc). rewrite Hc. simpl.
  destruct (String.eqb (uuid c) owner); simpl; [by rewrite set_tasks_nil|done].
Qed.

Lemma push_all_app op owner msg us vs w :
  push_all op owner msg (us ++ vs) w = push_all op owner msg vs (push_all op owner msg us w).
Proof. unfold push_all. simpl. by rewrite omap_app, fmap_app, app_assoc. Qed.

Lemma pushes_run op owner msg us w :
  registry_valid w → mapM_ (pushOne op owner msg) us w = (Ret tt, push_all op owner msg us w).
Proof.
  revert w. induction us as [|u us IH]; intros w Hl; simpl.
  - unfold push_all. simpl. by rewrite set_tasks_nil.
  - mstep (pushOne_run op owner msg u w Hl). rewrite IH by done.
    by rewrite <- push_all_app.
Qed.

Lemma cached_run ch s w :
  cache_wf (w_cache w) → members (w_cache w) ch = Some s →
  ∃ l, l ≡ₚ elements s ∧
    LoadUserIdsByChannel ch w = (Ret (replicate (size s) "" ++ l), looked_up ch w).
Proof.
  intros Hwf Hs. destruct (GetUserIds_run ch (w_cache w) Hwf) as (r & Hrun & Hr).
  rewrite Hs in Hr. destruct r as [us|]; [|done]. destruct Hr as (l & -> & Hnd & <-).
  exists l. split; [by rewrite elements_list_to_set|].
  unfold LoadUserIdsByChannel, onCache, zoom. mred. by rewrite Hrun.
Qed.

Lemma omap_blank {A} (f : string → option A) n l :
  f "" = None → omap f (replicate n "" ++ l) = omap f l.
Proof. intros H. induction n as [|n IH]; simpl; [done|]. by rewrite H. Qed.

Lemma pushToNativeClient_run op ch owner msg s w :
  registry_valid w → cache_wf (w_cache w) → members (w_cache w) ch = Some s →
  cmap_Get (w_uuids w) "" = None →
  ∃ l, l ≡ₚ elements s ∧
    pushToNativeClient op ch owner msg w = (Ret tt, push_all op owner msg l (looked_up ch w)).
Proof.
  intros Hl Hwf Hs Hb. destruct (cached_run ch s w Hwf Hs) as (l & Hp & Hrun).
  exists l. split; [done|]. unfold pushToNativeClient, fetchAllMatchUserIds. mstep Hrun.
  rewrite pushes_run by done. unfold push_all. rewrite omap_blank; [done|].
  unfold recipient. simpl. by rewrite Hb.
Qed.

Lemma EnqueueMsg_run ch msg user ts id w :
  chan_full (w_msgQueue w) = false →
  EnqueueMsg ch msg user ts id w =
    (Ret tt, set_msgQueue (chan_push (mkMsg ch msg ts user id) (w_msgQueue w)) w).
Proof. intros H. unfold EnqueueMsg, onQueue, zoom, chan_send. by rewrite H. Qed.

Lemma all_peers_elems r x :
  x ∈ set_elems (all_peers r) ↔ ∃ a p, Peers r !! a = Some p ∧ x = Some p.
Proof.
  unfold all_peers. rewrite set_elems_foldl, set_elems_New, list_elem_of_fmap. split.
  - intros [([a p] & -> & Hin)|H]; [|by apply not_elem_of_nil in H].
    apply elem_of_map_to_list in Hin. by exists a, p.
  - intros (a & p & Hp & ->). left. exists (a, p). split; [done|]. by apply elem_of_map_to_list.
Qed.

Lemma forward_run cmd m px w :
  IsDistMode PushdConf = true → cmd ≠ "" → m ≠ [] → w_proxy w = Some px →
  forwardToAllOtherServer cmd m w =
    if chan_full (px_ForwardTuple px) then (Block, w)
    else (Ret tt, set_proxy (Some (forwarded cmd m px)) w).
Proof.
  intros Hd Hc Hm Hp. unfold forwardToAllOtherServer. rewrite Hd.
  destruct (String.eqb_spec cmd ""); [done|]. destruct m as [|b m]; [done|]. simpl.
  unfold onForward, onProxy, chan_send. mred. rewrite Hp. simpl.
  assert (w = set_proxy (Some px) w) as Hw by (destruct w; simpl in *; by rewrite Hp).
  rewrite <- Hw. destruct px as [r c]. simpl in *.
  destruct (chan_full c); [by rewrite <- Hw|done].
Qed.

(** One round: the message at the head is given to a goroutine per peer. *)
Lemma WaitMsg_round_run w px t bs :
  w_proxy w = Some px → ch_buf (px_ForwardTuple px) = t :: bs →
  WaitMsg_round w =
    (Ret tt, set_tasks (w_tasks w ++ ((λ peer, GoPeerWrite peer (f_cmd t) (f_msg t))
                                        <$> set_elems (f_peers t)))
             (set_proxy (Some (mkProxy (px_Router px) (mkchan (ch_cap (px_ForwardTuple px)) bs))) w)).
Proof.
  intros Hp Hb. unfold WaitMsg_round, onForward, onProxy, chan_recv. mred. rewrite Hp. mred.
  rewrite Hb. erewrite (mapM__fold _ (λ w x, set_tasks (w_tasks w ++ [GoPeerWrite x (f_cmd t) (f_msg t)]) w))
    by done.
  assert (∀ l w, foldl (λ w x, set_tasks (w_tasks w ++ [GoPeerWrite x (f_cmd t) (f_msg t)]) w) w l
            = set_tasks (w_tasks w ++ ((λ x, GoPeerWrite x (f_cmd t) (f_msg t)) <$> l)) w) as Hf.
  { induction l as [|x l IHl]; intros w'; simpl; [by rewrite set_tasks_nil|].
    rewrite IHl. simpl. by rewrite <- app_assoc. }
  by rewrite Hf.
Qed.

Lemma WaitMsg_drain n bs w px :
  w_proxy w = Some px → px_ForwardTuple px = mkchan n bs →
  WaitMsg (length bs) w =
    (Ret tt, set_tasks (w_tasks w ++ (bs ≫= λ t,
               (λ peer, GoPeerWrite peer (f_cmd t) (f_msg t)) <$> set_elems (f_peers t)))
             (set_proxy (Some (mkProxy (px_Router px) (mkchan n []))) w)).
Proof.
  revert w px. induction bs as [|t bs IH]; intros w [r c] Hp Hc; simpl in Hc; subst c; simpl.
  { rewrite app_nil_r. destruct w; simpl in *. by rewrite Hp. }
  mstep (WaitMsg_round_run w (mkProxy r (mkchan n (t :: bs))) t bs Hp eq_refl).
  match goal with |- WaitMsg _ ?w' = _ => rewrite (IH w' (mkProxy r (mkchan n bs))) by done end.
  simpl. by rewrite <- app_assoc.
Qed.

(** ** Properties *)

(** Delivery inside a server is exact.  For a room whose members are cached,
    publishing starts one write per member that is connected here and is not
    the author, to that member's connection, and no other write; nothing else
    changes but the recency of the room in the cache. *)
Theorem pushToNativeClient_delivers (op ch owner : string) (msg : list byte)
    (s : gset string) (w : World)
    (Hl : registry_valid w) (Hwf : cache_wf (w_cache w))
    (Hs : members (w_cache w) ch = Some s) (Hb : cmap_Get (w_uuids w) "" = None) :
  ∃ us, us ≡ₚ elements s
    ∧ pushToNativeClient op ch owner msg w =
        (Ret tt, set_tasks (w_tasks w ++ ((λ p, GoWriteFormatBinMsg p op msg) <$>
                                            omap (recipient w owner) us)) (looked_up ch w))
    ∧ ∀ p, p ∈ omap (recipient w owner) us ↔
           ∃ u c, u ∈ s ∧ cmap_Get (w_uuids w) u = Some p
                  ∧ w_clients w !! p = Some c ∧ uuid c ≠ owner.
Proof.
  destruct (pushToNativeClient_run op ch owner msg s w Hl Hwf Hs Hb) as (us & Hp & Hrun).
  exists us. split_and!; [done|exact Hrun|]. intros p. rewrite list_elem_of_omap. split.
  - intros (u & Hu & Hr). rewrite Hp, elem_of_elements in Hu. unfold recipient in Hr.
    destruct (cmap_Get (w_uuids w) u) as [q|] eqn:E; simpl in Hr; [|done].
    destruct (w_clients w !! q) as [c|] eqn:Ec; simpl in Hr; [|done].
    destruct (String.eqb_spec (uuid c) owner); [done|]. injection Hr as ->. by exists u, c.
  - intros (u & c & Hu & Hg & Hc & Hne). exists u. rewrite Hp, elem_of_elements.
    split; [done|]. unfold recipient. rewrite Hg. simpl. rewrite Hc. simpl.
    by destruct (String.eqb_spec (uuid c) owner).
Qed.

(** Forwarding to the other servers: outside distributed mode it does
    nothing (and does not touch the proxy, which is nil then); in distributed
    mode it queues the message for exactly the peers that are registered,
    unless the queue is full, in which case the publisher parks and nothing has
    changed. *)
Theorem forwardToAllOtherServer_spec (cmd : string) (m : list byte) (w : World)
    (Hcmd : cmd ≠ "") (Hm : m ≠ []) :
  match IsDistMode PushdConf, w_proxy w with
  | false, _ => forwardToAllOtherServer cmd m w = (Ret tt, w)
  | true, None => ∃ e, forwardToAllOtherServer cmd m w = (Panic e, w)
  | true, Some px =>
      if chan_full (px_ForwardTuple px) then forwardToAllOtherServer cmd m w = (Block, w) else
      ∃ ps, (∀ x, x ∈ set_elems ps ↔ ∃ a p, Peers (px_Router px) !! a = Some p ∧ x = Some p)
        ∧ forwardToAllOtherServer cmd m w =
            (Ret tt, set_proxy (Some (mkProxy (px_Router px)
                       (chan_push (mkForward ps m cmd) (px_ForwardTuple px)))) w)
  end.
Proof.
  destruct (IsDistMode PushdConf) eqn:Hd; [|by unfold forwardToAllOtherServer; rewrite Hd].
  destruct (w_proxy w) as [px|] eqn:Hp.
  - rewrite (forward_run cmd m px w) by done. destruct (chan_full (px_ForwardTuple px)); [done|].
    exists (all_peers (px_Router px)). split; [apply all_peers_elems|done].
  - unfold forwardToAllOtherServer. rewrite Hd.
    destruct (String.eqb_spec cmd ""); [done|]. destruct m; [done|]. simpl.
    unfold onProxy. mred. rewrite Hp. by eexists.
Qed.

(** [WaitMsg] drains the forwarding queue in order: after as many rounds as
    there are queued messages the queue is empty and, message by message, one
    write to each peer of its set has been started; one more round parks. *)
Theorem WaitMsg_drains (px : S2sProxy) (w : World) (Hp : w_proxy w = Some px) :
  let bs := ch_buf (px_ForwardTuple px) in
  ∃ w', WaitMsg (length bs) w = (Ret tt, w')
    ∧ w_tasks w' = w_tasks w ++ (bs ≫= λ t, (λ peer, GoPeerWrite peer (f_cmd t) (f_msg t))
                                              <$> set_elems (f_peers t))
    ∧ (WaitMsg_round w').1 = Block.
Proof.
  destruct px as [r [n bs]]. simpl. eexists. split; [by apply (WaitMsg_drain n bs w (mkProxy r (mkchan n bs)))|].
  split; [done|]. done.
Qed.

(** Publishing a message (from a client, storage and distributed mode on,
    no queue full): the members connected here get the formatted text, every
    other server gets the same text with the channel in front, and the message
    is queued for storage with the time stamp the clients see. *)
Theorem Publish_spec (ch msg user : string) (id : Z) (s : gset string) (px : S2sProxy)
    (w : World)
    (Hd : IsDistMode PushdConf = true) (Hst : EnableStorage PushdConf = true)
    (Hl : registry_valid w) (Hwf : cache_wf (w_cache w))
    (Hs : members (w_cache w) ch = Some s) (Hb : cmap_Get (w_uuids w) "" = None)
    (Hp : w_proxy w = Some px) (Hf : chan_full (px_ForwardTuple px) = false)
    (Hq : chan_full (w_msgQueue w) = false) (Hch : ch ≠ "") :
  let ts := UnixNano (b_tick (w_base w)) in
  let text := clientMsg ch user ts id msg in
  ∃ us w', us ≡ₚ elements s ∧ Publish ch msg user id false w = (Ret "", w')
    ∧ w_tasks w' = w_tasks w ++ ((λ p, GoWriteFormatBinMsg p OUTPUT_RCIV (bytes_of_string text))
                                   <$> omap (recipient w user) us)
    ∧ w_proxy w' = Some (forwarded S2S_PUSH_STRING_MESSAGE
                           (bytes_of_string (ch +:+ " " +:+ text)) px)
    ∧ w_msgQueue w' = chan_push (mkMsg ch msg ts user id) (w_msgQueue w)
    ∧ w_clients w' = w_clients w ∧ w_uuids w' = w_uuids w.
Proof.
  intros ts text. unfold Publish. mstep (now_UnixNano_run w). fold ts. fold text.
  destruct (pushToNativeClient_run OUTPUT_RCIV ch user (bytes_of_string text) s (tick w))
    as (us & Hus & Hrun); try done.
  exists us. unfold PublishStrMsg. cbn [negb].
  assert (∀ w2, w_proxy w2 = Some px →
    forwardToAllOtherServer S2S_PUSH_STRING_MESSAGE (bytes_of_string (spaced [ch; text])) w2 =
    (Ret tt, set_proxy (Some (forwarded S2S_PUSH_STRING_MESSAGE
       (bytes_of_string (spaced [ch; text])) px)) w2)) as Hfwd.
  { intros w2 Hp2. rewrite (forward_run _ _ px) by (done || by destruct ch). by rewrite Hf. }
  unfold mbind, M_bind. rewrite Hrun. cbv beta iota. rewrite Hfwd by done.
  cbv beta iota. rewrite Hst. cbn [andb]. rewrite EnqueueMsg_run by done.
  eexists. split_and!; [done|reflexivity|done..].
Qed.

(** What subscribers receive can be taken apart again: splitting the text
    of a published message at its first five blanks gives back the type, the
    channel, the author, the time stamp, the message id and the message, and
    the numbers parse to the values that were sent, whatever the message
    contains. *)
Theorem clientMsg_roundtrip (ch user : string) (ts id : Z) (msg : string)
    (Hch : occurs space ch = false) (Hu : occurs space user = false)
    (Hts : is_int64 ts = true) (Hid : is_int64 id = true) :
  SplitN space (clientMsg ch user ts id msg) 6
    = [fmt_d MESSAGE_TYPE_NORMAL; ch; user; fmt_d ts; fmt_d id; msg]
  ∧ ParseInt64 (fmt_d ts) = Some ts ∧ ParseInt64 (fmt_d id) = Some id.
Proof.
  split; [|by rewrite !ParseInt64_fmt, Hts, Hid].
  unfold clientMsg, spaced, Join.
  repeat (change (SplitN space (?a +:+ " " +:+ ?x) ?n) with (SplitN space (a +:+ String space x) n);
          rewrite SplitN_app by auto using occurs_space_fmt_d). done.
Qed.
End pubsub.

#[export] Hint Resolve within_GetClient within_PubsubGet within_LoadUserIdsFromDatabase
  within_LoadUserIdsByChannel within_pushToNativeClient within_PushToClients within_forward
  within_PublishStrMsg within_PublishBinMsg within_Publish : within.

Import Ref.

(** Two users in a room, one of them the author, on a server with one peer. *)
#[local] Instance example_conf : Global := example_config 0 (Some ["127.0.0.1:2181"]).
Definition example_client (u : string) : Client :=
  mkClient ∅ TYPE_CLIENT u (mkToken "tk" 1500000000) u false CLIENT_STATE_INIT_DOEN.
Definition example_cache : ChannelToUserIds :=
  (AddAllUserIds "room" ["u1"; "u2"] (newChannelToUserIds 10)).2.
Definition example_proxy : S2sProxy (EX := ref_externals) (NT := ref_net) :=
  mkProxy (mkRouter {[ "10.0.0.8:2223" := 0%nat ]} (NewLruCache 10) ∅
             {[ 0%nat := mkPeer "10.0.0.8:2223" (Some 7%nat) ]} ([] : @net ref_net) [])
          (mkchan 100 []).
Definition example_world : World (EX := ref_externals) (NT := ref_net) :=
  mkWorld example_base {[ 1%nat := example_client "u1"; 2%nat := example_client "u2" ]}
    {[ "u1" := 1%nat; "u2" := 2%nat ]} example_cache (NewLruCache 10) (Some example_proxy)
    set_NewSet (mkchan 100 []) (factory "mongodb") [] [].

Lemma example_valid : registry_valid example_world.
Proof.
  intros u p. simpl. rewrite lookup_insert, lookup_singleton.
  repeat case_decide; intros [= <-]; vm_compute; eauto.
Qed.

Lemma example_cache_wf : cache_wf (w_cache example_world).
Proof.
  destruct (run_op_spec (OpAddAll "room" ["u1"; "u2"]) _ (cache_wf_new 10))
    as (r & st' & Hrun & Hwf & _).
  change (cache_wf (AddAllUserIds "room" ["u1"; "u2"] (newChannelToUserIds 10)).2).
  simpl in Hrun. unfold mbind, M_bind, mret, M_ret in Hrun.
  destruct (AddAllUserIds "room" ["u1"; "u2"] (newChannelToUserIds 10)) as [[]]; by simplify_eq.
Qed.

Lemma example_room : members (w_cache example_world) "room" = Some {["u1"; "u2"]}.
Proof. vm_compute. reflexivity. Qed.

Lemma pushToNativeClient_delivers_witness :
  ∃ us, us ≡ₚ elements ({["u1"; "u2"]} : gset string)
    ∧ pushToNativeClient "RCIV" "room" "u1" [] example_world =
        (Ret tt, set_tasks (((λ p, GoWriteFormatBinMsg p "RCIV" []) <$>
                               omap (recipient example_world "u1") us))
                   (looked_up "room" example_world)).
Proof.
  destruct (pushToNativeClient_delivers "RCIV" "room" "u1" [] {["u1"; "u2"]} example_world
    example_valid example_cache_wf example_room) as (us & Hp & Hrun & _); [reflexivity|].
  exists us. split; [exact Hp | exact Hrun].
Defined.

Lemma forwardToAllOtherServer_spec_witness :
  ∃ ps, 0%nat ∈ omap id (set_elems ps)
    ∧ (forwardToAllOtherServer "push_str_msg" (bytes_of_string "room hi") example_world).2
      = set_proxy (Some (mkProxy (px_Router example_proxy)
          (mkchan 100 [mkForward ps (bytes_of_string "room hi") "push_str_msg"]))) example_world.
Proof.
  destruct (forwardToAllOtherServer_spec "push_str_msg" (bytes_of_string "room hi") example_world)
    as (ps & Hps & Hrun); [discriminate|discriminate|].
  exists ps. split; [|by rewrite Hrun].
  apply list_elem_of_omap. exists (Some 0%nat). split; [|done].
  apply Hps. exists "10.0.0.8:2223", 0%nat. split; [vm_compute|]; done.
Defined.

Lemma WaitMsg_drains_witness :
  ∃ w', WaitMsg 0 example_world = (Ret tt, w') ∧ (WaitMsg_round w').1 = Block.
Proof.
  destruct (WaitMsg_drains example_proxy example_world eq_refl) as (w' & Hrun & _ & Hb).
  exists w'. split; [exact Hrun | exact Hb].
Defined.

Lemma Publish_spec_witness :
  ∃ w', Publish "room" "hello" "u1" 7 false example_world = (Ret "", w')
    ∧ w_msgQueue w' = mkchan 100 [mkMsg "room" "hello" 1500000000000000000 "u1" 7].
Proof.
  destruct (Publish_spec (CF := example_conf) "room" "hello" "u1" 7 {["u1"; "u2"]} example_proxy example_world
    eq_refl eq_refl example_valid example_cache_wf example_room eq_refl eq_refl eq_refl eq_refl)
    as (us & w' & _ & Hrun & _ & _ & Hq & _); [discriminate|].
  exists w'. split; [exact Hrun | rewrite Hq; reflexivity].
Defined.

Lemma clientMsg_roundtrip_witness :
  SplitN space (clientMsg "room" "u1" 1500000000000000000 7 "hello  world") 6
    = ["0"; "room"; "u1"; "1500000000000000000"; "7"; "hello  world"].
Proof. refine (proj1 (clientMsg_roundtrip "room" "u1" _ _ "hello  world" _ _ _ _)); reflexivity. Defined.
