(* ===== verification/OffPush.v ===== *)
(** * Off-line pushes (engine/offpush.go)

    [CheckAndPush] picks the members of a room that want a notification and
    starts a goroutine that takes a sender from the pool and lets it [send] one
    JPush request.  The server does not call it at present: the call in
    [sendMsg] is commented out.  The JPush client is a parameter. *)
From S2P Require Import Prelude GoStrings Wire Deps RefDeps Config SenderPool UserIdCache Base Storage.
From S2P Require Import Router World PubSub.

Local Open Scope string_scope.
Local Open Scope list_scope.

(** ** github.com/ylywyn/jpush-api-go-client

    [jp_ToBytes] is the request built with [NewPushPayLoad], [SetPlatform],
    [SetAudience], [SetNotice] and [ToBytes] from platforms, aliases and the
    title and alert of an Android notice; [jp_Send] changes the state of the
    service. *)
Class JPush : Type := {
  jp : Type;
  jp_ANDROID : string;
  jp_ToBytes : list string → list string → string → string → list byte;
  jp_Send : jp → Sender → list byte → jp * (error + string);
  (** [fmt.Sprintf("%s", v)] for a value of another type than string *)
  fmt_other : value → string
}.

Section offpush.
  Context {EX : Externals} {NT : Net} {CF : Global} {JP : JPush}.

(** The variables captured by the goroutine of [CheckAndPush]. *)
Record PushTask : Type := mkPush {
  t_pushIds : list string; t_message : string; t_ownerId : string; t_channel : string
}.

(** [o_pool] is the variable [senderPool], [None] while nil. *)
Record OffPush : Type := mkOff {
  o_world : World; o_pool : option OffSenderPool; o_jp : jp; o_tasks : list PushTask
}.

Definition set_world (w : World) (st : OffPush) : OffPush :=
  mkOff w (o_pool st) (o_jp st) (o_tasks st).
Definition set_pool (p : OffSenderPool) (st : OffPush) : OffPush :=
  mkOff (o_world st) (Some p) (o_jp st) (o_tasks st).
Definition set_jp (j : jp) (st : OffPush) : OffPush :=
  mkOff (o_world st) (o_pool st) j (o_tasks st).
Definition add_task (t : PushTask) (st : OffPush) : OffPush :=
  mkOff (o_world st) (o_pool st) (o_jp st) (o_tasks st ++ [t]).

Definition onWorld {A} (m : M World A) : M OffPush A := zoom o_world set_world m.

(** ** [Sender.send] *)
Definition UserCollection : coll := mkcoll "mongo" "user".
Definition ChatRoomCollection : coll := mkcoll "mongo" "chatroom".

(** [FindId(bson.ObjectIdHex(id)).Select(p).One(&result)] *)
Definition findId (c : coll) (id : string) (p : value) : M OffPush (error + value) :=
  o ← deref "invalid input to ObjectIdHex" (ObjectIdHex id);
  onWorld (onBase (findOne c (VDoc [("_id", VOid o)]) p)).

Definition fmt_s (v : value) : string := match v with VStr s => s | _ => fmt_other v end.

(** From [payload := jpushclient.NewPushPayLoad()] on *)
Definition push (snd : Sender) (pushIds : list string) (title alert : string)
    : M OffPush (option error) := λ st,
  let '(j, r) := jp_Send (o_jp st) snd (jp_ToBytes [jp_ANDROID] pushIds title alert) in
  (Ret (match r with inl e => Some e | inr _ => None end), set_jp j st).

(** From [var notice jpushclient.Notice] on *)
Definition send_notice (snd : Sender) (pushIds : list string) (message : string)
    (chatRoomInfo : list (string * value)) (mType : Z) (userName : value)
    : M OffPush (option error) :=
  if (mType =? 1)%Z then
    title ← as_str userName;
    push snd pushIds title message
  else
    match field "name" chatRoomInfo with
    | None => mret (Some (NewError "collection chatroom has no field of name"))
    | Some (VStr roomName) => push snd pushIds roomName (fmt_s userName +:+ ":" +:+ message)
    | Some _ => mret (Some (NewError "field name in collection chatroom is not a string"))
    end.

Definition send (snd : Sender) (pushIds : list string) (message ownerId channelId : string)
    : M OffPush (option error) :=
  if (length pushIds =? 0)%nat then mret None else
  if negb (IsObjectIdHex channelId)
  then mret (Some (NewError "channelId is invalid ObjectIdHex")) else
  r ← findId ChatRoomCollection channelId
        (VDoc [("type", VInt 1); ("_id", VInt 0); ("name", VInt 1)]);
  match r with
  | inl err => mret (Some err)
  | inr result =>
      chatRoomInfo ← as_doc result;
      match field "type" chatRoomInfo with
      | None => mret (Some (NewError "collection chatroom has no field of type"))
      | Some (VInt mType) =>
          if negb (IsObjectIdHex ownerId)
          then mret (Some (NewError "ownerId is invalid ObjectIdHex")) else
          r ← findId UserCollection ownerId (VDoc [("userName", VInt 1); ("_id", VInt 0)]);
          match r with
          | inl err => mret (Some err)
          | inr result =>
              user ← as_doc result;
              match field "userName" user with
              | None => mret (Some (NewError "collection user has no field of userName"))
              | Some userName => send_notice snd pushIds message chatRoomInfo mType userName
              end
          end
      | Some _ => mret (Some (NewError "field type in collection chatroom is not a int"))
      end
  end.

(** ** The pool, seen by one goroutine that is not disturbed

    The compare-and-swap loop between other goroutines is the subject of
    [SenderPool]. *)
Definition ObtainOneOffSender : M OffPush Sender := λ st,
  match o_pool st with
  | None => (Panic "invalid memory address or nil pointer dereference", st)
  | Some p =>
      let '(p', c) := solo 3 p PStart in
      match c with
      | PDone h =>
          match pool p' !! Z.to_nat h with
          | Some (Some s) => if (h <? 0)%Z then (Panic "index out of range", set_pool p' st)
                             else (Ret s, set_pool p' st)
          | Some None => (Panic "invalid memory address or nil pointer dereference",
                          set_pool p' st)
          | None => (Panic "index out of range", set_pool p' st)
          end
      | _ => (Panic "integer divide by zero", set_pool p' st)
      end
  end.

(** The body of the goroutine; an error is only logged. *)
Definition run_push (t : PushTask) : M OffPush unit :=
  snd ← ObtainOneOffSender;
  _ ← send snd (t_pushIds t) (t_message t) (t_ownerId t) (t_channel t);
  mret tt.

(** ** [CheckAndPush] *)
Fixpoint select_pushIds (ownerId : string) (us : list string) : M World (list string) :=
  match us with
  | [] => mret []
  | uId :: us' =>
      if String.eqb uId ownerId then select_pushIds ownerId us' else
      o ← GetClient uId;
      here ← match o with
             | None => mret []
             | Some cli =>
                 client ← get_client cli;
                 mret (if IsAllowForceNotify client then [PushId client] else [])
             end;
      rest ← select_pushIds ownerId us';
      mret (here ++ rest)
  end.

Definition CheckAndPush (channel message ownerId : string) : M OffPush unit :=
  p ← gets o_pool;
  match p with
  | None => panic "offpush模块未执行初始化"
  | Some _ =>
      us ← onWorld (LoadUserIdsByChannel channel);
      if (length us <? 1)%nat then mret tt else
      pushIds ← onWorld (select_pushIds ownerId us);
      if (length pushIds =? 0)%nat then mret tt
      else modify (add_task (mkPush pushIds message ownerId channel))
  end.

(** ** Lemmas *)

(** The push id that member [u] is notified under, if any. *)
Definition push_id (w : World) (owner u : string) : option string :=
  if String.eqb u owner then None else
  p ← cmap_Get (w_uuids w) u;
  c ← w_clients w !! p;
  if IsAllowForceNotify c then Some (PushId c) else None.

Lemma select_run owner us w :
  registry_valid w → select_pushIds owner us w = (Ret (omap (push_id w owner) us), w).
Proof.
  intros Hl. induction us as [|u us IH]; [done|]. cbn [select_pushIds omap list_omap].
  unfold push_id at 1. destruct (String.eqb u owner); [exact IH|].
  mstep (GetClient_run u w). destruct (cmap_Get (w_uuids w) u) as [p|] eqn:E; simpl.
  - destruct (Hl u p E) as [c Hc]. unfold mbind at 1, M_bind at 1.
    mstep (get_client_run p c w Hc). rewrite Hc. mred. rewrite IH.
    by destruct (IsAllowForceNotify c).
  - mred. by rewrite IH.
Qed.

Lemma onWorld_run {A} (m : M World A) st a w' :
  m (o_world st) = (Ret a, w') → onWorld m st = (Ret a, set_world w' st).
Proof. intros H. unfold onWorld, zoom. by rewrite H. Qed.

Lemma solo_obtains p : size p ≠ 0%Z →
  solo 3 p PStart =
    (mkPool (pool p) (hit_of (baton p) (size p)) (size p), PDone (hit_of (baton p) (size p))).
Proof. intros Hn. simpl. rewrite (proj2 (Z.eqb_neq _ _) Hn), Z.eqb_refl. done. Qed.

Lemma obtain_run st p sd :
  o_pool st = Some p → (0 < size p < 2 ^ 31)%Z → (0 ≤ baton p < size p)%Z →
  pool p !! Z.to_nat ((baton p + 1) mod size p) = Some (Some sd) →
  ObtainOneOffSender st =
    (Ret sd, set_pool (mkPool (pool p) ((baton p + 1) mod size p) (size p)) st).
Proof.
  intros Hp Hn Hb Hsd. unfold ObtainOneOffSender. rewrite Hp, solo_obtains by lia.
  assert (hit_of (baton p) (size p) = (baton p + 1) mod size p)%Z as ->.
  { rewrite <- (Z.mod_small (baton p) (size p)) at 1 by done. by apply hit_of_mod. }
  cbn [pool]. rewrite Hsd. destruct (Z.ltb_spec ((baton p + 1) mod size p) 0); [|done].
  pose proof (Z.mod_pos_bound (baton p + 1) (size p)). lia.
Qed.

Lemma findId_run c id o prj st :
  ObjectIdHex id = Some o →
  findId c id prj st =
    let w := o_world st in
    let x := mgo_one (b_db (w_base w)) c (VDoc [("_id", VOid o)]) prj in
    (Ret x.2, set_world (set_base (mkBase x.1 (b_tick (w_base w))) w) st).
Proof.
  intros Ho. unfold findId. rewrite Ho. mred. unfold onWorld, onBase, zoom, findOne, on_db.
  by destruct (mgo_one _ _ _ _).
Qed.

(** The title and the alert of a push, out of the documents of the room and of
    the author: in a private room (type 1) the author and the message, in a group
    its name and the message with the author in front. *)
Definition notice (message : string) (room user : list (string * value))
    : option (string * string) :=
  match field "type" room, field "userName" user with
  | Some (VInt ty), Some name =>
      if (ty =? 1)%Z
      then match name with VStr n => Some (n, message) | _ => None end
      else match field "name" room with
           | Some (VStr r) => Some (r, fmt_s name +:+ ":" +:+ message)
           | _ => None
           end
  | _, _ => None
  end.

Lemma push_run sd ids ti al st :
  push sd ids ti al st =
    let x := jp_Send (o_jp st) sd (jp_ToBytes [jp_ANDROID] ids ti al) in
    (Ret (match x.2 with inl e => Some e | inr _ => None end), set_jp x.1 st).
Proof. unfold push. by destruct (jp_Send _ _ _). Qed.

Lemma send_notice_run sd ids m rf mType name st :
  let sent ti al := jp_Send (o_jp st) sd (jp_ToBytes [jp_ANDROID] ids ti al) in
  match (if (mType =? 1)%Z
         then match name with VStr n => Some (n, m) | _ => None end
         else match field "name" rf with
              | Some (VStr r) => Some (r, fmt_s name +:+ ":" +:+ m) | _ => None end) with
  | Some (ti, al) => ∃ e, send_notice sd ids m rf mType name st = (Ret e, set_jp (sent ti al).1 st)
  | None => ∃ out, send_notice sd ids m rf mType name st = (out, st)
                   ∧ out ≠ Ret None ∧ out ≠ Block
  end.
Proof.
  intros sent. unfold send_notice. destruct (mType =? 1)%Z.
  - destruct name; try by eexists. eexists. mstep (eq_refl (Ret s, st)). apply push_run.
  - destruct (field "name" rf) as [[]|]; try by eexists. eexists. apply push_run.
Qed.

(** What [send] asks the database for. *)
Definition room_query (o : string) (d : db) : db * (error + value) :=
  mgo_one d ChatRoomCollection (VDoc [("_id", VOid o)])
    (VDoc [("type", VInt 1); ("_id", VInt 0); ("name", VInt 1)]).
Definition user_query (o : string) (d : db) : db * (error + value) :=
  mgo_one d UserCollection (VDoc [("_id", VOid o)])
    (VDoc [("userName", VInt 1); ("_id", VInt 0)]).

Lemma send_run sd ids m owner ch st oc oo d1 d2 rf uf :
  ids ≠ [] →
  IsObjectIdHex ch = true → ObjectIdHex ch = Some oc →
  IsObjectIdHex owner = true → ObjectIdHex owner = Some oo →
  room_query oc (b_db (w_base (o_world st))) = (d1, inr (VDoc rf)) →
  user_query oo d1 = (d2, inr (VDoc uf)) →
  match notice m rf uf with
  | Some (ti, al) =>
      ∃ e w', send sd ids m owner ch st =
        (Ret e, mkOff w' (o_pool st)
                  (jp_Send (o_jp st) sd (jp_ToBytes [jp_ANDROID] ids ti al)).1 (o_tasks st))
  | None => ∃ out w', send sd ids m owner ch st =
              (out, mkOff w' (o_pool st) (o_jp st) (o_tasks st))
              ∧ out ≠ Ret None ∧ out ≠ Block
  end.
Proof.
  intros Hids Hch Hoc How Hoo Hr Hu. unfold send.
  destruct ids as [|i ids]; [done|]. rewrite Hch, How. cbn [length Nat.eqb negb].
  set (l := i :: ids). rewrite (bind_ret_run _ _ _ _ _ (findId_run _ _ oc _ _ Hoc)).
  fold (room_query oc (b_db (w_base (o_world st)))). rewrite Hr. cbn [fst snd].
  mstep (eq_refl (Ret rf, set_world (set_base (mkBase d1 (b_tick (w_base (o_world st))))
                            (o_world st)) st)).
  unfold notice. destruct (field "type" rf) as [[]|]; try by eexists _, _.
  rewrite (bind_ret_run _ _ _ _ _ (findId_run _ _ oo _ _ Hoo)).
  cbn [set_world o_world set_base w_base b_db b_tick]. fold (user_query oo d1). rewrite Hu.
  cbn [fst snd]. set (st2 := set_world _ _). mstep (eq_refl (Ret uf, st2)).
  destruct (field "userName" uf) as [name|]; [|by eexists _, _].
  pose proof (send_notice_run sd l m rf z name st2) as H. simpl in H.
  destruct (z =? 1)%Z; [destruct name|destruct (field "name" rf) as [[]|]];
    destruct H as (? & H); eexists _, _; first [exact H | split; [exact H|done]].
Qed.
Context {LL : LruLaws} {GL : GoSetLaws} {CL : CmapLaws}.

(** ** Properties *)

(** [CheckAndPush] notifies exactly the right members: for a room whose
    members are cached it starts one goroutine, with one push id for each member
    that is registered here, is not the author and allows forced notification,
    and no other; without such a member it starts none.  Nothing else changes,
    but the recency of the room in the cache. *)
Theorem CheckAndPush_spec (ch message owner : string) (s : gset string) (p : OffSenderPool)
    (st : OffPush) (Hp : o_pool st = Some p) (Hl : registry_valid (o_world st))
    (Hwf : cache_wf (w_cache (o_world st))) (Hs : members (w_cache (o_world st)) ch = Some s)
    (Hb : cmap_Get (w_uuids (o_world st)) "" = None) :
  ∃ us, us ≡ₚ elements s
    ∧ (let ids := omap (push_id (o_world st) owner) us in
       let st' := set_world (looked_up ch (o_world st)) st in
       CheckAndPush ch message owner st =
         (Ret tt, match ids with
                  | [] => st'
                  | _ => add_task (mkPush ids message owner ch) st'
                  end)
       ∧ ∀ id, id ∈ ids ↔
           ∃ u q c, u ∈ s ∧ u ≠ owner ∧ cmap_Get (w_uuids (o_world st)) u = Some q
                    ∧ w_clients (o_world st) !! q = Some c
                    ∧ IsAllowForceNotify c = true ∧ PushId c = id).
Proof.
  destruct (cached_run ch s (o_world st) Hwf Hs) as (us & Hperm & Hrun).
  exists us. split; [done|]. split.
  - unfold CheckAndPush. rewrite (bind_ret_run (gets o_pool) _ st _ st eq_refl), Hp.
    mstep (onWorld_run _ _ _ _ Hrun).
    set (all := replicate _ "" ++ us).
    assert (omap (push_id (o_world st) owner) all = omap (push_id (o_world st) owner) us) as Hall.
    { apply omap_blank. unfold push_id. destruct (String.eqb "" owner); [done|by rewrite Hb]. }
    set (w1 := looked_up ch (o_world st)). set (st1 := set_world w1 st).
    destruct (Nat.ltb_spec (length all) 1).
    { rewrite <- Hall. by destruct all; [|simpl in *; lia]. }
    mstep (onWorld_run _ st1 _ _ (select_run owner all w1 Hl)).
    change (push_id w1 owner) with (push_id (o_world st) owner).
    rewrite Hall. by destruct (omap (push_id (o_world st) owner) us) as [|id ids].
  - intros id. rewrite list_elem_of_omap. unfold push_id. split.
    + intros (u & Hu & Hid). rewrite Hperm, elem_of_elements in Hu.
      destruct (String.eqb_spec u owner); [done|].
      destruct (cmap_Get _ u) as [q|] eqn:Eq; simpl in Hid; [|done].
      destruct (w_clients _ !! q) as [c|] eqn:Ec; simpl in Hid; [|done].
      destruct (IsAllowForceNotify c) eqn:Ef; [|done]. injection Hid as <-. by exists u, q, c.
    + intros (u & q & c & Hu & Hne & Hg & Hc & Hf & Hid). exists u.
      rewrite Hperm, elem_of_elements. split; [done|].
      destruct (String.eqb_spec u owner); [done|]. rewrite Hg. simpl. rewrite Hc. simpl.
      by rewrite Hf, Hid.
Qed.

(** One push, end to end: the goroutine takes the next sender of the
    rotation; if the room and the author are known and complete, that sender
    makes exactly one request, addressed to the selected push ids, with the
    title and alert of the room's type.  If a field is missing or of the wrong
    type nothing is sent. *)
Theorem run_push_spec (t : PushTask) (p : OffSenderPool) (sd : Sender) (st : OffPush)
    (oc oo : string) (d1 d2 : db) (rf uf : list (string * value))
    (Hp : o_pool st = Some p) (Hn : (0 < size p < 2 ^ 31)%Z) (Hbt : (0 ≤ baton p < size p)%Z)
    (Hsd : pool p !! Z.to_nat ((baton p + 1) mod size p) = Some (Some sd))
    (Hids : t_pushIds t ≠ [])
    (Hch : IsObjectIdHex (t_channel t) = true) (Hoc : ObjectIdHex (t_channel t) = Some oc)
    (How : IsObjectIdHex (t_ownerId t) = true) (Hoo : ObjectIdHex (t_ownerId t) = Some oo)
    (Hr : room_query oc (b_db (w_base (o_world st))) = (d1, inr (VDoc rf)))
    (Hu : user_query oo d1 = (d2, inr (VDoc uf))) :
  let p' := mkPool (pool p) ((baton p + 1) mod size p) (size p) in
  match notice (t_message t) rf uf with
  | Some (title, alert) =>
      ∃ w', run_push t st =
        (Ret tt, mkOff w' (Some p')
                   (jp_Send (o_jp st) sd
                      (jp_ToBytes [jp_ANDROID] (t_pushIds t) title alert)).1 (o_tasks st))
  | None => ∃ out w', run_push t st = (out, mkOff w' (Some p') (o_jp st) (o_tasks st))
  end.
Proof.
  intros p'. unfold run_push. mstep (obtain_run st p sd Hp Hn Hbt Hsd). fold p'.
  pose proof (send_run sd _ (t_message t) _ _ (set_pool p' st) oc oo d1 d2 rf uf
                Hids Hch Hoc How Hoo Hr Hu) as H. simpl in H.
  destruct (notice _ rf uf) as [[ti al]|].
  - destruct H as (e & w' & H). exists w'. by mstep H.
  - destruct H as (out & w' & H & _). unfold mbind, M_bind. rewrite H.
    destruct out; eexists _, _; reflexivity.
Qed.
End offpush.



Import Ref.
#[local] Existing Instance example_conf.

(** A service that keeps the requests it was sent, newest first. *)
#[export] Instance ref_jpush : JPush := {|
  jp := list (Sender * list byte);
  jp_ANDROID := "android";
  jp_ToBytes ps ids title alert :=
    bytes_of_string (Join ps "," +:+ "|" +:+ Join ids "," +:+ "|" +:+ title +:+ "|" +:+ alert);
  jp_Send j s b := ((s, b) :: j, inr "ok");
  fmt_other _ := "%!s"
|}.

Definition room_hex : string := "0123456789abcdef01234567".
Definition user_hex : string := "fedcba9876543210fedcba98".

(** Both members of the room allow notifications; the room is a group called
    team, the author ann. *)
Definition notified (u : string) : Client :=
  mkClient ∅ TYPE_CLIENT u (mkToken "tk" 0) ("push-" +:+ u) true CLIENT_STATE_INIT_DOEN.
Definition example_docs : store :=
  {[ "chatroom" := [VDoc [("_id", VOid room_hex); ("type", VInt 2); ("name", VStr "team")]];
     "user" := [VDoc [("_id", VOid user_hex); ("userName", VStr "ann")]] ]}.
Definition example_off : OffPush (EX := ref_externals) (NT := ref_net) :=
  mkOff (set_base (mkBase (MG := ref_mongo) example_docs 0)
           (set_clients {[ 1%nat := notified "u1"; 2%nat := notified "u2" ]} example_world))
    (Some (mkPool (replicate 2 (Some (mkSender "secret" "app"))) 1 2)) [] [].

Lemma example_off_valid : registry_valid (o_world example_off).
Proof.
  intros u p. simpl. rewrite lookup_insert, lookup_singleton.
  repeat case_decide; intros [= <-]; vm_compute; eauto.
Qed.

Lemma CheckAndPush_spec_witness :
  ∃ st', CheckAndPush "room" "hi" "u1" example_off = (Ret tt, st')
         ∧ o_tasks st' = [mkPush ["push-u2"] "hi" "u1" "room"].
Proof.
  destruct (CheckAndPush_spec "room" "hi" "u1" {["u1"; "u2"]} _ example_off eq_refl
    example_off_valid example_cache_wf example_room eq_refl) as (us & Hus & Hrun & _).
  assert (omap (push_id (o_world example_off) "u1") us = ["push-u2"]) as E.
  { apply Permutation_singleton_r. rewrite Hus. vm_compute. reflexivity. }
  rewrite E in Hrun. eexists. split; [exact Hrun|reflexivity].
Defined.

Lemma run_push_spec_witness :
  ∃ w', run_push (mkPush ["push-u2"; "push-u3"] "hi" user_hex room_hex) example_off =
    (Ret tt, mkOff w' (Some (mkPool (replicate 2 (Some (mkSender "secret" "app"))) 0 2))
               [(mkSender "secret" "app",
                 bytes_of_string "android|push-u2,push-u3|team|ann:hi")] []).
Proof.
  destruct (run_push_spec (mkPush ["push-u2"; "push-u3"] "hi" user_hex room_hex) _
    (mkSender "secret" "app") example_off room_hex user_hex example_docs example_docs
    [("_id", VOid room_hex); ("type", VInt 2); ("name", VStr "team")]
    [("_id", VOid user_hex); ("userName", VStr "ann")] eq_refl) as (w' & H);
    [done|done|reflexivity|done|reflexivity|reflexivity|reflexivity|reflexivity
    |vm_compute; reflexivity|vm_compute; reflexivity|].
  exists w'. exact H.
Defined.
