(* ===== verification/Client.v ===== *)
(** * Client connections (engine/client.go)

    The operations of [*Client]: identity bits, the environment set up after
    [setuuid], acknowledgements, and the clean-up when a connection ends. *)
From S2P Require Import Prelude GoStrings Wire Deps RefDeps Config Base UserIdCache Storage Router.
From S2P Require Import World PubSub.

Local Open Scope string_scope.
Local Open Scope list_scope.
Local Open Scope Z_scope.

Definition OUTPUT_FRAME_CHAT : string := "FRAMECHAT".
Definition CMD_FRAME_DISMISS : string := "frame_dismiss".

(** ** Field updates *)
Definition with_Type (t : Z) (c : Client) : Client :=
  mkClient (Channels c) t (uuid c) (tokenInfo c) (PushId c) (IsAllowForceNotify c) (state c).
Definition with_uuid (u : string) (c : Client) : Client :=
  mkClient (Channels c) (Type_ c) u (tokenInfo c) (PushId c) (IsAllowForceNotify c) (state c).
Definition with_tokenInfo (t : TokenInfo) (c : Client) : Client :=
  mkClient (Channels c) (Type_ c) (uuid c) t (PushId c) (IsAllowForceNotify c) (state c).
Definition with_PushId (s : string) (c : Client) : Client :=
  mkClient (Channels c) (Type_ c) (uuid c) (tokenInfo c) s (IsAllowForceNotify c) (state c).
Definition with_notify (b : bool) (c : Client) : Client :=
  mkClient (Channels c) (Type_ c) (uuid c) (tokenInfo c) (PushId c) b (state c).
Definition with_state (st : Z) (c : Client) : Client :=
  mkClient (Channels c) (Type_ c) (uuid c) (tokenInfo c) (PushId c) (IsAllowForceNotify c) st.

(** ** Identity: two bits of [Type] *)
Definition as_client (c : Client) : Client := with_Type (Z.lor (Type_ c) TYPE_CLIENT) c.
Definition as_server (c : Client) : Client := with_Type (Z.lor (Type_ c) TYPE_SERVER) c.
Definition no_identity (c : Client) : Client := with_Type (Z.land (Type_ c) 0) c.
Definition IsClient (c : Client) : bool := negb (Z.land (Type_ c) TYPE_CLIENT =? 0).
Definition IsServer (c : Client) : bool := negb (Z.land (Type_ c) TYPE_SERVER =? 0).

Section client.
  Context {EX : Externals} {NT : Net} {CF : Global}.

Definition SetClient (this : ptr) : M World unit := upd_client this as_client.
Definition SetServer (this : ptr) : M World unit := upd_client this as_server.
Definition ClearIdentity (this : ptr) : M World unit := upd_client this no_identity.

Definition initToken (this : ptr) (tk : string) (ex : Z) : M World unit :=
  upd_client this (with_tokenInfo (mkToken tk ex)).
Definition updateTokenExpire (this : ptr) (ex : Z) : M World unit :=
  upd_client this (λ c, with_tokenInfo (mkToken (token (tokenInfo c)) ex) c).

(** [bson.M{"_id": objectId}] *)
Definition by_oid (o : string) : value := VDoc [("_id", VOid o)].

(** The end of a frame chat: every member of the real channel loses it from its
    [frame_chat] list, and is told. *)
Definition frame_over (objectId : string) (result : value) (uid channelId : string)
    : M World unit :=
  v ← doc_get result "channelId";
  realChannelId ← as_str v;
  UUIDs ← onBase (FetchUuidsAboutChannel realChannelId);
  _ ← onBase (bulkUpsert (C "user_info")
        (for_each UUIDs (VDoc [("$pull", VDoc [("frame_chat", VOid objectId)])])));
  let notice := spaced [OUTPUT_FRAME_CHAT; CMD_FRAME_DISMISS +:+ "2"; fmt_d (-1); uid; channelId] in
  PublishStrMsg realChannelId notice uid true.

(** [$pull] the user from the active users, and the test that nobody is left:
    [collection.Remove] succeeds only on an empty list. *)
Definition pull_active (objectId uid : string) : M World (error + value) :=
  onBase (applyOne (C "unstable_info") (by_oid objectId)
            (VDoc [("$pull", VDoc [("activeUser", VStr uid)])])).
Definition remove_empty (objectId : string) : M World (option error) :=
  onBase (remove_ (C "unstable_info") (VDoc [("_id", VOid objectId); ("activeUser", VStrs [])])).

Definition clearFrameChat1 (this : ptr) (id : value) : M World unit :=
  objectId ← as_oid id;
  let channelId := Hex objectId in
  c ← get_client this;
  r ← pull_active objectId (uuid c);
  match r with
  | inl _ => mret tt
  | inr result =>
      err0 ← remove_empty objectId;
      match err0 with
      | Some _ => mret tt
      | None => frame_over objectId result (uuid c) channelId
      end
  end.

Definition clearFrameChat (this : ptr) : M World unit :=
  c ← get_client this;
  r ← onBase (findOne (C "user_info") (by_id (uuid c))
                (VDoc [("frame_chat", VInt 1); ("_id", VInt 0)]));
  match r with
  | inl _ => mret tt
  | inr result =>
      v ← doc_get result "frame_chat";
      frame_chat ← as_arr v;
      if (length frame_chat =? 0)%nat then mret tt
      else mapM_ (clearFrameChat1 this) frame_chat
  end.

Definition Close (this : ptr) : M World unit :=
  _ ← upd_client this (with_state CLIENT_STATE_DEAD);
  c ← get_client this;
  _ ← (if IsClient c then
         _ ← clearFrameChat this;
         _ ← UnsubscribeAllChannels this;
         Remove (uuid c) this
       else mret tt);
  emit (EClose this).

Definition AckMsg (this : ptr) (msgId ts : Z) (ownerId channelId : string) : M World unit :=
  c ← get_client this;
  _ ← onBase (update_ (C "user_info")
        (VDoc [("_id", VStr (uuid c)); (channelKey channelId, VDoc [("$lt", VInt64 ts)])])
        (VDoc [("$set", VDoc [(channelKey channelId, VInt64 ts)])]));
  mret tt.

(** ** The chat environment *)
Definition loadUserInfo (this : ptr) : M World (option error) :=
  c ← get_client this;
  r ← onBase (findOne (C "user_info") (by_id (uuid c))
                (VDoc [("pushId", VInt 1); ("_id", VInt 0)]));
  match r with
  | inl err => mret (Some err)
  | inr result =>
      let info := match result with VDoc fs => fs | _ => [] end in
      _ ← match field "pushId" info with
          | None => upd_client this (λ c, with_PushId (uuid c) c)
          | Some tPushId => s ← as_str tPushId; upd_client this (with_PushId s)
          end;
      _ ← upd_client this (with_notify false);
      mret None
  end.

Definition updateUserIdToClientMappingTable (this : ptr) : M World unit :=
  c ← get_client this;
  _ ← Remove (uuid c) this;
  AddClient (uuid c) this.

(** The parameter [uuid] is not used: the connection's own field is. *)
Definition initChatEnv (this : ptr) (uid : string) : M World unit :=
  c ← get_client this;
  if negb (state c =? CLIENT_STATE_CREATE) then mret tt else
  _ ← loadUserInfo this;
  _ ← updateUserIdToClientMappingTable this;
  upd_client this (with_state CLIENT_STATE_INIT_DOEN).

(** Not called any more. *)
Definition subAllAssociateChannels (this : ptr) : M World unit :=
  c ← get_client this;
  r ← onBase (findOne (C "uuid_channels") (by_id (uuid c))
                (VDoc [("_id", VInt 0); ("channels", VInt 1)]));
  match r with
  | inl _ => mret tt
  | inr result =>
      v ← doc_get result "channels";
      channels ← as_arr v;
      mapM_ (λ value,
        channel ← as_str value;
        o ← PubsubGet channel;
        ex ← (match o with
              | Some _ => mret true
              | None => if IsDistMode PushdConf
                        then o ← onRouter (LookupPeersByChannel channel);
                             mret (match o with Some _ => true | None => false end)
                        else mret false
              end : M World bool);
        if (ex : bool) then _ ← Subscribe this channel; mret tt else mret tt) channels
  end.

(** ** Running the goroutines *)
Definition run_task (t : Task) : M World unit :=
  match t with
  | GoWriteFormatMsg cli op msg => emit (EWrite cli op (bytes_of_string msg))
  | GoWriteFormatBinMsg cli op msg => emit (EWrite cli op msg)
  | GoInitChatEnv cli uid => initChatEnv cli uid
  | GoPeerWrite (Some peer) op msg => onRouter (WriteFormatMsg PushdConf peer op msg)
  | GoPeerWrite None _ _ => panic "invalid memory address or nil pointer dereference"
  end.

(** Any goroutine that has been spawned may be the next to run. *)
Inductive go_step : World → World → Prop :=
| go_run w l1 t l2 :
    w_tasks w = l1 ++ t :: l2 →
    go_step w (run_task t (set_tasks (l1 ++ l2) w)).2.

(** ** Frames *)
Section frame.
  Context (R : relation World) `{!Inert R}.

Lemma within_frame_over o v u ch : within R (frame_over o v u ch).
Proof. unfold frame_over. frame. Qed.
Hint Resolve within_frame_over : within.

Lemma within_pull_active o u : within R (pull_active o u).
Proof. unfold pull_active. frame. Qed.
Hint Resolve within_pull_active : within.

Lemma within_remove_empty o : within R (remove_empty o).
Proof. unfold remove_empty. frame. Qed.
Hint Resolve within_remove_empty : within.

Lemma within_clearFrameChat p : within R (clearFrameChat p).
Proof. unfold clearFrameChat, clearFrameChat1. frame. Qed.

Lemma within_AckMsg p id ts o ch : within R (AckMsg p id ts o ch).
Proof. unfold AckMsg. frame. Qed.
End frame.

(** ** Specification vocabulary *)

(** The registry after [Remove(u, p)]. *)
Definition unregister (u : string) (p : ptr) (w : World) : World :=
  if bool_decide (cmap_Get (w_uuids w) u = Some p)
  then set_uuids (cmap_Remove (w_uuids w) u) w else w.

(** What the database answers about a user. *)
Definition user_info (w : World) (u : string) (fields : list (string * value)) : error + value :=
  (mgo_one (b_db (w_base w)) (C "user_info") (by_id u) (VDoc fields)).2.
Definition push_query : list (string * value) := [("pushId", VInt 1); ("_id", VInt 0)].
Definition frame_query : list (string * value) := [("frame_chat", VInt 1); ("_id", VInt 0)].

(** The client after [loadUserInfo], [None] when the stored push id is not a
    string and the type assertion panics. *)
Definition loaded (r : error + value) (c : Client) : option Client :=
  match r with
  | inl _ => Some c
  | inr v =>
      let info := match v with VDoc fs => fs | _ => [] end in
      match field "pushId" info with
      | None => Some (with_notify false (with_PushId (uuid c) c))
      | Some (VStr s) => Some (with_notify false (with_PushId s c))
      | Some _ => None
      end
  end.

(** No frame chat is recorded for the user, or the user cannot be found. *)
Definition no_frame_chat (r : error + value) : Prop :=
  match r with
  | inl _ => True
  | inr v => ∃ fs, v = VDoc fs ∧ field "frame_chat" fs = Some (VArr [])
  end.

Context {CL : CmapLaws}.

(** ** Lemmas *)
Lemma Remove_run u p w : Remove u p w = (Ret tt, unregister u p w).
Proof.
  unfold Remove, unregister, GetClient. mred.
  destruct (cmap_Get (w_uuids w) u) as [q|] eqn:E; simpl; rewrite ?E; [|done].
  by case_bool_decide.
Qed.

Lemma unregister_Get u p w u' :
  cmap_Get (w_uuids (unregister u p w)) u' =
    if decide (u' = u ∧ cmap_Get (w_uuids w) u = Some p) then None
    else cmap_Get (w_uuids w) u'.
Proof.
  unfold unregister. case_bool_decide as Hg; simpl.
  - rewrite cmap_Get_Remove. repeat case_decide; naive_solver.
  - rewrite decide_False; [done|naive_solver].
Qed.

Lemma unregister_rest u p w :
  w_clients (unregister u p w) = w_clients w ∧ w_tasks (unregister u p w) = w_tasks w
  ∧ w_out (unregister u p w) = w_out w.
Proof. unfold unregister. by case_bool_decide. Qed.

(** A database read: only the database's own state may change. *)
Definition after_one (c : coll) (q pr : value) (w : World) : World :=
  set_base (mkBase (mgo_one (b_db (w_base w)) c q pr).1 (b_tick (w_base w))) w.

Lemma findOne_run c q pr w :
  onBase (findOne c q pr) w = (Ret (mgo_one (b_db (w_base w)) c q pr).2, after_one c q pr w).
Proof.
  unfold onBase, zoom, findOne, on_db, after_one.
  by destruct (mgo_one (b_db (w_base w)) c q pr) as [d r].
Qed.

Lemma loadUserInfo_run p c c' w :
  w_clients w !! p = Some c → loaded (user_info w (uuid c) push_query) c = Some c' →
  ∃ e, loadUserInfo p w =
    (Ret e, set_clients (<[p := c']> (w_clients w))
              (after_one (C "user_info") (by_id (uuid c)) (VDoc push_query) w)).
Proof.
  intros Hc Hl. unfold loadUserInfo. mstep (get_client_run p c w Hc).
  mstep (findOne_run (C "user_info") (by_id (uuid c)) (VDoc push_query) w).
  change ((mgo_one _ _ _ _).2) with (user_info w (uuid c) push_query).
  set (w1 := after_one _ _ _ w).
  assert (w_clients w1 !! p = Some c) as Hc1 by done.
  unfold loaded in Hl. destruct (user_info w (uuid c) push_query) as [e|v].
  { injection Hl as <-. exists (Some e). unfold mret, M_ret. f_equal.
    change (w_clients w) with (w_clients w1). rewrite insert_id by done. by destruct w1. }
  exists None. destruct (field "pushId" _) as [pv|].
  - destruct pv; try done. injection Hl as <-. cbn [as_str].
    unfold mbind, M_bind, mret, M_ret.
    rewrite (upd_client_run _ c) by done. erewrite upd_client_run by apply lookup_insert_eq.
    simpl. by rewrite insert_insert_eq.
  - injection Hl as <-. unfold mbind, M_bind.
    rewrite (upd_client_run _ c) by done. erewrite upd_client_run by apply lookup_insert_eq.
    simpl. by rewrite insert_insert_eq.
Qed.

Lemma loaded_uuid r c c' : loaded r c = Some c' → uuid c' = uuid c ∧ state c' = state c.
Proof.
  unfold loaded. destruct r as [e|v]; [by intros [= <-]|].
  destruct (field _ _) as [[]|]; by intros [= <-].
Qed.

Lemma clearFrameChat_none p c w :
  w_clients w !! p = Some c → no_frame_chat (user_info w (uuid c) frame_query) →
  clearFrameChat p w =
    (Ret tt, after_one (C "user_info") (by_id (uuid c)) (VDoc frame_query) w).
Proof.
  intros Hc Hn. unfold clearFrameChat. mstep (get_client_run p c w Hc).
  mstep (findOne_run (C "user_info") (by_id (uuid c)) (VDoc frame_query) w).
  change ((mgo_one _ _ _ _).2) with (user_info w (uuid c) frame_query).
  destruct (user_info w (uuid c) frame_query) as [e|v]; [done|].
  destruct Hn as (fs & -> & Hf). unfold doc_get. mred. by rewrite Hf.
Qed.

(** ** Properties *)

(** Setting up the chat environment of a new connection: if the stored push
    id is readable, afterwards the user's id leads to this connection and to no
    other (an older connection of the same user is displaced), no other user's
    entry changed, the push id is loaded and the connection is initialised.  On
    a connection that was initialised before or is already closed, nothing
    happens at all, so a connection that died before its goroutine ran is never
    registered. *)
Theorem initChatEnv_spec (p : ptr) (uid : string) (c c' : Client) (w : World)
    (Hc : w_clients w !! p = Some c)
    (Hl : loaded (user_info w (uuid c) push_query) c = Some c') :
  if decide (state c = CLIENT_STATE_CREATE) then
    ∃ w', initChatEnv p uid w = (Ret tt, w')
      ∧ (∀ u, cmap_Get (w_uuids w') u = if decide (u = uuid c) then Some p
                                        else cmap_Get (w_uuids w) u)
      ∧ w_clients w' = <[p := with_state CLIENT_STATE_INIT_DOEN c']> (w_clients w)
      ∧ w_tasks w' = w_tasks w ∧ w_out w' = w_out w
  else initChatEnv p uid w = (Ret tt, w).
Proof.
  unfold initChatEnv. mstep (get_client_run p c w Hc).
  destruct (Z.eqb_spec (state c) CLIENT_STATE_CREATE) as [Hs|Hs];
    [rewrite decide_True by done|by rewrite decide_False].
  cbn [negb]. destruct (loadUserInfo_run p c c' w Hc Hl) as [e Hload]. mstep Hload.
  unfold updateUserIdToClientMappingTable. set (w1 := set_clients _ _).
  assert (w_clients w1 !! p = Some c') as Hc1 by apply lookup_insert_eq.
  destruct (loaded_uuid _ _ _ Hl) as [Hu _].
  unfold mbind, M_bind. rewrite (get_client_run p c' w1 Hc1), Remove_run. unfold AddClient.
  destruct (unregister_rest (uuid c') p w1) as (Hrc & Hrt & Hro).
  cbn. erewrite upd_client_run by (simpl; rewrite Hrc; exact Hc1).
  eexists. split_and!; [reflexivity| | |exact Hrt|exact Hro]; simpl.
  - intros u. rewrite cmap_Get_Set, unregister_Get, Hu.
    destruct (decide (uuid c = u)) as [->|Hne]; [by rewrite decide_True|].
    rewrite decide_False by naive_solver. by rewrite decide_False by naive_solver.
  - rewrite Hrc. simpl. by rewrite insert_insert_eq.
Qed.

(** Closing a connection whose user has no frame chat going on: it is marked
    dead, the network connection is closed exactly once, and the user's entry is
    removed from the registry precisely when the connection is still identified
    as a client and the entry is its own: a newer connection of the same user
    stays registered, and after [ClearIdentity] the entry survives. *)
Theorem Close_unregisters (p : ptr) (c : Client) (w : World)
    (Hc : w_clients w !! p = Some c)
    (Hn : no_frame_chat (user_info w (uuid c) frame_query)) :
  ∃ w', Close p w = (Ret tt, w')
    ∧ w_clients w' = <[p := with_state CLIENT_STATE_DEAD c]> (w_clients w)
    ∧ w_out w' = w_out w ++ [EClose p] ∧ w_tasks w' = w_tasks w
    ∧ ∀ u, cmap_Get (w_uuids w') u =
             if decide (IsClient c = true ∧ u = uuid c ∧ cmap_Get (w_uuids w) u = Some p)
             then None else cmap_Get (w_uuids w) u.
Proof.
  unfold Close. mstep (upd_client_run p c (with_state CLIENT_STATE_DEAD) w Hc).
  set (w1 := set_clients _ w). set (c1 := with_state CLIENT_STATE_DEAD c).
  assert (w_clients w1 !! p = Some c1) as Hc1 by apply lookup_insert_eq.
  mstep (get_client_run p c1 w1 Hc1). change (IsClient c1) with (IsClient c).
  destruct (IsClient c) eqn:Hi.
  - change (uuid c1) with (uuid c). unfold mbind, M_bind, UnsubscribeAllChannels, mret, M_ret.
    rewrite (clearFrameChat_none p c1 w1 Hc1 Hn), Remove_run. unfold emit, modify.
    set (w2 := after_one _ _ _ w1). destruct (unregister_rest (uuid c) p w2) as (Hrc & Hrt & Hro).
    eexists. split_and!; [reflexivity|exact Hrc|simpl; by rewrite Hro|exact Hrt|].
    intros u. simpl. rewrite unregister_Get. simpl. apply decide_ext. naive_solver.
  - eexists. split_and!; [reflexivity|done|done|done|].
    intros u. by rewrite decide_False by naive_solver.
Qed.

(** Closing a connection never disturbs the others, however it ends (a frame
    chat may be cleaned up, its notices may park, or malformed data may panic):
    no other connection object changes, and every registration that leads to
    another connection is there before if and only if it is there after. *)
Theorem Close_isolated (p q : ptr) (w : World) (Hne : q ≠ p) :
  w_clients (Close p w).2 !! q = w_clients w !! q
  ∧ ∀ u, cmap_Get (w_uuids (Close p w).2) u = Some q ↔ cmap_Get (w_uuids w) u = Some q.
Proof.
  set (R := λ w w' : World, w_clients w' !! q = w_clients w !! q
              ∧ ∀ u, cmap_Get (w_uuids w') u = Some q ↔ cmap_Get (w_uuids w) u = Some q).
  assert (PreOrder R) as HR.
  { split; [by split|]. intros x y z [H1 H2] [H3 H4]. split; [congruence|].
    intros u. by rewrite H4. }
  assert (Inert R) as HI by (split; try done; intros; by apply within_zoom).
  pose proof (within_emit R) as Hem.
  assert (∀ u, within R (Remove u p)) as Hrm.
  { intros u w0. rewrite Remove_run. simpl. destruct (unregister_rest u p w0) as (Hrc & _ & _).
    split; [by rewrite Hrc|]. intros u'. rewrite unregister_Get. case_decide; naive_solver. }
  assert (within R (Close p)) as H; [|apply (H w)].
  pose proof (within_clearFrameChat R) as Hcl. unfold Close, UnsubscribeAllChannels. frame.
  apply within_upd_client; [done|]. intros w0 c Hc. split; [|done].
  - simpl. by rewrite lookup_insert_ne.
  - by apply Hem.
Qed.
End client.

#[export] Hint Resolve within_frame_over within_pull_active within_remove_empty
  within_clearFrameChat within_AckMsg : within.

Import Ref.
#[local] Existing Instance example_conf.

(** User u2 comes back on a second connection. *)
Definition example_new : World (EX := ref_externals) (NT := ref_net) :=
  set_clients (<[3%nat := with_uuid "u2" NewClient]> (w_clients example_world)) example_world.

Lemma initChatEnv_spec_witness :
  ∃ w', initChatEnv 3 "u2" example_new = (Ret tt, w')
        ∧ cmap_Get (w_uuids w') "u2" = Some 3%nat.
Proof.
  destruct (initChatEnv_spec 3 "u2" (with_uuid "u2" NewClient)
    (with_uuid "u2" NewClient) example_new eq_refl eq_refl) as (w' & Hrun & Hg & _).
  exists w'. split; [exact Hrun | exact (Hg "u2")].
Defined.

Lemma Close_unregisters_witness :
  ∃ w', Close 1 example_world = (Ret tt, w') ∧ w_out w' = [EClose 1]
        ∧ cmap_Get (w_uuids w') "u1" = None ∧ cmap_Get (w_uuids w') "u2" = Some 2%nat.
Proof.
  destruct (Close_unregisters (CF := example_conf) 1 (example_client "u1") example_world eq_refl I)
    as (w' & Hrun & _ & Hout & _ & Hg).
  exists w'. split_and!; [exact Hrun|exact Hout|rewrite Hg; reflexivity|rewrite Hg; reflexivity].
Defined.

Lemma Close_isolated_witness :
  w_clients (Close 1 example_world).2 !! 2%nat = Some (example_client "u2").
Proof.
  rewrite (proj1 (Close_isolated (CF := example_conf) 1 2 example_world ltac:(discriminate))).
  reflexivity.
Defined.
