(* ===== verification/Rooms.v ===== *)
(** * Chat rooms (engine/im.go)

    A room is recorded three times: its members in [channel_uuids], each
    member's rooms in [uuid_channels], and the time the member joined in
    [user_info].  The functions update the three collections one after the
    other and stop at the first error, except [leaveRoom]. *)
From S2P Require Import Prelude GoStrings Wire Deps RefDeps Config Base UserIdCache Storage Router.
From S2P Require Import World PubSub.

Local Open Scope string_scope.
Local Open Scope list_scope.

Section rooms.
  Context {EX : Externals} {NT : Net} {CF : Global}.

(** [client, exists := UuidToClient.GetClient(u); if exists { f(client) }] *)
Definition if_online (f : ptr → string → M World string) (channelId u : string) : M World unit :=
  o ← GetClient u;
  match o with
  | Some cli => _ ← f cli channelId; mret tt
  | None => mret tt
  end.

Definition createRoom (userId channelId : string) : M World (option error) :=
  err ← onBase (insert_ (C "channel_uuids")
                  [VDoc [("_id", VStr channelId); ("uuids", VStrs [userId])]]);
  match err with Some e => mret (Some e) | None =>
  ts ← onBase now_UnixNano;
  err ← onBase (upsert_ (C "user_info") (by_id userId)
                  (VDoc [("$set", VDoc [(channelKey channelId, VInt64 ts)])]));
  match err with Some e => mret (Some e) | None =>
  err ← onBase (upsert_ (C "uuid_channels") (by_id userId)
                  (VDoc [("$addToSet", VDoc [("channels", VStr channelId)])]));
  _ ← if_online Subscribe channelId userId;
  mret err
  end end.

Definition joinRoom (channelId : string) (us : list string) : M World (option error) :=
  err ← onBase (update_ (C "channel_uuids") (by_id channelId)
                  (VDoc [("$addToSet", VDoc [("uuids", VDoc [("$each", VStrs us)])])]));
  match err with Some e => mret (Some e) | None =>
  ts ← onBase now_UnixNano;
  err ← onBase (bulkUpdate (C "user_info")
                  (for_each us (VDoc [("$set", VDoc [(channelKey channelId, VInt64 ts)])])));
  match err with Some e => mret (Some e) | None =>
  err ← onBase (bulkUpsert (C "uuid_channels")
                  (for_each us (VDoc [("$addToSet", VDoc [("channels", VStr channelId)])])));
  match err with Some e => mret (Some e) | None =>
  _ ← mapM_ (if_online Subscribe channelId) us;
  mret None
  end end end.

(** The errors of the two later updates overwrite one another; the one of
    [Remove] is dropped. *)
Definition leaveRoom (channelId : string) (us : list string) : M World (option error) :=
  err ← onBase (update_ (C "channel_uuids") (by_id channelId)
                  (VDoc [("$pullAll", VDoc [("uuids", VStrs us)])]));
  match err with Some e => mret (Some e) | None =>
  _ ← onBase (remove_ (C "channel_uuids") (VDoc [("_id", VStr channelId); ("uuids", VStrs [])]));
  _ ← onBase (bulkUpdate (C "user_info")
                (for_each us (VDoc [("$unset", VDoc [(channelKey channelId, VInt 1)])])));
  err ← onBase (bulkUpdate (C "uuid_channels")
                  (for_each us (VDoc [("$pull", VDoc [("channels", VStr channelId)])])));
  _ ← mapM_ (if_online Unsubscribe channelId) us;
  mret err
  end.

Definition disolveRoom (channelId : string) : M World (option error) :=
  r ← onBase (findOne (C "channel_uuids") (by_id channelId)
                (VDoc [("uuids", VInt 1); ("_id", VInt 0)]));
  match r with
  | inl err => mret (Some err)
  | inr result =>
      v ← doc_get result "uuids";
      userIds ← as_arr v;
      userIds2 ← collectM as_str userIds;
      leaveRoom channelId userIds2
  end.

Definition roomid2Channelid (roomid : string) : string := roomid.

Definition generateRoomIdByUuidList (uuids : list string) : string :=
  "pri_" +:+ Join (sort_Strings uuids) "_".

(** ** Frames *)
Section frame.
  Context (R : relation World) `{!Inert R}.

Lemma within_if_online (f : ptr → string → M World string) ch u :
  (∀ p, within R (f p ch)) → within R (if_online f ch u).
Proof.
  intros Hf. unfold if_online. apply within_bind; [apply _|by apply within_GetClient|].
  intros [p|]; [|by frame]. apply within_bind; [apply _|done|]. intros. frame.
Qed.

Lemma within_createRoom u ch : within R (createRoom u ch).
Proof. unfold createRoom. frame. apply within_if_online. intros. unfold Subscribe. frame. Qed.

Lemma within_joinRoom ch us : within R (joinRoom ch us).
Proof. unfold joinRoom. frame. apply within_if_online. intros. unfold Subscribe. frame. Qed.

Lemma within_leaveRoom ch us : within R (leaveRoom ch us).
Proof. unfold leaveRoom. frame. apply within_if_online. intros. unfold Unsubscribe. frame. Qed.
Hint Resolve within_leaveRoom : within.

Lemma within_disolveRoom ch : within R (disolveRoom ch).
Proof. unfold disolveRoom. frame. Qed.
End frame.
End rooms.

#[export] Hint Resolve within_createRoom within_joinRoom within_leaveRoom within_disolveRoom
  : within.

(** ** Properties *)

(** (C37) The id of a private room depends on who is in it and not on the order
    in which they are named: permuted lists of users give the same id, and for
    user ids without an underscore, different groups of the users give
    different ids. *)
Theorem generateRoomIdByUuidList_canonical (us vs : list string) :
  (us ≡ₚ vs → generateRoomIdByUuidList us = generateRoomIdByUuidList vs)
  ∧ (us ≠ [] → vs ≠ [] → Forall (λ u, occurs "_"%char u = false) us →
     Forall (λ u, occurs "_"%char u = false) vs →
     generateRoomIdByUuidList us = generateRoomIdByUuidList vs → us ≡ₚ vs).
Proof.
  unfold generateRoomIdByUuidList. split.
  - intros Hp. do 2 f_equal. by apply sort_Strings_unique.
  - intros Hu Hv Hus Hvs Heq.
    assert (∀ l, l ≠ [] → sort_Strings l ≠ []) as Hne.
    { intros l Hl E. apply Hl, Permutation_nil. rewrite <- E. apply sort_Strings_perm. }
    assert (Join (sort_Strings us) "_" = Join (sort_Strings vs) "_") as Hj.
    { cbn in Heq. by injection Heq. }
    rewrite <- (sort_Strings_perm us), <- (sort_Strings_perm vs).
    rewrite <- (Split_Join "_"%char (sort_Strings us)), <- (Split_Join "_"%char (sort_Strings vs)).
    + by rewrite Hj.
    + auto.
    + by rewrite sort_Strings_perm.
    + auto.
    + by rewrite sort_Strings_perm.
Qed.

Lemma generateRoomIdByUuidList_canonical_witness :
  generateRoomIdByUuidList ["u2"; "u1"] = "pri_u1_u2"
  ∧ generateRoomIdByUuidList ["u2"; "u1"] = generateRoomIdByUuidList ["u1"; "u2"].
Proof.
  split; [reflexivity|].
  apply (proj1 (generateRoomIdByUuidList_canonical ["u2"; "u1"] ["u1"; "u2"])).
  apply Permutation_swap.
Defined.
