(* ===== verification/RoomStore.v ===== *)
(** * Rooms as sets: a refinement of engine/im.go

    The functions of [Rooms] talk to MongoDB in update documents.  [RoomDb]
    states what MongoDB documents about the four requests they make on the
    collection [channel_uuids]; over it, creating, joining and leaving a room
    refine the operations of a map from channels to sets of user ids. *)
From S2P Require Import Prelude GoStrings Wire Deps RefDeps Config Base UserIdCache Storage Router.
From S2P Require Import World PubSub Rooms.

Local Open Scope string_scope.
Local Open Scope list_scope.

Definition cu : coll := C "channel_uuids".

(** The updates of [joinRoom] and [leaveRoom]. *)
Definition add_members (us : list string) : value :=
  VDoc [("$addToSet", VDoc [("uuids", VDoc [("$each", VStrs us)])])].
Definition pull_members (us : list string) : value :=
  VDoc [("$pullAll", VDoc [("uuids", VStrs us)])].
Definition room_doc (ch : string) (us : list string) : value :=
  VDoc [("_id", VStr ch); ("uuids", VStrs us)].
Definition empty_room (ch : string) : value := VDoc [("_id", VStr ch); ("uuids", VStrs [])].

(** ** What MongoDB promises

    [room_of d ch] is the list in the field [uuids] of the document [ch].  The
    laws speak about requests that succeed; nothing is said about the others,
    except that removing an empty room can at most do that. *)
Class RoomDb `{Mongo} : Type := { room_of : db → string → option (list string) }.

Definition same_but `{RoomDb} (ch : string) (d d' : db) : Prop :=
  ∀ ch', ch' ≠ ch → room_of d' ch' = room_of d ch'.

Class RoomDbLaws `{RoomDb} : Prop := {
  (** a unique index on [_id] *)
  rd_insert d ch us d' :
    mgo_insert d cu [room_doc ch us] = (d', None) →
    room_of d ch = None ∧ room_of d' ch = Some us ∧ same_but ch d d';
  rd_add d ch us d' :
    mgo_update d cu (by_id ch) (add_members us) = (d', None) →
    ∃ l l', room_of d ch = Some l ∧ room_of d' ch = Some l'
            ∧ (∀ x, x ∈ l' ↔ x ∈ l ∨ x ∈ us) ∧ same_but ch d d';
  rd_pull d ch us d' :
    mgo_update d cu (by_id ch) (pull_members us) = (d', None) →
    ∃ l l', room_of d ch = Some l ∧ room_of d' ch = Some l'
            ∧ (∀ x, x ∈ l' ↔ x ∈ l ∧ x ∉ us) ∧ same_but ch d d';
  rd_remove d ch :
    let d' := (mgo_remove d cu (empty_room ch)).1 in
    same_but ch d d'
    ∧ (room_of d' ch = room_of d ch ∨ room_of d ch = Some [] ∧ room_of d' ch = None);
  (** the documents of the collection are those of [createRoom] *)
  rd_one d ch prj :
    let '(d', r) := mgo_one d cu (by_id ch) prj in
    (∀ ch', room_of d' ch' = room_of d ch')
    ∧ ∀ v, r = inr v → ∃ fs l, v = VDoc fs ∧ field "uuids" fs = Some (VStrs l)
                               ∧ room_of d ch = Some l;
  (** requests on other collections *)
  rd_one_other d c q prj ch : coll_name c ≠ "channel_uuids" →
    room_of (mgo_one d c q prj).1 ch = room_of d ch;
  rd_upsert d c q u ch : coll_name c ≠ "channel_uuids" →
    room_of (mgo_upsert d c q u).1 ch = room_of d ch;
  rd_bulk_update d c ps ch : coll_name c ≠ "channel_uuids" →
    room_of (mgo_bulk_update d c ps).1 ch = room_of d ch;
  rd_bulk_upsert d c ps ch : coll_name c ≠ "channel_uuids" →
    room_of (mgo_bulk_upsert d c ps).1 ch = room_of d ch
}.

(** ** The specification *)
Inductive room_op : Type :=
| Create (user ch : string)
| Join (ch : string) (us : list string)
| Leave (ch : string) (us : list string)
| Dissolve (ch : string).

Definition room_map : Type := string → option (gset string).

Definition set_room (ch : string) (v : option (gset string)) (m m' : room_map) : Prop :=
  m' ch = v ∧ ∀ ch', ch' ≠ ch → m' ch' = m ch'.

(** A room that becomes empty may be kept or deleted. *)
Definition spec_room (o : room_op) (m m' : room_map) : Prop :=
  match o with
  | Create u ch => m ch = None ∧ set_room ch (Some {[u]}) m m'
  | Join ch us => ∃ s, m ch = Some s ∧ set_room ch (Some (s ∪ list_to_set us)) m m'
  | Leave ch us => ∃ s, m ch = Some s ∧
      (set_room ch (Some (s ∖ list_to_set us)) m m'
       ∨ s ∖ list_to_set us = ∅ ∧ set_room ch None m m')
  | Dissolve ch => m ch ≠ None ∧ (set_room ch (Some ∅) m m' ∨ set_room ch None m m')
  end.

Fixpoint spec_rooms (os : list room_op) (m m' : room_map) : Prop :=
  match os with
  | [] => ∀ ch, m' ch = m ch
  | o :: os' => ∃ m1, spec_room o m m1 ∧ spec_rooms os' m1 m'
  end.

Section refine.
  Context {EX : Externals} {NT : Net} {CF : Global} {RD : RoomDb} {RL : RoomDbLaws}.

Definition run_room (o : room_op) : M World (option error) :=
  match o with
  | Create u ch => createRoom u ch
  | Join ch us => joinRoom ch us
  | Leave ch us => leaveRoom ch us
  | Dissolve ch => disolveRoom ch
  end.

Definition rooms_of (w : World) : room_map := λ ch, list_to_set <$> room_of (b_db (w_base w)) ch.

(** ** Lemmas *)

Lemma if_online_run (f : ptr → string → M World string) ch u w :
  (∀ p w, f p ch w = (Ret "", w)) → if_online f ch u w = (Ret tt, w).
Proof.
  intros Hf. unfold if_online, GetClient. mred.
  destruct (cmap_Get (w_uuids w) u); [by rewrite Hf|done].
Qed.

Lemma all_online_run (f : ptr → string → M World string) ch us w :
  (∀ p w, f p ch w = (Ret "", w)) → mapM_ (if_online f ch) us w = (Ret tt, w).
Proof.
  intros Hf. induction us as [|u us IH]; [done|]. cbn [mapM_].
  by mstep (if_online_run f ch u w Hf).
Qed.

Lemma set_room_intro ch v d d' (m m' : room_map) :
  same_but ch d d' → (∀ c, m c = list_to_set <$> room_of d c) →
  (∀ c, m' c = list_to_set <$> room_of d' c) → m' ch = v → set_room ch v m m'.
Proof. intros Hs Hm Hm' Hv. split; [done|]. intros c Hc. by rewrite Hm, Hm', Hs. Qed.

Lemma create_run u ch w :
  ∃ r w', createRoom u ch w = (Ret r, w') ∧ w_cache w' = w_cache w
          ∧ (r = None → spec_room (Create u ch) (rooms_of w) (rooms_of w')).
Proof.
  unfold createRoom, insert_. fold cu. fold (room_doc ch [u]). mstep (onBase_req (λ d, mgo_insert d cu [room_doc ch [u]]) w).
  destruct (mgo_insert _ cu [room_doc ch [u]]) as [d1 [e|]] eqn:E; [by eexists _, _|]. simpl.
  apply rd_insert in E as (Hnone & Hsome & Hsame).
  mstep (now_UnixNano_run (set_base (mkBase d1 (b_tick (w_base w))) w)).
  unfold upsert_. rewrite (bind_ret_run _ _ _ _ _ (onBase_req _ _)). simpl.
  set (up1 := mgo_upsert d1 _ _ _).
  assert (∀ c, room_of up1.1 c = room_of d1 c) as H1 by (intros; by apply rd_upsert).
  destruct up1.2 as [e|]; [by eexists _, _|].
  rewrite (bind_ret_run _ _ _ _ _ (onBase_req _ _)). simpl. set (up2 := mgo_upsert up1.1 _ _ _).
  assert (∀ c, room_of up2.1 c = room_of up1.1 c) as H2 by (intros; by apply rd_upsert).
  rewrite (bind_ret_run _ _ _ _ _ (if_online_run Subscribe ch u _ (λ _ _, eq_refl))).
  eexists _, _. split; [reflexivity|]. split; [reflexivity|]. intros _. unfold rooms_of. simpl. rewrite Hnone.
  split; [done|]. split; [rewrite H2, H1, Hsome; simpl; f_equal; set_solver|].
  intros ch' Hne. by rewrite H2, H1, Hsame.
Qed.

Lemma join_run ch us w :
  ∃ r w', joinRoom ch us w = (Ret r, w') ∧ w_cache w' = w_cache w
          ∧ (r = None → spec_room (Join ch us) (rooms_of w) (rooms_of w')).
Proof.
  unfold joinRoom, update_. fold cu. fold (add_members us).
  rewrite (bind_ret_run _ _ _ _ _ (onBase_req _ _)).
  destruct (mgo_update _ cu (by_id ch) (add_members us)) as [d1 [e|]] eqn:E; [by eexists _, _|].
  simpl. apply rd_add in E as (l & l' & Hl & Hl' & Hmem & Hsame).
  rewrite (bind_ret_run _ _ _ _ _ (now_UnixNano_run _)).
  unfold bulkUpdate. rewrite (bind_ret_run _ _ _ _ _ (onBase_req _ _)). simpl.
  set (up1 := mgo_bulk_update d1 _ _).
  assert (∀ c, room_of up1.1 c = room_of d1 c) as H1 by (intros; by apply rd_bulk_update).
  destruct up1.2 as [e|]; [by eexists _, _|].
  unfold bulkUpsert. rewrite (bind_ret_run _ _ _ _ _ (onBase_req _ _)). simpl.
  set (up2 := mgo_bulk_upsert up1.1 _ _).
  assert (∀ c, room_of up2.1 c = room_of up1.1 c) as H2 by (intros; by apply rd_bulk_upsert).
  destruct up2.2 as [e|]; [by eexists _, _|].
  rewrite (bind_ret_run _ _ _ _ _ (all_online_run Subscribe ch us _ (λ _ _, eq_refl))).
  eexists _, _. split; [reflexivity|]. split; [reflexivity|]. intros _. exists (list_to_set l). unfold rooms_of. simpl.
  rewrite Hl. split; [done|]. split; [|intros ch' Hne; by rewrite H2, H1, Hsame].
  rewrite H2, H1, Hl'. simpl. f_equal. set_solver.
Qed.

Lemma leave_run ch us w :
  ∃ r w', leaveRoom ch us w = (Ret r, w') ∧ w_cache w' = w_cache w
          ∧ (r = None → spec_room (Leave ch us) (rooms_of w) (rooms_of w')).
Proof.
  unfold leaveRoom, update_. fold cu. fold (pull_members us).
  rewrite (bind_ret_run _ _ _ _ _ (onBase_req _ _)).
  destruct (mgo_update _ cu (by_id ch) (pull_members us)) as [d1 [e|]] eqn:E; [by eexists _, _|].
  simpl. apply rd_pull in E as (l & l' & Hl & Hl' & Hmem & Hsame).
  unfold remove_. rewrite (bind_ret_run _ _ _ _ _ (onBase_req _ _)). simpl.
  destruct (rd_remove d1 ch) as [Hsame2 Hrm]. fold (empty_room ch). set (d2 := (mgo_remove d1 _ _).1) in *.
  unfold bulkUpdate. rewrite (bind_ret_run _ _ _ _ _ (onBase_req _ _)). simpl.
  set (up1 := mgo_bulk_update d2 _ _).
  assert (∀ c, room_of up1.1 c = room_of d2 c) as H1 by (intros; by apply rd_bulk_update).
  rewrite (bind_ret_run _ _ _ _ _ (onBase_req _ _)). simpl.
  set (up2 := mgo_bulk_update up1.1 _ _).
  assert (∀ c, room_of up2.1 c = room_of up1.1 c) as H2 by (intros; by apply rd_bulk_update).
  rewrite (bind_ret_run _ _ _ _ _ (all_online_run Unsubscribe ch us _ (λ _ _, eq_refl))).
  eexists _, _. split; [reflexivity|]. split; [reflexivity|]. intros _. exists (list_to_set l). unfold rooms_of. simpl.
  rewrite Hl. split; [done|].
  assert (∀ ch', ch' ≠ ch → list_to_set <$> room_of up2.1 ch' =@{option (gset string)}
            list_to_set <$> room_of (b_db (w_base w)) ch') as Hoth.
  { intros ch' Hne. by rewrite H2, H1, Hsame2, Hsame. }
  destruct Hrm as [Hrm|[He Hrm]].
  - left. split; [|done]. rewrite H2, H1, Hrm, Hl'. simpl. f_equal. set_solver.
  - right. rewrite Hl' in He. injection He as ->.
    split; [set_solver|]. split; [|done]. by rewrite H2, H1, Hrm.
Qed.

Lemma spec_room_ext o (m1 m2 m' : room_map) :
  (∀ ch, m1 ch = m2 ch) → spec_room o m1 m' → spec_room o m2 m'.
Proof.
  intros E. destruct o; unfold spec_room, set_room; simpl; setoid_rewrite E; done.
Qed.

Lemma collect_strs {S} l (s : S) : collectM as_str (VStr <$> l) s = (Ret l, s).
Proof. induction l as [|x l IH]; [done|]. cbn [collectM fmap list_fmap]. mstep (eq_refl (Ret x, s)). by mstep IH. Qed.

Lemma dissolve_run ch w :
  ∃ r w', disolveRoom ch w = (Ret r, w') ∧ w_cache w' = w_cache w
          ∧ (r = None → spec_room (Dissolve ch) (rooms_of w) (rooms_of w')).
Proof.
  unfold disolveRoom, findOne. fold cu. rewrite (bind_ret_run _ _ _ _ _ (onBase_req _ _)).
  pose proof (rd_one (b_db (w_base w)) ch (VDoc [("uuids", VInt 1); ("_id", VInt 0)])) as H.
  destruct (mgo_one _ cu (by_id ch) _) as [d1 [e|v]]; [by eexists _, _|].
  destruct H as [Hsame Hv]. destruct (Hv v eq_refl) as (fs & l & -> & Hf & Hl). clear Hv.
  cbn [fst snd doc_get as_doc]. mred. unfold doc_get. mred. rewrite Hf. simpl. mred.
  rewrite collect_strs.
  set (w1 := set_base _ w). destruct (leave_run ch l w1) as (r & w' & -> & Hc & Hspec).
  eexists _, _. split; [reflexivity|]. split; [exact Hc|]. intros ->. destruct (Hspec eq_refl) as (s & Hs & H').
  assert (∀ c, rooms_of w1 c = rooms_of w c) as E.
  { intros c. unfold rooms_of. simpl. by rewrite Hsame. }
  assert (s ∖ list_to_set l = ∅) as He.
  { rewrite E in Hs. unfold rooms_of in Hs. rewrite Hl in Hs. injection Hs as <-. set_solver. }
  apply (spec_room_ext (Dissolve ch) _ _ _ E). split; [by rewrite Hs|]. rewrite He in H'. tauto.
Qed.

Lemma run_room_run o w :
  ∃ r w', run_room o w = (Ret r, w') ∧ w_cache w' = w_cache w
          ∧ (r = None → spec_room o (rooms_of w) (rooms_of w')).
Proof. destruct o; [apply create_run|apply join_run|apply leave_run|apply dissolve_run]. Qed.
End refine.

(** ** Properties *)

(** (C29) Creating, joining, leaving and dissolving rooms refine a map from
    channels to sets of users: over any database that keeps MongoDB's promises,
    a sequence of these requests returns, without a panic, and if every one of
    them reports success the recorded members change as the abstract operations
    say: a room is created only if it did not exist, with its creator in it;
    members are added and taken away as sets, whatever the order and the
    repetitions in the request, only in a room that exists; a room is deleted
    only when nobody is left in it; and no other room changes. *)
Theorem rooms_refine {EX : Externals} {NT : Net} {CF : Global} {RD : RoomDb} {RL : RoomDbLaws}
    (os : list room_op) (w : World) :
  ∃ rs w', collectM run_room os w = (Ret rs, w')
           ∧ length rs = length os
           ∧ (Forall (λ r, r = None) rs → spec_rooms os (rooms_of w) (rooms_of w')).
Proof.
  revert w. induction os as [|o os IH]; intros w; cbn [collectM].
  { exists [], w. done. }
  destruct (run_room_run o w) as (r & w1 & Hr & _ & Hspec). mstep Hr.
  destruct (IH w1) as (rs & w' & Hrs & Hlen & Hspecs). mstep Hrs.
  exists (r :: rs), w'. split; [done|]. split; [simpl; by rewrite Hlen|].
  intros [-> Hall]%Forall_cons. exists (rooms_of w1). auto.
Qed.

(** ** A database of rooms

    An instance of the interface: rooms as a finite map; of the other
    collections nothing is kept, and every document is found. *)
Module RoomRef.

Definition strs (v : value) : list string :=
  match v with
  | VArr l => omap (λ x, match x with VStr s => Some s | _ => None end) l
  | _ => []
  end.

Definition id_of (v : value) : string :=
  match v with VDoc ((_, VStr i) :: _) => i | _ => "" end.

Definition is_cu (c : coll) : bool := String.eqb (coll_name c) "channel_uuids".

Definition apply_update (u : value) (l : list string) : list string :=
  match u with
  | VDoc [(op, VDoc [(_, v)])] =>
      if String.eqb op "$addToSet"
      then match v with VDoc [(_, us)] => list_union l (strs us) | _ => l end
      else if String.eqb op "$pullAll" then list_difference l (strs v) else l
  | _ => l
  end.

#[local] Abbreviation store := (gmap string (list string)).

Definition room_insert (s : store) (c : coll) (ds : list value) : store * option error :=
  match is_cu c, ds with
  | true, [VDoc [(_, VStr i); (_, us)]] =>
      match s !! i with
      | Some _ => (s, Some (LastError "duplicate key"))
      | None => (<[i := strs us]> s, None)
      end
  | _, _ => (s, None)
  end.

Definition room_update (s : store) (c : coll) (q u : value) : store * option error :=
  match is_cu c, s !! id_of q with
  | true, Some l => (<[id_of q := apply_update u l]> s, None)
  | true, None => (s, Some ErrNotFound)
  | false, _ => (s, None)
  end.

Definition room_remove (s : store) (c : coll) (q : value) : store * option error :=
  match is_cu c, s !! id_of q with
  | true, Some [] => (delete (id_of q) s, None)
  | _, _ => (s, Some ErrNotFound)
  end.

Definition room_one (s : store) (c : coll) (q prj : value) : store * (error + value) :=
  match is_cu c, s !! id_of q with
  | true, Some l => (s, inr (room_doc (id_of q) l))
  | true, None => (s, inl ErrNotFound)
  | false, _ => (s, inr (VDoc []))
  end.

Definition room_mongo : Mongo := {|
  db := store;
  mgo_one := room_one;
  mgo_all s c q prj := (s, ([], None));
  mgo_apply s c q u := (s, inl ErrNotFound);
  mgo_insert := room_insert;
  mgo_update := room_update;
  mgo_upsert s c q u := (s, None);
  mgo_remove := room_remove;
  mgo_bulk_update s c ps := (s, None);
  mgo_bulk_upsert s c ps := (s, None)
|}.

Definition room_externals : Externals := {|
  ext_mongo := room_mongo; ext_bson := Ref.ref_bson; ext_env := Ref.ref_env;
  ext_lru := Ref.ref_lru; ext_cmap := Ref.ref_cmap; ext_set := Ref.ref_set
|}.
#[local] Existing Instance room_externals.

#[export] Instance room_db : @RoomDb room_mongo :=
  @Build_RoomDb room_mongo (λ s ch, (s : store) !! ch).

Lemma strs_VStrs l : strs (VStrs l) = l.
Proof. unfold strs, VStrs. induction l as [|x l IH]; [done|]. csimpl. by f_equal. Qed.

#[local] Arguments strs _ : simpl never.
#[local] Arguments VStrs _ : simpl never.

Lemma same_insert (ch : string) (l : list string) (d : store) :
  same_but ch d (<[ch := l]> d).
Proof. intros ch' Hne. simpl. by rewrite lookup_insert_ne. Qed.

#[export] Instance room_db_laws : @RoomDbLaws room_mongo room_db.
Proof.
  split; simpl.
  - intros d ch us d'. unfold room_insert. simpl. destruct (d !! ch) eqn:E; [done|].
    rewrite strs_VStrs. intros [= <-]. rewrite lookup_insert_eq.
    auto using same_insert.
  - intros d ch us d'. unfold room_update. simpl. destruct (d !! ch) as [l|] eqn:E; [|done].
    rewrite strs_VStrs. intros [= <-]. eexists _, _. rewrite lookup_insert_eq.
    split_and!; [done|done| |apply same_insert]. intros x. apply list_elem_of_union.
  - intros d ch us d'. unfold room_update. simpl. destruct (d !! ch) as [l|] eqn:E; [|done].
    rewrite strs_VStrs. intros [= <-]. eexists _, _. rewrite lookup_insert_eq.
    split_and!; [done|done| |apply same_insert]. intros x. apply list_elem_of_difference.
  - intros d ch. unfold room_remove. simpl. destruct (d !! ch) as [[|x l]|] eqn:E; simpl.
    + split; [intros ch' Hne; simpl; by rewrite lookup_delete_ne|]. right.
      by rewrite lookup_delete_eq.
    + split; [done|by left].
    + split; [done|by left].
  - intros d ch prj. unfold room_one. simpl. destruct (d !! ch) as [l|] eqn:E; [|done].
    split; [done|]. intros v [= <-]. by eexists _, l.
  - intros d c q prj ch _. unfold room_one. by repeat case_match.
  - done.
  - done.
  - done.
Qed.

#[export] Instance room_conf : Global := example_config 0 None.

(** Nobody is online. *)
Definition room_world : World (EX := room_externals) (NT := ref_net) :=
  mkWorld (mkBase (MG := room_mongo) (∅ : gmap string (list string)) 0) ∅ cmap_New (newChannelToUserIds 10)
    (NewLruCache 10) None set_NewSet (mkchan 0 []) None [] [].
End RoomRef.

Import RoomRef.
#[local] Existing Instance room_externals.

Definition example_ops : list room_op :=
  [Create "u1" "r"; Join "r" ["u2"; "u3"; "u2"]; Leave "r" ["u1"; "u9"]; Create "u4" "q";
   Leave "q" ["u4"]; Dissolve "r"].

Lemma rooms_refine_witness :
  ∃ w', collectM run_room example_ops room_world = (Ret (replicate 6 None), w')
        ∧ spec_rooms example_ops (rooms_of room_world) (rooms_of w')
        ∧ rooms_of w' "r" = None ∧ rooms_of w' "q" = None.
Proof.
  destruct (rooms_refine example_ops room_world) as (rs & w' & Hrun & _ & Hspec).
  assert ((collectM run_room example_ops room_world).1 = Ret (replicate 6 None)) as Hrs
    by (vm_compute; reflexivity).
  assert (∀ ch, ch ∈ ["r"; "q"] →
            rooms_of (collectM run_room example_ops room_world).2 ch = None) as Hrooms.
  { intros ch [-> | ->%list_elem_of_singleton]%elem_of_cons; vm_compute; reflexivity. }
  rewrite Hrun in Hrs, Hrooms. injection Hrs as ->.
  exists w'. split; [exact Hrun|]. split; [apply Hspec; simpl; repeat constructor|].
  split; apply Hrooms; [by left|by right; left].
Defined.
