(* ===== verification/Auth.v ===== *)
(** * Authentication and access control (engine/auth.go, engine/acl.go)

    A connection authenticates as a client (with a token) or as a server (with
    an application key).  [AclCheck] decides which commands need that, and
    [TokenCheck] verifies the token that accompanies a command. *)
From S2P Require Import Prelude GoStrings Wire Deps RefDeps Config Base UserIdCache Storage Router.
From S2P Require Import World PubSub Client.

Local Open Scope string_scope.
Local Open Scope list_scope.
Local Open Scope Z_scope.

Definition CMD_OFFLINE_MSG : string := "ofli_msg".
Definition CMD_CREATE_USER : string := "user_create".
Definition CMD_ACK_MSG : string := "ack".
Definition CMD_DISOLVE : string := "disolve".
Definition CMD_UNSUBS : string := "unsubs".
Definition CMD_SUBS : string := "subs".
Definition CMD_ADD_USER_INTO_ROOM : string := "add_into_room".
Definition CMD_APPKEY : string := "getappkey".
Definition CMD_SENDMSG : string := "sendmsg".
Definition CMD_SETUUID : string := "setuuid".
Definition CMD_SUBSCRIBE : string := "sub".
Definition CMD_PUBLISH : string := "pub".
Definition CMD_UNSUBSCRIBE : string := "unsub".
Definition CMD_HISTORY : string := "his".
Definition CMD_TOKEN : string := "gettoken".
Definition CMD_AUTH_CLIENT : string := "auth_client".
Definition CMD_AUTH_SERVER : string := "auth_server".
Definition CMD_PING : string := "ping".
Definition CMD_CREATEROOM : string := "create_room".
Definition CMD_JOINROOM : string := "join_room".
Definition CMD_LEAVEROOM : string := "leave_room".
Definition CMD_FRAME_APPLY : string := "frame_apply".
Definition CMD_FRAME_JOIN : string := "frame_join".
Definition CMD_FRAME_OUT : string := "frame_out".
Definition CMD_FRAME_ACCEPT : string := "frame_accept".
Definition CMD_FRAME_REFUSE : string := "frame_refuse".
Definition CMD_FRAME_INFO : string := "frame_info".
Definition CMD_INVOKE_FRAME_ACTION : string := "frame_action".
Definition CMD_RETRACT_MESSAGE : string := "retract_msg".
Definition CMD_UPDATE_OR_ADD_PUSH_ID : string := "up_ad_pushId".
Definition CMD_SET_OFF_NOTIFY : string := "set_notify".
Definition CMD_PUBLISH_NOTIFICATION_IN_CHAT_ROOM : string := "pnicr".
Definition CMD_PUSH_NOTIFY_TO_USERS : string := "pntus".
Definition CMD_ACK_SERVER_NOTIFY : string := "asn".
Definition CMD_PEEK_SERVER_NOTIFY : string := "psn".

(** The commands [InitAclEnv] adds, in order. *)
Definition skip_commands : list string :=
  [CMD_VIDO_CHAT; CMD_PING; CMD_AUTH_CLIENT; CMD_AUTH_SERVER; CMD_SUBS; CMD_UNSUBS; CMD_TOKEN;
   CMD_APPKEY; CMD_DISOLVE; CMD_CREATE_USER; CMD_ADD_USER_INTO_ROOM; CMD_CREATEROOM;
   CMD_JOINROOM; CMD_LEAVEROOM; CMD_UPDATE_OR_ADD_PUSH_ID; CMD_SET_OFF_NOTIFY;
   CMD_PUBLISH_NOTIFICATION_IN_CHAT_ROOM].

Section auth.
  Context {EX : Externals} {NT : Net} {CF : Global}.

(** ** engine/auth.go *)

(** The document found, [None] for an error or a null result. *)
Definition find_token (c : string) (q p : value) : M World (option value) :=
  r ← onBase (findOne (C c) q p);
  mret (match r with inl _ => None | inr VNil => None | inr v => Some v end).

Definition authClient (tk : string) : M World (error + string) :=
  o ← find_token "client_token" (VDoc [("tk", VStr tk)])
        (VDoc [("_id", VInt 0); ("tk", VInt 1)]);
  mret (match o with
        | None => inl (NewError "Client auth fail")
        | Some _ => inr "Client auth succeed"
        end).

Definition checkServerToken (tk : string) : M World bool :=
  o ← find_token "server_token" (VDoc [("tk", VStr tk)])
        (VDoc [("_id", VInt 0); ("expire", VInt 1)]);
  match o with
  | None => mret false
  | Some result =>
      fs ← as_doc result;
      mret (match field "expire" fs with None => false | Some _ => true end)
  end.

(** [db....C("client_token").Remove(bson.M{"uuid": client.uuid})] *)
Definition drop_tokens (uid : string) : M World unit :=
  _ ← onBase (remove_ (C "client_token") (VDoc [("uuid", VStr uid)])); mret tt.

Definition TOKEN_LIFE : Z := 36000000000.

Definition checkClientToken (client : ptr) (tokenChecking : string) : M World (option error) :=
  c ← get_client client;
  if String.eqb (token (tokenInfo c)) "" then mret (Some (NewError "Token Illegal")) else
  if negb (String.eqb (token (tokenInfo c)) tokenChecking) then
    _ ← drop_tokens (uuid c); mret (Some (NewError "Token Illegal")) else
  now ← onBase now_Unix;
  if TOKEN_LIFE <? wrap64 (now - expire (tokenInfo c)) then
    _ ← drop_tokens (uuid c); mret (Some (NewError "Token expired")) else
  now' ← onBase now_Unix;
  _ ← updateTokenExpire client now';
  mret None.

Definition getServerToken : M World string :=
  tk ← onBase (draw_rand 32);
  now ← onBase now_Unix;
  _ ← onBase (insert_ (C "server_token") [VDoc [("tk", VStr tk); ("expire", VInt64 now)]]);
  mret tk.

Definition authServer (appkey : string) : M World (error + string) :=
  o ← find_token "appkey" (VDoc [("appkey", VStr appkey)]) VNil;
  match o with
  | None => mret (inl (NewError "Server auth fail"))
  | Some _ => tk ← getServerToken; mret (inr tk)
  end.

Definition getClientToken : M World string :=
  tk ← onBase (draw_rand 32);
  now ← onBase now_UnixNano;
  _ ← onBase (insert_ (C "client_token")
        [VDoc [("uuid", VStr ""); ("tk", VStr tk); ("expire", VTime now)]]);
  mret tk.

Definition getAppKey : M World string :=
  seed ← onBase (draw_rand 32);
  let appkey := sha256_hex seed in
  now ← onBase now_UnixNano;
  err ← onBase (insert_ (C "appkey")
          [VDoc [("appkey", VStr appkey); ("creat_time", VTime now)]]);
  mret (match err with Some _ => "" | None => appkey end).

(** ** engine/acl.go *)
Definition InitAclEnv : M World unit :=
  _ ← modify (set_skipAcl set_NewSet);
  mapM_ (λ cmd, modify (λ w, set_skipAcl (set_Add (w_skipAcl w) cmd).1 w)) skip_commands.

Definition AclCheck (cli : ptr) (cmd : string) : M World (option error) :=
  c ← get_client cli;
  skip ← gets w_skipAcl;
  if negb (IsClient c) && negb (IsServer c) && negb (set_Contains skip cmd)
  then mret (Some (NewError "Need Auth first")) else mret None.

(** The result carries the command line, whose parameters lose their first
    word (the token) when there is more than one. *)
Definition TokenCheck (cli : Cmdline) : M World (option error * Cmdline) :=
  if String.eqb (Cmd cli) CMD_PING || String.eqb (Cmd cli) CMD_VIDO_CHAT
     || String.eqb (Cmd cli) CMD_AUTH_CLIENT || String.eqb (Cmd cli) CMD_AUTH_SERVER
     || String.eqb (Cmd cli) CMD_TOKEN || String.eqb (Cmd cli) CMD_APPKEY
     || String.eqb (Cmd cli) CMD_SETUUID
  then mret (None, cli) else
  let temp := SplitN space (Params cli) 2 in
  let temp0 := default "" (head temp) in
  let cli' := match temp with
              | [_; rest] => mkCmdline (Cmd cli) rest (Params2 cli) (cl_client cli)
              | _ => cli
              end in
  c ← get_client (cl_client cli);
  if IsClient c then
    err ← checkClientToken (cl_client cli) temp0;
    match err with
    | Some e => _ ← ClearIdentity (cl_client cli); mret (Some e, cli')
    | None => mret (None, cli')
    end
  else
    ok ← checkServerToken temp0;
    if (ok : bool) then mret (None, cli') else mret (Some (NewError "token error"), cli').

(** ** Frames *)
Section frame.
  Context (R : relation World) `{!Inert R}.

Lemma within_find_token c q p : within R (find_token c q p).
Proof. unfold find_token. frame. Qed.
Hint Resolve within_find_token : within.

Lemma within_authClient tk : within R (authClient tk).
Proof. unfold authClient. frame. Qed.

Lemma within_checkServerToken tk : within R (checkServerToken tk).
Proof. unfold checkServerToken. frame. Qed.

Lemma within_drop_tokens u : within R (drop_tokens u).
Proof. unfold drop_tokens. frame. Qed.

Lemma within_getServerToken : within R getServerToken.
Proof. unfold getServerToken. frame. Qed.
Hint Resolve within_getServerToken : within.

Lemma within_authServer k : within R (authServer k).
Proof. unfold authServer. frame. Qed.

Lemma within_getClientToken : within R getClientToken.
Proof. unfold getClientToken. frame. Qed.

Lemma within_getAppKey : within R getAppKey.
Proof. unfold getAppKey. frame. Qed.

Lemma within_AclCheck p cmd : within R (AclCheck p cmd).
Proof. unfold AclCheck. frame. Qed.
End frame.

(** ** Specification vocabulary *)

(** The commands whose token is not checked. *)
Definition token_exempt : list string :=
  [CMD_PING; CMD_VIDO_CHAT; CMD_AUTH_CLIENT; CMD_AUTH_SERVER; CMD_TOKEN; CMD_APPKEY; CMD_SETUUID].

(** The first word of the parameters, and the parameters that remain for the
    command. *)
Definition presented (P : string) : string :=
  match cut space P with Some (tk, _) => tk | None => P end.
Definition remaining (P : string) : string :=
  match cut space P with Some (_, rest) => rest | None => P end.

Definition with_Params (P : string) (cl : Cmdline) : Cmdline :=
  mkCmdline (Cmd cl) P (Params2 cl) (cl_client cl).

(** The token test on a clock reading in seconds. *)
Definition token_ok (c : Client) (tk : string) (now : Z) : Prop :=
  token (tokenInfo c) ≠ "" ∧ token (tokenInfo c) = tk
  ∧ wrap64 (now - expire (tokenInfo c)) ≤ TOKEN_LIFE.

#[export] Instance token_ok_dec c tk now : Decision (token_ok c tk now).
Proof. unfold token_ok. apply _. Defined.

Definition clock_s (w : World) : Z := UnixNano (b_tick (w_base w)) / 1000000000.

(** ** Lemmas *)
Lemma drop_tokens_run u w : ∃ w', drop_tokens u w = (Ret tt, w')
  ∧ w_clients w' = w_clients w ∧ w_uuids w' = w_uuids w ∧ w_tasks w' = w_tasks w.
Proof.
  unfold drop_tokens, onBase, zoom, remove_, on_db. mred.
  destruct (mgo_remove _ _ _). by eexists.
Qed.

Lemma checkClientToken_ok p c tk w :
  w_clients w !! p = Some c → token_ok c tk (clock_s w) →
  checkClientToken p tk w =
    (Ret None, set_clients (<[p := with_tokenInfo (mkToken tk (clock_s (tick w))) c]> (w_clients w))
                 (tick (tick w))).
Proof.
  intros Hc (H1 & <- & H3). unfold checkClientToken. mstep (get_client_run p c w Hc).
  destruct (String.eqb_spec (token (tokenInfo c)) ""); [done|]. rewrite String.eqb_refl. cbn [negb].
  mstep (now_Unix_run w). change (UnixNano _ / 1000000000) with (clock_s w).
  destruct (Z.ltb_spec TOKEN_LIFE (wrap64 (clock_s w - expire (tokenInfo c)))); [lia|].
  mstep (now_Unix_run (tick w)). unfold updateTokenExpire, mbind, M_bind.
  by rewrite (upd_client_run p c).
Qed.

Lemma checkClientToken_bad p c tk w :
  w_clients w !! p = Some c → ¬ token_ok c tk (clock_s w) →
  ∃ e w', checkClientToken p tk w = (Ret (Some e), w')
    ∧ w_clients w' = w_clients w ∧ w_uuids w' = w_uuids w ∧ w_tasks w' = w_tasks w.
Proof.
  intros Hc Hn. unfold checkClientToken. mstep (get_client_run p c w Hc).
  destruct (String.eqb_spec (token (tokenInfo c)) "") as [|H1]; [by eexists _, w|].
  destruct (String.eqb_spec (token (tokenInfo c)) tk) as [H2|H2]; cbn [negb].
  - mstep (now_Unix_run w). change (UnixNano _ / 1000000000) with (clock_s w).
    destruct (Z.ltb_spec TOKEN_LIFE (wrap64 (clock_s w - expire (tokenInfo c)))).
    + destruct (drop_tokens_run (uuid c) (tick w)) as (w' & Hd & ? & ? & ?). mstep Hd.
      by eexists _, w'.
    + by destruct Hn.
  - destruct (drop_tokens_run (uuid c) w) as (w' & Hd & ? & ? & ?). mstep Hd. by eexists _, w'.
Qed.

Lemma SplitN_2 P :
  SplitN space P 2 = match cut space P with Some (tk, rest) => [tk; rest] | None => [P] end.
Proof. simpl. by destruct (cut space P) as [[]|]. Qed.

Lemma TokenCheck_client_run cl w c :
  w_clients w !! cl_client cl = Some c → IsClient c = true → Cmd cl ∉ token_exempt →
  TokenCheck cl w =
    (err ← checkClientToken (cl_client cl) (presented (Params cl));
     match err with
     | Some e => _ ← ClearIdentity (cl_client cl);
                 mret (Some e, with_Params (remaining (Params cl)) cl)
     | None => mret (None, with_Params (remaining (Params cl)) cl)
     end) w.
Proof.
  intros Hc Hi Hx. unfold TokenCheck, token_exempt in *. rewrite SplitN_2.
  repeat match goal with |- context [String.eqb (Cmd cl) ?k] =>
    destruct (String.eqb_spec (Cmd cl) k); [set_solver|] end.
  cbn [orb]. mstep (get_client_run _ _ _ Hc). rewrite Hi. unfold presented, remaining, with_Params.
  destruct (cut space (Params cl)) as [[tk rest]|]; [done|]. by destruct cl.
Qed.

Lemma as_client_IsClient c : IsClient (as_client c) = true.
Proof.
  unfold IsClient, as_client, with_Type, TYPE_CLIENT. simpl. apply negb_true_iff, Z.eqb_neq.
  intros H. assert (Z.testbit (Z.land (Z.lor (Type_ c) 1) 1) 0 = false) as Hb by (by rewrite H).
  rewrite Z.land_spec, Z.lor_spec, orb_true_r in Hb. done.
Qed.

Lemma no_identity_spec c : IsClient (no_identity c) = false ∧ IsServer (no_identity c) = false.
Proof. unfold IsClient, IsServer, no_identity. simpl. by rewrite Z.land_0_r. Qed.

Lemma InitAclEnv_run `{!GoSetLaws} w :
  ∃ s, InitAclEnv w = (Ret tt, set_skipAcl s w) ∧ ∀ x, x ∈ set_elems s ↔ x ∈ skip_commands.
Proof.
  exists (foldl (λ s cmd, (set_Add s cmd).1) set_NewSet skip_commands). split.
  - done.
  - intros x. rewrite set_elems_foldl, set_elems_New. set_solver.
Qed.

(** ** Properties *)

(** The access check after start-up: a connection that has authenticated
    neither as client nor as server may use exactly the seventeen listed
    commands; an authenticated one may use all; the check itself changes
    nothing. *)
Theorem AclCheck_spec `{!GoSetLaws} (p : ptr) (cmd : string) (c : Client) (w0 : World)
    (Hc : w_clients w0 !! p = Some c) :
  let w := (InitAclEnv w0).2 in
  AclCheck p cmd w =
    (Ret (if decide (IsClient c = true ∨ IsServer c = true ∨
                     cmd ∈ ["vido"; "ping"; "auth_client"; "auth_server"; "subs"; "unsubs";
                            "gettoken"; "getappkey"; "disolve"; "user_create"; "add_into_room";
                            "create_room"; "join_room"; "leave_room"; "up_ad_pushId";
                            "set_notify"; "pnicr"])
          then None else Some (NewError "Need Auth first")), w).
Proof.
  intros w. subst w. destruct (InitAclEnv_run w0) as (s & -> & Hs). cbn [snd].
  unfold AclCheck. mstep (get_client_run p c (set_skipAcl s w0) Hc). mred.
  rewrite set_Contains_elems. change (_ :: _) with skip_commands. specialize (Hs cmd).
  destruct (decide _) as [Hd|Hd].
  - destruct (IsClient c), (IsServer c); try done. simpl.
    rewrite bool_decide_true; [done|]. apply Hs. naive_solver.
  - destruct (IsClient c); [naive_solver|]. destruct (IsServer c); [naive_solver|]. simpl.
    rewrite bool_decide_false; [done|]. rewrite Hs. naive_solver.
Qed.

(** The token check of a client connection accepts a command exactly when
    its first word is the connection's token, the token is not empty and not
    expired.  Accepted, the command is left with the remaining parameters, the
    token is renewed and the identity kept; refused, the connection loses its
    identity altogether. *)
Theorem TokenCheck_client (cl : Cmdline) (c : Client) (w : World)
    (Hc : w_clients w !! cl_client cl = Some c) (Hi : IsClient c = true)
    (Hx : Cmd cl ∉ token_exempt) :
  let tk := presented (Params cl) in
  let cl' := with_Params (remaining (Params cl)) cl in
  if decide (token_ok c tk (clock_s w)) then
    ∃ w', TokenCheck cl w = (Ret (None, cl'), w')
      ∧ w_clients w' = <[cl_client cl := with_tokenInfo (mkToken tk (clock_s (tick w))) c]>
                         (w_clients w)
      ∧ w_uuids w' = w_uuids w ∧ w_tasks w' = w_tasks w
  else
    ∃ e w', TokenCheck cl w = (Ret (Some e, cl'), w')
      ∧ w_clients w' = <[cl_client cl := no_identity c]> (w_clients w)
      ∧ w_uuids w' = w_uuids w ∧ w_tasks w' = w_tasks w.
Proof.
  intros tk cl'. rewrite (TokenCheck_client_run cl w c Hc Hi Hx). fold tk. fold cl'.
  destruct (decide (token_ok c tk (clock_s w))) as [Hok|Hok].
  - mstep (checkClientToken_ok _ _ _ _ Hc Hok). by eexists.
  - destruct (checkClientToken_bad _ _ _ _ Hc Hok) as (e & w1 & Hrun & Hw & Hu & Ht). mstep Hrun.
    unfold ClearIdentity, mbind, M_bind. rewrite (upd_client_run _ c) by (by rewrite Hw).
    eexists e, _. split_and!; [reflexivity|simpl; by rewrite Hw|done|done].
Qed.

(** A client's token never expires.  The life time is 36000000000 in the
    unit of the clock reading it is compared with, seconds, and no 64-bit clock
    counts that far: with the right token the check succeeds at any time,
    whether the stored time is the nanoseconds of [auth_client] or the seconds
    of a renewal. *)
Theorem client_token_never_expires (p : ptr) (c : Client) (tk : string) (w : World)
    (Hc : w_clients w !! p = Some c) (Htk : tk ≠ "") (Ht : token (tokenInfo c) = tk)
    (He : 0 ≤ expire (tokenInfo c) < 2 ^ 63)
    (Hclock : 0 ≤ UnixNano (b_tick (w_base w)) < 2 ^ 63) :
  (checkClientToken p tk w).1 = Ret None.
Proof.
  rewrite (checkClientToken_ok p c tk w Hc); [done|]. split_and!; [congruence|done|].
  assert (0 ≤ clock_s w < 9223372037) as Hs.
  { unfold clock_s. split; [apply Z.div_pos; lia|].
    apply Z.div_lt_upper_bound; [lia|]. lia. }
  rewrite wrap64_id; [unfold TOKEN_LIFE; lia|]. apply is_int64_spec.
  unfold int64_min, int64_max. lia.
Qed.
End auth.

#[export] Hint Resolve within_find_token within_authClient within_checkServerToken
  within_drop_tokens within_getServerToken within_authServer within_getClientToken
  within_getAppKey within_AclCheck : within.

Import Ref.

Lemma AclCheck_spec_witness :
  AclCheck 1 "sendmsg" (InitAclEnv example_world).2 = (Ret None, (InitAclEnv example_world).2).
Proof.
  rewrite (AclCheck_spec 1 "sendmsg" (example_client "u1") example_world eq_refl). reflexivity.
Defined.

Lemma TokenCheck_client_witness :
  ∃ w', TokenCheck (mkCmdline "sendmsg" "tk N room 7 hi" [] 1) example_world
        = (Ret (None, mkCmdline "sendmsg" "N room 7 hi" [] 1), w').
Proof.
  destruct (TokenCheck_client (mkCmdline "sendmsg" "tk N room 7 hi" [] 1) (example_client "u1")
    example_world eq_refl eq_refl) as (w' & Hrun & _); [vm_compute; set_solver|].
  exists w'. exact Hrun.
Defined.

Lemma client_token_never_expires_witness :
  (checkClientToken 1 "tk" example_world).1 = Ret None.
Proof.
  apply (client_token_never_expires 1 (example_client "u1") "tk" example_world eq_refl);
    [discriminate | reflexivity | simpl; lia | vm_compute; done].
Defined.
