(* ===== verification/Mail.v ===== *)
(** * Letters to users (engine/mail)

    The document of a user in collection [mail] holds the notifications the
    user has not acknowledged. *)
From S2P Require Import Prelude GoStrings Deps RefDeps Base Storage.

Local Open Scope string_scope.
Local Open Scope list_scope.

Section mail.
  Context {MG : Mongo} {EN : Env} {BS : Bson}.

Record Letter : Type := mkLetter { l_Id : string; l_Type : Z; l_Data : string; l_Ts : Z }.

Definition letter_doc (letter : Letter) : value :=
  VDoc [("ts", VInt64 (l_Ts letter)); ("type", VInt (l_Type letter));
        ("id", VStr (l_Id letter)); ("data", VStr (l_Data letter))].

Definition SendLetterToMail (userIds : list string) (letter : Letter) : M Base (option error) :=
  bulkUpsert (C "mail")
    (for_each userIds (VDoc [("$push", VDoc [("mail", letter_doc letter)])])).

Definition read_letter (a : value) : M Base Letter :=
  id ← doc_get a "id"; l_id ← as_str id;
  ty ← doc_get a "type"; l_type ← as_int ty;
  ts ← doc_get a "ts"; l_ts ← as_int64 ts;
  data ← doc_get a "data"; l_data ← as_str data;
  mret (mkLetter l_id l_type l_data l_ts).

(** The parameter [mailType] is not used: letters of every type are returned. *)
Definition GetLettersByType (userId : string) (mailType : Z) : M Base (error + list Letter) :=
  r ← findOne (C "mail") (by_id userId) (VDoc [("mail", VInt 1)]);
  match r with
  | inl err => mret (inl err)
  | inr result =>
      mails ← doc_get result "mail";
      match mails with
      | VArr l => letters ← collectM read_letter l; mret (inr letters)
      | _ => mret (inl (NewError "GetLettersByType not slice"))
      end
  end.

(** The loop that validates the ids: the first bad one stops it. *)
Definition check_id (id : string) : M Base (option error) :=
  if negb (IsObjectIdHex id)
  then mret (Some (NewError ("userId:" +:+ id +:+ " is not ObjectId")))
  else _ ← deref "invalid input to ObjectIdHex" (ObjectIdHex id); mret None.

Definition RemoveLetter (userId : string) (mailIds : list string) : M Base (option error) :=
  e ← loop_ret check_id mailIds;
  match e with
  | Some err => mret (Some err)
  | None =>
      update_ (C "mail") (by_id userId)
        (VDoc [("$pull", VDoc [("mail", VDoc [("id", VDoc [("$in", VStrs mailIds)])])])])
  end.

(** ** Lemmas *)
Lemma read_letter_doc l b : read_letter (letter_doc l) b = (Ret l, b).
Proof. by destruct l. Qed.

Lemma read_letters ls b : collectM read_letter (letter_doc <$> ls) b = (Ret ls, b).
Proof.
  induction ls as [|l ls IH]; [done|]. cbn [fmap list_fmap collectM].
  mstep (read_letter_doc l b). by mstep IH.
Qed.

Context {BL : BsonLaws}.

Lemma check_id_run id b :
  check_id id b =
    (Ret (if IsObjectIdHex id then None
          else Some (NewError ("userId:" +:+ id +:+ " is not ObjectId"))), b).
Proof.
  unfold check_id. destruct (IsObjectIdHex id) eqn:E; [|done]. cbn [negb].
  by destruct (ObjectIdHex_valid id E) as [o ->].
Qed.

Lemma check_ids_run ids b :
  loop_ret check_id ids b =
    (Ret (match List.find (λ id, negb (IsObjectIdHex id)) ids with
          | Some id => Some (NewError ("userId:" +:+ id +:+ " is not ObjectId"))
          | None => None
          end), b).
Proof.
  induction ids as [|id ids IH]; [done|]. cbn [loop_ret List.find].
  mstep (check_id_run id b). destruct (IsObjectIdHex id); [apply IH|done].
Qed.

(** ** Properties *)

(** (C38) Letters survive the mail box: when the stored document holds letters in
    the form [SendLetterToMail] writes, reading them back returns exactly those
    letters, in order, whatever type is asked for. *)
Theorem GetLettersByType_roundtrip (userId : string) (mailType : Z) (ls : list Letter)
    (fs : list (string * value)) (b : Base)
    (Hfound : (mgo_one (b_db b) (C "mail") (by_id userId) (VDoc [("mail", VInt 1)])).2
              = inr (VDoc fs))
    (Hmail : field "mail" fs = Some (VArr (letter_doc <$> ls))) :
  (GetLettersByType userId mailType b).1 = Ret (inr ls).
Proof.
  unfold GetLettersByType, findOne, on_db. unfold mbind at 1, M_bind at 1.
  destruct (mgo_one (b_db b) _ _ _) as [d r]. simpl in Hfound. subst r.
  unfold doc_get. mred. rewrite Hmail. cbn. by rewrite read_letters.
Qed.

(** Acknowledging letters is all or nothing: with a malformed id in the list
    the first one is reported and the database is not touched; with well-formed
    ids the mail box is updated by one request that names all of them, and
    [ObjectIdHex] never panics. *)
Theorem RemoveLetter_spec (userId : string) (ids : list string) (b : Base) :
  match List.find (λ id, negb (IsObjectIdHex id)) ids with
  | Some id => RemoveLetter userId ids b =
      (Ret (Some (NewError ("userId:" +:+ id +:+ " is not ObjectId"))), b)
  | None => RemoveLetter userId ids b =
      update_ (C "mail") (by_id userId)
        (VDoc [("$pull", VDoc [("mail", VDoc [("id", VDoc [("$in", VStrs ids)])])])]) b
  end.
Proof.
  unfold RemoveLetter. mstep (check_ids_run ids b).
  by destruct (List.find (λ id, negb (IsObjectIdHex id)) ids).
Qed.
End mail.

Import Ref.

Definition example_letter : Letter :=
  mkLetter "0123456789abcdef01234567" 3 "hello" 1500000000000000000.

Lemma GetLettersByType_roundtrip_witness :
  let b := mkBase (MG := ref_mongo)
             ({[ "mail" := [VDoc [("_id", VStr "u1"); ("mail", VArr [letter_doc example_letter])]] ]}
              : store) 0 in
  (GetLettersByType "u1" 1000 b).1 = Ret (inr [example_letter]).
Proof.
  intros b. apply (GetLettersByType_roundtrip "u1" 1000 [example_letter]
    [("_id", VStr "u1"); ("mail", VArr [letter_doc example_letter])] b);
    vm_compute; reflexivity.
Defined.

Lemma RemoveLetter_spec_witness :
  RemoveLetter "u1" ["0123456789abcdef01234567"; "oops"] example_base
  = (Ret (Some (NewError "userId:oops is not ObjectId")), example_base).
Proof. exact (RemoveLetter_spec "u1" ["0123456789abcdef01234567"; "oops"] example_base). Defined.
