(* ===== verification/Commands.v ===== *)
(** * The commands of a connection ([Cmdline.Process], engine/cmd_interface.go)

    One definition per case of the switch, and the switch itself as a table. *)
From S2P Require Import Prelude GoStrings Wire Deps RefDeps Config Base UserIdCache Storage Router.
From S2P Require Import World PubSub Client Rooms Auth Mail.

Local Open Scope string_scope.
Local Open Scope list_scope.
Local Open Scope Z_scope.

Definition CODE_SUCCESS : Z := 200.
Definition CODE_PARAM_ERROR : Z := 202.
Definition CODE_SERVER_ERROR : Z := 500.
Definition CODE_FAILED : Z := 400.
Definition CODE_TOKEN_OR_TERM_ERROR : Z := 508.
Definition UNSTABLE_INFO_TYPE_FRAME_CHAT : Z := 1.
Definition SOME_ONE_EXPELLED_FROM_CHAT_ROOM : Z := 6.

Definition OUTPUT_TOKEN : string := "TOKEN".
Definition OUTPUT_AUTH_SERVER : string := "AUTHSERVER".
Definition OUTPUT_APPKEY : string := "APPKEY".
Definition OUTPUT_PONG : string := "pong".

(** [(ret string, err error)] *)
Definition result : Type := string * option error.

Section commands.
  Context {EX : Externals} {NT : Net} {CF : Global}.

(** [return fmt.Sprintf("%d %s", code, text), nil] *)
Definition reply (code : Z) (text : string) : M World result :=
  mret (fmt_d code +:+ " " +:+ text, None).
Definition success : M World result := reply CODE_SUCCESS "success".
Definition lacked : M World result := reply CODE_PARAM_ERROR "param number is lacked".
Definition index_panic {A} : M World A := panic "index out of range".

(** [this.Client.uuid] *)
Definition my_uuid (this : ptr) : M World string := c ← get_client this; mret (uuid c).

Definition find_in (c : string) (q : value) : M World (option error) :=
  r ← onBase (findOne (C c) q VNil); mret (match r with inl e => Some e | inr _ => None end).

(** ** Messages *)
Definition do_SENDMSG (this : ptr) (P : string) : M World result :=
  match SplitN space P 4 with
  | [isResend; channel; tempMsgId; msg] =>
      match ParseInt64 tempMsgId with
      | None => reply CODE_PARAM_ERROR "param error, msgId cannot be parse"
      | Some msgId =>
          u ← my_uuid this;
          hit ← (if String.eqb isResend "Y" then
                   e ← find_in "msg_log" (VDoc [("channel", VStr channel); ("uuid", VStr u);
                                                ("msgid", VInt64 msgId)]);
                   mret (match e with None => true | Some _ => false end)
                 else mret false : M World bool);
          _ ← (if (hit : bool) then mret "" else Publish channel msg u msgId false);
          now ← onBase now_UnixNano;
          reply CODE_SUCCESS (spaced [fmt_d msgId; fmt_d now])
      end
  | _ => lacked
  end.

(** The index of the first blank, 0 when there is none. *)
Fixpoint first_blank (b : list byte) (i : nat) : nat :=
  match b with
  | [] => O
  | x :: b' => if Byte.eqb x Byte.x20 then i else first_blank b' (S i)
  end.

Definition do_VIDO_CHAT (this : ptr) (P2 : list byte) : M World result :=
  let index := first_blank P2 0 in
  if (index =? 0)%nat then lacked else
  let channelId := string_of_bytes (take index P2) in
  c ← get_client this;
  _ ← (match Channels c !! channelId with
       | None => _ ← Subscribe this channelId; mret tt
       | Some _ => mret tt
       end);
  let msgPush := bytes_of_string (uuid c) ++ bytes_of_string " " ++ P2 in
  _ ← PublishBinMsg channelId (uuid c) msgPush true;
  success.

Definition do_ACK_MSG (this : ptr) (P : string) : M World result :=
  match SplitN space P 4 with
  | [channelId; p1; p2; ownerId] =>
      match ParseInt64 p1 with
      | None => reply CODE_PARAM_ERROR "param error, msgId cannot be parse"
      | Some msgId =>
          match ParseInt64 p2 with
          | None => reply CODE_PARAM_ERROR "param error, ts cannot be parse"
          | Some ts => _ ← AckMsg this msgId ts ownerId channelId; success
          end
      end
  | _ => lacked
  end.

Definition do_SUBSCRIBE (this : ptr) (P : string) : M World result :=
  if String.eqb P "" then lacked else _ ← Subscribe this P; success.

Definition do_PUBLISH (this : ptr) (P : string) : M World result :=
  match SplitN space P 3 with
  | [p0; p1; p2] =>
      if String.eqb p2 "" then lacked else
      match ParseInt64 p1 with
      | None => reply CODE_PARAM_ERROR "param error, msgId cannot be parse"
      | Some msgId => u ← my_uuid this; _ ← Publish p0 p2 u msgId false; success
      end
  | _ => lacked
  end.

Definition do_UNSUBSCRIBE (this : ptr) (P : string) : M World result :=
  match SplitN space P 2 with
  | p0 :: _ => if String.eqb p0 "" then lacked else _ ← Unsubscribe this p0; success
  | [] => lacked
  end.

Definition do_RETRACT_MESSAGE (this : ptr) (P : string) : M World result :=
  if String.eqb P "" then lacked else
  match SplitN space P 3 with
  | [channel; p1; p2] =>
      match ParseInt64 p1 with
      | None => reply CODE_PARAM_ERROR "msgId can not parse"
      | Some msgId =>
          match ParseInt64 p2 with
          | None => reply CODE_PARAM_ERROR "param error"
          | Some newMsgId =>
              u ← my_uuid this;
              err ← onBase (remove_ (C "msg_log")
                      (VDoc [("channel", VStr channel); ("uuid", VStr u); ("msgid", VInt64 msgId)]));
              match err with
              | Some (LastError t) => reply CODE_SERVER_ERROR t
              | Some ErrNotFound => reply CODE_FAILED "not found"
              | _ =>
                  _ ← Publish channel (spaced ["[del]"; u; fmt_d msgId]) u newMsgId false;
                  success
              end
          end
      end
  | _ => lacked
  end.

(** ** Push settings *)
Definition do_UPDATE_OR_ADD_PUSH_ID (this : ptr) (P : string) : M World result :=
  match Split space P with
  | userId :: pushId :: _ =>
      if String.eqb userId "" || String.eqb pushId "" then lacked else
      err ← find_in "user_info" (by_id userId);
      match err with
      | Some ErrNotFound => reply CODE_FAILED "userId not found"
      | Some _ => reply CODE_SERVER_ERROR "server error"
      | None =>
          err ← onBase (update_ (C "user_info") (by_id userId)
                          (VDoc [("$set", VDoc [("pushId", VStr pushId)])]));
          match err with
          | Some _ => reply CODE_SERVER_ERROR "server error"
          | None =>
              o ← GetClient userId;
              _ ← match o with
                  | Some client => upd_client client (with_PushId pushId)
                  | None => mret tt
                  end;
              success
          end
      end
  | _ => index_panic
  end.

Definition do_SET_OFF_NOTIFY (this : ptr) (P : string) : M World result :=
  match Split space P with
  | userId :: isAllowNotify :: _ =>
      if String.eqb userId "" || String.eqb isAllowNotify "" then lacked else
      o ← GetClient userId;
      _ ← match o with
          | Some client => upd_client client (with_notify (String.eqb isAllowNotify "1"))
          | None => mret tt
          end;
      success
  | _ => index_panic
  end.

(** ** Rooms *)
Definition failed (e : error) : M World result := reply CODE_FAILED (Error e).

(** [if err != nil { return ... }]; [success] otherwise *)
Definition or_success (err : option error) : M World result :=
  match err with Some e => failed e | None => success end.

Definition do_CREATEROOM (this : ptr) (P : string) : M World result :=
  let params := Split space P in
  u ← my_uuid this;
  let roomId := generateRoomIdByUuidList (params ++ [u]) in
  let channelId := roomid2Channelid roomId in
  err ← createRoom u channelId;
  match err with
  | Some e => failed e
  | None =>
      r ← loop_ret (λ uid,
            err ← joinRoom channelId [uid];
            (* [err.Error()], on a nil [err] too *)
            e ← deref "invalid memory address or nil pointer dereference" err;
            x ← failed e; mret (Some x)) params;
      match r with Some x => mret x | None => success end
  end.

Definition do_JOINROOM (this : ptr) (P : string) : M World result :=
  match Split space P with
  | p0 :: _ =>
      if String.eqb p0 "" then reply CODE_PARAM_ERROR "param error" else
      u ← my_uuid this;
      err ← joinRoom (roomid2Channelid p0) [u];
      or_success err
  | [] => reply CODE_PARAM_ERROR "param error"
  end.

(** The arguments of [leaveRoom(channelId, userIds...)] come in the other order. *)
Definition do_LEAVEROOM (this : ptr) (P : string) : M World result :=
  match Split space P with
  | p0 :: _ =>
      if String.eqb p0 "" then reply CODE_PARAM_ERROR "param error" else
      u ← my_uuid this;
      err ← leaveRoom u [roomid2Channelid p0];
      or_success err
  | [] => reply CODE_PARAM_ERROR "param error"
  end.

(** The loop that looks every user up; [k] is the reply to other errors. *)
Definition check_users (k : error → M World result) (us : list string)
    : M World (option result) :=
  loop_ret (λ tempUserId,
    err ← find_in "user_info" (by_id tempUserId);
    match err with
    | None => mret None
    | Some ErrNotFound =>
        x ← reply CODE_FAILED ("userId:" +:+ tempUserId +:+ " is not exists"); mret (Some x)
    | Some e => x ← k e; mret (Some x)
    end) us.

Definition join_all (channelId : string) (us : list string) : M World (option result) :=
  loop_ret (λ u,
    err ← joinRoom channelId [u];
    match err with None => mret None | Some e => x ← failed e; mret (Some x) end) us.

Definition do_ADD_USER_INTO_ROOM (this : ptr) (P : string) : M World result :=
  match Split space P with
  | channelId :: u1 :: us1 =>
      let us := u1 :: us1 in
      err ← find_in "channel_uuids" (by_id channelId);
      match err with
      | Some ErrNotFound => reply CODE_FAILED "channelId is not exists"
      | Some e => reply CODE_SERVER_ERROR (Error e)
      | None =>
          r ← check_users (λ e, reply CODE_SERVER_ERROR (Error e)) us;
          match r with Some x => mret x | None =>
          r ← join_all channelId us;
          match r with Some x => mret x | None =>
          cached ← onCache (Exists channelId);
          _ ← (if (cached : bool) then onCache (AddAllUserIds channelId us)
               else _ ← LoadUserIdsFromDatabase channelId; mret tt);
          success
          end end
      end
  | _ => reply CODE_PARAM_ERROR "param wrong"
  end.

Definition do_SUBS (this : ptr) (P : string) : M World result :=
  match Split space P with
  | _ :: channelId :: ownerId :: others =>
      r ← check_users (λ _, reply CODE_SERVER_ERROR "server error") (ownerId :: others);
      match r with Some x => mret x | None =>
      err ← find_in "channel_uuids" (by_id channelId);
      match err with
      | None => reply CODE_FAILED "channelId has been exists"
      | Some _ =>
          err ← createRoom ownerId channelId;
          match err with
          | Some e => failed e
          | None =>
              r ← join_all channelId others;
              match r with Some x => mret x | None => success end
          end
      end end
  | _ => reply CODE_PARAM_ERROR "param wrong"
  end.

Definition do_UNSUBS (this : ptr) (P : string) : M World result :=
  match Split space P with
  | p0 :: u1 :: us1 =>
      let us := u1 :: us1 in
      err ← leaveRoom p0 us;
      match err with
      | Some e => failed e
      | None =>
          cached ← onCache (Exists p0);
          _ ← (if (cached : bool) then mapM_ (λ u, onCache (RemoveUserId p0 u)) us
               else mret tt);
          success
      end
  | _ => reply CODE_PARAM_ERROR "param wrong"
  end.

Definition do_DISOLVE (this : ptr) (P : string) : M World result :=
  if String.eqb P "" then reply CODE_PARAM_ERROR "param wrong" else
  err ← disolveRoom P;
  match err with
  | Some e => failed e
  | None => _ ← onCache (Del P); success
  end.

Definition do_CREATE_USER (this : ptr) (P : string) : M World result :=
  if String.eqb P "" then lacked else
  err ← find_in "user_info" (by_id P);
  match err with
  | None => reply CODE_FAILED "userId has been exists"
  | Some _ =>
      err ← onBase (insert_ (C "user_info")
              [VDoc [("_id", VStr P); ("channel_stat", VDoc []); ("frame_chat", VStrs [])]]);
      or_success err
  end.

(** ** Notifications *)

(** [[]*Letter] to JSON *)
Definition letters_json (l : list Letter) : value :=
  VArr ((λ x, VDoc [("Id", VStr (l_Id x)); ("Type", VInt (l_Type x));
                    ("Data", VStr (l_Data x)); ("Ts", VInt64 (l_Ts x))]) <$> l).

Definition do_PEEK_SERVER_NOTIFY (this : ptr) (P : string) : M World result :=
  u ← my_uuid this;
  r ← onBase (GetLettersByType u MESSAGE_FOR_PERSON);
  match r with
  | inl err => mret ("", Some err)
  | inr letters =>
      match json_Marshal (letters_json letters) with
      | inl err => mret ("", Some err)
      | inr data => mret (data, None)
      end
  end.

Definition do_ACK_SERVER_NOTIFY (this : ptr) (P : string) : M World result :=
  u ← my_uuid this;
  err ← onBase (RemoveLetter u (Split space P));
  match err with
  | Some e => reply CODE_PARAM_ERROR (Error e)
  | None => success
  end.

Definition do_PUSH_NOTIFY_TO_USERS (this : ptr) (P : string) : M World result :=
  match json_Unmarshal P with
  | inl _ => reply CODE_PARAM_ERROR "param error1"
  | inr (VDoc temp2) =>
      match field "type" temp2 with
      | None => reply CODE_PARAM_ERROR "param error3"
      | Some temp4 =>
          s4 ← as_str temp4;
          match ParseInt32 s4 with
          | None => reply CODE_PARAM_ERROR "param error4"
          | Some mtype =>
              match field "userIds" temp2 with
              | None => reply CODE_PARAM_ERROR "param error5"
              | Some temp5 =>
                  temp6 ← as_arr temp5;
                  us ← collectM as_str temp6;
                  message ← as_str (default VNil (field "message" temp2));
                  ts ← onBase now_UnixNano;
                  oid ← onBase draw_oid;
                  let msgId := Hex oid in
                  let text := spaced [fmt_d MESSAGE_FOR_PERSON; fmt_d mtype; msgId; fmt_d ts;
                                      message] in
                  _ ← onBase (SendLetterToMail us (mkLetter msgId mtype message ts));
                  _ ← PushToClients text us;
                  success
              end
          end
      end
  | inr _ => reply CODE_PARAM_ERROR "param error2"
  end.

Definition notifyInChatRoom (chatRoomId message : string) (mtype : Z) : M World result :=
  ts ← onBase now_UnixNano;
  _ ← (if EnableStorage PushdConf then
         _ ← onBase (insert_ (C "msg_log")
               [VDoc [("channel", VStr chatRoomId); ("msg", VStr message); ("ts", VInt64 ts);
                      ("type", VInt mtype)]]); mret tt
       else mret tt);
  _ ← PublishStrMsg chatRoomId (spaced [fmt_d mtype; chatRoomId; fmt_d ts; message]) "" true;
  mret ("", None).

(** Both branches of the switch on [mtype] do the same. *)
Definition do_PUBLISH_NOTIFICATION_IN_CHAT_ROOM (this : ptr) (P : string) : M World result :=
  match SplitN space P 3 with
  | [p0; chatRoomId; message] =>
      match Atoi p0 with
      | None => reply CODE_PARAM_ERROR "type can not parse to int32"
      | Some mtype =>
          '(res, err) ← (if mtype =? SOME_ONE_EXPELLED_FROM_CHAT_ROOM
                         then notifyInChatRoom chatRoomId message mtype
                         else notifyInChatRoom chatRoomId message mtype);
          match err with Some _ => mret (res, None) | None => success end
      end
  | _ => lacked
  end.

(** ** Frame chats: temporary rooms for voice and video *)
Definition frame_notice (cmd : string) (l : list string) : string :=
  spaced (OUTPUT_FRAME_CHAT :: cmd :: l).

Definition do_FRAME_APPLY (this : ptr) (P : string) : M World result :=
  match Split space P with
  | [p0; oldChannelId] =>
      match Atoi p0 with
      | None => lacked
      | Some mainType =>
          u ← my_uuid this;
          r ← onBase (findOne (C "unstable_info") (VDoc [("channelId", VStr oldChannelId)])
                        (VDoc [("_id", VInt 0); ("proposer", VInt 1)]));
          match r with
          | inr found =>
              v ← doc_get found "proposer";
              proposer ← as_str v;
              if String.eqb proposer u then reply CODE_FAILED "10002"
              else reply CODE_FAILED "10001"
          | inl _ =>
              objectId ← onBase draw_oid;
              now ← onBase now_Unix;
              err0 ← onBase (insert_ (C "unstable_info")
                       [VDoc [("type", VInt UNSTABLE_INFO_TYPE_FRAME_CHAT);
                              ("subtype", VInt mainType); ("proposer", VStr u);
                              ("channelId", VStr oldChannelId); ("time", VInt64 now);
                              ("activeUser", VStrs [u]); ("_id", VOid objectId)]]);
              match err0 with
              | Some _ => reply CODE_FAILED "10001"
              | None =>
                  us ← onBase (FetchUuidsAboutChannel oldChannelId);
                  err0 ← onBase (bulkUpsert (C "user_info")
                           (for_each us (VDoc [("$push", VDoc [("frame_chat", VOid objectId)])])));
                  match err0 with
                  | Some _ =>
                      _ ← onBase (remove_ (C "unstable_info") (by_oid objectId));
                      reply CODE_FAILED "500"
                  | None =>
                      let newChannelId := Hex objectId in
                      _ ← onCache (AddUserId newChannelId u);
                      let notice := frame_notice CMD_FRAME_APPLY
                                      [fmt_d mainType; u; newChannelId; oldChannelId] in
                      _ ← PublishStrMsg oldChannelId notice u true;
                      reply CODE_SUCCESS newChannelId
                  end
              end
          end
      end
  | _ => lacked
  end.

(** [bson.ObjectIdHex(s)] *)
Definition object_id (s : string) : M World string :=
  deref "invalid input to ObjectIdHex" (ObjectIdHex s).

(** The cases of [CMD_FRAME_JOIN] and [CMD_FRAME_ACCEPT] differ in the command
    they announce only. *)
Definition frame_enter (cmd : string) (this : ptr) (P : string) : M World result :=
  if negb (IsObjectIdHex P) then reply CODE_FAILED "500" else
  channelObjectId ← object_id P;
  let channelId := P in
  u ← my_uuid this;
  err0 ← onBase (update_ (C "unstable_info") (by_oid channelObjectId)
                   (VDoc [("$push", VDoc [("activeUser", VStr u)])]));
  match err0 with
  | Some _ => reply CODE_FAILED "10003"
  | None =>
      _ ← onCache (AddUserId channelId u);
      _ ← PublishStrMsg channelId (frame_notice cmd [fmt_d (-1); u; channelId]) u true;
      success
  end.

Definition do_FRAME_JOIN := frame_enter CMD_FRAME_JOIN.
Definition do_FRAME_ACCEPT := frame_enter CMD_FRAME_ACCEPT.

(** The cases of [CMD_FRAME_OUT] and [CMD_FRAME_DISMISS]; when the chat is over,
    only the first removes the user from the cached room. *)
Definition frame_leave (cmd : string) (forget : bool) (this : ptr) (P : string)
    : M World result :=
  if negb (IsObjectIdHex P) then reply CODE_FAILED "500" else
  channelObjectId ← object_id P;
  let channelId := P in
  u ← my_uuid this;
  r ← pull_active channelObjectId u;
  match r with
  | inl _ => reply CODE_FAILED "500"
  | inr found =>
      v ← doc_get found "activeUser";
      active ← as_arr v;
      err0 ← (if (length active =? 0)%nat then remove_empty channelObjectId
              else mret (Some ErrNotFound));
      match err0 with
      | None =>
          _ ← frame_over channelObjectId found u channelId;
          _ ← (if forget then onCache (RemoveUserId channelId u) else mret tt);
          success
      | Some _ =>
          _ ← onCache (RemoveUserId channelId u);
          _ ← PublishStrMsg channelId (frame_notice cmd [fmt_d (-1); u; channelId]) u true;
          success
      end
  end.

Definition do_FRAME_OUT := frame_leave CMD_FRAME_OUT true.
Definition do_FRAME_DISMISS := frame_leave CMD_FRAME_DISMISS false.

Definition do_FRAME_REFUSE (this : ptr) (P : string) : M World result :=
  if negb (IsObjectIdHex P) then reply CODE_FAILED "500" else
  u ← my_uuid this;
  _ ← PublishStrMsg P (frame_notice CMD_FRAME_REFUSE [fmt_d (-1); u; P]) u true;
  success.

(** [string(bytes)] where [bytes, _ := json.Marshal(v)] *)
Definition marshalled (v : value) : string :=
  match json_Marshal v with inl _ => "" | inr s => s end.

Definition do_FRAME_INFO (this : ptr) (P : string) : M World result :=
  if negb (IsObjectIdHex P) then reply CODE_FAILED "500" else
  channelId ← object_id P;
  r ← onBase (findOne (C "unstable_info") (by_oid channelId) VNil);
  match r with
  | inl _ => reply CODE_FAILED "10003"
  | inr found => reply CODE_SUCCESS (marshalled found)
  end.

(** One iteration over [frame_chat]. *)
Definition frame_action1 (this : ptr) (id : value) : M World unit :=
  channelId ← as_oid id;
  r ← onBase (findOne (C "unstable_info") (by_oid channelId) VNil);
  match r with
  | inl _ => mret tt
  | inr info =>
      t ← doc_get info "type"; ty ← as_int t;
      if ty =? UNSTABLE_INFO_TYPE_FRAME_CHAT then
        v ← doc_get info "subtype"; mainType ← as_int v;
        v ← doc_get info "proposer"; proposerId ← as_str v;
        v ← doc_get info "_id"; o ← as_oid v;
        v ← doc_get info "channelId"; oldChannelId ← as_str v;
        let notice := frame_notice CMD_FRAME_APPLY
                        [fmt_d mainType; proposerId; Hex o; oldChannelId] in
        spawn (GoWriteFormatMsg this OUTPUT_RCIV notice)
      else mret tt
  end.

Definition do_INVOKE_FRAME_ACTION (this : ptr) (P : string) : M World result :=
  u ← my_uuid this;
  r ← onBase (findOne (C "user_info") (by_id u)
                (VDoc [("frame_chat", VInt 1); ("_id", VInt 0)]));
  match r with
  | inl _ => mret ("", None)
  | inr found =>
      v ← doc_get found "frame_chat";
      frame_chat ← as_arr v;
      _ ← mapM_ (frame_action1 this) frame_chat;
      mret ("", None)
  end.

(** ** History *)

(** The messages of one channel newer than the user's time stamp for it. *)
Definition offline_channel (u : string) (entry : string * value)
    : M World (list (string * value)) :=
  let '(channel, va) := entry in
  ts ← as_int64 va;
  '(hisRet, _) ← onBase (findAll (C "msg_log")
      (VDoc [("ts", VDoc [("$gt", VInt64 ts)]); ("channel", VStr channel);
             ("uuid", VDoc [("$ne", VStr u)])])
      (VDoc [("_id", VInt 0)]));
  mret (match hisRet with [] => [] | _ => [(channel, VArr hisRet)] end).

Definition do_OFFLINE_MSG (this : ptr) (P : string) : M World result :=
  u ← my_uuid this;
  r ← onBase (findOne (C "user_info") (by_id u)
                (VDoc [("_id", VInt 0); ("channel_stat", VInt 1)]));
  match r with
  | inl _ | inr VNil => mret ("{}", None)
  | inr userInfo =>
      v ← doc_get userInfo "channel_stat";
      channelStat ← as_doc v;
      data ← collectM (offline_channel u) channelStat;
      match json_Marshal (VDoc (concat data)) with
      | inl err => mret ("", Some err)
      | inr s => mret (s, None)
      end
  end.

(** [nil] when the driver refused the query, a slice otherwise *)
Definition hist_value (l : list value) (err : option error) : value :=
  match l, err with [], Some _ => VNil | _, _ => VArr l end.

Definition do_HISTORY (this : ptr) (P : string) : M World result :=
  match Split space P with
  | channel :: p1 :: _ =>
      match ParseInt64 p1 with
      | None => reply CODE_PARAM_ERROR "time cannot be parse"
      | Some ts =>
          d ← gets w_driver;
          '(hisRet, err) ← onBase (fullHistory d channel ts);
          reply CODE_SUCCESS (marshalled (hist_value hisRet err))
      end
  | _ => lacked
  end.

(** ** Authentication *)
Definition do_AUTH_SERVER (this : ptr) (P : string) : M World result :=
  if String.eqb P "" then mret ("", Some (NewError "Invalid Params for auth_server")) else
  r ← authServer P;
  match r with
  | inl err => mret ("", Some err)
  | inr ret => _ ← SetServer this; mret (spaced [OUTPUT_AUTH_SERVER; ret], None)
  end.

Definition do_TOKEN (this : ptr) (P : string) : M World result :=
  tk ← getClientToken;
  if String.eqb tk "" then mret ("", Some (NewError "gettoken error"))
  else mret (spaced [OUTPUT_TOKEN; tk], None).

Definition do_APPKEY (this : ptr) (P : string) : M World result :=
  k ← getAppKey; mret (spaced [OUTPUT_APPKEY; k], None).

Definition do_AUTH_CLIENT (this : ptr) (P : string) : M World result :=
  match Split space P with
  | p0 :: _ =>
      r ← authClient p0;
      match r with
      | inr ret =>
          _ ← SetClient this;
          now ← onBase now_UnixNano;
          _ ← initToken this p0 now;
          reply CODE_SUCCESS ret
      | inl err => failed err
      end
  | [] => lacked
  end.

Definition do_SETUUID (this : ptr) (P : string) : M World result :=
  match Split space P with
  | _ :: p1 :: _ =>
      if String.eqb p1 "" then lacked else
      _ ← upd_client this (with_uuid p1);
      _ ← spawn (GoInitChatEnv this p1);
      success
  | _ => lacked
  end.

Definition do_PING (this : ptr) (P : string) : M World result := mret (OUTPUT_PONG, None).

(** ** The switch *)
Definition handlers : list (string * (ptr → string → M World result)) :=
  [(CMD_SENDMSG, do_SENDMSG); (CMD_ACK_MSG, do_ACK_MSG); (CMD_SUBSCRIBE, do_SUBSCRIBE);
   (CMD_PUBLISH, do_PUBLISH); (CMD_UNSUBSCRIBE, do_UNSUBSCRIBE);
   (CMD_RETRACT_MESSAGE, do_RETRACT_MESSAGE);
   (CMD_UPDATE_OR_ADD_PUSH_ID, do_UPDATE_OR_ADD_PUSH_ID);
   (CMD_SET_OFF_NOTIFY, do_SET_OFF_NOTIFY); (CMD_CREATEROOM, do_CREATEROOM);
   (CMD_JOINROOM, do_JOINROOM); (CMD_LEAVEROOM, do_LEAVEROOM);
   (CMD_PEEK_SERVER_NOTIFY, do_PEEK_SERVER_NOTIFY);
   (CMD_ACK_SERVER_NOTIFY, do_ACK_SERVER_NOTIFY);
   (CMD_PUSH_NOTIFY_TO_USERS, do_PUSH_NOTIFY_TO_USERS);
   (CMD_PUBLISH_NOTIFICATION_IN_CHAT_ROOM, do_PUBLISH_NOTIFICATION_IN_CHAT_ROOM);
   (CMD_FRAME_APPLY, do_FRAME_APPLY); (CMD_FRAME_JOIN, do_FRAME_JOIN);
   (CMD_FRAME_ACCEPT, do_FRAME_ACCEPT); (CMD_FRAME_OUT, do_FRAME_OUT);
   (CMD_FRAME_REFUSE, do_FRAME_REFUSE); (CMD_FRAME_DISMISS, do_FRAME_DISMISS);
   (CMD_FRAME_INFO, do_FRAME_INFO); (CMD_INVOKE_FRAME_ACTION, do_INVOKE_FRAME_ACTION);
   (CMD_ADD_USER_INTO_ROOM, do_ADD_USER_INTO_ROOM); (CMD_SUBS, do_SUBS);
   (CMD_UNSUBS, do_UNSUBS); (CMD_DISOLVE, do_DISOLVE); (CMD_CREATE_USER, do_CREATE_USER);
   (CMD_OFFLINE_MSG, do_OFFLINE_MSG); (CMD_HISTORY, do_HISTORY);
   (CMD_AUTH_SERVER, do_AUTH_SERVER); (CMD_TOKEN, do_TOKEN); (CMD_APPKEY, do_APPKEY);
   (CMD_AUTH_CLIENT, do_AUTH_CLIENT); (CMD_SETUUID, do_SETUUID); (CMD_PING, do_PING)].

Fixpoint find_handler (c : string) (l : list (string * (ptr → string → M World result))) :=
  match l with
  | [] => None
  | (c', h) :: l' => if String.eqb c c' then Some h else find_handler c l'
  end.

Definition newline : string := String (ascii_of_nat 10) "".

(** NUL, carriage return and newline; nothing calls it. *)
Definition trimCmdline (str : string) : string := TrimRight str (ascii_of_nat <$> [0; 13; 10]%nat).

Definition Process (cl : Cmdline) : M World result :=
  if String.eqb (Cmd cl) CMD_VIDO_CHAT then do_VIDO_CHAT (cl_client cl) (Params2 cl) else
  match find_handler (Cmd cl) handlers with
  | Some h => h (cl_client cl) (Params cl)
  | None => reply CODE_FAILED ("Cmd not found: " +:+ Cmd cl +:+ newline)
  end.

Lemma my_uuid_run p c w : w_clients w !! p = Some c → my_uuid p w = (Ret (uuid c), w).
Proof. intros Hc. unfold my_uuid. by mstep (get_client_run p c w Hc). Qed.

(** ** Frames *)

(** The three commands that change what a connection is. *)
Definition identity_commands : list string := [CMD_AUTH_CLIENT; CMD_AUTH_SERVER; CMD_SETUUID].

Section frame.
  Context (R : relation World) `{!Inert R}.
  Hypothesis push_ok : ∀ q s, within R (upd_client q (with_PushId s)).
  Hypothesis notify_ok : ∀ q b, within R (upd_client q (with_notify b)).
  Hint Resolve push_ok notify_ok : within.

Lemma within_reply code t : within R (reply code t).
Proof. unfold reply. frame. Qed.
Hint Resolve within_reply : within.
Lemma within_success : within R success.
Proof. unfold success. frame. Qed.
Lemma within_lacked : within R lacked.
Proof. unfold lacked. frame. Qed.
Lemma within_failed e : within R (failed e).
Proof. unfold failed. frame. Qed.
Lemma within_my_uuid p : within R (my_uuid p).
Proof. unfold my_uuid. frame. Qed.
Lemma within_find_in c q : within R (find_in c q).
Proof. unfold find_in. frame. Qed.
Hint Resolve within_success within_lacked within_failed within_my_uuid within_find_in : within.
Lemma within_or_success e : within R (or_success e).
Proof. unfold or_success. frame. Qed.
Lemma within_check_users k us :
  (∀ e, within R (k e)) → within R (check_users k us).
Proof. intros Hk. unfold check_users. frame. Qed.
Lemma within_join_all ch us : within R (join_all ch us).
Proof. unfold join_all. frame. Qed.
Lemma within_index_panic {A} : within R (index_panic (A := A)).
Proof. unfold index_panic. frame. Qed.
Lemma within_object_id s : within R (object_id s).
Proof. unfold object_id. frame. Qed.
Hint Resolve within_or_success within_check_users within_join_all within_index_panic
  within_object_id : within.

Lemma within_VIDO_CHAT p P2 : within R (do_VIDO_CHAT p P2).
Proof. unfold do_VIDO_CHAT, Subscribe. frame. Qed.

Lemma within_frame_enter cmd p P : within R (frame_enter cmd p P).
Proof. unfold frame_enter. frame. Qed.

Lemma within_frame_leave cmd b p P : within R (frame_leave cmd b p P).
Proof. unfold frame_leave. frame. Qed.

Lemma within_notifyInChatRoom ch m t : within R (notifyInChatRoom ch m t).
Proof. unfold notifyInChatRoom. frame. Qed.
Hint Resolve within_frame_enter within_frame_leave within_notifyInChatRoom : within.

(** Every command but those three stays within [R]. *)
Lemma within_handlers :
  Forall (λ kh, kh.1 ∈ identity_commands ∨ ∀ p P, within R (kh.2 p P)) handlers.
Proof.
  unfold handlers.
  repeat (apply Forall_cons; split;
    [ first [ left; unfold identity_commands; rewrite !elem_of_cons; solve [tauto] | right; intros p P; cbn [snd];
        unfold do_SENDMSG, do_ACK_MSG, do_SUBSCRIBE, do_PUBLISH, do_UNSUBSCRIBE,
          do_RETRACT_MESSAGE, do_UPDATE_OR_ADD_PUSH_ID, do_SET_OFF_NOTIFY, do_CREATEROOM,
          do_JOINROOM, do_LEAVEROOM, do_PEEK_SERVER_NOTIFY, do_ACK_SERVER_NOTIFY,
          do_PUSH_NOTIFY_TO_USERS, do_PUBLISH_NOTIFICATION_IN_CHAT_ROOM, do_FRAME_APPLY,
          do_FRAME_JOIN, do_FRAME_ACCEPT, do_FRAME_OUT, do_FRAME_REFUSE, do_FRAME_DISMISS,
          do_FRAME_INFO, do_INVOKE_FRAME_ACTION, frame_action1, do_ADD_USER_INTO_ROOM, do_SUBS,
          do_UNSUBS, do_DISOLVE, do_CREATE_USER, do_OFFLINE_MSG, offline_channel, do_HISTORY,
          do_TOKEN, do_APPKEY, do_PING, Subscribe, Unsubscribe; solve [frame] ] | ]).
  by apply Forall_nil_2.
Qed.

Lemma find_handler_In c l h : find_handler c l = Some h → (c, h) ∈ l.
Proof.
  induction l as [|[c' h'] l IH]; simpl; [done|].
  destruct (String.eqb_spec c c') as [->|]; [intros [= ->]; left|right; auto].
Qed.

Lemma within_Process cl : Cmd cl ∉ identity_commands → within R (Process cl).
Proof.
  intros Hx. unfold Process. destruct (String.eqb (Cmd cl) CMD_VIDO_CHAT).
  { apply within_VIDO_CHAT. }
  destruct (find_handler (Cmd cl) handlers) as [h|] eqn:E; [|apply within_reply].
  apply find_handler_In in E. pose proof within_handlers as Hall.
  rewrite Forall_forall in Hall. destruct (Hall _ E) as [H|H]; [done|apply H].
Qed.

(** The other three, where every update of the connection is allowed. *)
Lemma within_Process_identity cl :
  (∀ f, within R (upd_client (cl_client cl) f)) → (∀ t, within R (spawn t)) →
  Cmd cl ∈ identity_commands → within R (Process cl).
Proof.
  intros Hupd Hsp Hx. destruct cl as [cmd P P2 p]. simpl in *.
  unfold identity_commands in Hx. rewrite !elem_of_cons, elem_of_nil in Hx.
  destruct Hx as [->|[->|[->|[]]]]; cbn;
    unfold do_AUTH_CLIENT, do_AUTH_SERVER, do_SETUUID, SetClient, SetServer, initToken; frame.
Qed.
End frame.

(** ** Specification vocabulary *)

(** What a connection is, as opposed to its push settings. *)
Definition ident (c : Client) : Z * string * TokenInfo * Z :=
  (Type_ c, uuid c, tokenInfo c, state c).
Definition ident_at (q : ptr) (w : World) : option (Z * string * TokenInfo * Z) :=
  ident <$> w_clients w !! q.

Definition token_query (tk : string) : value := VDoc [("tk", VStr tk)].
Definition key_query (k : string) : value := VDoc [("appkey", VStr k)].

(** The database has a record for the credential. *)
Definition on_record (w : World) (c : string) (q pr : value) : Prop :=
  ∃ v, (mgo_one (b_db (w_base w)) (C c) q pr).2 = inr v ∧ v ≠ VNil.

Definition client_at (q : ptr) (w : World) : bool :=
  match w_clients w !! q with Some c => IsClient c | None => false end.
Definition server_at (q : ptr) (w : World) : bool :=
  match w_clients w !! q with Some c => IsServer c | None => false end.

#[export] Instance on_record_dec w c q pr : Decision (on_record w c q pr).
Proof.
  unfold on_record. destruct (mgo_one _ _ _ _).2 as [e|v].
  - right. by intros (? & ? & _).
  - destruct (decide (v = VNil)) as [->|Hv]; [right; by intros (? & [= <-] & ?)|left; by exists v].
Defined.

(** ** Lemmas *)
Lemma inert_same {A} (f : World → A) :
  (∀ b w, f (set_base b w) = f w) → (∀ c w, f (set_cache c w) = f w) →
  (∀ c w, f (set_pubsub c w) = f w) → (∀ c w, f (set_proxy c w) = f w) →
  (∀ c w, f (set_msgQueue c w) = f w) → (∀ l w, f (set_tasks l w) = f w) → Inert (same f).
Proof.
  intros. split; unfold ignores, same; intros; auto; [apply _|].
  apply within_onCache. unfold ignores. auto.
Qed.

Lemma inert_ident q : Inert (same (ident_at q)).
Proof. by apply inert_same. Qed.

Lemma inert_uuids : Inert (same w_uuids).
Proof. by apply inert_same. Qed.

(** Updates that keep [ident], and updates of another connection. *)
Lemma within_ident_upd q p f :
  (p ≠ q ∨ ∀ c, ident (f c) = ident c) → within (same (ident_at q)) (upd_client p f).
Proof.
  intros H. apply within_upd_client; [apply _|]. intros w c Hc. unfold same, ident_at. simpl.
  rewrite lookup_insert. case_decide as Hd; [subst|done]. destruct H as [|H]; [done|].
  rewrite Hc. simpl. by rewrite H.
Qed.

Lemma within_uuids_upd p f : within (same w_uuids) (upd_client p f).
Proof. apply within_upd_client; [apply _|]. done. Qed.

Lemma Process_uuids cl w : w_uuids (Process cl w).2 = w_uuids w.
Proof.
  pose proof inert_uuids. change (same w_uuids w (Process cl w).2).
  revert w. change (within (same w_uuids) (Process cl)).
  destruct (decide (Cmd cl ∈ identity_commands)).
  - apply within_Process_identity; intros; first [done | apply within_uuids_upd | by intros w].
  - apply within_Process; intros; first [done | apply within_uuids_upd].
Qed.

Lemma Process_ident cl q w :
  q ≠ cl_client cl ∨ Cmd cl ∉ identity_commands →
  ident_at q (Process cl w).2 = ident_at q w.
Proof.
  intros H. pose proof (inert_ident q). change (same (ident_at q) w (Process cl w).2).
  revert w. change (within (same (ident_at q)) (Process cl)).
  destruct (decide (Cmd cl ∈ identity_commands)).
  - destruct H as [Hne|]; [|done].
    apply within_Process_identity; intros;
      first [done | apply within_ident_upd; by auto | by intros w].
  - apply within_Process; intros; first [done | apply within_ident_upd; by auto].
Qed.

Lemma ident_bits q w w' :
  ident_at q w' = ident_at q w → client_at q w' = client_at q w ∧ server_at q w' = server_at q w.
Proof.
  unfold ident_at, client_at, server_at, IsClient, IsServer, ident.
  destruct (w_clients w' !! q), (w_clients w !! q); simpl; try done. by intros [= -> _ _ _].
Qed.

Lemma as_server_IsClient c : IsClient (as_server c) = IsClient c.
Proof. unfold IsClient, as_server. simpl. by rewrite Z.land_lor_distr_l, Z.lor_0_r. Qed.

Lemma as_client_IsServer c : IsServer (as_client c) = IsServer c.
Proof. unfold IsServer, as_client. simpl. by rewrite Z.land_lor_distr_l, Z.lor_0_r. Qed.

(** [find_token] finds what is on record. *)
Lemma find_token_run c q pr w :
  ∃ o, find_token c q pr w = (Ret o, after_one (C c) q pr w)
       ∧ (is_Some o ↔ on_record w c q pr).
Proof.
  unfold find_token, on_record. mstep (findOne_run (C c) q pr w). mred.
  destruct (mgo_one _ _ _ _).2 as [e|v].
  { exists None. split; [done|]. split; [by intros []|by intros (? & ? & _)]. }
  destruct (decide (v = VNil)) as [->|Hv].
  { exists None. split; [done|]. split; [by intros []|by intros (? & [= <-] & ?)]. }
  exists (Some v). split; [by destruct v|]. split; [by exists v|by eexists].
Qed.

(** Updates of any connection that keep one of the two bits. *)
Lemma within_client_upd q p f :
  (∀ c, IsClient (f c) = IsClient c) → within (same (client_at q)) (upd_client p f).
Proof.
  intros H. apply within_upd_client; [apply _|]. intros w c Hc. unfold same, client_at. simpl.
  rewrite lookup_insert. case_decide; [subst; by rewrite Hc|done].
Qed.

Lemma within_server_upd q p f :
  (∀ c, IsServer (f c) = IsServer c) → within (same (server_at q)) (upd_client p f).
Proof.
  intros H. apply within_upd_client; [apply _|]. intros w c Hc. unfold same, server_at. simpl.
  rewrite lookup_insert. case_decide; [subst; by rewrite Hc|done].
Qed.

Lemma AUTH_SERVER_client_at q p P : within (same (client_at q)) (do_AUTH_SERVER p P).
Proof.
  assert (Inert (same (client_at q))) by (by apply inert_same).
  pose proof (within_client_upd q p as_server as_server_IsClient).
  unfold do_AUTH_SERVER, SetServer. frame.
Qed.

Lemma AUTH_CLIENT_server_at q p P : within (same (server_at q)) (do_AUTH_CLIENT p P).
Proof.
  assert (Inert (same (server_at q))) by (by apply inert_same).
  pose proof (within_server_upd q p as_client as_client_IsServer).
  assert (∀ t, within (same (server_at q)) (upd_client p (with_tokenInfo t)))
    by (intros; by apply within_server_upd).
  unfold do_AUTH_CLIENT, SetClient, initToken, failed, reply. frame.
Qed.

Lemma SETUUID_bits q p P :
  within (same (client_at q)) (do_SETUUID p P) ∧ within (same (server_at q)) (do_SETUUID p P).
Proof.
  assert (Inert (same (client_at q))) by (by apply inert_same).
  assert (Inert (same (server_at q))) by (by apply inert_same).
  assert (∀ u, within (same (client_at q)) (upd_client p (with_uuid u)))
    by (intros; by apply within_client_upd).
  assert (∀ u, within (same (server_at q)) (upd_client p (with_uuid u)))
    by (intros; by apply within_server_upd).
  assert (∀ t, within (same (client_at q)) (spawn t)) by (by intros t w).
  assert (∀ t, within (same (server_at q)) (spawn t)) by (by intros t w).
  unfold do_SETUUID, success, lacked, reply. split; frame.
Qed.

Definition client_token_fields : value := VDoc [("_id", VInt 0); ("tk", VInt 1)].
Definition first_word (P : string) : string := default "" (head (Split space P)).

Lemma AUTH_CLIENT_off_record p P w :
  ¬ on_record w "client_token" (token_query (first_word P)) client_token_fields →
  w_clients (do_AUTH_CLIENT p P w).2 = w_clients w.
Proof.
  unfold do_AUTH_CLIENT, first_word. destruct (Split space P) as [|p0 ps]; [done|]. simpl.
  intros Hn. unfold authClient.
  destruct (find_token_run "client_token" (token_query p0) client_token_fields w)
    as (o & Hrun & Ho).
  unfold token_query, key_query, client_token_fields in Hrun. unfold mbind, M_bind.
  rewrite Hrun. destruct o; [|done]. destruct Hn. apply Ho. eauto.
Qed.

Lemma AUTH_SERVER_off_record p P w :
  ¬ on_record w "appkey" (key_query P) VNil →
  w_clients (do_AUTH_SERVER p P w).2 = w_clients w.
Proof.
  intros Hn. unfold do_AUTH_SERVER. destruct (String.eqb P ""); [done|]. unfold authServer.
  destruct (find_token_run "appkey" (key_query P) VNil w) as (o & Hrun & Ho).
  unfold token_query, key_query, client_token_fields in Hrun. unfold mbind, M_bind.
  rewrite Hrun. destruct o; [|done]. destruct Hn. apply Ho. eauto.
Qed.

(** Fewer words than a command needs. *)
Lemma few_words P n k :
  (length (Split space P) < n ≤ k)%nat → (length (SplitN space P k) < n)%nat.
Proof. destruct k as [|k]; [lia|]. rewrite SplitN_Split_length. lia. Qed.

(** ** Properties *)

(** (C14) A command acts for its own connection only: whatever a connection sends,
    no other connection changes identity (authentication bits, user id, token,
    state) and the registry of users is not touched; and only [auth_client],
    [auth_server] and [setuuid] change the identity of the connection itself. *)
Theorem Process_isolation (cl : Cmdline) (w : World) :
  w_uuids (Process cl w).2 = w_uuids w
  ∧ (∀ q, q ≠ cl_client cl → ident_at q (Process cl w).2 = ident_at q w)
  ∧ (Cmd cl ∉ ["auth_client"; "auth_server"; "setuuid"] →
     ident_at (cl_client cl) (Process cl w).2 = ident_at (cl_client cl) w).
Proof.
  split_and!; [apply Process_uuids|intros q Hq; apply Process_ident; by left|].
  intros Hx. apply Process_ident. by right.
Qed.

(** (C13) No escalation: a connection that becomes a client by running a command
    has sent [auth_client] itself, and the database holds the token it named;
    one that becomes a server has sent [auth_server] itself, and the database
    holds the application key it named. *)
Theorem Process_no_escalation (cl : Cmdline) (q : ptr) (w : World) :
  let w' := (Process cl w).2 in
  (client_at q w = false → client_at q w' = true →
     q = cl_client cl ∧ Cmd cl = "auth_client"
     ∧ on_record w "client_token" (token_query (first_word (Params cl))) client_token_fields)
  ∧ (server_at q w = false → server_at q w' = true →
     q = cl_client cl ∧ Cmd cl = "auth_server"
     ∧ on_record w "appkey" (key_query (Params cl)) VNil).
Proof.
  intros w'. subst w'.
  destruct (decide (q ≠ cl_client cl ∨ Cmd cl ∉ identity_commands)) as [Ho|Ho].
  { destruct (ident_bits _ _ _ (Process_ident cl q w Ho)) as [-> ->]. split; congruence. }
  assert (q = cl_client cl) as -> by (apply dec_stable; tauto).
  assert (Cmd cl ∈ identity_commands) as Hx by (apply dec_stable; tauto).
  destruct cl as [cmd P P2 p]. simpl in *. unfold identity_commands in Hx.
  rewrite !elem_of_cons, elem_of_nil in Hx.
  destruct Hx as [->|[->|[->|[]]]]; cbn [Process find_handler].
  - change (Process _ w) with (do_AUTH_CLIENT p P w). split; intros H0 H1.
    + split_and!; [done..|]. apply dec_stable. intros Hn.
      unfold client_at in *. rewrite AUTH_CLIENT_off_record in H1 by done. congruence.
    + rewrite (AUTH_CLIENT_server_at p p P w) in H1. congruence.
  - change (Process _ w) with (do_AUTH_SERVER p P w). split; intros H0 H1.
    + rewrite (AUTH_SERVER_client_at p p P w) in H1. congruence.
    + split_and!; [done..|]. apply dec_stable. intros Hn.
      unfold server_at in *. rewrite AUTH_SERVER_off_record in H1 by done. congruence.
  - change (Process _ w) with (do_SETUUID p P w). destruct (SETUUID_bits p p P) as [Hc Hs].
    split; intros H0 H1; [rewrite (Hc w) in H1|rewrite (Hs w) in H1]; congruence.
Qed.

(** Commands with too few words are refused before anything happens: each of
    these commands answers code 202 and leaves the whole server as it was. *)
Theorem Process_arity (cmd P : string) (P2 : list byte) (p : ptr) (n : nat) (w : World)
    (Hn : (cmd, n) ∈ [("sendmsg", 4); ("ack", 4); ("pub", 3); ("retract_msg", 3); ("pnicr", 3);
                      ("subs", 3); ("unsubs", 2); ("add_into_room", 2); ("his", 2);
                      ("setuuid", 2)]%nat)
    (Hw : (length (Split space P) < n)%nat) :
  ∃ t, Process (mkCmdline cmd P P2 p) w = (Ret ("202 " +:+ t, None), w).
Proof.
  pose proof (few_words P n) as Hf.
  repeat (apply elem_of_cons in Hn as [[= -> ->]|Hn]); [..|by apply not_elem_of_nil in Hn].
  - change (Process _ w) with (do_SENDMSG p P w). unfold do_SENDMSG. specialize (Hf 4%nat).
    destruct (SplitN space P 4) as [|?[|?[|?[|??]]]]; simpl in *; try lia; by eexists.
  - change (Process _ w) with (do_ACK_MSG p P w). unfold do_ACK_MSG. specialize (Hf 4%nat).
    destruct (SplitN space P 4) as [|?[|?[|?[|??]]]]; simpl in *; try lia; by eexists.
  - change (Process _ w) with (do_PUBLISH p P w). unfold do_PUBLISH. specialize (Hf 3%nat).
    destruct (SplitN space P 3) as [|?[|?[|??]]]; simpl in *; try lia; by eexists.
  - change (Process _ w) with (do_RETRACT_MESSAGE p P w). unfold do_RETRACT_MESSAGE.
    specialize (Hf 3%nat). destruct (String.eqb P ""); [by eexists|].
    destruct (SplitN space P 3) as [|?[|?[|??]]]; simpl in *; try lia; by eexists.
  - change (Process _ w) with (do_PUBLISH_NOTIFICATION_IN_CHAT_ROOM p P w).
    unfold do_PUBLISH_NOTIFICATION_IN_CHAT_ROOM. specialize (Hf 3%nat).
    destruct (SplitN space P 3) as [|?[|?[|??]]]; simpl in *; try lia; by eexists.
  - change (Process _ w) with (do_SUBS p P w). unfold do_SUBS.
    destruct (Split space P) as [|?[|?[|??]]]; simpl in *; try lia; by eexists.
  - change (Process _ w) with (do_UNSUBS p P w). unfold do_UNSUBS.
    destruct (Split space P) as [|?[|??]]; simpl in *; try lia; by eexists.
  - change (Process _ w) with (do_ADD_USER_INTO_ROOM p P w). unfold do_ADD_USER_INTO_ROOM.
    destruct (Split space P) as [|?[|??]]; simpl in *; try lia; by eexists.
  - change (Process _ w) with (do_HISTORY p P w). unfold do_HISTORY.
    destruct (Split space P) as [|?[|??]]; simpl in *; try lia; by eexists.
  - change (Process _ w) with (do_SETUUID p P w). unfold do_SETUUID.
    destruct (Split space P) as [|?[|??]]; simpl in *; try lia; by eexists.
Qed.

(** [up_ad_pushId] and [set_notify] have no such check: with parameters that
    contain no blank they index out of range, and the server panics. *)
Theorem push_settings_panic (cmd P : string) (P2 : list byte) (p : ptr) (w : World)
    (Hc : cmd ∈ ["up_ad_pushId"; "set_notify"]) (HP : occurs space P = false) :
  Process (mkCmdline cmd P P2 p) w = (Panic "index out of range", w).
Proof.
  repeat (apply elem_of_cons in Hc as [->|Hc]); [..|by apply not_elem_of_nil in Hc].
  - change (do_UPDATE_OR_ADD_PUSH_ID p P w = (Panic "index out of range", w)).
    unfold do_UPDATE_OR_ADD_PUSH_ID. by rewrite Split_noocc.
  - change (do_SET_OFF_NOTIFY p P w = (Panic "index out of range", w)).
    unfold do_SET_OFF_NOTIFY. by rewrite Split_noocc.
Qed.

(** [create_room] never reports success: after creating the room, the loop
    over the other users returns a failure at its first iteration, and when
    that user did join there is no error to report and the server panics. *)
Theorem CREATEROOM_never_succeeds (p : ptr) (P : string) (w : World) :
  match (do_CREATEROOM p P w).1 with
  | Ret r => ∃ e, r = ("400 " +:+ Error e, None)
  | Panic _ | Block => True
  end.
Proof.
  unfold do_CREATEROOM. destruct (Split space P) as [|u1 us] eqn:E.
  { by destruct (Split_nonempty space P). }
  unfold mbind, M_bind. destruct (my_uuid p w) as [[u|?|] w1]; try done.
  destruct (createRoom _ _ w1) as [[[e|]|?|] w2]; try done; [by exists e|].
  cbn [loop_ret]. unfold mbind, M_bind.
  destruct (joinRoom _ _ w2) as [[[e|]|?|] w3]; try done. cbn. by exists e.
Qed.

(** What one [sendmsg] from user [u] says. *)
Definition sendmsg_params (flag ch : string) (id : Z) (msg : string) : string :=
  spaced [flag; ch; fmt_d id; msg].
Definition sent_query (u ch : string) (id : Z) : value :=
  VDoc [("channel", VStr ch); ("uuid", VStr u); ("msgid", VInt64 id)].

Lemma SENDMSG_words flag ch id msg :
  occurs space flag = false → occurs space ch = false →
  SplitN space (sendmsg_params flag ch id msg) 4 = [flag; ch; fmt_d id; msg].
Proof.
  intros Hf Hch. unfold sendmsg_params, spaced, Join.
  repeat (change (SplitN space (?a +:+ " " +:+ ?x) ?n) with (SplitN space (a +:+ String space x) n);
          rewrite SplitN_app by auto using occurs_space_fmt_d). done.
Qed.

(** Sending again is idempotent: a message flagged as a resend that the
    store already holds under the same channel, author and id is acknowledged
    and has no effect but a database query and a clock reading; one the store
    does not hold is treated exactly as a message sent for the first time. *)
Theorem SENDMSG_resend (p : ptr) (ch msg : string) (id : Z) (c : Client) (w : World)
    (Hch : occurs space ch = false) (Hid : is_int64 id = true)
    (Hc : w_clients w !! p = Some c) :
  let q := sent_query (uuid c) ch id in
  let w1 := after_one (C "msg_log") q VNil w in
  do_SENDMSG p (sendmsg_params "Y" ch id msg) w =
    match (mgo_one (b_db (w_base w)) (C "msg_log") q VNil).2 with
    | inr _ => (Ret ("200 " +:+ spaced [fmt_d id; fmt_d (UnixNano (b_tick (w_base w)))], None),
                tick w1)
    | inl _ => do_SENDMSG p (sendmsg_params "N" ch id msg) w1
    end.
Proof.
  intros q w1. unfold do_SENDMSG. rewrite !SENDMSG_words by done.
  rewrite ParseInt64_fmt, Hid. unfold my_uuid, find_in, mbind, M_bind.
  rewrite (get_client_run p c w Hc). cbn [String.eqb Ascii.eqb Bool.eqb mret M_ret].
  rewrite (get_client_run p c w1 Hc). cbn [mret M_ret].
  change (VDoc _) with q. rewrite findOne_run. fold w1.
  destruct (mgo_one _ _ q VNil).2; [done|]. cbn [mret M_ret]. by rewrite now_UnixNano_run.
Qed.
End commands.

Import Ref.
#[local] Existing Instance example_conf.

Lemma Process_isolation_witness :
  ident_at 2 (Process (mkCmdline "setuuid" "x u2" [] 1) example_world).2
  = ident_at 2 example_world.
Proof.
  apply (Process_isolation (CF := example_conf) (mkCmdline "setuuid" "x u2" [] 1) example_world).
  discriminate.
Defined.

(** Connection 3 is new; the store holds the token "tk". *)
Definition example_tokens : World (EX := ref_externals) (NT := ref_net) :=
  set_base (mkBase (MG := ref_mongo)
              ({[ "client_token" := [VDoc [("uuid", VStr ""); ("tk", VStr "tk")]] ]} : store) 0)
    (set_clients (<[3%nat := NewClient]> (w_clients example_world)) example_world).

Lemma Process_no_escalation_witness :
  Cmd (mkCmdline "auth_client" "tk" [] 3) = "auth_client"
  ∧ on_record example_tokens "client_token" (token_query "tk") client_token_fields.
Proof.
  apply (proj1 (Process_no_escalation (CF := example_conf) (mkCmdline "auth_client" "tk" [] 3) 3
    example_tokens)); vm_compute; reflexivity.
Defined.

Lemma Process_arity_witness :
  ∃ t, Process (mkCmdline "sendmsg" "N room 7" [] 1) example_world
       = (Ret ("202 " +:+ t, None), example_world).
Proof.
  apply (Process_arity (CF := example_conf) "sendmsg" "N room 7" [] 1 4 example_world);
    [left | vm_compute; lia].
Defined.

Lemma push_settings_panic_witness :
  Process (mkCmdline "set_notify" "u1" [] 1) example_world
  = (Panic "index out of range", example_world).
Proof.
  apply (push_settings_panic (CF := example_conf) "set_notify" "u1" [] 1 example_world);
    [right; left | reflexivity].
Defined.

Lemma SENDMSG_resend_witness :
  let q := sent_query (uuid (example_client "u1")) "room" 7 in
  do_SENDMSG 1 (sendmsg_params "Y" "room" 7 "hi") example_world
  = do_SENDMSG 1 (sendmsg_params "N" "room" 7 "hi") (after_one (C "msg_log") q VNil example_world).
Proof.
  intros q.
  assert ((mgo_one (b_db (w_base example_world)) (C "msg_log") q VNil).2 = inl ErrNotFound) as E
    by (vm_compute; reflexivity).
  rewrite (SENDMSG_resend (CF := example_conf) 1 "room" "hi" 7 (example_client "u1")
    example_world eq_refl eq_refl eq_refl). fold q. rewrite E. reflexivity.
Defined.
