(* ===== verification/MsgLog.v ===== *)
(** * The message log (engine/storage, the history commands)

    What the storage goroutines write is what [history] and [offline_msg] read.
    [LogDb] states what MongoDB documents about the requests on [msg_log] and on
    the time stamps of [user_info]; over it the Mongo driver refines a list of
    messages, and a user's time stamps decide which of them are still due. *)
From S2P Require Import Prelude GoStrings Wire Deps RefDeps Config Base UserIdCache Storage Router.
From S2P Require Import World PubSub Client Rooms Auth Mail Commands.

Local Open Scope string_scope.
Local Open Scope list_scope.
Local Open Scope Z_scope.

(** ** The requests *)
Definition ml : coll := C "msg_log".
Definition no_id : value := VDoc [("_id", VInt 0)].
Definition history_query (ch : string) (ts : Z) : value :=
  VDoc [("ts", VDoc [("$gt", VInt64 ts)]); ("channel", VStr ch)].
Definition offline_query (u ch : string) (ts : Z) : value :=
  VDoc [("ts", VDoc [("$gt", VInt64 ts)]); ("channel", VStr ch); ("uuid", VDoc [("$ne", VStr u)])].
Definition ack_query (u ch : string) (ts : Z) : value :=
  VDoc [("_id", VStr u); (channelKey ch, VDoc [("$lt", VInt64 ts)])].
Definition retract_query (ch u : string) (id : Z) : value :=
  VDoc [("channel", VStr ch); ("uuid", VStr u); ("msgid", VInt64 id)].
Definition set_stat (ch : string) (ts : Z) : value :=
  VDoc [("$set", VDoc [(channelKey ch, VInt64 ts)])].
Definition stat_fields : value := VDoc [("_id", VInt 0); ("channel_stat", VInt 1)].
Definition stat_doc (stats : list (string * Z)) : value :=
  VDoc [("channel_stat", VDoc ((λ x, (x.1, VInt64 x.2)) <$> stats))].

(** A channel name is put into a field path, [channel_stat.<channel>]: MongoDB
    takes it for one field when it has no dot, and refuses some names. *)
Definition plain (ch : string) : Prop :=
  ch ≠ "" ∧ String.prefix "$" ch = false ∧ occurs "."%char ch = false
  ∧ occurs Ascii.zero ch = false.

(** ** The documents of [msg_log]

    Messages of users, written by the storage goroutines, and notifications,
    written by [pub_in_room]; only the former have an author. *)
Inductive entry : Type :=
| LMsg (m : MsgTuple)
| LNotice (ch msg : string) (ts mtype : Z).

Definition e_doc (e : entry) : value :=
  match e with
  | LMsg m => msg_doc m
  | LNotice ch msg ts mtype =>
      VDoc [("channel", VStr ch); ("msg", VStr msg); ("ts", VInt64 ts); ("type", VInt mtype)]
  end.
Definition e_channel (e : entry) : string :=
  match e with LMsg m => m_Channel m | LNotice ch _ _ _ => ch end.
Definition e_ts (e : entry) : Z := match e with LMsg m => m_Ts m | LNotice _ _ ts _ => ts end.
Definition e_uuid (e : entry) : option string :=
  match e with LMsg m => Some (m_Uuid m) | LNotice _ _ _ _ => None end.

(** The entries that messages make. *)
Definition entries (ms : list MsgTuple) : list entry := LMsg <$> ms.

#[export] Instance e_doc_inj : Inj (=) (=) e_doc.
Proof. intros [[]|] [[]|] H; unfold e_doc, msg_doc in H; simpl in H; by simplify_eq. Qed.

(** The entries of a channel newer than a time stamp, and not written by a user. *)
Definition newer (ch : string) (ts : Z) (l : list entry) : list entry :=
  filter (λ e, e_channel e = ch ∧ ts < e_ts e) l.
Definition not_by (u : string) (l : list entry) : list entry :=
  filter (λ e, e_uuid e ≠ Some u) l.

Lemma elem_of_newer e ch ts l : e ∈ newer ch ts l ↔ e ∈ l ∧ e_channel e = ch ∧ ts < e_ts e.
Proof. unfold newer. rewrite list_elem_of_filter. tauto. Qed.

Lemma elem_of_not_by e u l : e ∈ not_by u l ↔ e ∈ l ∧ e_uuid e ≠ Some u.
Proof. unfold not_by. rewrite list_elem_of_filter. tauto. Qed.

(** ** What MongoDB promises

    [log_of d] lists [msg_log]; [stat_of d u ch] is the time stamp of user [u]
    for channel [ch], once there is one. *)
Class LogDb `{Mongo} : Type := {
  log_of : db → list entry;
  stat_of : db → string → string → option Z
}.

Definition same_stats `{LogDb} (d d' : db) : Prop :=
  ∀ u ch, stat_of d' u ch = stat_of d u ch.

(** A request that only reads. *)
Definition unchanged `{LogDb} (d d' : db) : Prop := log_of d' = log_of d ∧ same_stats d d'.

(** The order in which a query without a sort yields documents is not
    specified. *)
Class LogDbLaws `{LogDb} : Prop := {
  ld_insert d es d' :
    mgo_insert d ml (e_doc <$> es) = (d', None) → log_of d' = log_of d ++ es ∧ same_stats d d';
  ld_remove d ch u id :
    let '(d', err) := mgo_remove d ml (retract_query ch u id) in
    same_stats d d'
    ∧ match err with
      | None => ∃ l1 m l2, log_of d = l1 ++ LMsg m :: l2 ∧ log_of d' = l1 ++ l2
                  ∧ m_Channel m = ch ∧ m_Uuid m = u ∧ m_MsgId m = id
      | Some _ => log_of d' = log_of d
      end;
  ld_history d ch ts :
    let '(d', (docs, err)) := mgo_all d ml (history_query ch ts) no_id in
    unchanged d d' ∧ (err = None → docs ≡ₚ e_doc <$> newer ch ts (log_of d));
  ld_offline d u ch ts :
    let '(d', (docs, err)) := mgo_all d ml (offline_query u ch ts) no_id in
    unchanged d d' ∧ (err = None → docs ≡ₚ e_doc <$> not_by u (newer ch ts (log_of d)));
  ld_stats d u :
    let '(d', r) := mgo_one d (C "user_info") (by_id u) stat_fields in
    unchanged d d'
    ∧ ∀ stats, r = inr (stat_doc stats) → ∀ ch ts, (ch, ts) ∈ stats ↔ stat_of d u ch = Some ts;
  ld_members d q prj : unchanged d (mgo_one d (C "channel_uuids") q prj).1;
  ld_ack d u ch ts :
    plain ch →
    let '(d', err) := mgo_update d (C "user_info") (ack_query u ch ts) (set_stat ch ts) in
    log_of d' = log_of d
    ∧ (∀ u' ch', (u', ch') ≠ (u, ch) → stat_of d' u' ch' = stat_of d u' ch')
    ∧ match err with
      | None => ∃ t, stat_of d u ch = Some t ∧ t < ts ∧ stat_of d' u ch = Some ts
      | Some ErrNotFound =>
          stat_of d' u ch = stat_of d u ch ∧ ∀ t, stat_of d u ch = Some t → ts ≤ t
      | Some _ => stat_of d' u ch = stat_of d u ch
      end
}.

(** A database that answers every request: the server does not look at the errors
    of these. *)
Class Reliable `{LogDb} : Prop := {
  rel_insert d es : (mgo_insert d ml (e_doc <$> es)).2 = None;
  rel_history d ch ts : (mgo_all d ml (history_query ch ts) no_id).2.2 = None;
  rel_offline d u ch ts : (mgo_all d ml (offline_query u ch ts) no_id).2.2 = None;
  rel_ack d u ch ts e :
    plain ch →
    (mgo_update d (C "user_info") (ack_query u ch ts) (set_stat ch ts)).2 = Some e → e = ErrNotFound
}.

Section log.
  Context {EX : Externals} {NT : Net} {CF : Global}.
  Context {LD : LogDb} {LW : LogDbLaws} {RL : Reliable}.

(** ** The storage goroutines write the log *)
Lemma store_log mt b : log_of (b_db (mongo_store mt b).2) = log_of (b_db b) ++ [LMsg mt].
Proof.
  unfold mongo_store, insert_, on_db. pose proof (rel_insert (b_db b) [LMsg mt]) as Hr.
  cbn [fmap list_fmap e_doc] in Hr. fold ml.
  destruct (mgo_insert (b_db b) ml [msg_doc mt]) as [d' e] eqn:E. simpl in *. subst e.
  by apply (ld_insert (b_db b) [LMsg mt]) in E as [-> _].
Qed.

Lemma storeMulti_log mts b :
  log_of (b_db (mongo_storeMulti mts b).2) = log_of (b_db b) ++ (LMsg <$> mts).
Proof.
  unfold mongo_storeMulti, insert_, on_db. fold ml.
  pose proof (rel_insert (b_db b) (LMsg <$> mts)) as Hr.
  pose proof (ld_insert (b_db b) (LMsg <$> mts)) as Hl.
  rewrite <- list_fmap_compose in Hr, Hl. change (e_doc ∘ LMsg) with msg_doc in Hr, Hl.
  destruct (mgo_insert (b_db b) ml (msg_doc <$> mts)) as [d' e]. simpl in *. subst e.
  by destruct (Hl d' eq_refl) as [-> _].
Qed.

(** What has been handed to the driver is in the log. *)
Definition logged (l0 : list entry) (s : serv) : Prop :=
  log_of (b_db (sv_base s)) = l0 ++ (LMsg <$> handed s).

Lemma logged_step policy l0 s s' :
  logged l0 s → serv_step policy newMongodbDriver s s' → logged l0 s'.
Proof.
  unfold logged. intros H [Hs|Hs]; destruct Hs; simpl in *; try done.
  - rewrite store_log, H, fmap_app, app_assoc. done.
  - rewrite storeMulti_log, H, fmap_app, app_assoc. done.
Qed.

Lemma logged_rtc policy l0 s s' :
  logged l0 s → rtc (serv_step policy newMongodbDriver) s s' → logged l0 s'.
Proof. intros H Hr. induction Hr; eauto using logged_step. Qed.

Lemma logged_init cfg b : logged (log_of (b_db b)) (Init cfg b).
Proof. unfold logged. symmetry. apply app_nil_r. Qed.

(** ** The commands that read and change it *)
Definition w_db (w : World) : db := b_db (w_base w).

Lemma unchanged_trans d1 d2 d3 : unchanged d1 d2 → unchanged d2 d3 → unchanged d1 d3.
Proof. intros [H1 H2] [H3 H4]. split; [congruence|]. intros u ch. by rewrite H4. Qed.

(** The contribution of one channel to the off-line messages. *)
Definition due (u : string) (l : list entry) (x : string * Z) (data : list (string * value)) : Prop :=
  ∃ docs, docs ≡ₚ e_doc <$> not_by u (newer x.1 x.2 l)
          ∧ data = match docs with [] => [] | _ => [(x.1, VArr docs)] end.

Lemma offline_channel_run u x w :
  ∃ data w', offline_channel u (x.1, VInt64 x.2) w = (Ret data, w')
             ∧ unchanged (w_db w) (w_db w') ∧ due u (log_of (w_db w)) x data.
Proof.
  destruct x as [ch ts]. unfold offline_channel, findAll. cbn [fst snd].
  mstep (eq_refl (Ret ts, w)). fold ml no_id (offline_query u ch ts).
  rewrite (bind_ret_run _ _ _ _ _ (onBase_req _ _)). cbv beta.
  pose proof (ld_offline (w_db w) u ch ts) as Hl. pose proof (rel_offline (w_db w) u ch ts) as Hr.
  unfold w_db in *. destruct (mgo_all (b_db (w_base w)) ml (offline_query u ch ts) no_id)
    as [d' [docs e]]. simpl in Hr. subst e. destruct Hl as [Hu Hdocs]. cbn [fst snd].
  eexists _, _. split; [reflexivity|]. split; [exact Hu|]. exists docs. split; [by apply Hdocs|].
  by destruct docs.
Qed.

Lemma offline_channels_run u l stats w :
  log_of (w_db w) = l →
  ∃ datas w', collectM (offline_channel u) ((λ x, (x.1, VInt64 x.2)) <$> stats) w = (Ret datas, w')
              ∧ unchanged (w_db w) (w_db w') ∧ Forall2 (due u l) stats datas.
Proof.
  revert w. induction stats as [|x stats IH]; intros w Hl; cbn [collectM fmap list_fmap].
  { exists [], w. by repeat split. }
  destruct (offline_channel_run u x w) as (data & w1 & Hrun & Hu1 & Hd). mstep Hrun.
  destruct (IH w1) as (datas & w2 & Hrun2 & Hu2 & Hds); [by rewrite (proj1 Hu1)|].
  mstep Hrun2. exists (data :: datas), w2. split; [done|].
  split; [by apply (unchanged_trans _ (w_db w1))|]. constructor; [by rewrite <- Hl|done].
Qed.

(** An entry is offered exactly when it is due for its channel. *)
Lemma due_entries u l stats datas e :
  Forall2 (due u l) stats datas →
  (∃ docs, (e_channel e, VArr docs) ∈ concat datas ∧ e_doc e ∈ docs)
  ↔ e ∈ l ∧ e_uuid e ≠ Some u ∧ ∃ t, (e_channel e, t) ∈ stats ∧ t < e_ts e.
Proof.
  intros Hall. split.
  - intros (docs & (data & Hd & Hin)%elem_of_concat & He).
    destruct (Forall2_elem_r _ _ _ _ Hall Hd) as ([ch ts] & Hs & docs' & Hperm & ->).
    assert (e_channel e = ch ∧ docs = docs') as [<- ->].
    { destruct docs'; [by apply not_elem_of_nil in Hin|].
      apply list_elem_of_singleton in Hin. by injection Hin as -> ->. }
    rewrite Hperm in He. apply list_elem_of_fmap in He as (e' & He' & Hin').
    apply (inj e_doc) in He' as <-. apply elem_of_not_by in Hin' as [Hn Hu].
    apply elem_of_newer in Hn as (Hl & _ & Ht). eauto.
  - intros (Hl & Hu & t & Hs & Ht).
    destruct (Forall2_elem_l _ _ _ _ Hall Hs) as (data & Hd & docs & Hperm & ->). simpl in Hperm.
    assert (e_doc e ∈ docs) as He.
    { rewrite Hperm. apply list_elem_of_fmap_2, elem_of_not_by.
      split; [by apply elem_of_newer|done]. }
    exists docs. split; [|done]. apply elem_of_concat. eexists. split; [exact Hd|].
    destruct docs; [by apply not_elem_of_nil in He|by left].
Qed.

Lemma AckMsg_run p c id ts owner ch w :
  w_clients w !! p = Some c → plain ch →
  ∃ w', AckMsg p id ts owner ch w = (Ret tt, w')
    ∧ log_of (w_db w') = log_of (w_db w)
    ∧ ∀ u' ch', stat_of (w_db w') u' ch' =
        if decide ((u', ch') = (uuid c, ch)) then Z.max ts <$> stat_of (w_db w) u' ch'
        else stat_of (w_db w) u' ch'.
Proof.
  intros Hc Hplain. unfold AckMsg, update_. mstep (get_client_run p c w Hc).
  fold (ack_query (uuid c) ch ts) (set_stat ch ts).
  rewrite (bind_ret_run _ _ _ _ _ (onBase_req _ _)). eexists. split; [reflexivity|].
  pose proof (ld_ack (w_db w) (uuid c) ch ts Hplain) as Hl.
  pose proof (λ e, rel_ack (w_db w) (uuid c) ch ts e Hplain) as Hr. unfold w_db in *. simpl.
  destruct (mgo_update _ (C "user_info") (ack_query (uuid c) ch ts) (set_stat ch ts)) as [d' e].
  destruct Hl as (Hlog & Hother & He). split; [done|]. intros u' ch'.
  case_decide as Hd; [|by apply Hother]. injection Hd as -> ->. simpl in *.
  destruct e as [e|].
  - rewrite (Hr e eq_refl) in He. destruct He as [-> Hle].
    destruct (stat_of _ _ _) as [t|]; [|done]. simpl. f_equal. specialize (Hle t eq_refl). lia.
  - destruct He as (t & -> & Ht & ->). simpl. f_equal. lia.
Qed.

Lemma fetch_run ch ts w :
  ch ≠ "" →
  ∃ docs w', onBase (FetchHistory (Some newMongodbDriver) ch ts) w = (Ret (docs, None), w')
    ∧ docs ≡ₚ e_doc <$> newer ch ts (log_of (w_db w)) ∧ unchanged (w_db w) (w_db w').
Proof.
  intros Hch. unfold onBase, FetchHistory. mred. unfold mongo_fetchByChannelAndTs, findAll, on_db.
  destruct (String.eqb_spec ch ""); [done|]. fold ml no_id (history_query ch ts). pose proof (ld_history (w_db w) ch ts) as Hl.
  pose proof (rel_history (w_db w) ch ts) as Hr. unfold w_db in *. mred.
  destruct (mgo_all (b_db (w_base w)) ml (history_query ch ts) no_id) as [d' [docs e]].
  simpl in Hr. subst e. destruct Hl as [Hu Hdocs]. exists docs.
  destruct docs; eexists; (split; [reflexivity|split; [by apply Hdocs|exact Hu]]).
Qed.

(** ** Properties *)

(** (C18) The log is complete: whatever the producers and the two storage
    goroutines have done since start-up, over a database that answers its
    requests, [msg_log] holds what it held before followed by messages in the
    order in which they were enqueued, and the rest of them, still in order, is
    in flight. *)
Theorem pipeline_log (cfg : ConfigPushd) (b : Base) (s : serv)
    (Hr : rtc (serv_step (MsgFlushPolicy cfg) newMongodbDriver) (Init cfg b) s) :
  log_of (b_db (sv_base s)) ++ entries (in_flight s) = log_of (b_db b) ++ entries (sent s).
Proof.
  unfold entries.
  rewrite (logged_rtc _ _ _ _ (logged_init cfg b) Hr).
  destruct (all_inv_rtc _ _ _ _ _ Hr (all_inv_init cfg b)) as (_ & [Hs _] & _).
  by rewrite Hs, fmap_app, app_assoc.
Qed.

(** (C19) [history], as long as the database answers: for a channel and a time stamp
    that can be read, the reply carries exactly the entries of the log for the channel that are newer, and
    the log does not change. *)
Theorem HISTORY_spec (p : ptr) (P ch p1 : string) (rest : list string) (ts : Z) (w : World)
    (HP : Split space P = ch :: p1 :: rest) (Hts : ParseInt64 p1 = Some ts) (Hch : ch ≠ "")
    (Hd : w_driver w = Some newMongodbDriver) :
  ∃ docs w', do_HISTORY p P w =
      (Ret (fmt_d CODE_SUCCESS +:+ " " +:+ marshalled (VArr docs), None), w')
    ∧ docs ≡ₚ e_doc <$> newer ch ts (log_of (w_db w)) ∧ unchanged (w_db w) (w_db w').
Proof.
  unfold do_HISTORY. rewrite HP, Hts, (bind_ret_run (gets w_driver) _ w _ w eq_refl), Hd.
  destruct (fetch_run ch ts w Hch) as (docs & w' & Hrun & Hperm & Hu).
  unfold fullHistory. mstep Hrun. exists docs, w'. split; [|done]. by destruct docs.
Qed.

(** (C17) [offline_msg] offers exactly what is due, as long as the database answers
    its queries: for a user whose time stamps can be read, the reply lists, under its channel, every entry of the log that
    is newer than the user's time stamp for that channel and that the user did
    not write, and nothing else. *)
Theorem OFFLINE_MSG_spec (p : ptr) (P : string) (c : Client) (stats : list (string * Z))
    (w : World) (Hc : w_clients w !! p = Some c)
    (Hu : (mgo_one (w_db w) (C "user_info") (by_id (uuid c)) stat_fields).2
          = inr (stat_doc stats)) :
  ∃ data w', do_OFFLINE_MSG p P w =
      (Ret (match json_Marshal (VDoc data) with inl e => ("", Some e) | inr s => (s, None) end), w')
    ∧ unchanged (w_db w) (w_db w')
    ∧ ∀ e, (∃ docs, (e_channel e, VArr docs) ∈ data ∧ e_doc e ∈ docs)
           ↔ e ∈ log_of (w_db w) ∧ e_uuid e ≠ Some (uuid c)
             ∧ ∃ t, stat_of (w_db w) (uuid c) (e_channel e) = Some t ∧ t < e_ts e.
Proof.
  unfold do_OFFLINE_MSG, findOne. mstep (my_uuid_run p c w Hc). fold stat_fields.
  rewrite (bind_ret_run _ _ _ _ _ (onBase_req _ _)). cbv beta.
  pose proof (ld_stats (w_db w) (uuid c)) as Hl. unfold w_db in *.
  destruct (mgo_one (b_db (w_base w)) (C "user_info") (by_id (uuid c)) stat_fields) as [d' r].
  simpl in Hu. subst r. unfold stat_doc in *. destruct Hl as [Hun Hv]. pose proof (Hv stats eq_refl) as Hst.
  cbn [fst snd]. set (w1 := set_base _ w). set (sd := VDoc ((λ x, (x.1, VInt64 x.2)) <$> stats)).
  rewrite (bind_ret_run (doc_get (VDoc [("channel_stat", sd)]) "channel_stat") _ w1 sd w1 eq_refl).
  rewrite (bind_ret_run (as_doc sd) _ w1 _ w1 eq_refl).
  destruct (offline_channels_run (uuid c) (log_of (b_db (w_base w))) stats w1)
    as (datas & w2 & Hrun & Hun2 & Hall); [apply Hun|].
  mstep Hrun. exists (concat datas), w2. split; [by destruct (json_Marshal _)|].
  split; [by apply (unchanged_trans _ d')|]. intros e. rewrite (due_entries _ _ _ _ e Hall).
  by setoid_rewrite Hst.
Qed.

(** (C20) Acknowledging moves a time stamp forward only, as long as the database
    answers its requests: [ack_msg] sets the user's
    time stamp for the channel to the maximum of the old one and the given one,
    creates none, and touches neither another channel, nor another user, nor the
    log.  Late or repeated acknowledgements are harmless.  The channel's name has
    to be one field of the time stamps' document. *)
Theorem ACK_MSG_monotone (p : ptr) (P ch p1 p2 owner : string) (id ts : Z) (c : Client)
    (w : World) (Hc : w_clients w !! p = Some c)
    (HP : SplitN space P 4 = [ch; p1; p2; owner])
    (Hid : ParseInt64 p1 = Some id) (Hts : ParseInt64 p2 = Some ts) (Hch : plain ch) :
  ∃ w', do_ACK_MSG p P w = success w' ∧ log_of (w_db w') = log_of (w_db w)
    ∧ ∀ u' ch', stat_of (w_db w') u' ch' =
        if decide ((u', ch') = (uuid c, ch)) then Z.max ts <$> stat_of (w_db w) u' ch'
        else stat_of (w_db w) u' ch'.
Proof.
  unfold do_ACK_MSG. rewrite HP, Hid, Hts.
  destruct (AckMsg_run p c id ts owner ch w Hc Hch) as (w' & Hrun & Hrest). mstep Hrun.
  exists w'. split; [reflexivity|done].
Qed.

(** ** Retracting *)
Definition log_kept (w w' : World) : Prop := unchanged (w_db w) (w_db w').

#[local] Instance log_kept_preorder : PreOrder log_kept.
Proof. split; [by intros w|]. intros x y z. apply unchanged_trans. Qed.

Lemma kept_base w w' : w_base w' = w_base w → log_kept w w'.
Proof. intros E. unfold log_kept, w_db. by rewrite E. Qed.

Lemma Publish_kept ch msg u id b : within log_kept (Publish ch msg u id b).
Proof.
  assert (∀ A (m : M ChannelToUserIds A), within log_kept (onCache m))
    by (intros; apply within_onCache; intros st w; by apply kept_base).
  assert (∀ A (m : M (gochan MsgTuple) A), within log_kept (onQueue m))
    by (intros; apply within_onQueue; intros st w; by apply kept_base).
  assert (∀ A (m : M S2sProxy A), within log_kept (onProxy m))
    by (intros; apply within_onProxy; [apply _|intros st w; by apply kept_base]).
  assert (∀ t, within log_kept (spawn t)) by (intros t w; by apply kept_base).
  assert (within log_kept (onBase now_UnixNano)) by (intros w; done).
  assert (∀ q prj, within log_kept (onBase (findOne (C "channel_uuids") q prj))).
  { intros q prj w. unfold findOne. rewrite onBase_req. apply ld_members. }
  unfold Publish, PublishStrMsg, pushToNativeClient, fetchAllMatchUserIds, LoadUserIdsByChannel,
    LoadUserIdsFromDatabase, pushOne, GetClient, forwardToAllOtherServer, onForward, EnqueueMsg.
  frame.
Qed.

(** What a successful [retract_msg] goes on with. *)
Definition tell (ch msg u : string) (id : Z) : M World result :=
  _ ← Publish ch msg u id false; success.

Lemma tell_kept ch msg u id : within log_kept (tell ch msg u id).
Proof. apply within_bind; [apply _|apply Publish_kept|intros; by intros w]. Qed.

(** (C21) A user retracts own messages only: whatever the parameters of
    [retract_msg], at most one entry disappears from the log, it is a message
    that the caller wrote, in the named channel and with the named id, and no
    time stamp changes. *)
Theorem RETRACT_own (p : ptr) (P : string) (c : Client) (w : World)
    (Hc : w_clients w !! p = Some c) :
  let w' := (do_RETRACT_MESSAGE p P w).2 in
  same_stats (w_db w) (w_db w')
  ∧ (log_of (w_db w') = log_of (w_db w)
     ∨ ∃ l1 m l2 p1 p2,
         SplitN space P 3 = [m_Channel m; p1; p2] ∧ ParseInt64 p1 = Some (m_MsgId m)
         ∧ m_Uuid m = uuid c
         ∧ log_of (w_db w) = l1 ++ LMsg m :: l2 ∧ log_of (w_db w') = l1 ++ l2).
Proof.
  intros w'. subst w'. unfold do_RETRACT_MESSAGE.
  destruct (String.eqb P ""); [split; [by intros ? ?|by left]|].
  destruct (SplitN space P 3) as [|ch [|p1 [|p2 [|]]]] eqn:HP; try (split; [by intros ? ?|by left]).
  destruct (ParseInt64 p1) as [id|] eqn:Hid; [|split; [by intros ? ?|by left]].
  destruct (ParseInt64 p2) as [id2|]; [|split; [by intros ? ?|by left]].
  mstep (my_uuid_run p c w Hc). unfold remove_. fold ml (retract_query ch (uuid c) id).
  rewrite (bind_ret_run _ _ _ _ _ (onBase_req _ _)). cbv beta.
  pose proof (ld_remove (w_db w) ch (uuid c) id) as Hl. unfold w_db in Hl.
  destruct (mgo_remove (b_db (w_base w)) ml (retract_query ch (uuid c) id)) as [d' err].
  destruct Hl as [Hst Hl]. cbn [fst snd]. set (w1 := set_base _ w).
  destruct (tell_kept ch (spaced ["[del]"; uuid c; fmt_d id]) (uuid c) id2 w1) as [Hlog Hst'].
  unfold tell, w_db in *.
  destruct err as [[| |]|]; cbn [snd]; try (split; [exact Hst|left; exact Hl]);
    (split; [intros u' ch'; rewrite Hst'; apply Hst|]); rewrite Hlog; [left; exact Hl|right].
  destruct Hl as (l1 & m & l2 & El & El' & <- & Hu & <-). exists l1, m, l2, p1, p2. auto.
Qed.
End log.

(** ** A concrete log

    An implementation of the laws for the witnesses: the requests are recognised
    by their shape. *)
Module LogRef.

Record log_store : Type := mkLog { entries : list entry; stats : gmap string (gmap string Z) }.

Definition e_of (v : value) : option entry :=
  match v with
  | VDoc [(_, VStr ch); (_, VStr msg); (_, VInt64 ts); (_, VInt64 id); (_, VStr u)] =>
      Some (LMsg (mkMsg ch msg ts u id))
  | VDoc [(_, VStr ch); (_, VStr msg); (_, VInt64 ts); (_, VInt ty)] => Some (LNotice ch msg ts ty)
  | _ => None
  end.

Definition named (name : string) (c : coll) : bool := String.eqb (coll_name c) name.

Definition log_insert (s : log_store) (c : coll) (ds : list value) : log_store * option error :=
  if named "msg_log" c then (mkLog (entries s ++ omap e_of ds) (stats s), None) else (s, None).

Definition is_own (ch u : string) (id : Z) (e : entry) : bool :=
  match e with
  | LMsg m => String.eqb (m_Channel m) ch && String.eqb (m_Uuid m) u && (m_MsgId m =? id)
  | LNotice _ _ _ _ => false
  end.

Fixpoint retract (ch u : string) (id : Z) (l : list entry) : option (list entry) :=
  match l with
  | [] => None
  | e :: l' => if is_own ch u id e then Some l' else cons e <$> retract ch u id l'
  end.

Definition log_remove (s : log_store) (c : coll) (q : value) : log_store * option error :=
  match named "msg_log" c, q with
  | true, VDoc [(_, VStr ch); (_, VStr u); (_, VInt64 id)] =>
      match retract ch u id (entries s) with
      | Some l => (mkLog l (stats s), None)
      | None => (s, Some ErrNotFound)
      end
  | _, _ => (s, Some ErrNotFound)
  end.

Definition log_all (s : log_store) (c : coll) (q prj : value) : log_store * (list value * option error) :=
  match named "msg_log" c, q with
  | true, VDoc [(_, VDoc [(_, VInt64 ts)]); (_, VStr ch)] =>
      (s, (e_doc <$> newer ch ts (entries s), None))
  | true, VDoc [(_, VDoc [(_, VInt64 ts)]); (_, VStr ch); (_, VDoc [(_, VStr u)])] =>
      (s, (e_doc <$> not_by u (newer ch ts (entries s)), None))
  | _, _ => (s, ([], None))
  end.

Definition log_one (s : log_store) (c : coll) (q prj : value) : log_store * (error + value) :=
  match named "user_info" c, q with
  | true, VDoc [(_, VStr u)] =>
      match stats s !! u with
      | Some m => (s, inr (stat_doc (map_to_list m)))
      | None => (s, inl ErrNotFound)
      end
  | _, _ => (s, inl ErrNotFound)
  end.

Fixpoint sdrop (n : nat) (s : string) : string :=
  match n, s with S n, String _ s => sdrop n s | _, _ => s end.

Definition log_update (s : log_store) (c : coll) (q u : value) : log_store * option error :=
  match named "user_info" c, q, u with
  | true, VDoc [(_, VStr u); (key, _)], VDoc [(_, VDoc [(_, VInt64 ts)])] =>
      let ch := sdrop 13 key in
      let m := default ∅ (stats s !! u) in
      match m !! ch with
      | Some t => if decide (t < ts)
                  then (mkLog (entries s) (<[u := <[ch := ts]> m]> (stats s)), None)
                  else (s, Some ErrNotFound)
      | None => (s, Some ErrNotFound)
      end
  | _, _, _ => (s, Some ErrNotFound)
  end.

Definition log_mongo : Mongo := {|
  db := log_store;
  mgo_one := log_one;
  mgo_all := log_all;
  mgo_apply s c q u := (s, inl ErrNotFound);
  mgo_insert := log_insert;
  mgo_update := log_update;
  mgo_upsert s c q u := (s, None);
  mgo_remove := log_remove;
  mgo_bulk_update s c ps := (s, None);
  mgo_bulk_upsert s c ps := (s, None)
|}.

Definition log_externals : Externals := {|
  ext_mongo := log_mongo; ext_bson := Ref.ref_bson; ext_env := Ref.ref_env;
  ext_lru := Ref.ref_lru; ext_cmap := Ref.ref_cmap; ext_set := Ref.ref_set
|}.
#[local] Existing Instance log_externals.

#[export] Instance log_db : @LogDb log_mongo :=
  @Build_LogDb log_mongo entries (λ s u ch, stats s !! u ≫= lookup ch).

Lemma e_of_docs (es : list entry) : omap e_of (e_doc <$> es) = es.
Proof. induction es as [|e es IH]; [done|]. cbn. by destruct e as [[]|]; cbn; f_equal. Qed.

Lemma retract_spec ch u id l :
  match retract ch u id l with
  | Some l' => ∃ l1 m l2, l = l1 ++ LMsg m :: l2 ∧ l' = l1 ++ l2
                 ∧ m_Channel m = ch ∧ m_Uuid m = u ∧ m_MsgId m = id
  | None => True
  end.
Proof.
  induction l as [|e l IH]; simpl; [done|]. destruct (is_own ch u id e) eqn:E.
  - destruct e as [m|]; [|done]. simpl in E. apply andb_true_iff in E as [[E1 E2]%andb_true_iff E3].
    apply String.eqb_eq in E1, E2. apply Z.eqb_eq in E3. by exists [], m, l.
  - destruct (retract ch u id l); [|done]. simpl.
    destruct IH as (l1 & m & l2 & -> & -> & Hrest). by exists (e :: l1), m, l2.
Qed.

Lemma stat_default (m : gmap string (gmap string Z)) u ch :
  m !! u ≫= lookup ch = default ∅ (m !! u) !! ch.
Proof. by destruct (m !! u). Qed.

Lemma stat_set_ne (m : gmap string (gmap string Z)) u ch ts u' ch' :
  (u', ch') ≠ (u, ch) →
  <[u := <[ch := ts]> (default ∅ (m !! u))]> m !! u' ≫= lookup ch' = m !! u' ≫= lookup ch'.
Proof.
  intros Hne. rewrite !stat_default. destruct (decide (u' = u)) as [->|Hu].
  - rewrite lookup_insert_eq. simpl. rewrite lookup_insert_ne by congruence. done.
  - by rewrite lookup_insert_ne by congruence.
Qed.

#[local] Instance stat_pairs_inj :
  Inj (=) (=) (fmap (M := list) (λ x : string * Z, (x.1, VInt64 x.2))).
Proof. apply list_fmap_eq_inj. intros [] []. simpl. congruence. Qed.

#[export] Instance log_db_laws : @LogDbLaws log_mongo log_db.
Proof.
  split; simpl.
  - intros d es d' [= <-]. simpl. by rewrite e_of_docs.
  - intros d ch u id. unfold log_remove. simpl. pose proof (retract_spec ch u id (entries d)).
    by destruct (retract ch u id (entries d)).
  - intros d ch ts. done.
  - intros d u ch ts. done.
  - intros d u. unfold log_one. simpl. destruct (stats d !! u) as [m|] eqn:E; [|done].
    split; [done|]. intros l [= Hl] ch ts. simpl.
    rewrite <- elem_of_map_to_list. apply stat_pairs_inj in Hl as ->. done.
  - done.
  - intros d u ch ts _. unfold log_update. simpl. change ("" +:+ ch) with ch. rewrite stat_default.
    destruct (default ∅ (stats d !! u) !! ch) as [t|] eqn:E;
      [|simpl; rewrite stat_default; by split_and!].
    destruct (decide (t < ts)) as [Ht|Ht]; simpl.
    + split; [done|]. split; [intros; by apply stat_set_ne|]. exists t. split; [done|].
      rewrite lookup_insert_eq. simpl. by rewrite lookup_insert_eq.
    + rewrite stat_default. split_and!; [done|done|done|]. intros t' [= <-]. lia.
Qed.

#[export] Instance log_reliable : @Reliable log_mongo log_db.
Proof.
  split; simpl; try done. intros d u ch ts e _. unfold log_update. simpl.
  destruct (default ∅ (stats d !! u) !! _); [case_decide|]; simpl; congruence.
Qed.

(** Two channels; [u1] has read up to 5 in [room]. *)
Definition log_base : Base (MG := log_mongo) :=
  mkBase (MG := log_mongo)
    (mkLog [LMsg (mkMsg "room" "a" 4 "u2" 1); LMsg (mkMsg "room" "b" 6 "u2" 2);
            LMsg (mkMsg "room" "c" 7 "u1" 3); LNotice "room" "d" 8 1;
            LMsg (mkMsg "q" "e" 9 "u2" 4)] {[ "u1" := {[ "room" := 5 ]} ]}) 0.

#[export] Instance log_conf : Global := example_config 1 None.

Definition log_world : World (EX := log_externals) (NT := ref_net) :=
  mkWorld log_base {[ 1%nat := example_client "u1" ]} {[ "u1" := 1%nat ]} (newChannelToUserIds 10)
    (NewLruCache 10) None set_NewSet (mkchan 0 []) (Some newMongodbDriver) [] [].
End LogRef.

Import LogRef.
#[local] Existing Instance log_externals.

Lemma log_caller : w_clients log_world !! 1%nat = Some (example_client "u1").
Proof. reflexivity. Qed.

Lemma HISTORY_spec_witness :
  ∃ docs w', do_HISTORY 1 "room 5" log_world =
      (Ret ("200 " +:+ marshalled (VArr docs), None), w')
    ∧ docs ≡ₚ e_doc <$> [LMsg (mkMsg "room" "b" 6 "u2" 2); LMsg (mkMsg "room" "c" 7 "u1" 3);
                         LNotice "room" "d" 8 1].
Proof.
  destruct (HISTORY_spec 1 "room 5" "room" "5" [] 5 log_world eq_refl eq_refl
              ltac:(discriminate) eq_refl) as (docs & w' & Hrun & Hdocs & _).
  exists docs, w'. split; [exact Hrun|exact Hdocs].
Defined.

Lemma OFFLINE_MSG_spec_witness :
  ∃ data w', do_OFFLINE_MSG 1 "" log_world =
      (Ret (match json_Marshal (VDoc data) with inl e => ("", Some e) | inr s => (s, None) end), w')
    ∧ (∃ docs, ("room", VArr docs) ∈ data ∧ e_doc (LMsg (mkMsg "room" "b" 6 "u2" 2)) ∈ docs)
    ∧ ¬ (∃ docs, ("room", VArr docs) ∈ data ∧ e_doc (LMsg (mkMsg "room" "c" 7 "u1" 3)) ∈ docs).
Proof.
  destruct (OFFLINE_MSG_spec 1 "" (example_client "u1") [("room", 5)] log_world log_caller)
    as (data & w' & Hrun & _ & Hdata); [vm_compute; reflexivity|].
  exists data, w'. split; [exact Hrun|]. split.
  - apply (Hdata (LMsg (mkMsg "room" "b" 6 "u2" 2))).
    split; [right; left|]. split; [discriminate|]. exists 5. split; [reflexivity|simpl; lia].
  - intros Hin. apply (Hdata (LMsg (mkMsg "room" "c" 7 "u1" 3))) in Hin as (_ & Hu & _). by apply Hu.
Defined.

Lemma ACK_MSG_monotone_witness :
  stat_of (w_db (do_ACK_MSG 1 "room 3 7 u2" log_world).2) "u1" "room" = Some 7
  ∧ stat_of (w_db (do_ACK_MSG 1 "room 1 4 u2" log_world).2) "u1" "room" = Some 5.
Proof.
  split.
  - destruct (ACK_MSG_monotone 1 "room 3 7 u2" "room" "3" "7" "u2" 3 7 (example_client "u1")
                log_world) as (w' & Hrun & _ & Hs); [reflexivity..|by split_and!|].
    rewrite Hrun. change (stat_of (w_db w') "u1" "room" = Some 7).
    rewrite Hs. reflexivity.
  - destruct (ACK_MSG_monotone 1 "room 1 4 u2" "room" "1" "4" "u2" 1 4 (example_client "u1")
                log_world) as (w' & Hrun & _ & Hs); [reflexivity..|by split_and!|].
    rewrite Hrun. change (stat_of (w_db w') "u1" "room" = Some 5).
    rewrite Hs. reflexivity.
Defined.

(** [u1] may retract message 3, and not message 2, which [u2] wrote. *)
Lemma RETRACT_own_witness :
  length (log_of (w_db (do_RETRACT_MESSAGE 1 "room 3 9" log_world).2)) = 4%nat
  ∧ log_of (w_db (do_RETRACT_MESSAGE 1 "room 2 9" log_world).2) = log_of (w_db log_world).
Proof.
  split; [vm_compute; reflexivity|].
  destruct (RETRACT_own 1 "room 2 9" (example_client "u1") log_world log_caller) as [_ [H|H]];
    [exact H|].
  destruct H as (l1 & m & l2 & p1 & p2 & HP & Hid & Hu & Hl & _). exfalso.
  injection HP as Hch <- <-. vm_compute in Hid. injection Hid as Hid.
  assert (LMsg m ∈ log_of (w_db log_world)) as Hin by (rewrite Hl; set_solver).
  simpl in Hin. rewrite !elem_of_cons in Hin.
  destruct Hin as [[= ->]|[[= ->]|[[= ->]|[[=]|[[= ->]|Hin]]]]]; try discriminate.
  by apply not_elem_of_nil in Hin.
Defined.

(** One message is in the log and one is still being collected. *)
Definition log_serv : serv (MG := log_mongo) :=
  mkServ (drv_storeMulti newMongodbDriver [example_m1] log_base).2 (mkchan 100 [])
    (mkchan (Z.to_nat 10000) []) (MHold example_m2) FWait [example_m1; example_m2] [example_m1].

Lemma log_run :
  rtc (serv_step (MsgFlushPolicy log_conf) newMongodbDriver) (Init log_conf log_base) log_serv.
Proof.
  eapply rtc_l; [left; by apply EnqueueMsg_buf with (mt := example_m1)|].
  eapply rtc_l; [right; apply serv_recv|].
  eapply rtc_l; [right; by apply serv_buffer|].
  eapply rtc_l; [left; by apply EnqueueMsg_buf with (mt := example_m2)|].
  eapply rtc_l; [right; apply serv_recv|].
  eapply rtc_l; [right; by apply serv_tick|].
  eapply rtc_l; [right; apply serv_collect|].
  eapply rtc_l; [right; apply serv_flush|].
  apply rtc_refl.
Qed.

Lemma pipeline_log_witness :
  log_of (b_db (sv_base log_serv)) ++ [LMsg example_m2]
  = log_of (b_db log_base) ++ [LMsg example_m1; LMsg example_m2].
Proof. exact (pipeline_log log_conf log_base log_serv log_run). Defined.
