(* ===== verification/Membership.v ===== *)
(** * Rooms in the database and in the cache (engine/cmd_interface.go, im.go, offpush.go)

    The members of a room are recorded in [channel_uuids] and cached for
    delivery.  The commands that change a room update the database first and the
    cache after it.  [coherent] says that the cached rooms are those of the
    database; here is which commands keep it, which do not, and what it is worth
    to a publisher. *)
From S2P Require Import Prelude GoStrings Wire Deps RefDeps Config Base UserIdCache Storage Router.
From S2P Require Import World PubSub Client Rooms RoomStore Auth Mail Commands.

Local Open Scope string_scope.
Local Open Scope list_scope.

(** The reply of a command that did what it was asked to. *)
Definition done_reply : result := (fmt_d CODE_SUCCESS +:+ " success", None).

Section membership.
  Context {EX : Externals} {NT : Net} {CF : Global} {RD : RoomDb} {RL : RoomDbLaws}.
  Context {LL : LruLaws} {GL : GoSetLaws} {CL : CmapLaws}.

(** Every cached room is as the database has it. *)
Definition coherent (w : World) : Prop :=
  cache_wf (w_cache w) ∧ ∀ ch s, members (w_cache w) ch = Some s → rooms_of w ch = Some s.

(** ** Lemmas: the loops of the commands *)

(** The lists of the rooms, not only their sets, are as they were. *)
Definition same_lists (w w' : World) : Prop :=
  ∀ ch, room_of (b_db (w_base w')) ch = room_of (b_db (w_base w)) ch.

Lemma same_lists_rooms w w' : same_lists w w' → ∀ ch, rooms_of w' ch = rooms_of w ch.
Proof. intros H ch. unfold rooms_of. by rewrite H. Qed.

(** A step that reads the database. *)
Definition same_rooms (w w' : World) : Prop :=
  w_cache w' = w_cache w ∧ ∀ ch, rooms_of w' ch = rooms_of w ch.

Lemma same_rooms_trans w1 w2 w3 : same_rooms w1 w2 → same_rooms w2 w3 → same_rooms w1 w3.
Proof. intros [H1 H2] [H3 H4]. split; [congruence|]. intros ch. by rewrite H4. Qed.

Lemma find_in_run c q w :
  c ≠ "channel_uuids" → ∃ r w', find_in c q w = (Ret r, w') ∧ same_rooms w w'.
Proof.
  intros Hc. unfold find_in, findOne. rewrite (bind_ret_run _ _ _ _ _ (onBase_req _ _)).
  eexists _, _. split; [reflexivity|]. split; [done|]. intros ch. unfold rooms_of. simpl.
  by rewrite rd_one_other.
Qed.

Lemma find_room_run ch w :
  ∃ r w', find_in "channel_uuids" (by_id ch) w = (Ret r, w') ∧ same_rooms w w'
          ∧ (r = None → is_Some (rooms_of w ch)).
Proof.
  unfold find_in, findOne. fold cu. rewrite (bind_ret_run _ _ _ _ _ (onBase_req _ _)).
  pose proof (rd_one (b_db (w_base w)) ch VNil) as H.
  destruct (mgo_one (b_db (w_base w)) cu (by_id ch) VNil) as [d r]. destruct H as [Hs Hv].
  eexists _, _. split; [reflexivity|]. split; [split; [done|]|].
  - intros c. unfold rooms_of. simpl. by rewrite Hs.
  - simpl. destruct r as [e|v]; [done|]. intros _. destruct (Hv v eq_refl) as (fs & l & _ & _ & Hl).
    unfold rooms_of. rewrite Hl. by eexists.
Qed.

Lemma failed_not_done e w : (failed e w).1 ≠ Ret done_reply.
Proof. unfold failed, reply. simpl. intros H. discriminate H. Qed.

(** A loop that goes on to its end relates its ends step by step; one that
    does not returns a failure. *)
Lemma check_users_run (k : error → M World result) us w :
  (∀ e w, ∃ x, k e w = (Ret x, w) ∧ x ≠ done_reply) →
  ∃ o w', check_users k us w = (Ret o, w')
          ∧ match o with Some x => x ≠ done_reply | None => same_rooms w w' end.
Proof.
  intros Hk.
  destruct (loop_ret_chain (λ u, err ← find_in "user_info" (by_id u);
      match err with
      | None => mret None
      | Some ErrNotFound =>
          x ← reply CODE_FAILED ("userId:" +:+ u +:+ " is not exists"); mret (Some x)
      | Some e => x ← k e; mret (Some x)
      end) (λ _, same_rooms) (λ x, x ≠ done_reply)) with (l := us) (s := w)
    as (o & w' & Hrun & Ho).
  { intros u w1. destruct (find_in_run "user_info" (by_id u) w1) as (r & w2 & Hrun & Hs); [done|].
    mstep Hrun. destruct r as [[t| |t]|]; [|by eexists _, _| |by eexists _, _].
    - destruct (Hk (NewError t) w2) as (x & Hx & Hne). mstep Hx. by eexists _, _.
    - destruct (Hk (LastError t) w2) as (x & Hx & Hne). mstep Hx. by eexists _, _. }
  exists o, w'. split; [exact Hrun|]. destruct o; [done|]. clear Hrun.
  revert w Ho. induction us as [|u us IH]; intros w; cbn [chain]; [by intros ->|].
  intros (w1 & H1 & H2). eauto using same_rooms_trans.
Qed.

(** The members [us] have been added to [ch]. *)
Definition added (ch : string) (us : list string) (w w' : World) : Prop :=
  w_cache w' = w_cache w
  ∧ ∀ c, rooms_of w' c = if decide (c = ch) then (.∪ list_to_set us) <$> rooms_of w ch
                         else rooms_of w c.

Lemma join_all_run ch us w :
  ∃ o w', join_all ch us w = (Ret o, w')
          ∧ match o with Some x => x ≠ done_reply | None => added ch us w w' end.
Proof.
  destruct (loop_ret_chain (λ u, err ← joinRoom ch [u];
      match err with None => mret None | Some e => x ← failed e; mret (Some x) end)
      (λ u, added ch [u]) (λ x, x ≠ done_reply)) with (l := us) (s := w) as (o & w' & Hrun & Ho).
  { intros u w1. destruct (join_run ch [u] w1) as (r & w2 & Hrun & Hc & Hspec). mstep Hrun.
    destruct r as [e|]; eexists _, _; (split; [reflexivity|]); [done|].
    split; [done|]. destruct (Hspec eq_refl) as (s & Hs & H1 & H2). intros c.
    case_decide as Hd; [|by apply H2]. subst c. by rewrite H1, Hs. }
  exists o, w'. split; [exact Hrun|]. destruct o; [done|]. clear Hrun.
  revert w Ho. induction us as [|u us IH]; intros w; cbn [chain].
  - intros ->. split; [done|]. intros c. case_decide; [subst|done].
    destruct (rooms_of w ch) as [s|]; simpl; [|done]. f_equal. set_solver.
  - intros (w1 & [Hc1 Hr1] & H2). destruct (IH w1 H2) as [Hc2 Hr2].
    split; [congruence|]. intros c. rewrite Hr2, !Hr1.
    destruct (decide (c = ch)); [|done]. rewrite decide_True by done. destruct (rooms_of w ch) as [s|]; simpl; [|done]. f_equal. set_solver.
Qed.

(** The cache after a lookup or a change of one room. *)
Lemma Exists_run ch w :
  cache_wf (w_cache w) →
  onCache (Exists ch) w =
    (Ret (match members (w_cache w) ch with Some _ => true | None => false end),
     set_cache (touch ch (w_cache w)) w).
Proof.
  intros Hwf. unfold onCache, zoom, Exists.
  destruct (GetUserIds_run ch (w_cache w) Hwf) as (r & Hr & Hv). mred. rewrite Hr.
  by destruct (members (w_cache w) ch), r.
Qed.

Lemma AddAll_run ch us w :
  cache_wf (w_cache w) →
  ∃ st, onCache (AddAllUserIds ch us) w = (Ret tt, set_cache st w) ∧ cache_wf st
        ∧ write ch (Some (list_to_set us ∪ default ∅ (members (w_cache w) ch)))
            (members (w_cache w)) (members st).
Proof.
  intros Hwf. destruct (change_room_run ch (λ s, foldl (λ s u, (set_Add s u).1) s us)
    (list_to_set us) (w_cache w) Hwf) as (st & Hr & ? & ?).
  { intros s x. rewrite set_elems_foldl. set_solver. }
  exists st. split; [|done]. unfold onCache, zoom, AddAllUserIds. by rewrite Hr.
Qed.

Definition members_only : value := VDoc [("uuids", VInt 1); ("_id", VInt 0)].

(** A cold room is read from the database and cached. *)
Lemma Load_run ch w :
  cache_wf (w_cache w) →
  ∃ r w', LoadUserIdsFromDatabase ch w = (Ret r, w')
    ∧ (∃ d, w' = set_cache (w_cache w') (set_base (mkBase d (b_tick (w_base w))) w))
    ∧ same_lists w w' ∧ cache_wf (w_cache w')
    ∧ match r with
      | inl _ => w_cache w' = w_cache w
          ∧ ∃ e, (mgo_one (b_db (w_base w)) cu (by_id ch) members_only).2 = inl e
      | inr us => room_of (b_db (w_base w)) ch = Some us
          ∧ write ch (Some (list_to_set us ∪ default ∅ (members (w_cache w) ch)))
              (members (w_cache w)) (members (w_cache w'))
      end.
Proof.
  intros Hwf. unfold LoadUserIdsFromDatabase, findOne. fold cu members_only.
  rewrite (bind_ret_run _ _ _ _ _ (onBase_req _ _)).
  pose proof (rd_one (b_db (w_base w)) ch members_only) as H.
  destruct (mgo_one _ cu (by_id ch) members_only) as [d [e|v]]; destruct H as [Hs Hv].
  { eexists _, _. split; [reflexivity|]. split; [by exists d|].
    split; [intros c; simpl; by rewrite Hs|].
    split; [done|]. split; [done|by exists e]. }
  destruct (Hv v eq_refl) as (fs & l & -> & Hf & Hl). cbn [fst snd].
  set (w1 := set_base _ w). rewrite (bind_ret_run (as_doc (VDoc fs)) _ w1 fs w1 eq_refl).
  rewrite Hf. rewrite (bind_ret_run (as_arr (VStrs l)) _ w1 (VStr <$> l) w1 eq_refl).
  rewrite (bind_ret_run _ _ _ _ _ (collect_strs l w1)).
  destruct (AddAll_run ch l w1 Hwf) as (st & Hrun & Hwf' & Hw). mstep Hrun.
  eexists _, _. split; [reflexivity|]. split; [by exists d|].
  split; [intros c; simpl; by rewrite Hs|]. done.
Qed.

(** ** The commands *)
Lemma coherent_write ch s w w' :
  coherent w → cache_wf (w_cache w') →
  write ch (Some s) (members (w_cache w)) (members (w_cache w')) →
  rooms_of w' ch = Some s → (∀ c, c ≠ ch → rooms_of w' c = rooms_of w c) → coherent w'.
Proof.
  intros [_ Hco] Hwf [Hch Ho] Hs Hr. split; [done|]. intros c t Ht.
  destruct (decide (c = ch)) as [->|Hne]; [congruence|]. rewrite Hr by done. apply Hco.
  destruct (Ho c Hne); congruence.
Qed.

(** A room that is not cached may change. *)
Lemma coherent_uncached ch w w' :
  coherent w → cache_wf (w_cache w') →
  (∀ c, members (w_cache w') c = members (w_cache w) c ∨ members (w_cache w') c = None) →
  members (w_cache w') ch = None → (∀ c, c ≠ ch → rooms_of w' c = rooms_of w c) → coherent w'.
Proof.
  intros [_ Hco] Hwf Ho Hch Hr. split; [done|]. intros c t Ht.
  destruct (decide (c = ch)) as [->|Hne]; [congruence|]. rewrite Hr by done. apply Hco.
  destruct (Ho c); congruence.
Qed.

Lemma reply_done_inj {A} (x y : result) (w w' : A) :
  x ≠ done_reply → (Ret x, w) = (Ret done_reply, w') → False.
Proof. intros Hx [= ? ?]. done. Qed.

(** How [add_into_room] ends: the cached room gets the new members, a room that is
    not cached is loaded. *)
Lemma refresh_coherent ch us s w w3 :
  coherent w → rooms_of w ch = Some s → w_cache w3 = w_cache w →
  rooms_of w3 ch = Some (s ∪ list_to_set us) → (∀ c, c ≠ ch → rooms_of w3 c = rooms_of w c) →
  ∃ w', (cached ← onCache (Exists ch);
         (if (cached : bool) then onCache (AddAllUserIds ch us)
          else _ ← LoadUserIdsFromDatabase ch; mret tt)) w3 = (Ret tt, w') ∧ coherent w'
         ∧ rooms_of w' ch = rooms_of w3 ch.
Proof.
  intros Hco Hs Hc Hs3 Hoth. pose proof Hco as [Hwf Hc0].
  assert (cache_wf (w_cache w3)) as Hwf3 by by rewrite Hc.
  mstep (Exists_run ch w3 Hwf3). rewrite Hc. set (w4 := set_cache _ w3).
  assert (cache_wf (w_cache w4)) as Hwf4 by by apply wf_touch.
  assert (∀ c, members (w_cache w4) c = members (w_cache w) c) as Hm4
    by (intros c; apply members_touch).
  destruct (members (w_cache w) ch) as [t|] eqn:E.
  - assert (t = s) as -> by (apply Hc0 in E; congruence).
    destruct (AddAll_run ch us w4 Hwf4) as (st & -> & Hwf' & Hw & Ho).
    eexists. split; [reflexivity|]. rewrite Hm4, E in Hw. simpl in Hw. split; [|done].
    apply (coherent_write ch (list_to_set us ∪ s) w); [done|done| | |done].
    + split; [done|]. intros c Hne. simpl. rewrite <- Hm4. by apply Ho.
    + unfold rooms_of in *. simpl. rewrite Hs3. f_equal. set_solver.
  - destruct (Load_run ch w4 Hwf4) as (r & w5 & Hrun & _ & Hs5 & Hwf5 & Hr). mstep Hrun.
    pose proof (same_lists_rooms _ _ Hs5) as Hr5.
    eexists. split; [reflexivity|]. split; [|by rewrite Hr5].
    destruct r as [e|l]; [destruct Hr as [Hr _]|].
    + apply (coherent_uncached ch w); [done|done| | |].
      * intros c. left. rewrite Hr. apply Hm4.
      * rewrite Hr, Hm4. done.
      * intros c Hne. rewrite Hr5. by apply Hoth.
    + destruct Hr as [Hl [Hw Ho]]. rewrite Hm4, E in Hw. simpl in Hw.
      assert (rooms_of w4 ch = Some (list_to_set l)) as Hl4 by (unfold rooms_of; by rewrite Hl).
      apply (coherent_write ch (list_to_set l ∪ ∅) w); [done|done| | |].
      * split; [done|]. intros c Hne. rewrite <- Hm4. by apply Ho.
      * rewrite Hr5, Hl4. f_equal. set_solver.
      * intros c Hne. rewrite Hr5. by apply Hoth.
Qed.

Lemma ADD_run p P w w' :
  coherent w → do_ADD_USER_INTO_ROOM p P w = (Ret done_reply, w') →
  coherent w' ∧ ∃ ch us s, Split space P = ch :: us ∧ rooms_of w ch = Some s
                           ∧ rooms_of w' ch = Some (s ∪ list_to_set us).
Proof.
  intros Hco. unfold do_ADD_USER_INTO_ROOM.
  destruct (Split space P) as [|ch [|u us]]; [done..|]. cbv zeta.
  destruct (find_room_run ch w) as (r & w1 & Hrun & [Hc1 Hr1] & Hex). mstep Hrun.
  destruct r as [[]|]; [done..|].
  destruct (check_users_run (λ e, reply CODE_SERVER_ERROR (Error e)) (u :: us) w1)
    as (o & w2 & Hrun2 & Ho); [by intros e w0; eexists|]. mstep Hrun2.
  destruct o as [x|]; [by intros []%reply_done_inj|]. destruct Ho as [Hc2 Hr2].
  destruct (join_all_run ch (u :: us) w2) as (o & w3 & Hrun3 & Ho). mstep Hrun3.
  destruct o as [x|]; [by intros []%reply_done_inj|]. destruct Ho as [Hc3 Hr3].
  assert (w_cache w3 = w_cache w) as Hc by congruence.
  assert (∀ c, c ≠ ch → rooms_of w3 c = rooms_of w c) as Hoth.
  { intros c Hne. by rewrite Hr3, decide_False, Hr2, Hr1. }
  destruct (Hex eq_refl) as [s Hs].
  assert (rooms_of w3 ch = Some (s ∪ list_to_set (u :: us))) as Hs3.
  { by rewrite Hr3, decide_True, Hr2, Hr1, Hs. }
  destruct (refresh_coherent ch (u :: us) s w w3 Hco Hs Hc Hs3 Hoth) as (w5 & Hrun4 & Hco' & Hr5).
  rewrite <- bind_assoc_run. mstep Hrun4. intros [= <-]. split; [exact Hco'|].
  exists ch, (u :: us), s. by rewrite Hr5.
Qed.

Lemma ADD_coherent p P w w' :
  coherent w → do_ADD_USER_INTO_ROOM p P w = (Ret done_reply, w') → coherent w'.
Proof. intros Hco Hrun. by apply (ADD_run p P w). Qed.

Lemma SUBS_run p P n ch u us w w' :
  Split space P = n :: ch :: u :: us → do_SUBS p P w = (Ret done_reply, w') →
  w_cache w' = w_cache w ∧ rooms_of w ch = None ∧ rooms_of w' ch = Some (list_to_set (u :: us))
  ∧ ∀ c, c ≠ ch → rooms_of w' c = rooms_of w c.
Proof.
  intros HP. unfold do_SUBS. rewrite HP.
  destruct (check_users_run (λ _, reply CODE_SERVER_ERROR "server error") (u :: us) w)
    as (o & w1 & Hrun & Ho); [by intros e w0; eexists|]. mstep Hrun.
  destruct o as [x|]; [by intros []%reply_done_inj|]. destruct Ho as [Hc1 Hr1].
  destruct (find_room_run ch w1) as (r & w2 & Hrun2 & [Hc2 Hr2] & _). mstep Hrun2.
  destruct r as [e|]; [|done].
  destruct (create_run u ch w2) as (r & w3 & Hrun3 & Hc3 & Hspec). mstep Hrun3.
  destruct r as [e'|]; [done|]. destruct (Hspec eq_refl) as (Hn & Hr3 & Ho3).
  destruct (join_all_run ch us w3) as (o & w4 & Hrun4 & Ho). mstep Hrun4.
  destruct o as [x|]; [by intros []%reply_done_inj|]. destruct Ho as [Hc4 Hr4].
  intros [= <-]. rewrite Hr2, Hr1 in Hn. split_and!; [congruence|done| |].
  - by rewrite Hr4, decide_True, Hr3.
  - intros c Hne. by rewrite Hr4, decide_False, Ho3, Hr2, Hr1.
Qed.

Lemma SUBS_coherent p P w w' :
  coherent w → do_SUBS p P w = (Ret done_reply, w') → coherent w'.
Proof.
  intros Hco Hrun. destruct (Split space P) as [|n [|ch [|u us]]] eqn:HP;
    try (by unfold do_SUBS in Hrun; rewrite HP in Hrun).
  destruct (SUBS_run p P n ch u us w w' HP Hrun) as (Hc & Hn & _ & Hoth).
  assert (members (w_cache w) ch = None) as Hm.
  { destruct (members (w_cache w) ch) as [t|] eqn:E; [|done]. apply Hco in E. congruence. }
  apply (coherent_uncached ch w); rewrite ?Hc; [done|apply Hco|by left|done|exact Hoth].
Qed.

Lemma Del_cache_run ch w :
  cache_wf (w_cache w) →
  ∃ st, onCache (Del ch) w = (Ret tt, set_cache st w) ∧ cache_wf st
        ∧ ∀ c, members st c = if decide (c = ch) then None else members (w_cache w) c.
Proof.
  intros Hwf. destruct (Del_run ch (w_cache w) Hwf) as (st & Hr & Hst & Hm).
  exists st. split; [|done]. unfold onCache, zoom. by rewrite Hr.
Qed.

Lemma DISOLVE_coherent p P w w' :
  coherent w → do_DISOLVE p P w = (Ret done_reply, w') →
  coherent w' ∧ members (w_cache w') P = None.
Proof.
  intros Hco. unfold do_DISOLVE. destruct (String.eqb P ""); [done|].
  destruct (dissolve_run P w) as (r & w1 & Hrun & Hc & Hspec). mstep Hrun.
  destruct r as [e|]; [done|]. destruct (Hspec eq_refl) as [_ Hset].
  assert (∀ c, c ≠ P → rooms_of w1 c = rooms_of w c) as Hoth by (destruct Hset as [[]|[]]; auto).
  destruct (Del_cache_run P w1) as (st & Hrun2 & Hwf & Hm); [rewrite Hc; apply Hco|].
  mstep Hrun2. intros [= <-]. rewrite Hc in Hm. simpl.
  assert (members st P = None) as HP by (by rewrite Hm, decide_True). split; [|done].
  apply (coherent_uncached P w); [done|done| |done|exact Hoth].
  intros c. simpl. rewrite Hm. case_decide; [by right|by left].
Qed.

(** Users taken out of a cached room. *)
Lemma Remove_all_run ch us w :
  cache_wf (w_cache w) →
  ∃ st, mapM_ (λ u, onCache (RemoveUserId ch u)) us w = (Ret tt, set_cache st w) ∧ cache_wf st
        ∧ ∀ c, members st c = if decide (c = ch) then (.∖ list_to_set us) <$> members (w_cache w) ch
                              else members (w_cache w) c.
Proof.
  revert w. induction us as [|u us IH]; intros w Hwf; cbn [mapM_].
  - exists (w_cache w). split; [by destruct w|]. split; [done|]. intros c.
    case_decide; [subst|done]. destruct (members (w_cache w) ch); simpl; [|done]. f_equal. set_solver.
  - destruct (RemoveUserId_run ch u (w_cache w) Hwf) as (st & Hr & Hst & Hm).
    assert (onCache (RemoveUserId ch u) w = (Ret tt, set_cache st w)) as Hrun.
    { unfold onCache, zoom. by rewrite Hr. }
    mstep Hrun. destruct (IH (set_cache st w) Hst) as (st' & Hr' & Hst' & Hm').
    exists st'. split; [exact Hr'|]. split; [done|]. intros c. rewrite Hm'. simpl. rewrite !Hm.
    destruct (decide (c = ch)); [|done]. rewrite decide_True by done.
    destruct (members (w_cache w) ch); simpl; [|done]. f_equal. set_solver.
Qed.

(** A cached room that the database no longer has. *)
Definition ghost (w : World) (ch : string) : Prop :=
  cache_wf (w_cache w) ∧ members (w_cache w) ch = Some ∅ ∧ rooms_of w ch = None.

(** Every other cached room is as the database has it. *)
Definition coherent_elsewhere (ch : string) (w : World) : Prop :=
  ∀ ch' s, ch' ≠ ch → members (w_cache w) ch' = Some s → rooms_of w ch' = Some s.

(** [unsubs] with the parameters [P] has taken everybody out of a cached room. *)
Definition emptied (P : string) (w w' : World) : Prop :=
  ∃ ch us s, Split space P = ch :: us ∧ members (w_cache w) ch = Some s ∧ s ⊆ list_to_set us
    ∧ ghost w' ch ∧ coherent_elsewhere ch w'.

Lemma UNSUBS_coherent p P w w' :
  coherent w → do_UNSUBS p P w = (Ret done_reply, w') → coherent w' ∨ emptied P w w'.
Proof.
  intros Hco. unfold do_UNSUBS, emptied.
  destruct (Split space P) as [|ch [|u us]]; [done..|]. cbv zeta.
  destruct (leave_run ch (u :: us) w) as (r & w1 & Hrun & Hc & Hspec). mstep Hrun.
  destruct r as [e|]; [done|]. destruct (Hspec eq_refl) as (s & Hs & Hset).
  assert (∀ c, c ≠ ch → rooms_of w1 c = rooms_of w c) as Hoth by (destruct Hset as [[]|[_ []]]; auto).
  pose proof Hco as [Hwf Hc0]. assert (cache_wf (w_cache w1)) as Hwf1 by by rewrite Hc.
  mstep (Exists_run ch w1 Hwf1). rewrite Hc. set (w2 := set_cache _ w1).
  assert (cache_wf (w_cache w2)) as Hwf2 by by apply wf_touch.
  assert (∀ c, members (w_cache w2) c = members (w_cache w) c) as Hm2
    by (intros c; apply members_touch).
  destruct (members (w_cache w) ch) as [t|] eqn:E.
  - assert (t = s) as -> by (apply Hc0 in E; congruence).
    destruct (Remove_all_run ch (u :: us) w2 Hwf2) as (st & Hrun2 & Hst & Hm). mstep Hrun2.
    intros [= <-]. rewrite Hm2, E in Hm.
    destruct Hset as [[Hset _]|(He & Hset & _)].
    + left. apply (coherent_write ch (s ∖ list_to_set (u :: us)) w); [done|done| |done|exact Hoth].
      split; simpl; [by rewrite Hm, decide_True|]. intros c Hne. left.
      by rewrite Hm, decide_False, Hm2.
    + right. exists ch, (u :: us), s. split_and!; [done..|by apply empty_difference_subseteq_L| |].
      * split; [exact Hst|]. split; [|exact Hset]. simpl.
        rewrite Hm, decide_True by done. simpl. by f_equal.
      * intros c t Hne Ht. change (members st c = Some t) in Ht.
        rewrite Hm, decide_False in Ht by exact Hne. rewrite Hm2 in Ht.
        change (rooms_of w1 c = Some t). rewrite Hoth by exact Hne. exact (Hc0 c t Ht).
  - intros [= <-]. left. apply (coherent_uncached ch w); [done|done| | |exact Hoth].
    + intros c. left. apply Hm2.
    + by rewrite Hm2.
Qed.

Lemma UNSUBS_rooms p P w w' :
  do_UNSUBS p P w = (Ret done_reply, w') →
  ∃ ch us, Split space P = ch :: us ∧ spec_room (Leave ch us) (rooms_of w) (rooms_of w').
Proof.
  unfold do_UNSUBS. destruct (Split space P) as [|ch [|u us]]; [done..|]. cbv zeta.
  destruct (leave_run ch (u :: us) w) as (r & w1 & Hrun & _ & Hspec). mstep Hrun.
  destruct r as [e|]; [done|]. intros Hend. exists ch, (u :: us). split; [done|].
  assert (rooms_of w' = rooms_of w1) as ->; [|by apply Hspec].
  set (m := mbind _ _) in Hend. assert (within (same w_base) m) as Hm.
  { unfold m. assert (∀ A (m : M ChannelToUserIds A), within (same w_base) (onCache m))
      by (intros; by apply within_onCache). frame. }
  specialize (Hm w1). rewrite Hend in Hm. unfold same in Hm. unfold rooms_of. simpl in Hm.
  by rewrite Hm.
Qed.

(** The commands on rooms have nothing to tell the other servers. *)
Lemma rooms_untold cmd p P P2 w :
  cmd ∈ [CMD_ADD_USER_INTO_ROOM; CMD_SUBS; CMD_UNSUBS; CMD_DISOLVE] →
  let w' := (Process (mkCmdline cmd P P2 p) w).2 in
  w_proxy w' = w_proxy w ∧ w_tasks w' = w_tasks w ∧ w_out w' = w_out w.
Proof.
  intros Hcmd. set (R := same (λ w : World, (w_proxy w, w_tasks w, w_out w))).
  assert (∀ A (m : M ChannelToUserIds A), within R (onCache m)) by (intros; by apply within_onCache).
  assert (∀ A (m : M Base A), within R (onBase m)) by (intros; by apply within_onBase).
  assert (within R (Process (mkCmdline cmd P P2 p))) as H1; [|specialize (H1 w); by injection H1].
  apply elem_of_cons in Hcmd as [->|[->|[->|[->|[]%not_elem_of_nil]%elem_of_cons]%elem_of_cons]%elem_of_cons].
  - change (within R (do_ADD_USER_INTO_ROOM p P)).
    unfold do_ADD_USER_INTO_ROOM, find_in, check_users, join_all, joinRoom, if_online, Subscribe,
      GetClient, LoadUserIdsFromDatabase, success, reply, failed. frame.
  - change (within R (do_SUBS p P)).
    unfold do_SUBS, find_in, check_users, join_all, joinRoom, createRoom, if_online, Subscribe,
      GetClient, success, reply, failed. frame.
  - change (within R (do_UNSUBS p P)).
    unfold do_UNSUBS, leaveRoom, if_online, Unsubscribe, GetClient, success, reply, failed. frame.
  - change (within R (do_DISOLVE p P)).
    unfold do_DISOLVE, disolveRoom, leaveRoom, if_online, Unsubscribe, GetClient, success, reply,
      failed. frame.
Qed.

(** ** Delivery to a coherent room *)
(** The database answers about the room. *)
Definition readable (w : World) (ch : string) : Prop :=
  ∃ v, (mgo_one (b_db (w_base w)) cu (by_id ch) members_only).2 = inr v.

(** The members of the room as the database lists them, each once: [$addToSet]
    adds no second copy. *)
Definition room_list (w : World) (ch : string) (s : gset string) : Prop :=
  ∃ l, room_of (b_db (w_base w)) ch = Some l ∧ NoDup l ∧ s = list_to_set l.

(** A database that is up answers about every room it knows. *)
Class RoomDbUp : Prop := rd_up d ch l : room_of d ch = Some l →
  ∃ v, (mgo_one d cu (by_id ch) members_only).2 = inr v.

Lemma readable_up `{!RoomDbUp} w ch s : room_list w ch s → readable w ch.
Proof. intros (l & Hl & _). by apply (rd_up _ _ l). Qed.

(** Only the cache and the database have been touched. *)
Definition only_read (w w' : World) : Prop :=
  ∃ st d, w' = set_cache st (set_base (mkBase d (b_tick (w_base w))) w).

Lemma fetch_current ch s w :
  coherent w → room_list w ch s → readable w ch →
  ∃ n us w', LoadUserIdsByChannel ch w = (Ret (replicate n "" ++ us), w')
    ∧ us ≡ₚ elements s ∧ only_read w w' ∧ coherent w' ∧ same_lists w w'.
Proof.
  intros Hco (l & Hl & Hnd & ->) [v Hv]. pose proof Hco as [Hwf Hc0].
  assert (rooms_of w ch = Some (list_to_set l)) as Hrl by (unfold rooms_of; by rewrite Hl).
  destruct (members (w_cache w) ch) as [t|] eqn:E.
  - destruct (cached_run ch t w Hwf E) as (us & Hus & Hrun). exists (size t), us. eexists.
    split; [exact Hrun|]. apply Hc0 in E as Ht. rewrite Hrl in Ht. injection Ht as <-.
    split; [done|]. split; [|split; [|done]].
    + exists (touch ch (w_cache w)), (b_db (w_base w)). unfold looked_up. by destruct w as [[] ? ? ? ? ? ? ? ? ? ?].
    + split; [by apply wf_touch|]. intros c u. simpl. rewrite members_touch. apply Hc0.
  - destruct (GetUserIds_run ch (w_cache w) Hwf) as (r & Hr & Hv'). rewrite E in Hv'.
    destruct r; [done|]. set (w1 := set_cache (touch ch (w_cache w)) w).
    assert (onCache (GetUserIdsByChannel ch) w = (Ret None, w1)) as Hget.
    { unfold onCache, zoom. by rewrite Hr. }
    unfold LoadUserIdsByChannel. mstep Hget.
    destruct (Load_run ch w1) as (r & w2 & Hrun & [d Hd] & Hr2 & Hwf2 & Hload); [by apply wf_touch|].
    destruct r as [e|us]; [destruct Hload as [_ [e' He']]; simpl in He'; congruence|].
    destruct Hload as [Hl2 [Hw Ho]]. simpl in Hl2. rewrite Hl in Hl2. injection Hl2 as <-.
    mstep Hrun. exists 0%nat, l, w2. split; [done|]. split; [by rewrite elements_list_to_set|].
    split; [rewrite Hd; by exists (w_cache w2), d|]. split; [|exact Hr2].
    simpl in Hw, Ho. rewrite members_touch, E in Hw. simpl in Hw.
    apply (coherent_write ch (list_to_set l ∪ ∅) w); [done|done| | |].
    + split; [done|]. intros c Hne. destruct (Ho c Hne) as [H|H]; [left|by right].
      by rewrite H, members_touch.
    + rewrite (same_lists_rooms _ _ Hr2). change (rooms_of w1 ch) with (rooms_of w ch).
      rewrite Hrl. f_equal. set_solver.
    + intros c _. by apply (same_lists_rooms w1).
Qed.

Lemma recipient_ext w w' owner u :
  w_clients w' = w_clients w → w_uuids w' = w_uuids w → recipient w' owner u = recipient w owner u.
Proof. unfold recipient. by intros -> ->. Qed.

(** Who is reached: the connections of the members, the author's excepted. *)
Lemma elem_of_recipients w owner us (s : gset string) p :
  us ≡ₚ elements s →
  p ∈ omap (recipient w owner) us ↔
    ∃ u c, u ∈ s ∧ cmap_Get (w_uuids w) u = Some p ∧ w_clients w !! p = Some c ∧ uuid c ≠ owner.
Proof.
  intros Hp. rewrite list_elem_of_omap. unfold recipient. split.
  - intros (u & Hu & Hr). rewrite Hp, elem_of_elements in Hu.
    destruct (cmap_Get (w_uuids w) u) as [q|] eqn:E; simpl in Hr; [|done].
    destruct (w_clients w !! q) as [c|] eqn:Ec; simpl in Hr; [|done].
    destruct (String.eqb_spec (uuid c) owner); [done|]. injection Hr as ->. by exists u, c.
  - intros (u & c & Hu & Hg & Hc & Hne). exists u. rewrite Hp, elem_of_elements.
    split; [done|]. rewrite Hg. simpl. rewrite Hc. simpl. by destruct (String.eqb_spec (uuid c) owner).
Qed.

(** Delivery to a room, cached or not: one write for each member that is online
    and not the author. *)
Lemma deliver_run op ch owner msg s w :
  registry_valid w → cmap_Get (w_uuids w) "" = None →
  coherent w → room_list w ch s → readable w ch →
  ∃ us w1, us ≡ₚ elements s ∧ only_read w w1 ∧ coherent w1
    ∧ same_lists w w1
    ∧ pushToNativeClient op ch owner msg w =
        (Ret tt, set_tasks (w_tasks w ++ ((λ p, GoWriteFormatBinMsg p op msg) <$>
                                            omap (recipient w owner) us)) w1).
Proof.
  intros Hl Hb Hco Hr Hrd.
  destruct (fetch_current ch s w Hco Hr Hrd) as (n & us & w1 & Hrun & Hus & Hread & Hco1 & Hrooms).
  exists us, w1. split_and!; [done..|]. unfold pushToNativeClient, fetchAllMatchUserIds. mstep Hrun.
  destruct Hread as (st & d & ->). rewrite pushes_run by done. unfold push_all.
  rewrite omap_blank; [done|]. unfold recipient. simpl. by rewrite Hb.
Qed.

(** ** Properties *)

(** (C5) The cache stays true to the database: when [add_into_room], [subs],
    [unsubs] or [disolve] reports success, every cached room still has exactly
    the members that the database records.  The one exception is [unsubs] on a
    cached room whose members are all taken out: the database forgets the room
    and the cache keeps an empty one, while every other cached room still has
    exactly the members that the database records. *)
Theorem membership_coherent (p : ptr) (cmd P : string) (P2 : list byte) (w w' : World)
    (Hco : coherent w)
    (Hcmd : cmd ∈ [CMD_ADD_USER_INTO_ROOM; CMD_SUBS; CMD_UNSUBS; CMD_DISOLVE])
    (Hrun : Process (mkCmdline cmd P P2 p) w = (Ret done_reply, w')) :
  coherent w' ∨ cmd = CMD_UNSUBS ∧ emptied P w w'.
Proof.
  apply elem_of_cons in Hcmd as [->|[->|[->|[->|[]%not_elem_of_nil]%elem_of_cons]%elem_of_cons]%elem_of_cons].
  - left. by apply (ADD_coherent p P w).
  - left. by apply (SUBS_coherent p P w).
  - destruct (UNSUBS_coherent p P w w' Hco Hrun) as [H|H]; [by left|by right].
  - left. by apply (DISOLVE_coherent p P w).
Qed.

(** Delivery follows the database: on a server whose cache is coherent, a
    message for a room is written exactly once to the connection of each member
    that the database records, is online here and is not the author's, and to
    nobody else, whether the room was cached or had to be loaded; and the cache
    is still coherent afterwards. *)
Theorem delivery_current (op ch owner : string) (msg : list byte) (s : gset string) (w : World)
    (Hl : registry_valid w) (Hb : cmap_Get (w_uuids w) "" = None) (Hco : coherent w)
    (Hr : room_list w ch s) (Hrd : readable w ch) :
  ∃ us w', us ≡ₚ elements s
    ∧ pushToNativeClient op ch owner msg w = (Ret tt, w') ∧ coherent w'
    ∧ w_tasks w' = w_tasks w ++ ((λ p, GoWriteFormatBinMsg p op msg) <$> omap (recipient w owner) us)
    ∧ w_clients w' = w_clients w ∧ w_uuids w' = w_uuids w
    ∧ ∀ p, p ∈ omap (recipient w owner) us ↔
           ∃ u c, u ∈ s ∧ cmap_Get (w_uuids w) u = Some p ∧ w_clients w !! p = Some c
                  ∧ uuid c ≠ owner.
Proof.
  destruct (deliver_run op ch owner msg s w Hl Hb Hco Hr Hrd)
    as (us & w1 & Hus & (st & d & ->) & Hco1 & _ & Hrun).
  exists us. eexists. split_and!; [done|exact Hrun|exact Hco1|done..|].
  intros p. by apply elem_of_recipients.
Qed.

(** [join_room] reaches the database and not the cache: a user who joins a
    room that is cached is recorded as a member, and is still not one for
    delivery. *)
Theorem JOINROOM_stale (p : ptr) (P ch : string) (rest : list string) (c : Client)
    (s : gset string) (w w' : World)
    (HP : Split space P = ch :: rest) (Hc : w_clients w !! p = Some c) (Hco : coherent w)
    (Hs : members (w_cache w) ch = Some s)
    (Hrun : do_JOINROOM p P w = (Ret done_reply, w')) :
  rooms_of w' ch = Some (s ∪ {[uuid c]}) ∧ members (w_cache w') ch = Some s.
Proof.
  unfold do_JOINROOM in Hrun. rewrite HP in Hrun. destruct (String.eqb ch ""); [done|].
  rewrite (bind_ret_run (my_uuid p) _ w (uuid c) w) in Hrun
    by (unfold my_uuid; by mstep (get_client_run p c w Hc)).
  destruct (join_run (roomid2Channelid ch) [uuid c] w) as (r & w1 & Hj & Hca & Hspec).
  rewrite (bind_ret_run _ _ _ _ _ Hj) in Hrun. unfold or_success in Hrun.
  destruct r as [e|]; [done|]. injection Hrun as <-. rewrite Hca. split; [|done].
  destruct (Hspec eq_refl) as (t & Ht & Hset & _). apply Hco in Hs.
  assert (t = s) as -> by (unfold roomid2Channelid in Ht; congruence).
  unfold roomid2Channelid in Hset. rewrite Hset. f_equal. set_solver.
Qed.

(** A room that is created again stays unreachable: when the cache still
    has the empty room of before, [subs] records the new members in the
    database, and a message for the room is written to nobody. *)
Theorem SUBS_ghost (p : ptr) (P n ch u op owner : string) (us : list string) (msg : list byte)
    (w w' : World)
    (HP : Split space P = n :: ch :: u :: us) (Hg : ghost w ch)
    (Hrun : do_SUBS p P w = (Ret done_reply, w'))
    (Hl : registry_valid w') (Hb : cmap_Get (w_uuids w') "" = None) :
  rooms_of w' ch = Some (list_to_set (u :: us))
  ∧ (pushToNativeClient op ch owner msg w').1 = Ret tt
  ∧ w_tasks (pushToNativeClient op ch owner msg w').2 = w_tasks w'.
Proof.
  destruct (SUBS_run p P n ch u us w w' HP Hrun) as (Hc & _ & Hr & _). split; [exact Hr|].
  destruct Hg as (Hwf & Hg & _). rewrite <- Hc in Hg, Hwf.
  destruct (pushToNativeClient_run op ch owner msg ∅ w' Hl Hwf Hg Hb) as (l & Hnil & ->).
  split; [done|]. apply Permutation_nil_r in Hnil as ->. simpl. apply app_nil_r.
Qed.
End membership.

Import Ref RoomRef.
#[local] Existing Instance room_externals.

#[export] Instance room_db_up : RoomDbUp (RD := room_db).
Proof. intros d ch l. simpl. unfold room_one. simpl. intros ->. by eexists. Qed.

(** A room with two members that is not cached; three users are online. *)
Definition member_world : World (EX := room_externals) (NT := ref_net) :=
  mkWorld (mkBase (MG := room_mongo) ({[ "room" := ["u1"; "u2"] ]} : gmap string (list string)) 0)
    {[ 1%nat := example_client "u1"; 2%nat := example_client "u2"; 3%nat := example_client "u3" ]}
    {[ "u1" := 1%nat; "u2" := 2%nat; "u3" := 3%nat ]} (newChannelToUserIds 10) (NewLruCache 10) None set_NewSet
    (mkchan 0 []) None [] [].

Lemma member_coherent : coherent member_world.
Proof. split; [apply cache_wf_new|]. intros ch s. simpl. by rewrite members_new. Qed.

Lemma member_valid : registry_valid member_world.
Proof.
  intros u p H. simpl in H. rewrite !lookup_insert, lookup_singleton in H.
  repeat case_decide; simplify_eq; vm_compute; eauto.
Qed.

Lemma member_list : room_list member_world "room" {["u1"; "u2"]}.
Proof.
  exists ["u1"; "u2"]. split; [reflexivity|]. split; [|set_solver].
  by apply (bool_decide_unpack (NoDup ["u1"; "u2"])).
Qed.

Lemma membership_coherent_witness :
  ∃ w', Process (mkCmdline "add_into_room" "room u3 u2" [] 1) member_world = (Ret done_reply, w')
        ∧ coherent w'.
Proof.
  assert ((Process (mkCmdline "add_into_room" "room u3 u2" [] 1) member_world).1 = Ret done_reply)
    as Hr by (vm_compute; reflexivity).
  destruct (Process (mkCmdline "add_into_room" "room u3 u2" [] 1) member_world) as [o w'] eqn:E.
  simpl in Hr. subst o. exists w'. split; [reflexivity|].
  destruct (membership_coherent 1 "add_into_room" "room u3 u2" [] member_world w' member_coherent)
    as [H|[H _]]; [by left|exact E|exact H|discriminate H].
Defined.

Lemma delivery_current_witness :
  ∃ us w', us ≡ₚ ["u1"; "u2"]
    ∧ pushToNativeClient "rciv" "room" "u1" [] member_world = (Ret tt, w') ∧ coherent w'.
Proof.
  destruct (delivery_current "rciv" "room" "u1" [] {["u1"; "u2"]} member_world member_valid eq_refl
              member_coherent member_list) as (us & w' & Hus & Hrun & Hco & _).
  { eexists. vm_compute. reflexivity. }
  exists us, w'. split; [rewrite Hus|split; [exact Hrun|exact Hco]].
  rewrite elements_disj_union by set_solver. rewrite !elements_singleton. reflexivity.
Defined.

(** The same world once the room has been loaded. *)
Definition warm_world : World := (LoadUserIdsByChannel "room" member_world).2.

Lemma warm_coherent : coherent warm_world.
Proof.
  destruct (fetch_current "room" {["u1"; "u2"]} member_world member_coherent member_list)
    as (n & us & w' & Hrun & _ & _ & Hco & _); [eexists; vm_compute; reflexivity|].
  unfold warm_world. by rewrite Hrun.
Qed.

Lemma JOINROOM_stale_witness :
  let w' := (do_JOINROOM 3 "room" warm_world).2 in
  ∃ s, members (w_cache warm_world) "room" = Some s ∧ members (w_cache w') "room" = Some s
       ∧ rooms_of w' "room" = Some (s ∪ {["u3"]}).
Proof.
  intros w'.
  assert ((do_JOINROOM 3 "room" warm_world).1 = Ret done_reply) as Hr by (vm_compute; reflexivity).
  assert (is_Some (members (w_cache warm_world) "room")) as [s Hs] by (vm_compute; eauto).
  destruct (JOINROOM_stale 3 "room" "room" [] (example_client "u3") s warm_world w') as [H1 H2];
    [reflexivity|reflexivity|exact warm_coherent|exact Hs| |].
  - unfold w'. destruct (do_JOINROOM 3 "room" warm_world) as [o w1]. simpl in Hr. by subst o.
  - exists s. split; [exact Hs|]. split; [exact H2|exact H1].
Defined.

(** Everybody has left the cached room; the database has forgotten it. *)
Definition left_world : World := (do_UNSUBS 1 "room u1 u2" warm_world).2.

Lemma left_ghost : ghost left_world "room".
Proof.
  assert ((do_UNSUBS 1 "room u1 u2" warm_world).1 = Ret done_reply) as Hr
    by (vm_compute; reflexivity).
  assert (rooms_of left_world "room" = None) as Hn by (vm_compute; reflexivity).
  assert (is_Some (members (w_cache left_world) "room")) as [s Hs] by (vm_compute; eauto).
  destruct (UNSUBS_coherent 1 "room u1 u2" warm_world left_world warm_coherent) as [H|H].
  - unfold left_world. destruct (do_UNSUBS 1 "room u1 u2" warm_world). simpl in *. by subst.
  - apply H in Hs. congruence.
  - destruct H as (ch & us & s' & Hch & _ & _ & H & _). vm_compute in Hch. by injection Hch as <- <-.
Qed.

Lemma SUBS_ghost_witness :
  let w' := (do_SUBS 1 "name room u1 u3" left_world).2 in
  rooms_of w' "room" = Some (list_to_set ["u1"; "u3"])
  ∧ w_tasks (pushToNativeClient "rciv" "room" "" [] w').2 = w_tasks w'.
Proof.
  intros w'.
  assert ((do_SUBS 1 "name room u1 u3" left_world).1 = Ret done_reply) as Hr
    by (vm_compute; reflexivity).
  assert (w_clients w' = w_clients member_world) as Hc by (vm_compute; reflexivity).
  assert (w_uuids w' = w_uuids member_world) as Hu by (vm_compute; reflexivity).
  destruct (SUBS_ghost 1 "name room u1 u3" "name" "room" "u1" "rciv" "" ["u3"] [] left_world w')
    as (H1 & _ & H2).
  - reflexivity.
  - exact left_ghost.
  - unfold w'. destruct (do_SUBS 1 "name room u1 u3" left_world). simpl in Hr. by subst.
  - intros u p. rewrite Hc, Hu. apply member_valid.
  - rewrite Hu. reflexivity.
  - split; [exact H1|exact H2].
Defined.
