(* ===== verification/CacheRace.v ===== *)
(** * The member cache under interleaving (engine/offpush.go, engine/cmd_interface.go)

    [Membership] runs a command on rooms as one step.  Here other goroutines of
    the server come between its requests to the database and its operations on
    the cache, and between the two halves of [AddAllUserIds], which finds or
    makes the collection of a room before it locks it to add the members. *)
From S2P Require Import Prelude GoStrings Wire Deps RefDeps Config Base UserIdCache Storage Router.
From S2P Require Import World PubSub Client Rooms RoomStore Auth Mail Commands Membership.

Local Open Scope string_scope.
Local Open Scope list_scope.

Section race.
  Context {EX : Externals} {NT : Net}.

(** Where a goroutine is, with what it does next. *)
Inductive cpc : Type :=
(* LoadUserIdsByChannel *)
| LGet (ch : string)                         (* GetUserIdsByChannel *)
| LRead (ch : string)                        (* Find({_id}).One *)
| FMake (ch : string) (us : list string)     (* AddAllUserIds: getValue, addNewKeyEmptyValue *)
| FAdd (ch : string) (p : ptr) (us : list string)   (* AddAllUserIds: under the lock *)
| CServed (us : list string)                 (* the members as it returns them *)
(* add_into_room *)
| AJoin (ch u : string) (todo us : list string)     (* joinRoom: Update($addToSet) *)
| AMark (ch u : string) (todo us : list string)     (* joinRoom: the rest *)
| AExists (ch : string) (us : list string)   (* Exists *)
(* unsubs; disolve, with [gone] set *)
| DFind (ch : string)                        (* disolveRoom: Find({_id}).One *)
| RLeave (gone : bool) (ch : string) (us : list string)  (* leaveRoom: Update($pullAll) *)
| REmpty (gone : bool) (ch : string) (us : list string)  (* leaveRoom: Remove({uuids: []}) *)
| RMark (gone : bool) (ch : string) (us : list string)   (* leaveRoom: the rest *)
| RExists (ch : string) (us : list string)   (* Exists *)
| RDrop (ch : string) (us : list string)     (* RemoveUserId, for each *)
| DDel (ch : string)                         (* Del *)
| CDone.

(** [AddAllUserIds] once it has the collection. *)
Definition add_all (p : ptr) (us : list string) : M ChannelToUserIds unit :=
  col ← load_collection p;
  store_collection p (mkUserIds (foldl (λ s u, (set_Add s u).1) (userIds col) us)).

Definition request (c : cpc) : M World cpc :=
  match c with
  | LGet ch =>
      o ← onCache (GetUserIdsByChannel ch);
      mret (match o with Some us => CServed us | None => LRead ch end)
  | LRead ch =>
      r ← onBase (findOne (C "channel_uuids") (by_id ch) members_only);
      match r with
      | inl _ => mret (CServed [])
      | inr result =>
          fs ← as_doc result;
          match field "uuids" fs with
          | None => mret (CServed [])
          | Some t => a ← as_arr t; us ← collectM as_str a; mret (FMake ch us)
          end
      end
  | FMake ch us => p ← onCache (find_or_create ch); mret (FAdd ch p us)
  | FAdd ch p us =>
      _ ← onCache (add_all p us); mret (CServed us)
  | CServed us => mret (CServed us)
  | AJoin ch u todo us =>
      err ← onBase (update_ (C "channel_uuids") (by_id ch) (add_members [u]));
      mret (match err with Some _ => CDone | None => AMark ch u todo us end)
  | AMark ch u todo us =>
      ts ← onBase now_UnixNano;
      err ← onBase (bulkUpdate (C "user_info")
                      (for_each [u] (VDoc [("$set", VDoc [(channelKey ch, VInt64 ts)])])));
      match err with Some _ => mret CDone | None =>
      err ← onBase (bulkUpsert (C "uuid_channels")
                      (for_each [u] (VDoc [("$addToSet", VDoc [("channels", VStr ch)])])));
      match err with Some _ => mret CDone | None =>
      _ ← mapM_ (if_online Subscribe ch) [u];
      mret (match todo with [] => AExists ch us | v :: todo' => AJoin ch v todo' us end)
      end end
  | AExists ch us =>
      b ← onCache (Exists ch); mret (if (b : bool) then FMake ch us else LRead ch)
  | DFind ch =>
      r ← onBase (findOne (C "channel_uuids") (by_id ch) members_only);
      match r with
      | inl _ => mret CDone
      | inr result =>
          v ← doc_get result "uuids"; a ← as_arr v; us ← collectM as_str a;
          mret (RLeave true ch us)
      end
  | RLeave gone ch us =>
      err ← onBase (update_ (C "channel_uuids") (by_id ch) (pull_members us));
      mret (match err with Some _ => CDone | None => REmpty gone ch us end)
  | REmpty gone ch us =>
      _ ← onBase (remove_ (C "channel_uuids") (empty_room ch)); mret (RMark gone ch us)
  | RMark gone ch us =>
      _ ← onBase (bulkUpdate (C "user_info")
                    (for_each us (VDoc [("$unset", VDoc [(channelKey ch, VInt 1)])])));
      err ← onBase (bulkUpdate (C "uuid_channels")
                      (for_each us (VDoc [("$pull", VDoc [("channels", VStr ch)])])));
      _ ← mapM_ (if_online Unsubscribe ch) us;
      mret (match err with
            | Some _ => CDone
            | None => if gone then DDel ch else RExists ch us
            end)
  | RExists ch us => b ← onCache (Exists ch); mret (if (b : bool) then RDrop ch us else CDone)
  | RDrop ch [] => mret CDone
  | RDrop ch (u :: us) => _ ← onCache (RemoveUserId ch u); mret (RDrop ch us)
  | DDel ch => _ ← onCache (Del ch); mret CDone
  | CDone => mret CDone
  end.

(** Where a goroutine starts. *)
Definition starts (c : cpc) : bool :=
  match c with
  | LGet _ | DFind _ | RLeave false _ (_ :: _) => true
  | AJoin _ u todo us => bool_decide (us = u :: todo)
  | _ => false
  end.

Record csys : Type := mkCsys { cs_world : World; cs_threads : gmap nat cpc }.

Inductive cstep : csys → csys → Prop :=
| cstep_go s t c :
    cs_threads s !! t = None → starts c → cstep s (mkCsys (cs_world s) (<[t := c]> (cs_threads s)))
| cstep_run s t c c' w' :
    cs_threads s !! t = Some c → request c (cs_world s) = (Ret c', w') →
    cstep s (mkCsys w' (<[t := c']> (cs_threads s)))
| cstep_panic s t c e w' :
    cs_threads s !! t = Some c → request c (cs_world s) = (Panic e, w') →
    cstep s (mkCsys w' (<[t := CDone]> (cs_threads s))).

(** A schedule: [inl] starts a goroutine, [inr] runs one. *)
Definition sched_step (s : csys) (a : (nat * cpc) + nat) : option csys :=
  match a with
  | inl (t, c) =>
      match cs_threads s !! t with
      | None => if starts c then Some (mkCsys (cs_world s) (<[t := c]> (cs_threads s))) else None
      | Some _ => None
      end
  | inr t =>
      c ← cs_threads s !! t;
      match request c (cs_world s) with
      | (Ret c', w') => Some (mkCsys w' (<[t := c']> (cs_threads s)))
      | _ => None
      end
  end.

Fixpoint sched (s : csys) (l : list ((nat * cpc) + nat)) : option csys :=
  match l with [] => Some s | a :: l' => s' ← sched_step s a; sched s' l' end.

Lemma sched_cstep s l s' : sched s l = Some s' → rtc cstep s s'.
Proof.
  revert s. induction l as [|a l IH]; intros s; cbn [sched]; [by intros [= ->]|].
  destruct (sched_step s a) as [s1|] eqn:E; [|done]. cbn. intros H. eapply rtc_l; [|by apply IH].
  destruct a as [[t c]|t]; cbn in E.
  - destruct (cs_threads s !! t) eqn:Et; [done|]. destruct (starts c) eqn:Es; [|done].
    injection E as <-. apply cstep_go; [done|by rewrite Es].
  - destruct (cs_threads s !! t) as [c|] eqn:Et; [|done]. cbn in E.
    destruct (request c (cs_world s)) as [[c'|e|] w'] eqn:Er; [|done..]. injection E as <-.
    by apply (cstep_run s t c).
Qed.

Lemma sched_run s t c c' w' l :
  cs_threads s !! t = Some c → request c (cs_world s) = (Ret c', w') →
  sched s (inr t :: l) = sched (mkCsys w' (<[t := c']> (cs_threads s))) l.
Proof. intros Ht Hr. cbn [sched sched_step]. rewrite Ht. simpl. by rewrite Hr. Qed.

(** A goroutine that runs alone, for at most [n] steps. *)
Fixpoint solo (n : nat) (c : cpc) : M World cpc :=
  match n with O => mret c | S n' => c' ← request c; solo n' c' end.

(** What a goroutine that loads a room returns. *)
Definition served (c : cpc) : list string := match c with CServed us => us | _ => [] end.

Lemma onCache_bind {A B} (m : M ChannelToUserIds A) (f : A → M ChannelToUserIds B) w :
  onCache (m ≫= f) w = (onCache m ≫= λ a, onCache (f a)) w.
Proof.
  unfold onCache, zoom, mbind, M_bind. by destruct (m (w_cache w)) as [[a|e|] k].
Qed.

(** Undisturbed, the steps of a load are [LoadUserIdsByChannel]. *)
Lemma load_grain ch w :
  (c ← solo 4 (LGet ch); mret (served c)) w = LoadUserIdsByChannel ch w.
Proof.
  unfold LoadUserIdsByChannel. cbn [solo]. rewrite bind_assoc_run. cbn [request].
  rewrite !bind_assoc_run. apply bind_ext_run. intros [us|] w1; [done|].
  rewrite bind_ret_run with (a := LRead ch) (s' := w1) by done. cbn [solo].
  unfold LoadUserIdsFromDatabase. fold members_only. cbn [request].
  rewrite !bind_assoc_run. apply bind_ext_run. intros [e|v] w2; [done|].
  rewrite !bind_assoc_run. apply bind_ext_run. intros fs w3.
  destruct (field "uuids" fs) as [t|]; [|done].
  rewrite !bind_assoc_run. apply bind_ext_run. intros a w4.
  rewrite !bind_assoc_run. apply bind_ext_run. intros us w5.
  rewrite bind_ret_run with (a := FMake ch us) (s' := w5) by done. cbn [solo request].
  pose proof (onCache_bind (find_or_create ch) (λ p, add_all p us) w5) as Hadd.
  change (find_or_create ch ≫= λ p, add_all p us) with (AddAllUserIds ch us) in Hadd.
  unfold mbind, M_bind in *. rewrite Hadd.
  destruct (onCache (find_or_create ch) w5) as [[p|e|] w6]; [|done..]. simpl.
  unfold mbind, M_bind. by destruct (onCache (add_all p us) w6) as [[[]|e|] w7].
Qed.

(** Likewise those of an addition are [joinRoom], those of a removal [leaveRoom],
    and those of a dissolution [disolveRoom] before them. *)
Definition after_join (ch : string) (todo us : list string) (err : option error) : cpc :=
  match err, todo with
  | Some _, _ => CDone
  | None, [] => AExists ch us
  | None, v :: todo' => AJoin ch v todo' us
  end.
Definition after_leave (gone : bool) (ch : string) (us : list string) (err : option error) : cpc :=
  match err with Some _ => CDone | None => if gone then DDel ch else RExists ch us end.

Lemma join_grain ch u todo us w :
  solo 2 (AJoin ch u todo us) w = (e ← joinRoom ch [u]; mret (after_join ch todo us e)) w.
Proof.
  cbn [solo]. unfold joinRoom. cbn [request]. fold (add_members [u]).
  rewrite !bind_assoc_run. apply bind_ext_run. intros [e|] w1; [done|].
  rewrite bind_ret_run with (a := AMark ch u todo us) (s' := w1) by done. cbn [request].
  rewrite !bind_assoc_run. apply bind_ext_run. intros ts w2.
  rewrite !bind_assoc_run. apply bind_ext_run. intros [e|] w3; [done|].
  rewrite !bind_assoc_run. apply bind_ext_run. intros [e|] w4; [done|].
  rewrite !bind_assoc_run. apply bind_ext_run. intros [] w5. by destruct todo.
Qed.

Lemma leave_grain gone ch us w :
  solo 3 (RLeave gone ch us) w = (e ← leaveRoom ch us; mret (after_leave gone ch us e)) w.
Proof.
  cbn [solo]. unfold leaveRoom. cbn [request]. fold (pull_members us) (empty_room ch).
  rewrite !bind_assoc_run. apply bind_ext_run. intros [e|] w1; [done|].
  rewrite bind_ret_run with (a := REmpty gone ch us) (s' := w1) by done. cbn [request].
  rewrite !bind_assoc_run. apply bind_ext_run. intros o w2.
  rewrite bind_ret_run with (a := RMark gone ch us) (s' := w2) by done. cbn [request].
  rewrite !bind_assoc_run. apply bind_ext_run. intros o' w3.
  rewrite !bind_assoc_run. apply bind_ext_run. intros e w4.
  rewrite !bind_assoc_run. apply bind_ext_run. intros [] w5. by destruct e, gone.
Qed.

Lemma dissolve_grain ch w :
  (c ← solo 4 (DFind ch); mret (match c with DDel _ => true | _ => false end)) w
  = (e ← disolveRoom ch; mret (match e with None => true | Some _ => false end)) w.
Proof.
  change (solo 4 (DFind ch)) with (c ← request (DFind ch); solo 3 c).
  unfold disolveRoom. cbn [request]. fold members_only.
  rewrite !bind_assoc_run. apply bind_ext_run. intros [e|v] w1; [done|].
  rewrite !bind_assoc_run. apply bind_ext_run. intros v' w2.
  rewrite !bind_assoc_run. apply bind_ext_run. intros a w3.
  rewrite !bind_assoc_run. apply bind_ext_run. intros us w4.
  rewrite bind_ret_run with (a := RLeave true ch us) (s' := w4) by done.
  pose proof (leave_grain true ch us w4) as Hl. unfold mbind, M_bind in *. rewrite Hl.
  destruct (leaveRoom ch us w4) as [[[e|]|e|] w5]; done.
Qed.

Context {RD : RoomDb} {RL : RoomDbLaws} {LL : LruLaws} {GL : GoSetLaws} `{!RoomDbUp}.

(** ** Lemmas: what each step does *)

(** Only what is most recently used may have changed in the cache. *)
Definition same_cache (w w' : World) : Prop := ∃ ch, w_cache w' = touch ch (w_cache w).

(** The steps of loads and of [add_into_room]. *)
Definition step_spec (c : cpc) (w : World) (c' : cpc) (w' : World) : Prop :=
  match c with
  | LGet ch => same_lists w w' ∧ same_cache w w'
      ∧ match members (w_cache w) ch with
        | Some _ => ∃ us, c' = CServed us
        | None => c' = LRead ch
        end
  | LRead ch => same_lists w w' ∧ w_cache w' = w_cache w
      ∧ match room_of (b_db (w_base w)) ch with
        | Some l => c' = FMake ch l
        | None => c' = CServed []
        end
  | FMake ch us => same_lists w w' ∧ cache_wf (w_cache w') ∧ lru_kept (w_cache w) (w_cache w')
      ∧ ∃ p, c' = FAdd ch p us ∧ lru_find (uc_lru (w_cache w')) ch = Some p
        ∧ write ch (Some (default ∅ (members (w_cache w) ch)))
            (members (w_cache w)) (members (w_cache w'))
  | FAdd ch p us => same_lists w w' ∧ cache_wf (w_cache w')
      ∧ uc_lru (w_cache w') = uc_lru (w_cache w) ∧ c' = CServed us
      ∧ write ch (Some (list_to_set us ∪ default ∅ (members (w_cache w) ch)))
          (members (w_cache w)) (members (w_cache w'))
  | AJoin ch u todo us => w_cache w' = w_cache w
      ∧ (c' = CDone ∨ c' = AMark ch u todo us ∧ added ch [u] w w' ∧ is_Some (rooms_of w ch))
  | AMark ch u todo us => same_lists w w' ∧ w_cache w' = w_cache w
      ∧ (c' = CDone ∨ c' = match todo with [] => AExists ch us | v :: todo' => AJoin ch v todo' us end)
  | AExists ch us => same_lists w w' ∧ same_cache w w'
      ∧ c' = match members (w_cache w) ch with Some _ => FMake ch us | None => LRead ch end
  | CServed us => w' = w ∧ c' = c
  | _ => True
  end.

(** A goroutine that adds has the collection of its room. *)
Definition holds_room (c : cpc) (w : World) : Prop :=
  match c with FAdd ch p _ => lru_find (uc_lru (w_cache w)) ch = Some p | _ => True end.

Lemma onCache_run {A} (m : M ChannelToUserIds A) w o k :
  m (w_cache w) = (o, k) → onCache m w = (o, set_cache k w).
Proof. intros Hm. unfold onCache, zoom. by rewrite Hm. Qed.

Lemma request_read ch w :
  ∃ c' w', request (LRead ch) w = (Ret c', w') ∧ step_spec (LRead ch) w c' w'.
Proof.
  cbn [request]. unfold findOne. fold cu. rewrite (bind_ret_run _ _ _ _ _ (onBase_req _ _)).
  pose proof (rd_one (b_db (w_base w)) ch members_only) as Hone.
  destruct (room_of (b_db (w_base w)) ch) as [l|] eqn:E.
  - destruct (rd_up _ _ _ E) as [v Hv].
    destruct (mgo_one _ cu (by_id ch) members_only) as [d r]. simpl in Hv. subst r.
    destruct Hone as [Hs Hr]. destruct (Hr v eq_refl) as (fs & l' & -> & Hf & Hl').
    assert (l' = l) as -> by congruence. cbn [fst snd]. set (w1 := set_base _ w).
    rewrite (bind_ret_run (as_doc (VDoc fs)) _ w1 fs w1 eq_refl). rewrite Hf.
    rewrite (bind_ret_run (as_arr (VStrs l)) _ w1 (VStr <$> l) w1 eq_refl).
    rewrite (bind_ret_run _ _ _ _ _ (collect_strs l w1)).
    eexists _, _. split; [reflexivity|]. split; [exact Hs|]. split; [done|]. by rewrite E.
  - destruct (mgo_one _ cu (by_id ch) members_only) as [d [e|v]]; destruct Hone as [Hs Hr].
    + eexists _, _. split; [reflexivity|]. split; [exact Hs|]. split; [done|]. by rewrite E.
    + destruct (Hr v eq_refl) as (fs & l' & _ & _ & Hl'). congruence.
Qed.

(** Loads and additions that have not failed. *)
Definition peaceful (c : cpc) : Prop :=
  match c with
  | LGet _ | LRead _ | FMake _ _ | FAdd _ _ _ | CServed _ => True
  | AJoin _ _ _ _ | AMark _ _ _ _ | AExists _ _ => True
  | _ => False
  end.

Lemma cache_request_run c w :
  cache_wf (w_cache w) → holds_room c w → peaceful c →
  ∃ c' w', request c w = (Ret c', w') ∧ step_spec c w c' w'.
Proof.
  intros Hwf Hhold Hp. destruct c as [ch|ch|ch us|ch p us|us|ch u todo us|ch u todo us|ch us
    |ch|g ch us|g ch us|g ch us|ch us|ch us|ch|]; try done; cbn [request].
  - destruct (GetUserIds_run ch (w_cache w) Hwf) as (r & Hrun & Hv). mstep (onCache_run _ _ _ _ Hrun).
    eexists _, _. split; [reflexivity|]. split; [done|]. split; [by exists ch|].
    destruct (members (w_cache w) ch), r; try done. by eexists.
  - apply request_read.
  - destruct (find_or_create_run ch (w_cache w) Hwf)
      as (p & k & col & Hrun & Hwf' & Hf & Hcol & Hm & Hk & Ho). mstep (onCache_run _ _ _ _ Hrun).
    eexists _, _. split; [reflexivity|]. split; [done|]. split; [done|]. split; [done|].
    exists p. split; [done|]. split; [done|]. split; [|exact Ho].
    simpl. by rewrite (members_Some _ _ _ _ Hf Hcol), Hm.
  - simpl in Hhold. destruct (wf_lookup _ _ _ Hwf Hhold) as [col Hcol].
    set (col' := mkUserIds (foldl (λ s u, (set_Add s u).1) (userIds col) us)).
    destruct (write_store ch p col' (w_cache w) (w_cache w)
                (list_to_set us ∪ default ∅ (members (w_cache w) ch)) Hwf Hhold)
      as (k & Hst & Hwf' & Hw); [by left| |].
    { rewrite (members_Some _ _ _ _ Hhold Hcol). simpl. apply set_eq. intros x.
      rewrite elem_of_list_to_set, set_elems_foldl. set_solver. }
    assert (add_all p us (w_cache w) = (Ret tt, k)) as Hrun.
    { unfold add_all, load_collection. mred. by rewrite Hcol. }
    mstep (onCache_run _ _ _ _ Hrun). eexists _, _. split; [reflexivity|].
    split; [done|]. split; [done|]. split; [|done]. injection Hst as <-. done.
  - by eexists _, _.
  - unfold update_. fold cu. rewrite (bind_ret_run _ _ _ _ _ (onBase_req _ _)).
    destruct (mgo_update (b_db (w_base w)) cu (by_id ch) (add_members [u])) as [d [e|]] eqn:E; simpl.
    { eexists _, _. split; [reflexivity|]. split; [done|]. by left. }
    apply rd_add in E as (l & l' & Hl & Hl' & Hmem & Hsame).
    eexists _, _. split; [reflexivity|]. split; [done|]. right. split; [done|].
    unfold added, rooms_of. simpl. rewrite Hl. split; [|by eexists]. split; [done|].
    intros c. case_decide as Hc; [subst c|by rewrite Hsame]. rewrite Hl'. simpl. f_equal. set_solver.
  - mstep (now_UnixNano_run w). unfold bulkUpdate.
    rewrite (bind_ret_run _ _ _ _ _ (onBase_req _ _)). set (up1 := mgo_bulk_update _ _ _).
    assert (∀ c, room_of up1.1 c = room_of (b_db (w_base w)) c) as H1 by (intros; by apply rd_bulk_update).
    destruct up1.2 as [e|].
    { eexists _, _. split; [reflexivity|]. split; [exact H1|]. split; [done|by left]. }
    unfold bulkUpsert. rewrite (bind_ret_run _ _ _ _ _ (onBase_req _ _)).
    set (up2 := mgo_bulk_upsert _ _ _).
    assert (∀ c, room_of up2.1 c = room_of (b_db (w_base w)) c) as H2
      by (intros; rewrite <- H1; by apply rd_bulk_upsert).
    destruct up2.2 as [e|].
    { eexists _, _. split; [reflexivity|]. split; [exact H2|]. split; [done|by left]. }
    rewrite (bind_ret_run _ _ _ _ _ (all_online_run Subscribe ch [u] _ (λ _ _, eq_refl))).
    eexists _, _. split; [reflexivity|]. split; [exact H2|]. split; [done|by right].
  - mstep (Exists_run ch w Hwf). eexists _, _. split; [reflexivity|]. split; [done|].
    split; [by exists ch|]. by destruct (members (w_cache w) ch).
Qed.

(** ** Calm runs: no room is evicted, nobody leaves, no update fails *)
Definition calm (s s' : csys) : Prop :=
  cstep s s'
  ∧ (∀ ch, is_Some (members (w_cache (cs_world s)) ch) → is_Some (members (w_cache (cs_world s')) ch))
  ∧ ∀ t c, cs_threads s' !! t = Some c → peaceful c.

(** Every goroutine has come to its end. *)
Definition quiescent (s : csys) : Prop :=
  ∀ t c, cs_threads s !! t = Some c → ∃ us, c = CServed us.

(** The members that the database has. *)
Definition roster (w : World) (ch : string) : gset string := default ∅ (rooms_of w ch).
Definition known (w : World) (ch : string) : Prop := is_Some (rooms_of w ch).

(** What a goroutine has in hand is on record. *)
Definition sound (w : World) (c : cpc) : Prop :=
  match c with
  | FMake ch us | AExists ch us => known w ch ∧ ∀ x, x ∈ us → x ∈ roster w ch
  | FAdd ch p us => (known w ch ∧ ∀ x, x ∈ us → x ∈ roster w ch)
                    ∧ lru_find (uc_lru (w_cache w)) ch = Some p
  | AJoin ch u todo us => u ∈ us ∧ (∀ x, x ∈ todo → x ∈ us)
                          ∧ ∀ x, x ∈ us → x ∈ u :: todo ∨ x ∈ roster w ch
  | AMark ch u todo us => known w ch ∧ (∀ x, x ∈ todo → x ∈ us)
                          ∧ ∀ x, x ∈ us → x ∈ todo ∨ x ∈ roster w ch
  | _ => True
  end.

(** A goroutine that will still see to it that [x] is cached. *)
Definition pends (c : cpc) (ch x : string) : Prop :=
  match c with
  | LRead ch' => ch' = ch
  | FMake ch' us | FAdd ch' _ us | AExists ch' us | AJoin ch' _ _ us | AMark ch' _ _ us =>
      ch' = ch ∧ x ∈ us
  | _ => False
  end.
Definition pending (s : csys) (ch x : string) : Prop :=
  ∃ t c, cs_threads s !! t = Some c ∧ pends c ch x.

Record tracked (s : csys) : Prop := {
  tk_wf : cache_wf (w_cache (cs_world s));
  tk_thread t c : cs_threads s !! t = Some c → peaceful c ∧ sound (cs_world s) c;
  tk_sub ch m : members (w_cache (cs_world s)) ch = Some m →
    known (cs_world s) ch ∧ m ⊆ roster (cs_world s) ch;
  tk_in ch m x : members (w_cache (cs_world s)) ch = Some m → x ∈ roster (cs_world s) ch →
    x ∈ m ∨ pending s ch x;
  tk_out ch t us x : members (w_cache (cs_world s)) ch = None →
    cs_threads s !! t = Some (FMake ch us) → x ∈ roster (cs_world s) ch → x ∈ us ∨ pending s ch x
}.

Lemma lists_roster w w' ch : same_lists w w' → roster w' ch = roster w ch.
Proof. intros Hl. unfold roster. by rewrite (same_lists_rooms _ _ Hl). Qed.
Lemma lists_known w w' ch : same_lists w w' → known w ch → known w' ch.
Proof. intros Hl. unfold known. by rewrite (same_lists_rooms _ _ Hl). Qed.

Section step.
  Context (c c' : cpc) (w w' : World).
  Context (Hwf : cache_wf (w_cache w)) (Hp : peaceful c) (Hp' : peaceful c') (Hs : sound w c).
  Context (Hstep : step_spec c w c' w').

(** The rooms of the database only grow, by members that are pending. *)
Lemma step_rooms ch :
  (known w ch → known w' ch) ∧ (∀ x, x ∈ roster w ch → x ∈ roster w' ch)
  ∧ ∀ x, x ∈ roster w' ch → x ∈ roster w ch ∨ pends c' ch x.
Proof.
  assert (same_lists w w' → (known w ch → known w' ch) ∧ (∀ x, x ∈ roster w ch → x ∈ roster w' ch)
    ∧ ∀ x, x ∈ roster w' ch → x ∈ roster w ch ∨ pends c' ch x) as Hsame.
  { intros Hl. rewrite (lists_roster _ _ _ Hl). split; [by apply lists_known|]. auto. }
  destruct c; try done; try (apply Hsame; apply Hstep).
  - destruct Hstep as [-> _]. by apply Hsame.
  - destruct Hstep as [_ [->|(-> & [_ Hadd] & _)]]; [done|]. unfold known, roster. rewrite Hadd.
    case_decide as Hc; [subst ch0|by auto]. destruct Hs as (Hu & _).
    destruct (rooms_of w ch) as [r|]; simpl; split_and!; try done; try set_solver.
Qed.

(** A goroutine passes on what it pends, or has just cached it. *)
Lemma step_pends ch x :
  pends c ch x → x ∈ roster w ch →
  pends c' ch x ∨ ∃ m, members (w_cache w') ch = Some m ∧ x ∈ m.
Proof.
  intros Hpd Hx. destruct c as [ch0|ch0|ch0 us|ch0 p us|us|ch0 u todo us|ch0 u todo us|ch0 us
    |ch0|g ch0 us|g ch0 us|g ch0 us|ch0 us|ch0 us|ch0|]; try done; simpl in Hpd.
  - subst ch0. destruct Hstep as (_ & _ & H1). unfold roster, rooms_of in Hx.
    destruct (room_of _ ch) as [l|]; [|set_solver]. left. subst c'. split; [done|]. set_solver.
  - destruct Hpd as [-> Hin]. destruct Hstep as (_ & _ & _ & p & -> & _). by left.
  - destruct Hpd as [-> Hin]. destruct Hstep as (_ & _ & _ & _ & [Hm _]). right.
    eexists. split; [exact Hm|]. set_solver.
  - destruct Hpd as [-> Hin]. destruct Hstep as [_ [->|[-> _]]]; [done|]. by left.
  - destruct Hpd as [-> Hin]. destruct Hstep as (_ & _ & [->| ->]); [done|]. left. by destruct todo.
  - destruct Hpd as [-> Hin]. destruct Hstep as (_ & _ & ->). left. by destruct (members _ ch).
Qed.

(** What can become of a cached room. *)
Lemma step_members ch m' :
  members (w_cache w') ch = Some m' →
  (members (w_cache w) ch = Some m')
  ∨ (∃ m p us, members (w_cache w) ch = Some m ∧ c = FAdd ch p us ∧ m' = list_to_set us ∪ m)
  ∨ (∃ us p, members (w_cache w) ch = None ∧ c = FMake ch us ∧ c' = FAdd ch p us ∧ m' = ∅).
Proof.
  intros Hm'. destruct c as [ch0|ch0|ch0 us|ch0 p us|us|ch0 u todo us|ch0 u todo us|ch0 us
    |ch0|g ch0 us|g ch0 us|g ch0 us|ch0 us|ch0 us|ch0|]; try done.
  - destruct Hstep as (_ & [k Hk] & _). left. by rewrite Hk, members_touch in Hm'.
  - destruct Hstep as (_ & Hk & _). left. by rewrite Hk in Hm'.
  - destruct Hstep as (_ & _ & _ & p & -> & _ & [Hw Ho]). destruct (decide (ch = ch0)) as [->|Hne].
    + rewrite Hw in Hm'. destruct (members (w_cache w) ch0) as [m|] eqn:E; simpl in Hm'; [by left|].
      right. right. injection Hm' as <-. by exists us, p.
    + destruct (Ho ch Hne); left; congruence.
  - destruct Hstep as (_ & _ & _ & _ & [Hw Ho]). destruct (decide (ch = ch0)) as [->|Hne].
    + rewrite Hw in Hm'. destruct Hs as [_ Hf]. destruct (wf_lookup _ _ _ Hwf Hf) as [col Hcol].
      rewrite (members_Some _ _ _ _ Hf Hcol) in Hm' |- *. injection Hm' as <-. right. left.
      by eexists _, p, us.
    + destruct (Ho ch Hne); left; congruence.
  - destruct Hstep as [-> _]. by left.
  - destruct Hstep as [Hk _]. left. by rewrite Hk in Hm'.
  - destruct Hstep as (_ & Hk & _). left. by rewrite Hk in Hm'.
  - destruct Hstep as (_ & [k Hk] & _). left. by rewrite Hk, members_touch in Hm'.
Qed.

Lemma step_cache_wf : cache_wf (w_cache w').
Proof.
  destruct c as [ch0|ch0|ch0 us|ch0 p us|us|ch0 u todo us|ch0 u todo us|ch0 us
    |ch0|g ch0 us|g ch0 us|g ch0 us|ch0 us|ch0 us|ch0|]; try done.
  - destruct Hstep as (_ & [k ->] & _). by apply wf_touch.
  - by destruct Hstep as (_ & -> & _).
  - by destruct Hstep as (_ & Hwf' & _).
  - by destruct Hstep as (_ & Hwf' & _).
  - by destruct Hstep as [-> _].
  - by destruct Hstep as [-> _].
  - by destruct Hstep as (_ & -> & _).
  - destruct Hstep as (_ & [k ->] & _). by apply wf_touch.
Qed.

Context (Hkeep : ∀ ch, is_Some (members (w_cache w) ch) → is_Some (members (w_cache w') ch)).

(** The cache stays well formed, and its rooms keep their collections. *)
Lemma step_wf : cache_wf (w_cache w')
  ∧ ∀ ch p, lru_find (uc_lru (w_cache w)) ch = Some p → lru_find (uc_lru (w_cache w')) ch = Some p.
Proof.
  split; [apply step_cache_wf|].
  destruct c as [ch0|ch0|ch0 us|ch0 p us|us|ch0 u todo us|ch0 u todo us|ch0 us
    |ch0|g ch0 us|g ch0 us|g ch0 us|ch0 us|ch0 us|ch0|]; try done.
  - destruct Hstep as (_ & [k ->] & _). intros ch p. simpl. by rewrite lru_find_Get.
  - by destruct Hstep as (_ & -> & _).
  - destruct Hstep as (_ & Hwf' & Hk & _). intros ch q Hq.
    destruct (Hk ch q Hq) as [|Hn]; [done|]. destruct (Hkeep ch) as [m Hm].
    { destruct (wf_lookup _ _ _ Hwf Hq) as [col Hcol]. by rewrite (members_Some _ _ _ _ Hq Hcol). }
    by rewrite (members_None _ _ Hn) in Hm.
  - destruct Hstep as (_ & Hwf' & -> & _). done.
  - by destruct Hstep as [-> _].
  - by destruct Hstep as [-> _].
  - by destruct Hstep as (_ & -> & _).
  - destruct Hstep as (_ & [k ->] & _). intros ch p. simpl. by rewrite lru_find_Get.
Qed.

(** A goroutine that is about to cache a cold room has all its members. *)
Lemma step_makes ch us x :
  c' = FMake ch us → members (w_cache w) ch = None → x ∈ roster w ch → x ∈ us.
Proof.
  intros Hc' Hn Hx. destruct c as [ch0|ch0|ch0 us0|ch0 p us0|us0|ch0 u todo us0|ch0 u todo us0|ch0 us0
    |ch0|g ch0 us0|g ch0 us0|g ch0 us0|ch0 us0|ch0 us0|ch0|]; try done; simpl in Hstep; subst c'.
  - destruct Hstep as (_ & _ & H1). by destruct (members _ ch0); [destruct H1|].
  - destruct Hstep as (_ & _ & H1). destruct (room_of (b_db (w_base w)) ch0) as [l|] eqn:E; [|done].
    injection H1 as -> ->. unfold roster, rooms_of in Hx. rewrite E in Hx. set_solver.
  - by destruct Hstep as (_ & _ & _ & p & H1 & _).
  - by destruct Hstep as (_ & _ & _ & H1 & _).
  - by destruct Hstep as [_ H1].
  - by destruct Hstep as [_ [H1|[H1 _]]].
  - destruct Hstep as (_ & _ & [H1|H1]); [done|]. by destruct todo.
  - destruct Hstep as (_ & _ & H1). destruct (members _ ch0) eqn:E; [|done].
    injection H1 as -> ->. congruence.
Qed.

(** Other goroutines are as sound as before. *)
Lemma step_other c0 : sound w c0 → sound w' c0.
Proof.
  intros H0. destruct step_wf as [_ Hk].
  assert (∀ ch (us : list string), known w ch ∧ (∀ x, x ∈ us → x ∈ roster w ch) →
            known w' ch ∧ (∀ x, x ∈ us → x ∈ roster w' ch)) as Hk2.
  { intros ch us [H1 H2]. destruct (step_rooms ch) as (Hkn & Hr & _). auto. }
  destruct c0 as [ch0|ch0|ch0 us|ch0 p us|us|ch0 u todo us|ch0 u todo us|ch0 us
    |ch0|g ch0 us|g ch0 us|g ch0 us|ch0 us|ch0 us|ch0|]; try done; simpl in *.
  - by apply Hk2.
  - destruct H0 as [H0 Hf]. auto.
  - destruct (step_rooms ch0) as (_ & Hr & _). destruct H0 as (H1 & H2 & H3).
    split_and!; [done..|]. intros x Hx. destruct (H3 x Hx); auto.
  - destruct (step_rooms ch0) as (Hkn & Hr & _). destruct H0 as (H1 & H2 & H3).
    split_and!; [auto|done|]. intros x Hx. destruct (H3 x Hx); auto.
  - by apply Hk2.
Qed.

(** The goroutine itself is sound afterwards. *)
Lemma step_sound : sound w' c'.
Proof.
  destruct c as [ch0|ch0|ch0 us|ch0 p us|us|ch0 u todo us|ch0 u todo us|ch0 us
    |ch0|g ch0 us|g ch0 us|g ch0 us|ch0 us|ch0 us|ch0|] eqn:Ec; try done.
  - destruct Hstep as (_ & _ & H1). destruct (members _ _); [by destruct H1 as [us ->]|by rewrite H1].
  - destruct Hstep as (Hl & _ & H1). destruct (room_of (b_db (w_base w)) ch0) as [l|] eqn:E; [|by rewrite H1].
    rewrite H1. split.
    + apply (lists_known w); [done|]. unfold known, rooms_of. rewrite E. by eexists.
    + intros x Hx. rewrite (lists_roster _ _ _ Hl). unfold roster, rooms_of. rewrite E. set_solver.
  - destruct Hstep as (Hl & _ & _ & p & H1 & Hf & _). rewrite H1. split; [|done]. destruct Hs as [Hk Hm].
    split; [by apply (lists_known w)|]. by rewrite (lists_roster _ _ _ Hl).
  - by destruct Hstep as (_ & _ & _ & -> & _).
  - by destruct Hstep as [_ ->].
  - destruct Hstep as [_ [H1|(H1 & [_ Hadd] & Hkn)]]; rewrite H1; [done|]. destruct Hs as (_ & Ht & Hm).
    unfold sound, known, roster. rewrite Hadd, decide_True by done. destruct Hkn as [r Hr].
    unfold roster in Hm. rewrite Hr in *. simpl in *. split; [by eexists|]. split; [done|].
    intros x Hx. destruct (Hm x Hx) as [[->|?]%elem_of_cons|?]; [right|by left|right]; set_solver.
  - destruct Hstep as (Hl & _ & [H1|H1]); rewrite H1; [done|]. destruct Hs as (Hk & Ht & Hm).
    destruct todo as [|v todo]; simpl; rewrite (lists_roster _ _ _ Hl).
    + split; [by apply (lists_known w)|]. intros x Hx. destruct (Hm x Hx) as [?%elem_of_nil|]; done.
    + split; [apply Ht; by left|]. split; [intros x Hx; apply Ht; by right|done].
  - destruct Hstep as (Hl & _ & ->). destruct Hs as [Hk Hm].
    destruct (members _ ch0); simpl; [|done]. rewrite (lists_roster _ _ _ Hl).
    split; [by apply (lists_known w)|done].
Qed.
End step.

Lemma tracked_run s t c c' w' :
  tracked s → cs_threads s !! t = Some c → peaceful c' → step_spec c (cs_world s) c' w' →
  (∀ ch, is_Some (members (w_cache (cs_world s)) ch) → is_Some (members (w_cache w') ch)) →
  tracked (mkCsys w' (<[t := c']> (cs_threads s))).
Proof.
  intros [Hwf Hth Hsub Hin Hout] Ht Hp' Hst Hkeep. set (w := cs_world s) in *.
  destruct (Hth t c Ht) as [Hp Hs].
  pose proof (step_wf c c' w w' Hwf Hp Hs Hst Hkeep) as [Hwf' _].
  pose proof (step_rooms c c' w w' Hwf Hp Hp' Hs Hst) as Hrooms.
  pose proof (step_pends c c' w w' Hwf Hp Hp' Hs Hst) as Hpends.
  pose proof (step_members c c' w w' Hwf Hp Hp' Hs Hst) as Hmem.
  set (s' := mkCsys w' (<[t := c']> (cs_threads s))).
  assert (∀ ch x, pends c' ch x → pending s' ch x) as Hnew.
  { intros ch x Hx. exists t, c'. split; [apply lookup_insert_eq|done]. }
  (* what was pending is pending still, or cached now *)
  assert (∀ ch x, pending s ch x → x ∈ roster w ch →
    pending s' ch x ∨ ∃ m, members (w_cache w') ch = Some m ∧ x ∈ m) as Hold.
  { intros ch x (t0 & c0 & Ht0 & Hp0) Hx. destruct (decide (t0 = t)) as [->|Hne].
    - rewrite Ht in Ht0. injection Ht0 as <-. destruct (Hpends ch x Hp0 Hx); auto.
    - left. exists t0, c0. simpl. by rewrite lookup_insert_ne. }
  split; [exact Hwf'| | | |].
  - intros t0 c0. simpl. destruct (decide (t = t0)) as [<-|Hne].
    + rewrite lookup_insert_eq. intros [= <-]. split; [done|].
      by apply (step_sound c c' w w').
    + rewrite lookup_insert_ne by done. intros [Hp0 Hs0]%Hth. split; [done|].
      by apply (step_other c c' w w').
  - intros ch m' Hm'. destruct (Hrooms ch) as (Hk & Hr & _). simpl in *.
    destruct (Hmem ch m' Hm') as [Hm|[(m & p & us & Hm & -> & ->)|(us & p & Hm & -> & -> & ->)]].
    + destruct (Hsub ch m' Hm) as [H1 H2]. split; [auto|]. intros x Hx. auto.
    + destruct (Hsub ch m Hm) as [H1 H2]. destruct Hs as [[_ Hus] _]. split; [auto|].
      intros x [Hx|Hx]%elem_of_union; [|auto]. apply Hr, Hus. by apply elem_of_list_to_set in Hx.
    + destruct Hs as [Hkn _]. split; [auto|]. intros x []%elem_of_empty.
  - intros ch m' x Hm' Hx. simpl in *. destruct (Hrooms ch) as (_ & _ & Hr).
    destruct (Hr x Hx) as [Hx0|Hx0]; [|right; by apply Hnew].
    assert (pending s ch x → x ∈ m' ∨ pending s' ch x) as Hpend.
    { intros Hpd. destruct (Hold ch x Hpd Hx0) as [?|(m & Hm & ?)]; [by right|left; congruence]. }
    destruct (Hmem ch m' Hm') as [Hm|[(m & p & us & Hm & -> & ->)|(us & p & Hm & -> & -> & ->)]].
    + destruct (Hin ch m' x Hm Hx0); [by left|auto].
    + destruct (Hin ch m x Hm Hx0); [left; set_solver|auto].
    + destruct (Hout ch t us x Hm Ht Hx0) as [Hu|]; [right; by apply Hnew|auto].
  - intros ch t1 us x Hn Ht1 Hx. simpl in *. destruct (Hrooms ch) as (_ & _ & Hr).
    destruct (Hr x Hx) as [Hx0|Hx0]; [|right; by apply Hnew].
    assert (members (w_cache w) ch = None) as Hn0.
    { destruct (members (w_cache w) ch) as [m|] eqn:E; [|done].
      destruct (Hkeep ch) as [m' Hm']; [by rewrite E|]. congruence. }
    destruct (decide (t = t1)) as [<-|Hne].
    + rewrite lookup_insert_eq in Ht1. injection Ht1 as ->. left. by apply (step_makes c (FMake ch us) w w' Hwf Hp Hp' Hs Hst Hkeep ch us x).
    + rewrite lookup_insert_ne in Ht1 by done.
      destruct (Hout ch t1 us x Hn0 Ht1 Hx0) as [|Hpd]; [by left|].
      destruct (Hold ch x Hpd Hx0) as [?|(m & Hm & _)]; [by right|congruence].
Qed.

Lemma tracked_go s t c :
  tracked s → cs_threads s !! t = None → starts c → peaceful c →
  tracked (mkCsys (cs_world s) (<[t := c]> (cs_threads s))).
Proof.
  intros [Hwf Hth Hsub Hin Hout] Ht Hs Hp. set (s' := mkCsys _ _).
  assert (∀ ch x, pending s ch x → pending s' ch x) as Hmono.
  { intros ch x (t0 & c0 & Ht0 & Hp0). exists t0, c0. simpl. by rewrite lookup_insert_ne by congruence. }
  split; [exact Hwf| |exact Hsub| |].
  - intros t0 c0. simpl. destruct (decide (t = t0)) as [<-|Hne].
    + rewrite lookup_insert_eq. intros [= <-]. split; [done|]. destruct c; try done.
      simpl in Hs. apply Is_true_true, bool_decide_eq_true in Hs as ->. simpl.
      split_and!; [by left|by right|by left].
    + rewrite lookup_insert_ne by done. apply Hth.
  - intros ch m x Hm Hx. destruct (Hin ch m x Hm Hx); auto.
  - intros ch t1 us x Hn Ht1 Hx. simpl in Ht1. destruct (decide (t = t1)) as [<-|Hne].
    + rewrite lookup_insert_eq in Ht1. by injection Ht1 as ->.
    + rewrite lookup_insert_ne in Ht1 by done. destruct (Hout ch t1 us x Hn Ht1 Hx); auto.
Qed.

Lemma tracked_calm s s' : tracked s → calm s s' → tracked s'.
Proof.
  intros HT (Hs & Hkeep & Hp). destruct Hs as [s t c Ht Hs|s t c c' w' Ht Hr|s t c e w' Ht Hr].
  - apply tracked_go; try done. apply (Hp t). apply lookup_insert_eq.
  - destruct (tk_thread s HT t c Ht) as [Hpc Hsound].
    destruct (cache_request_run c (cs_world s)) as (c1 & w1 & Hrun & Hstep); [apply (tk_wf s HT)| |done|].
    { destruct c; try done. apply Hsound. }
    rewrite Hr in Hrun. injection Hrun as <- <-.
    apply (tracked_run s t c); try done. apply (Hp t). apply lookup_insert_eq.
  - destruct (Hp t CDone). apply lookup_insert_eq.
Qed.

(** A run is calm when the cache keeps its entries. *)
Lemma calm_intro s t c c' w' :
  tracked s → cs_threads s !! t = Some c → request c (cs_world s) = (Ret c', w') →
  (∀ t0 c0, <[t := c']> (cs_threads s) !! t0 = Some c0 → peaceful c0) →
  uc_lru (w_cache w') = uc_lru (w_cache (cs_world s)) →
  calm s (mkCsys w' (<[t := c']> (cs_threads s))).
Proof.
  intros HT Ht Hr Hp Hlru. split; [by apply (cstep_run s t c)|]. split; [|exact Hp].
  destruct (tk_thread s HT t c Ht) as [Hpc Hsound]. pose proof (tk_wf s HT) as Hwf.
  destruct (cache_request_run c (cs_world s)) as (c1 & w1 & Hrun & Hstep); [done| |done|].
  { destruct c; try done. apply Hsound. }
  rewrite Hr in Hrun. injection Hrun as <- <-.
  assert (peaceful c') as Hpc' by (apply (Hp t); apply lookup_insert_eq).
  assert (cache_wf (w_cache w')) as Hwf'.
  { by apply (step_cache_wf c c' (cs_world s)). }
  intros ch [m Hm]. simpl. destruct (lru_find (uc_lru (w_cache (cs_world s))) ch) as [p|] eqn:E.
  - rewrite <- Hlru in E. destruct (wf_lookup _ _ _ Hwf' E) as [col Hcol].
    by rewrite (members_Some _ _ _ _ E Hcol).
  - by rewrite (members_None _ _ E) in Hm.
Qed.

Lemma tracked_start w : coherent w → tracked (mkCsys w ∅).
Proof.
  intros [Hwf Hco]. split; simpl; [done| | | |].
  - intros t c H1. by rewrite lookup_empty in H1.
  - intros ch m Hm. unfold known, roster. rewrite (Hco ch m Hm). by split; [eexists|].
  - intros ch m x Hm. unfold roster. rewrite (Hco ch m Hm). simpl. by left.
  - intros ch t us x _ H1. by rewrite lookup_empty in H1.
Qed.

(** ** Lemmas: one goroutine runs while the others wait *)
Lemma run_make s t ch us :
  cache_wf (w_cache (cs_world s)) → cs_threads s !! t = Some (FMake ch us) →
  ∃ p w', cstep s (mkCsys w' (<[t := FAdd ch p us]> (cs_threads s)))
    ∧ step_spec (FMake ch us) (cs_world s) (FAdd ch p us) w'
    ∧ w_clients w' = w_clients (cs_world s) ∧ w_uuids w' = w_uuids (cs_world s)
    ∧ w_tasks w' = w_tasks (cs_world s).
Proof.
  intros Hwf Ht. destruct (cache_request_run (FMake ch us) (cs_world s) Hwf I I) as (c' & w' & Hrun & Hst).
  pose proof Hst as (_ & _ & _ & p & -> & _). exists p, w'. split; [by apply (cstep_run s t (FMake ch us))|].
  split; [done|]. cbn [request] in Hrun. unfold onCache, zoom, mbind, M_bind in Hrun.
  destruct (find_or_create ch (w_cache (cs_world s))) as [[q|e|] k]; try done. by injection Hrun as _ <-.
Qed.

Lemma run_fill s t ch us :
  cache_wf (w_cache (cs_world s)) → cs_threads s !! t = Some (FMake ch us) →
  ∃ s', rtc cstep s s' ∧ cs_threads s' = <[t := CServed us]> (cs_threads s)
    ∧ same_lists (cs_world s) (cs_world s')
    ∧ members (w_cache (cs_world s')) ch
      = Some (list_to_set us ∪ default ∅ (members (w_cache (cs_world s)) ch)).
Proof.
  intros Hwf Ht. destruct (run_make s t ch us Hwf Ht) as (p & w1 & Hs1 & Hst1 & _).
  destruct Hst1 as (Hl1 & Hwf1 & _ & p' & [= <-] & Hf & [Hm1 _]).
  set (s1 := mkCsys w1 _) in Hs1.
  destruct (cache_request_run (FAdd ch p us) w1 Hwf1 Hf I) as (c' & w2 & Hrun & Hst2).
  destruct Hst2 as (Hl2 & _ & _ & -> & [Hm2 _]).
  eexists. split; [eapply rtc_l; [exact Hs1|]; apply rtc_once;
    apply (cstep_run s1 t (FAdd ch p us) (CServed us) w2); [apply lookup_insert_eq|exact Hrun]|].
  simpl. split; [by rewrite insert_insert_eq|]. split; [intros c; by rewrite (Hl2 c)|].
  by rewrite Hm2, Hm1.
Qed.

(** The requests of a removal, when the room is not cached. *)
Lemma run_leave s t ch u :
  cache_wf (w_cache (cs_world s)) → cs_threads s !! t = Some (RLeave false ch [u]) →
  members (w_cache (cs_world s)) ch = None →
  (mgo_update (b_db (w_base (cs_world s))) cu (by_id ch) (pull_members [u])).2 = None →
  ∃ s', rtc cstep s s' ∧ cs_threads s' = <[t := CDone]> (cs_threads s)
    ∧ cache_wf (w_cache (cs_world s'))
    ∧ members (w_cache (cs_world s')) ch = None ∧ u ∉ roster (cs_world s') ch.
Proof.
  destruct s as [w ts]. simpl. intros Hwf Ht Hn Hup.
  destruct (mgo_update _ cu (by_id ch) (pull_members [u])) as [d1 r1] eqn:E1. simpl in Hup. subst r1.
  set (w1 := set_base (mkBase d1 (b_tick (w_base w))) w).
  assert (request (RLeave false ch [u]) w = (Ret (REmpty false ch [u]), w1)) as Hr1.
  { cbn [request]. unfold update_. fold cu. rewrite (bind_ret_run _ _ _ _ _ (onBase_req _ _)). by rewrite E1. }
  set (d2 := (mgo_remove d1 cu (empty_room ch)).1).
  set (w2 := set_base (mkBase d2 (b_tick (w_base w))) w).
  assert (request (REmpty false ch [u]) w1 = (Ret (RMark false ch [u]), w2)) as Hr2.
  { cbn [request]. unfold remove_. fold cu. by rewrite (bind_ret_run _ _ _ _ _ (onBase_req _ _)). }
  assert (u ∉ roster w2 ch) as Hgone.
  { apply rd_pull in E1 as (l & l' & _ & Hl' & Hmem & _). unfold roster, rooms_of. simpl.
    destruct (rd_remove d1 ch) as [_ [Hrm|[_ Hrm]]]; fold d2 in Hrm; rewrite Hrm; [|simpl; set_solver].
    rewrite Hl'. simpl. rewrite elem_of_list_to_set, Hmem. set_solver. }
  assert (∃ c3 w3, request (RMark false ch [u]) w2 = (Ret c3, w3) ∧ same_lists w2 w3
            ∧ w_cache w3 = w_cache w ∧ (c3 = CDone ∨ c3 = RExists ch [u])) as (c3 & w3 & Hr3 & Hl3 & Hc3 & Hd3).
  { cbn [request]. unfold bulkUpdate. rewrite (bind_ret_run _ _ _ _ _ (onBase_req _ _)).
    set (up1 := mgo_bulk_update _ _ _).
    rewrite (bind_ret_run _ _ _ _ _ (onBase_req _ _)). set (up2 := mgo_bulk_update _ _ _).
    rewrite (bind_ret_run _ _ _ _ _ (all_online_run Unsubscribe ch [u] _ (λ _ _, eq_refl))).
    eexists _, _. split; [reflexivity|]. split; [|split; [done|]].
    - intros c. simpl. unfold up2. rewrite rd_bulk_update by done. simpl. unfold up1. by rewrite rd_bulk_update.
    - destruct up2.2; auto. }
  assert (∃ w4, request c3 w3 = (Ret CDone, w4) ∧ same_lists w3 w4
            ∧ cache_wf (w_cache w4) ∧ members (w_cache w4) ch = None) as (w4 & Hr4 & Hl4 & Hwf4 & Hn4).
  { destruct Hd3 as [->| ->]; cbn [request].
    - exists w3. by rewrite Hc3.
    - mstep (Exists_run ch w3 ltac:(by rewrite Hc3)). rewrite Hc3, Hn. eexists. split; [reflexivity|].
      split; [done|]. split; [by apply wf_touch|by simpl; rewrite members_touch]. }
  exists (mkCsys w4 (<[t := CDone]> ts)). split; [|split; [done|split; [done|split; [done|]]]].
  - assert (∀ c c' w0 w0', request c w0 = (Ret c', w0') →
      cstep (mkCsys w0 (<[t := c]> ts)) (mkCsys w0' (<[t := c']> ts))) as Hgo.
    { intros c c' w0 w0' Hr.
      pose proof (cstep_run (mkCsys w0 (<[t := c]> ts)) t c c' w0' (lookup_insert_eq _ _ _) Hr) as Hs.
      cbn [cs_threads] in Hs. by rewrite insert_insert_eq in Hs. }
    rewrite <- (insert_id ts t (RLeave false ch [u])) at 1 by done.
    eapply rtc_l; [by apply Hgo|]. eapply rtc_l; [by apply Hgo|]. eapply rtc_l; [by apply Hgo|].
    apply rtc_once. by apply Hgo.
  - simpl. by rewrite (lists_roster w3 w4), (lists_roster w2 w3).
Qed.

(** ** Properties *)

(** (C6) Loads and additions converge.  However the goroutines of one server that
    load rooms and add members interleave, from a coherent cache, as long as no
    room is evicted, nobody is removed and no update fails: at every moment the
    cached members of a room are members on record, and when all goroutines
    have come to their end the cache is coherent, with no member missing. *)
Theorem cache_converges (w : World) (s : csys) (Hco : coherent w)
    (Hr : rtc calm (mkCsys w ∅) s) :
  (∀ ch m, members (w_cache (cs_world s)) ch = Some m → m ⊆ roster (cs_world s) ch)
  ∧ (quiescent s → coherent (cs_world s)).
Proof.
  assert (tracked s) as HT.
  { apply (rtc_ind_r (R := calm) tracked (mkCsys w ∅)); [by apply tracked_start| |done].
    intros s1 s2 _ Hs HT. by apply (tracked_calm s1). }
  destruct HT as [Hwf Hth Hsub Hin Hout]. split; [intros ch m Hm; by apply Hsub|].
  intros Hq. split; [done|]. intros ch m Hm. destruct (Hsub ch m Hm) as [[r Hr'] Hmr].
  rewrite Hr'. f_equal. unfold roster in *. rewrite Hr' in Hmr. simpl in Hmr.
  apply (anti_symm (⊆)); [|done]. intros x Hx.
  destruct (Hin ch m x Hm) as [|(t & c & Ht & Hp)]; [unfold roster; by rewrite Hr'|done|].
  destruct (Hq t c Ht) as [us ->]. done.
Qed.

(** A room that is being loaded looks empty.  [AddAllUserIds] puts a new room
    into the cache before it takes the lock to fill it: whoever looks the room up
    in between finds it cached with nobody in it, and a message for the room is
    written to no connection at all, whoever its members are. *)
Theorem half_loaded (s : csys) (t : nat) (ch : string) (us : list string)
    (Hwf : cache_wf (w_cache (cs_world s))) (Hl : registry_valid (cs_world s))
    (Hb : cmap_Get (w_uuids (cs_world s)) "" = None)
    (Ht : cs_threads s !! t = Some (FMake ch us))
    (Hn : members (w_cache (cs_world s)) ch = None) :
  ∃ s', cstep s s' ∧ ∀ op owner msg,
    (pushToNativeClient op ch owner msg (cs_world s')).1 = Ret tt
    ∧ w_tasks (pushToNativeClient op ch owner msg (cs_world s')).2 = w_tasks (cs_world s).
Proof.
  destruct (run_make s t ch us Hwf Ht) as (p & w' & Hs & Hst & Hc & Hu & Htk).
  destruct Hst as (_ & Hwf' & _ & p' & _ & _ & [Hm _]). rewrite Hn in Hm. simpl in Hm.
  eexists. split; [exact Hs|]. intros op owner msg. simpl.
  destruct (pushToNativeClient_run op ch owner msg ∅ w') as (l & Hnil & ->); try done.
  { intros u q. rewrite Hu, Hc. apply Hl. }
  { by rewrite Hu. }
  split; [done|]. apply Permutation_nil_r in Hnil as ->. simpl. by rewrite Htk, app_nil_r.
Qed.

(** A removal can be undone by a load.  A goroutine that has read the members
    of a room from the database, and has not cached them yet, caches a user that
    [unsubs] has taken out in the meantime: both goroutines come to their end,
    the database does not have the user, the cache does. *)
Theorem stale_load (s : csys) (t1 t2 : nat) (ch u : string) (us : list string)
    (Hwf : cache_wf (w_cache (cs_world s))) (Hne : t1 ≠ t2) (Hu : u ∈ us)
    (Ht1 : cs_threads s !! t1 = Some (FMake ch us))
    (Ht2 : cs_threads s !! t2 = Some (RLeave false ch [u]))
    (Hn : members (w_cache (cs_world s)) ch = None)
    (Hup : (mgo_update (b_db (w_base (cs_world s))) cu (by_id ch) (pull_members [u])).2 = None) :
  ∃ s', rtc cstep s s'
    ∧ cs_threads s' = <[t1 := CServed us]> (<[t2 := CDone]> (cs_threads s))
    ∧ members (w_cache (cs_world s')) ch = Some (list_to_set us) ∧ u ∉ roster (cs_world s') ch.
Proof.
  destruct (run_leave s t2 ch u Hwf Ht2 Hn Hup) as (s1 & Hr1 & Hts1 & Hwf1 & Hn1 & Hgone).
  destruct (run_fill s1 t1 ch us Hwf1) as (s2 & Hr2 & Hts2 & Hl2 & Hm2).
  { rewrite Hts1, lookup_insert_ne by done. exact Ht1. }
  exists s2. split; [by trans s1|]. split; [by rewrite Hts2, Hts1|].
  rewrite Hn1 in Hm2. simpl in Hm2. rewrite union_empty_r_L in Hm2. split; [done|].
  by rewrite (lists_roster _ _ _ Hl2).
Qed.

(** A room can be cached in part.  [add_into_room] decides by [Exists] to add
    only the new users; if the room is evicted before it does, the cache is left
    with a room of these users alone, and delivers to nobody else. *)
Theorem evicted_add (s : csys) (t : nat) (ch x : string) (us : list string)
    (Hwf : cache_wf (w_cache (cs_world s)))
    (Ht : cs_threads s !! t = Some (FMake ch us))
    (Hn : members (w_cache (cs_world s)) ch = None)
    (Hx : x ∈ roster (cs_world s) ch) (Hnx : x ∉ us) :
  ∃ s', rtc cstep s s' ∧ cs_threads s' = <[t := CServed us]> (cs_threads s)
    ∧ x ∈ roster (cs_world s') ch
    ∧ members (w_cache (cs_world s')) ch = Some (list_to_set us) ∧ ¬ x ∈@{gset string} list_to_set us.
Proof.
  destruct (run_fill s t ch us Hwf Ht) as (s1 & Hr1 & Hts1 & Hl1 & Hm1).
  rewrite Hn in Hm1. simpl in Hm1. rewrite union_empty_r_L in Hm1.
  exists s1. split; [done|]. split; [done|]. rewrite (lists_roster _ _ _ Hl1).
  split; [done|]. split; [done|]. by rewrite elem_of_list_to_set.
Qed.
End race.

Import Ref RoomRef.
#[local] Existing Instance room_externals.

(** ** Schedules on the reference database *)
Definition peacefulb (c : cpc) : bool :=
  match c with
  | LGet _ | LRead _ | FMake _ _ | FAdd _ _ _ | CServed _ => true
  | AJoin _ _ _ _ | AMark _ _ _ _ | AExists _ _ => true
  | _ => false
  end.

(** No step of the schedule changes which rooms are cached, and all are peaceful. *)
Fixpoint calm_check (s : csys) (l : list ((nat * cpc) + nat)) : bool :=
  match l with
  | [] => true
  | a :: l' =>
      match sched_step s a with
      | None => false
      | Some s' =>
          bool_decide ((uc_lru (w_cache (cs_world s')) : nat * list (string * nat))
                       = uc_lru (w_cache (cs_world s)))
          && forallb peacefulb (map_to_list (cs_threads s')).*2 && calm_check s' l'
      end
  end.

Lemma calm_sched s l s' :
  tracked s → sched s l = Some s' → calm_check s l = true → rtc calm s s'.
Proof.
  revert s. induction l as [|a l IH]; intros s HT; cbn [sched calm_check]; [by intros [= ->]|].
  destruct (sched_step s a) as [s1|] eqn:E; [|done]. cbn. intros Hs Hc.
  apply andb_prop in Hc as [[Hlru Hp]%andb_prop Hc]. apply bool_decide_eq_true in Hlru.
  assert (∀ t0 c0, cs_threads s1 !! t0 = Some c0 → peaceful c0) as Hpeace.
  { intros t0 c0 Ht0. rewrite forallb_forall in Hp.
    assert (peacefulb c0 = true) as H1; [|by destruct c0].
    apply Hp, list_elem_of_In, list_elem_of_fmap. exists (t0, c0).
    split; [done|]. by apply elem_of_map_to_list. }
  assert (calm s s1) as Hcalm.
  { destruct a as [[t c]|t]; cbn in E.
    - destruct (cs_threads s !! t) eqn:Et; [done|]. destruct (starts c) eqn:Es; [|done].
      injection E as <-. split; [apply cstep_go; [done|by rewrite Es]|]. done.
    - destruct (cs_threads s !! t) as [c|] eqn:Et; [|done]. cbn in E.
      destruct (request c (cs_world s)) as [[c'|e|] w'] eqn:Er; [|done..]. injection E as <-.
      by apply (calm_intro s t c c' w'). }
  eapply rtc_l; [exact Hcalm|]. apply IH; [by apply (tracked_calm s)|done|done].
Qed.

(** [u3] is added to the cached room while somebody publishes to it. *)
Definition calm_run : list ((nat * cpc) + nat) :=
  [inl (1%nat, AJoin "room" "u3" [] ["u3"]); inr 1%nat; inl (2%nat, LGet "room"); inr 1%nat;
   inr 1%nat; inr 2%nat; inr 1%nat; inr 1%nat].
Definition warm : csys := mkCsys warm_world ∅.
Definition calm_end : csys := default warm (sched warm calm_run).

Lemma calm_end_run : rtc calm warm calm_end.
Proof.
  assert (bool_decide (is_Some (sched warm calm_run)) = true) as H by (vm_compute; reflexivity).
  apply bool_decide_eq_true in H as [s Hs]. apply (calm_sched _ calm_run).
  - apply tracked_start, warm_coherent.
  - unfold calm_end. by rewrite Hs.
  - vm_compute. reflexivity.
Qed.

Lemma calm_end_quiescent : quiescent calm_end.
Proof.
  intros t c Ht%elem_of_map_to_list.
  assert (forallb (λ c, match c with CServed _ => true | _ => false end)
            (map_to_list (cs_threads calm_end)).*2 = true) as H by (vm_compute; reflexivity).
  rewrite forallb_forall in H. specialize (H c).
  destruct c as [| | | |us| | | | | | | | | | |]; try (discriminate H; apply list_elem_of_In, list_elem_of_fmap;
    by eexists (_, _)). by exists us.
Qed.

Lemma cache_converges_witness :
  coherent (cs_world calm_end)
  ∧ members (w_cache (cs_world calm_end)) "room" = Some {["u1"; "u2"; "u3"]}.
Proof.
  split.
  - exact (proj2 (cache_converges warm_world calm_end warm_coherent calm_end_run) calm_end_quiescent).
  - apply (bool_decide_unpack (_ = _)). vm_compute. exact I.
Defined.

(** A goroutine has read the cold room and is about to cache it. *)
Definition loading : csys :=
  let cold := mkCsys member_world ∅ in
  default cold (sched cold [inl (1%nat, LGet "room"); inr 1%nat; inr 1%nat]).

Lemma half_loaded_witness :
  ∃ s', cstep loading s' ∧ w_tasks (pushToNativeClient "RCIV" "room" "u1" [] (cs_world s')).2 = [].
Proof.
  destruct (half_loaded loading 1 "room" ["u1"; "u2"] (cache_wf_new 10) member_valid)
    as (s' & Hs & Hpush); [reflexivity|vm_compute; reflexivity|vm_compute; reflexivity|].
  exists s'. split; [exact Hs|]. exact (proj2 (Hpush "RCIV" "u1" [])).
Defined.

(** Another one is about to take [u2] out of the room. *)
Definition leaving : csys :=
  default loading (sched loading [inl (2%nat, RLeave false "room" ["u2"])]).

Lemma stale_load_witness :
  ∃ s', rtc cstep leaving s' ∧ members (w_cache (cs_world s')) "room" = Some (list_to_set ["u1"; "u2"])
        ∧ "u2" ∉ roster (cs_world s') "room".
Proof.
  destruct (stale_load leaving 1 2 "room" "u2" ["u1"; "u2"] (cache_wf_new 10))
    as (s' & Hr & _ & Hm & Hu); [discriminate|by right; left|vm_compute; reflexivity..|].
  exists s'. split; [exact Hr|]. split; [exact Hm|exact Hu].
Defined.

(** A cache that holds one room: [u3] is about to be added to it when another
    room is loaded. *)
Definition crowded : csys :=
  let start := mkCsys (set_cache (newChannelToUserIds 1)
    (set_base (mkBase (MG := room_mongo)
       ({[ "room" := ["u1"; "u2"]; "den" := ["u4"] ]} : gmap string (list string)) 0) member_world)) ∅ in
  default start (sched start
    [inl (1%nat, LGet "room"); inr 1%nat; inr 1%nat; inr 1%nat; inr 1%nat;
     inl (2%nat, AJoin "room" "u3" [] ["u3"]); inr 2%nat; inr 2%nat; inr 2%nat;
     inl (3%nat, LGet "den"); inr 3%nat; inr 3%nat; inr 3%nat; inr 3%nat]).

Lemma one_entry_wf (k : ChannelToUserIds) ch p :
  (uc_lru k : nat * list (string * nat)) = (0%nat, [(ch, p)]) → is_Some (uc_heap k !! p) → cache_wf k.
Proof.
  intros Hlru Hp.
  assert (∀ c q, lru_find (uc_lru k) c = Some q → c = ch ∧ q = p) as Hone.
  { intros c q. unfold lru_find. destruct k as [l h]. simpl in *. subst l. simpl.
    case_decide; [|done]. by intros [= <-]. }
  split; [by intros c q [_ ->]%Hone|]. intros c c' q [-> _]%Hone [-> _]%Hone. done.
Qed.

Lemma crowded_wf : cache_wf (w_cache (cs_world crowded)).
Proof. apply (one_entry_wf _ "den" 1%nat); vm_compute; eauto. Qed.

Lemma evicted_add_witness :
  ∃ s', rtc cstep crowded s' ∧ "u1" ∈ roster (cs_world s') "room"
        ∧ members (w_cache (cs_world s')) "room" = Some (list_to_set ["u3"]).
Proof.
  destruct (evicted_add crowded 2 "room" "u1" ["u3"] crowded_wf) as (s' & Hr & _ & Hx & Hm & _);
    [vm_compute; reflexivity|vm_compute; reflexivity| | |].
  - apply (bool_decide_unpack (_ ∈ _)). vm_compute. exact I.
  - by apply (bool_decide_unpack (¬ "u1" ∈ ["u3"])).
  - exists s'. split; [exact Hr|]. split; [exact Hx|exact Hm].
Defined.
