(* ===== verification/Frames.v ===== *)
(** * Frame chats (engine/cmd_interface.go, engine/client.go)

    A frame chat is a temporary room for voice and video, a document of
    [unstable_info] with the users who are in it.  [FrameDb] states what MongoDB
    documents about the requests on that collection; over it the commands
    [frame_apply], [frame_join], [frame_accept], [frame_out] and [frame_dismiss],
    and the closing of a connection, refine a small machine.  [FrameRace] takes
    the commands apart into their requests and lets them interleave. *)
From S2P Require Import Prelude GoStrings Wire Deps RefDeps Config Base UserIdCache Storage Router.
From S2P Require Import World PubSub Client Rooms RoomStore Auth Mail Commands.

Local Open Scope string_scope.
Local Open Scope list_scope.
Local Open Scope Z_scope.

(** ** The documents and the requests *)
Record frame : Type := mkFrame {
  f_subtype : Z;
  f_proposer : string;
  f_channelId : string;
  f_time : Z;
  f_activeUser : list string
}.

Definition with_active (l : list string) (f : frame) : frame :=
  mkFrame (f_subtype f) (f_proposer f) (f_channelId f) (f_time f) l.

Definition ui : coll := C "unstable_info".
Definition frame_doc (o : string) (f : frame) : value :=
  VDoc [("type", VInt UNSTABLE_INFO_TYPE_FRAME_CHAT); ("subtype", VInt (f_subtype f));
        ("proposer", VStr (f_proposer f)); ("channelId", VStr (f_channelId f));
        ("time", VInt64 (f_time f)); ("activeUser", VStrs (f_activeUser f)); ("_id", VOid o)].
Definition of_channel (ch : string) : value := VDoc [("channelId", VStr ch)].
Definition the_proposer : value := VDoc [("_id", VInt 0); ("proposer", VInt 1)].
Definition push_user (u : string) : value := VDoc [("$push", VDoc [("activeUser", VStr u)])].
Definition pull_user (u : string) : value := VDoc [("$pull", VDoc [("activeUser", VStr u)])].
Definition nobody_in (o : string) : value := VDoc [("_id", VOid o); ("activeUser", VStrs [])].

Definition others (u : string) (l : list string) : list string := filter (λ x, x ≠ u) l.

(** ** What MongoDB promises

    [frame_of d o] is the document [o] of [unstable_info].  The database is
    reachable: a request on this collection fails for the reason it names. *)
Class FrameDb `{Mongo} : Type := { frame_of : db → string → option frame }.

Definition same_frames `{FrameDb} (d d' : db) : Prop := ∀ o, frame_of d' o = frame_of d o.
Definition put_frame `{FrameDb} (o : string) (v : option frame) (d d' : db) : Prop :=
  ∀ x, frame_of d' x = if decide (x = o) then v else frame_of d x.

Class FrameDbLaws `{FrameDb} : Prop := {
  fd_insert d o f :
    let '(d', err) := mgo_insert d ui [frame_doc o f] in
    match err with
    | None => frame_of d o = None ∧ put_frame o (Some f) d d'
    | Some _ => same_frames d d'
    end;
  fd_push d o u :
    let '(d', err) := mgo_update d ui (by_oid o) (push_user u) in
    match err with
    | None => ∃ f, frame_of d o = Some f
                   ∧ put_frame o (Some (with_active (f_activeUser f ++ [u]) f)) d d'
    | Some _ => frame_of d o = None ∧ same_frames d d'
    end;
  (** [$pull] takes every occurrence away *)
  fd_pull d o u :
    let '(d', r) := mgo_apply d ui (by_oid o) (pull_user u) in
    match r with
    | inr v => ∃ f fs, frame_of d o = Some f
        ∧ put_frame o (Some (with_active (others u (f_activeUser f)) f)) d d'
        ∧ v = VDoc fs ∧ field "activeUser" fs = Some (VStrs (others u (f_activeUser f)))
        ∧ field "channelId" fs = Some (VStr (f_channelId f))
    | inl _ => frame_of d o = None ∧ same_frames d d'
    end;
  fd_remove_empty d o :
    let '(d', err) := mgo_remove d ui (nobody_in o) in
    match err with
    | None => ∃ f, frame_of d o = Some f ∧ f_activeUser f = [] ∧ put_frame o None d d'
    | Some _ => same_frames d d' ∧ ∀ f, frame_of d o = Some f → f_activeUser f ≠ []
    end;
  fd_remove d o :
    let '(d', err) := mgo_remove d ui (by_oid o) in put_frame o None d d';
  fd_find d ch :
    match (mgo_one d ui (of_channel ch) the_proposer).2 with
    | inr v => ∃ o f fs, frame_of d o = Some f ∧ f_channelId f = ch ∧ v = VDoc fs
                ∧ field "proposer" fs = Some (VStr (f_proposer f))
    | inl _ => ∀ o f, frame_of d o = Some f → f_channelId f ≠ ch
    end;
  (** reading, and requests on other collections *)
  fd_one d c q prj : same_frames d (mgo_one d c q prj).1;
  fd_bulk_upsert d c ps : coll_name c ≠ "unstable_info" →
    same_frames d (mgo_bulk_upsert d c ps).1
}.

(** ** The machine *)
Definition chats : Type := string → option frame.
Definition same_chats (m m' : chats) : Prop := ∀ x, m' x = m x.
Definition set_chat (o : string) (v : option frame) (m m' : chats) : Prop :=
  ∀ x, m' x = if decide (x = o) then v else m x.

(** A chat after one of its users has left: it ends with the last of them. *)
Definition left_by (u : string) (f : frame) : option frame :=
  match others u (f_activeUser f) with
  | [] => None
  | l => Some (with_active l f)
  end.

Inductive chat_op : Type :=
| OpApply (subtype : Z) (ch : string)
| OpEnter (o : string)
| OpLeave (o : string)
| OpNone.

Section frames.
  Context {EX : Externals} {NT : Net} {CF : Global}.

(** What a command asks for. *)
Definition op_of (cmd P : string) : chat_op :=
  if String.eqb cmd CMD_FRAME_APPLY then
    match Split space P with
    | [t; ch] => match Atoi t with Some n => OpApply n ch | None => OpNone end
    | _ => OpNone
    end
  else
    match (if IsObjectIdHex P then ObjectIdHex P else None) with
    | None => OpNone
    | Some o =>
        if bool_decide (cmd ∈ [CMD_FRAME_JOIN; CMD_FRAME_ACCEPT]) then OpEnter o
        else if bool_decide (cmd ∈ [CMD_FRAME_OUT; CMD_FRAME_DISMISS]) then OpLeave o
        else OpNone
    end.

Definition frame_commands : list string :=
  [CMD_FRAME_APPLY; CMD_FRAME_JOIN; CMD_FRAME_ACCEPT; CMD_FRAME_OUT; CMD_FRAME_DISMISS;
   CMD_FRAME_REFUSE; CMD_FRAME_INFO; CMD_INVOKE_FRAME_ACTION].

Definition code (c : Z) (t : string) : outcome result := Ret (fmt_d c +:+ " " +:+ t, None).

(** If the command answers, it answers [r]: announcing the change may fail. *)
Definition answers (r : outcome result) (o : outcome result) : Prop := ∀ x, o = Ret x → o = r.

Definition spec_op (u : string) (op : chat_op) (m m' : chats) (out : outcome result) : Prop :=
  match op with
  | OpApply n ch =>
      (∃ o f, m o = Some f ∧ f_channelId f = ch ∧ same_chats m m'
              ∧ out = code CODE_FAILED (if String.eqb (f_proposer f) u then "10002" else "10001"))
      ∨ (∀ o f, m o = Some f → f_channelId f ≠ ch)
        ∧ (same_chats m m' ∧ (out = code CODE_FAILED "10001" ∨ out = code CODE_FAILED "500")
           ∨ ∃ o now, m o = None ∧ set_chat o (Some (mkFrame n u ch now [u])) m m'
                      ∧ answers (code CODE_SUCCESS (Hex o)) out)
  | OpEnter o =>
      match m o with
      | None => same_chats m m' ∧ out = code CODE_FAILED "10003"
      | Some f => set_chat o (Some (with_active (f_activeUser f ++ [u]) f)) m m'
                  ∧ answers (code CODE_SUCCESS "success") out
      end
  | OpLeave o =>
      match m o with
      | None => same_chats m m' ∧ out = code CODE_FAILED "500"
      | Some f => set_chat o (left_by u f) m m' ∧ answers (code CODE_SUCCESS "success") out
      end
  | OpNone => same_chats m m'
  end.

(** ** Publishing leaves the chats alone *)
Context {FD : FrameDb} {FL : FrameDbLaws}.

Definition chats_of (w : World) : chats := frame_of (b_db (w_base w)).
Definition FR : relation World := λ w w', same_chats (chats_of w) (chats_of w').

#[local] Instance FR_preorder : PreOrder FR.
Proof.
  split; unfold FR, same_chats; [done|]. intros w1 w2 w3 H1 H2 o. by rewrite H2, H1.
Qed.

Lemma quiet_req {A} (f : db → db * A) :
  (∀ d, same_frames d (f d).1) → within FR (onBase (on_db f)).
Proof. intros Hf w. rewrite onBase_req. intros o. apply Hf. Qed.

Lemma quiet_one c q prj : within FR (onBase (findOne c q prj)).
Proof. apply quiet_req. intros d. apply fd_one. Qed.
Lemma quiet_upsert c ps : coll_name c ≠ "unstable_info" → within FR (onBase (bulkUpsert c ps)).
Proof. intros Hc. apply quiet_req. intros d. by apply fd_bulk_upsert. Qed.
Lemma quiet_cache {A} (m : M ChannelToUserIds A) : within FR (onCache m).
Proof. apply within_onCache. by intros s w. Qed.
Lemma quiet_proxy {A} (m : M S2sProxy A) : within FR (onProxy m).
Proof. apply within_onProxy; [apply _|]. by intros s w. Qed.
Lemma quiet_spawn t : within FR (spawn t).
Proof. by intros w. Qed.
Lemma quiet_client p : within FR (get_client p).
Proof. apply within_get_client; apply _. Qed.
Hint Resolve quiet_one quiet_cache quiet_proxy quiet_spawn quiet_client : within.

Lemma quiet_PublishStrMsg ch msg owner b : within FR (PublishStrMsg ch msg owner b).
Proof.
  unfold PublishStrMsg, pushToNativeClient, fetchAllMatchUserIds, LoadUserIdsByChannel,
    LoadUserIdsFromDatabase, pushOne, GetClient, forwardToAllOtherServer, onForward. frame.
Qed.

(** The same for the state of the database alone. *)
Definition BR : relation Base := λ b b', same_chats (frame_of (b_db b)) (frame_of (b_db b')).

#[export] Instance BR_preorder : PreOrder BR.
Proof.
  split; unfold BR, same_chats; [done|]. intros b1 b2 b3 H1 H2 o. by rewrite H2, H1.
Qed.

Lemma on_db_BR {A} (f : db → db * A) : (∀ d, same_frames d (f d).1) → within BR (on_db f).
Proof. intros Hf b o. unfold on_db. pose proof (Hf (b_db b) o). by destruct (f (b_db b)). Qed.

Lemma FetchUuids_BR ch : within BR (FetchUuidsAboutChannel ch).
Proof.
  unfold FetchUuidsAboutChannel. apply within_bind; [apply _| |intros r; frame].
  apply on_db_BR. intros d. apply fd_one.
Qed.

Lemma quiet_FetchUuids ch : within FR (onBase (FetchUuidsAboutChannel ch)).
Proof.
  intros w o. unfold onBase, zoom. pose proof (FetchUuids_BR ch (w_base w) o) as H.
  by destruct (FetchUuidsAboutChannel ch (w_base w)).
Qed.
Hint Resolve quiet_PublishStrMsg quiet_FetchUuids : within.
Lemma quiet_frame_over o v u ch : within FR (frame_over o v u ch).
Proof. unfold frame_over. frame. by apply quiet_upsert. Qed.
Hint Resolve quiet_frame_over : within.

(** ** How the commands end *)

(** What is left to do keeps the chats and can only answer [r]. *)
Definition closing (r : outcome result) (m : M World result) : Prop :=
  within FR m ∧ ∀ w, answers r (m w).1.

Lemma closing_reply c t : closing (code c t) (reply c t).
Proof. split; [by intros w|]. intros w x [= <-]. done. Qed.

Lemma closing_bind {A} r (m : M World A) k :
  within FR m → (∀ a, closing r (k a)) → closing r (m ≫= k).
Proof.
  intros Hm Hk. split; [apply within_bind; [apply _|done|apply Hk]|].
  intros w x. unfold mbind, M_bind. destruct (m w) as [[a|e|] w'].
  - apply Hk.
  - by intros [= <-].
  - done.
Qed.

Ltac closes := repeat first [apply closing_reply | apply closing_bind; [by frame|intros ?]].

(** After a request that has changed the chat [o]. *)
Lemma closing_put r m o v d w :
  closing r m → put_frame o v (b_db (w_base w)) d →
  let out := m (set_base (mkBase d (b_tick (w_base w))) w) in
  set_chat o v (chats_of w) (chats_of out.2) ∧ answers r out.1.
Proof.
  intros [Hq Ha] Hput. split; [|apply Ha]. intros x. rewrite (Hq _ x). apply Hput.
Qed.

Lemma object_id_run P o w : ObjectIdHex P = Some o → object_id P w = (Ret o, w).
Proof. intros H. unfold object_id. by rewrite H. Qed.

Lemma enter_chat_run cmd p P o c w :
  w_clients w !! p = Some c → IsObjectIdHex P = true → ObjectIdHex P = Some o →
  let out := frame_enter cmd p P w in
  spec_op (uuid c) (OpEnter o) (chats_of w) (chats_of out.2) out.1.
Proof.
  intros Hc Hi Ho. unfold frame_enter. rewrite Hi. cbn [negb].
  mstep (object_id_run P o w Ho). cbv zeta. mstep (my_uuid_run p c w Hc).
  unfold update_. fold ui (push_user (uuid c)). rewrite (bind_ret_run _ _ _ _ _ (onBase_req _ _)).
  pose proof (fd_push (b_db (w_base w)) o (uuid c)) as H. cbn [spec_op].
  destruct (mgo_update _ ui (by_oid o) _) as [d [e|]]; cbn [fst snd] in *.
  - destruct H as [Hn Hs]. unfold chats_of at 1. rewrite Hn. by split.
  - destruct H as (f & Hf & Hput). unfold chats_of at 1. rewrite Hf.
    apply closing_put; [|done]. unfold success. closes.
Qed.

Lemma put_put o v v' d1 d2 d3 : put_frame o v d1 d2 → put_frame o v' d2 d3 → put_frame o v' d1 d3.
Proof. intros H1 H2 x. rewrite H2. case_decide; [done|]. by rewrite H1, decide_False. Qed.

(** [findAndModify] and, when nobody is left, [Remove]: the two requests by
    which a user leaves a chat. *)
Lemma pull_run o u w :
  ∃ d r, pull_active o u w = (Ret r, set_base (mkBase d (b_tick (w_base w))) w)
    ∧ match r with
      | inl _ => chats_of w o = None ∧ same_frames (b_db (w_base w)) d
      | inr v => ∃ f fs, chats_of w o = Some f ∧ v = VDoc fs
          ∧ put_frame o (Some (with_active (others u (f_activeUser f)) f)) (b_db (w_base w)) d
          ∧ field "activeUser" fs = Some (VStrs (others u (f_activeUser f)))
          ∧ field "channelId" fs = Some (VStr (f_channelId f))
      end.
Proof.
  unfold pull_active, applyOne. fold ui (pull_user u). rewrite onBase_req.
  pose proof (fd_pull (b_db (w_base w)) o u) as H.
  destruct (mgo_apply _ ui (by_oid o) _) as [d r]. eexists d, r. split; [done|].
  destruct r as [e|v]; [done|]. destruct H as (f & fs & ? & ? & ? & ? & ?). by exists f, fs.
Qed.

Lemma remove_run o f d w :
  put_frame o (Some f) d (b_db (w_base w)) →
  ∃ d2 r, remove_empty o w = (Ret r, set_base (mkBase d2 (b_tick (w_base w))) w)
    ∧ match r with
      | None => f_activeUser f = [] ∧ put_frame o None d d2
      | Some _ => f_activeUser f ≠ [] ∧ put_frame o (Some f) d d2
      end.
Proof.
  intros Hput. unfold remove_empty, remove_. fold ui (nobody_in o). rewrite onBase_req.
  pose proof (fd_remove_empty (b_db (w_base w)) o) as H.
  assert (frame_of (b_db (w_base w)) o = Some f) as Hf by by rewrite Hput, decide_True.
  destruct (mgo_remove _ ui (nobody_in o)) as [d2 r]. exists d2, r. split; [done|].
  destruct r as [e|].
  - destruct H as [Hs He]. split; [by apply He|]. intros x. by rewrite Hs, Hput.
  - destruct H as (f' & Hf' & He & Hrm). split; [congruence|]. by apply (put_put _ _ _ _ _ _ Hput).
Qed.

Lemma left_by_empty u f : others u (f_activeUser f) = [] → left_by u f = None.
Proof. unfold left_by. by intros ->. Qed.
Lemma left_by_rest u f :
  others u (f_activeUser f) ≠ [] → left_by u f = Some (with_active (others u (f_activeUser f)) f).
Proof. unfold left_by. by destruct (others u _). Qed.

Lemma leave_chat_run cmd b p P o c w :
  w_clients w !! p = Some c → IsObjectIdHex P = true → ObjectIdHex P = Some o →
  let out := frame_leave cmd b p P w in
  spec_op (uuid c) (OpLeave o) (chats_of w) (chats_of out.2) out.1.
Proof.
  intros Hc Hi Ho. unfold frame_leave. rewrite Hi. cbn [negb].
  mstep (object_id_run P o w Ho). cbv zeta. mstep (my_uuid_run p c w Hc).
  destruct (pull_run o (uuid c) w) as (d & r & Hrun & Hr). mstep Hrun. cbn [spec_op].
  destruct r as [e|v]; [destruct Hr as [-> Hs]; by split|].
  destruct Hr as (f & fs & -> & -> & Hput & Hact & _). set (w1 := set_base _ w).
  set (l := others (uuid c) (f_activeUser f)) in *.
  rewrite (bind_ret_run (doc_get (VDoc fs) "activeUser") _ w1 (VStrs l) w1)
    by (unfold doc_get; mred; by rewrite Hact).
  rewrite (bind_ret_run (as_arr (VStrs l)) _ w1 (VStr <$> l) w1 eq_refl), length_fmap.
  assert (∀ r m v d', closing r m → put_frame o v (b_db (w_base w)) d' →
            let out := m (set_base (mkBase d' (b_tick (w_base w))) w1) in
            set_chat o v (chats_of w) (chats_of out.2) ∧ answers r out.1) as Hclose.
  { intros r m v d' Hm Hp. apply (closing_put r m o v d' w Hm Hp). }
  destruct (Nat.eqb_spec (length l) 0) as [E|E].
  - apply nil_length_inv in E. rewrite left_by_empty by done.
    destruct (remove_run o _ (b_db (w_base w)) w1 Hput) as (d2 & r & Hrm & Hr). mstep Hrm.
    destruct r as [e|]; [by destruct Hr as [[] _]|]. destruct Hr as [_ Hnone].
    apply (Hclose (code CODE_SUCCESS "success")); [|done]. unfold success. destruct b; closes.
  - rewrite left_by_rest by (intros E'; apply E; by unfold l; rewrite E').
    rewrite (bind_ret_run (mret (Some ErrNotFound)) _ w1 _ w1 eq_refl).
    apply (Hclose (code CODE_SUCCESS "success") _ _ d); [|done]. unfold success. closes.
Qed.

(** The search of [frame_apply]. *)
Lemma find_run ch w :
  ∃ d r, onBase (findOne ui (of_channel ch) the_proposer) w =
           (Ret r, set_base (mkBase d (b_tick (w_base w))) w)
    ∧ same_frames (b_db (w_base w)) d
    ∧ match r with
      | inr v => ∃ o f fs, chats_of w o = Some f ∧ f_channelId f = ch ∧ v = VDoc fs
                  ∧ field "proposer" fs = Some (VStr (f_proposer f))
      | inl _ => ∀ o f, chats_of w o = Some f → f_channelId f ≠ ch
      end.
Proof.
  unfold findOne. rewrite onBase_req. pose proof (fd_find (b_db (w_base w)) ch) as H.
  pose proof (fd_one (b_db (w_base w)) ui (of_channel ch) the_proposer) as Hs.
  destruct (mgo_one _ ui _ _) as [d r]. by exists d, r.
Qed.

(** What follows the insertion of the document of a new chat. *)
Definition announce (n : Z) (u ch o : string) : M World result :=
  us ← onBase (FetchUuidsAboutChannel ch);
  err0 ← onBase (bulkUpsert (C "user_info")
           (for_each us (VDoc [("$push", VDoc [("frame_chat", VOid o)])])));
  match err0 with
  | Some _ => _ ← onBase (remove_ (C "unstable_info") (by_oid o)); reply CODE_FAILED "500"
  | None =>
      _ ← onCache (AddUserId (Hex o) u);
      _ ← PublishStrMsg ch (frame_notice CMD_FRAME_APPLY [fmt_d n; u; Hex o; ch]) u true;
      reply CODE_SUCCESS (Hex o)
  end.

Lemma announce_run n u ch o w :
  let out := announce n u ch o w in
  same_chats (chats_of w) (chats_of out.2) ∧ answers (code CODE_SUCCESS (Hex o)) out.1
  ∨ set_chat o None (chats_of w) (chats_of out.2) ∧ out.1 = code CODE_FAILED "500".
Proof.
  unfold announce. pose proof (quiet_FetchUuids ch w) as H1.
  destruct (onBase (FetchUuidsAboutChannel ch) w) as [[us|e|] w1] eqn:E.
  2: rewrite (bind_panic_run _ _ _ _ _ E). 3: rewrite (bind_block_run _ _ _ _ E).
  2,3: left; split; [exact H1|by intros x].
  rewrite (bind_ret_run _ _ _ _ _ E). cbv zeta. set (docs := for_each us _).
  pose proof (quiet_upsert (C "user_info") docs ltac:(done) w1) as H2. unfold bulkUpsert in *.
  rewrite onBase_req in H2. rewrite (bind_ret_run _ _ _ _ _ (onBase_req _ _)).
  destruct (mgo_bulk_upsert _ _ docs) as [d [e|]]; cbn [fst snd] in *; set (w2 := set_base _ w1) in *.
  - right. unfold remove_. fold ui. rewrite (bind_ret_run _ _ _ _ _ (onBase_req _ _)).
    pose proof (fd_remove (b_db (w_base w2)) o) as Hr. destruct (mgo_remove _ ui (by_oid o)) as [d' e'].
    split; [|done]. intros x. unfold chats_of at 1. simpl. rewrite Hr. case_decide; [done|].
    rewrite <- (H1 x). apply H2.
  - left. set (m := _ ← onCache _; _). assert (closing (code CODE_SUCCESS (Hex o)) m) as [Hq Ha] by closes.
    split; [|apply Ha]. intros x. rewrite (Hq _ x). rewrite <- (H1 x). apply H2.
Qed.

Lemma apply_run p P t ch n c w :
  w_clients w !! p = Some c → Split space P = [t; ch] → Atoi t = Some n →
  let out := do_FRAME_APPLY p P w in
  spec_op (uuid c) (OpApply n ch) (chats_of w) (chats_of out.2) out.1.
Proof.
  intros Hc HP Ht. unfold do_FRAME_APPLY. rewrite HP, Ht. mstep (my_uuid_run p c w Hc).
  fold ui (of_channel ch) the_proposer. destruct (find_run ch w) as (d & r & Hrun & Hs & Hr).
  mstep Hrun. set (w1 := set_base _ w). cbn [spec_op].
  destruct r as [e|v].
  2: { destruct Hr as (o & f & fs & Ho & Hch & -> & Hf). left. exists o, f.
       rewrite (bind_ret_run (doc_get (VDoc fs) "proposer") _ w1 (VStr (f_proposer f)) w1)
         by (unfold doc_get; mred; by rewrite Hf).
       rewrite (bind_ret_run (as_str (VStr _)) _ w1 (f_proposer f) w1 eq_refl).
       by destruct (String.eqb (f_proposer f) (uuid c)). }
  right. split; [done|]. clear Hr.
  rewrite (bind_ret_run (onBase draw_oid) _ w1 (NewObjectId (b_tick (w_base w1))) (tick w1) eq_refl).
  rewrite (bind_ret_run _ _ _ _ _ (now_Unix_run (tick w1))).
  set (o := NewObjectId _). set (now := UnixNano _ / _). set (w2 := tick (tick w1)).
  pose proof (fd_insert (b_db (w_base w2)) o (mkFrame n (uuid c) ch now [uuid c])) as Hi.
  unfold frame_doc in Hi. simpl f_subtype in Hi. simpl f_proposer in Hi. simpl f_channelId in Hi.
  simpl f_time in Hi. simpl f_activeUser in Hi.
  unfold insert_. fold ui. rewrite (bind_ret_run _ _ _ _ _ (onBase_req _ _)).
  destruct (mgo_insert _ ui _) as [d' [e'|]]; cbn [fst snd].
  { left. split; [|by left]. intros x. unfold chats_of at 1. simpl. rewrite (Hi x). apply (Hs x). }
  destruct Hi as [Hn Hput]. set (w3 := set_base _ w2).
  assert (set_chat o (Some (mkFrame n (uuid c) ch now [uuid c])) (chats_of w) (chats_of w3)) as Hset.
  { intros x. unfold chats_of at 1. simpl. rewrite Hput. case_decide; [done|]. apply (Hs x). }
  assert (chats_of w o = None) as Ho by (rewrite <- Hn; symmetry; apply Hs).
  destruct (announce_run n (uuid c) ch o w3) as [[Hq Ha]|[Hq Ha]].
  - right. exists o, now. split; [done|]. split; [|exact Ha]. intros x.
    etransitivity; [apply (Hq x)|apply Hset].
  - left. split; [|by right]. intros x. etransitivity; [apply (Hq x)|].
    case_decide; [by subst|]. rewrite (Hset x). by rewrite decide_False.
Qed.

(** ** The end of a connection *)
Lemma clear1_run p c o w :
  w_clients w !! p = Some c →
  let w' := (clearFrameChat1 p (VOid o) w).2 in
  set_chat o (chats_of w o ≫= left_by (uuid c)) (chats_of w) (chats_of w').
Proof.
  intros Hc. unfold clearFrameChat1. rewrite (bind_ret_run (as_oid (VOid o)) _ w o w eq_refl).
  cbv zeta. mstep (get_client_run p c w Hc).
  destruct (pull_run o (uuid c) w) as (d & r & Hrun & Hr). mstep Hrun.
  destruct r as [e|v].
  { destruct Hr as [Hn Hs]. rewrite Hn. intros x. case_decide as E; [subst; simpl; rewrite <- Hn|]; apply (Hs _). }
  destruct Hr as (f & fs & Hf & -> & Hput & _ & _). rewrite Hf. set (w1 := set_base _ w).
  destruct (remove_run o _ (b_db (w_base w)) w1 Hput) as (d2 & r & Hrm & Hr). mstep Hrm.
  destruct r as [e|]; destruct Hr as [Ha Hp]; simpl in Ha; simpl.
  - rewrite left_by_rest by done. exact Hp.
  - rewrite left_by_empty by done. intros x. etransitivity; [apply (quiet_frame_over _ _ _ _ _ x)|apply Hp].
Qed.

Lemma others_idem u l : others u (others u l) = others u l.
Proof.
  unfold others. induction l as [|x l IH]; [done|]. rewrite filter_cons. case_decide; [|done].
  by rewrite filter_cons, decide_True, IH.
Qed.

Lemma left_by_left u f : left_by u f ≫= left_by u = left_by u f.
Proof.
  unfold left_by at 2 3. destruct (others u (f_activeUser f)) as [|x l] eqn:E; [done|].
  cbn [mbind option_bind]. unfold left_by. cbn [f_activeUser with_active].
  by rewrite <- E, others_idem, E.
Qed.

(** All the chats of a list have been left. *)
Definition left_all (u : string) (os : list string) (m m' : chats) : Prop :=
  ∀ x, m' x = if decide (x ∈ os) then m x ≫= left_by u else m x.

Lemma left_all_cons u o os m m1 m' :
  set_chat o (m o ≫= left_by u) m m1 → left_all u os m1 m' → left_all u (o :: os) m m'.
Proof.
  intros H1 H2 x. rewrite H2, H1. destruct (decide (x = o)) as [->|Hne].
  - rewrite (decide_True (P := o ∈ o :: os)) by (by left). case_decide; [|done].
    destruct (m o) as [f|]; [apply left_by_left|done].
  - destruct (decide (x ∈ os)); [by rewrite decide_True by (by right)|].
    rewrite decide_False; [done|]. by intros [|]%elem_of_cons.
Qed.

Lemma clear_all_run p c os w w' :
  w_clients w !! p = Some c → mapM_ (clearFrameChat1 p) (VOid <$> os) w = (Ret tt, w') →
  left_all (uuid c) os (chats_of w) (chats_of w').
Proof.
  revert w. induction os as [|o os IH]; intros w Hc.
  - intros [= <-] x. by rewrite decide_False by apply not_elem_of_nil.
  - cbn [fmap list_fmap mapM_]. pose proof (clear1_run p c o w Hc) as H1. cbv zeta in H1.
    assert (within (same w_clients) (clearFrameChat1 p (VOid o))) as Hw.
    { assert (Inert (same (w_clients (EX := EX) (NT := NT)))) by by apply inert_same.
      unfold clearFrameChat1. World.frame. }
    specialize (Hw w). destruct (clearFrameChat1 p (VOid o) w) as [[[]|e|] w1] eqn:E.
    + mstep E. intros Hrun. apply (left_all_cons _ _ _ _ _ _ H1). apply (IH w1); [|done].
      unfold same in Hw. simpl in Hw. by rewrite Hw.
    + by rewrite (bind_panic_run _ _ _ _ _ E).
    + by rewrite (bind_block_run _ _ _ _ E).
Qed.

Definition the_chats : value := VDoc [("frame_chat", VInt 1); ("_id", VInt 0)].

Lemma clearFrameChat_left p c fs os w w' :
  w_clients w !! p = Some c →
  (mgo_one (b_db (w_base w)) (C "user_info") (by_id (uuid c)) the_chats).2 = inr (VDoc fs) →
  field "frame_chat" fs = Some (VArr (VOid <$> os)) →
  clearFrameChat p w = (Ret tt, w') →
  left_all (uuid c) os (chats_of w) (chats_of w').
Proof.
  intros Hc Hone Hf. unfold clearFrameChat. mstep (get_client_run p c w Hc).
  fold the_chats. unfold findOne. rewrite (bind_ret_run _ _ _ _ _ (onBase_req _ _)), Hone.
  pose proof (fd_one (b_db (w_base w)) (C "user_info") (by_id (uuid c)) the_chats) as Hs.
  set (w1 := set_base _ w).
  rewrite (bind_ret_run (doc_get (VDoc fs) "frame_chat") _ w1 (VArr (VOid <$> os)) w1)
    by (unfold doc_get; mred; by rewrite Hf).
  rewrite (bind_ret_run (as_arr (VArr _)) _ w1 (VOid <$> os) w1 eq_refl).
  intros Hrun. assert (left_all (uuid c) os (chats_of w1) (chats_of w')) as H.
  { destruct os as [|o os]; [|by apply (clear_all_run p)].
    injection Hrun as <-. intros x. by rewrite decide_False by apply not_elem_of_nil. }
  intros x. rewrite (H x). change (chats_of w1 x) with (frame_of (mgo_one (b_db (w_base w))
    (C "user_info") (by_id (uuid c)) the_chats).1 x). by rewrite (Hs x).
Qed.

(** A parameter that is no object id. *)
Definition no_id (P : string) : Prop := (if IsObjectIdHex P then ObjectIdHex P else None) = None.

Lemma no_id_quiet cmd b p P w :
  no_id P → FR w (frame_enter cmd p P w).2 ∧ FR w (frame_leave cmd b p P w).2.
Proof.
  unfold no_id, frame_enter, frame_leave, object_id. intros Hid.
  destruct (IsObjectIdHex P); [|by split]. by rewrite Hid.
Qed.

Lemma op_of_None cmd P :
  cmd ∈ [CMD_FRAME_JOIN; CMD_FRAME_ACCEPT; CMD_FRAME_OUT; CMD_FRAME_DISMISS] →
  op_of cmd P = OpNone → no_id P.
Proof.
  intros Hc. unfold op_of, no_id.
  destruct (String.eqb_spec cmd CMD_FRAME_APPLY) as [->|_]; [by vm_compute in Hc; set_solver|].
  destruct (if IsObjectIdHex P then ObjectIdHex P else None); [|done].
  case_bool_decide; [done|]. case_bool_decide; [done|]. set_solver.
Qed.

Lemma APPLY_quiet p P w : op_of CMD_FRAME_APPLY P = OpNone → FR w (do_FRAME_APPLY p P w).2.
Proof.
  unfold op_of, do_FRAME_APPLY. cbn [String.eqb]. intros H. repeat case_match; try done; reflexivity.
Qed.

Lemma notice_quiet p P :
  within FR (do_FRAME_REFUSE p P) ∧ within FR (do_FRAME_INFO p P)
  ∧ within FR (do_INVOKE_FRAME_ACTION p P).
Proof.
  unfold do_FRAME_REFUSE, do_FRAME_INFO, do_INVOKE_FRAME_ACTION, frame_action1, my_uuid, success,
    reply, object_id.
  split_and!; World.frame.
Qed.

Lemma Process_quiet p cmd P P2 w :
  cmd ∈ frame_commands → op_of cmd P = OpNone →
  FR w (Process (mkCmdline cmd P P2 p) w).2.
Proof.
  intros Hcmd Hop. destruct (notice_quiet p P) as (H1 & H2 & H3).
  apply list_elem_of_In in Hcmd.
  destruct Hcmd as [<-|[<-|[<-|[<-|[<-|[<-|[<-|[<-|[]]]]]]]]];
    try (apply op_of_None in Hop; [|set_solver]).
  - by apply APPLY_quiet.
  - by apply (no_id_quiet CMD_FRAME_JOIN true).
  - by apply (no_id_quiet CMD_FRAME_ACCEPT true).
  - by apply (no_id_quiet CMD_FRAME_OUT true).
  - by apply (no_id_quiet CMD_FRAME_DISMISS false).
  - apply H1.
  - apply H2.
  - apply H3.
Qed.

Lemma op_of_id cmd P o :
  op_of cmd P = OpEnter o ∨ op_of cmd P = OpLeave o →
  IsObjectIdHex P = true ∧ ObjectIdHex P = Some o
  ∧ (op_of cmd P = OpEnter o → cmd = CMD_FRAME_JOIN ∨ cmd = CMD_FRAME_ACCEPT)
  ∧ (op_of cmd P = OpLeave o → cmd = CMD_FRAME_OUT ∨ cmd = CMD_FRAME_DISMISS).
Proof.
  unfold op_of. destruct (String.eqb cmd CMD_FRAME_APPLY); [repeat case_match; naive_solver|].
  destruct (IsObjectIdHex P); [|naive_solver]. destruct (ObjectIdHex P) as [o'|]; [|naive_solver].
  case_bool_decide as H1; [|case_bool_decide as H2]; intros [H|H]; try done; injection H as ->;
    split_and!; try done; intros _; set_solver.
Qed.

(** ** Properties *)

(** (C22) Frame chats are a small machine, over a database that can be reached (a
    request fails only where the record it is about makes it fail).  Whatever a
    frame command is given, the chats on record change exactly as the machine says and the reply tells which
    way it went: a chat is created only for a channel that has none, with its
    proposer in it; one enters or leaves a chat that exists, and is told when it
    does not; leaving removes the user for good, and the chat with its last
    user; everything else leaves every chat alone.  The change stands even when
    announcing it fails. *)
Theorem frames_refine (p : ptr) (cmd P : string) (P2 : list byte) (c : Client) (w : World)
    (Hc : w_clients w !! p = Some c) (Hcmd : cmd ∈ frame_commands) :
  let out := Process (mkCmdline cmd P P2 p) w in
  spec_op (uuid c) (op_of cmd P) (chats_of w) (chats_of out.2) out.1.
Proof.
  cbv zeta. destruct (op_of cmd P) as [n ch|o|o|] eqn:Hop.
  - unfold op_of in Hop. destruct (String.eqb_spec cmd CMD_FRAME_APPLY) as [->|_];
      [|by repeat case_match].
    destruct (Split space P) as [|t [|ch' [|]]] eqn:HP; try done.
    destruct (Atoi t) as [n'|] eqn:Ht; [|done]. injection Hop as -> ->.
    by apply (apply_run p P t ch n c w).
  - destruct (op_of_id cmd P o (or_introl Hop)) as (Hi & Ho & He & _).
    destruct (He Hop) as [->| ->]; [by apply (enter_chat_run CMD_FRAME_JOIN p P)|].
    by apply (enter_chat_run CMD_FRAME_ACCEPT p P).
  - destruct (op_of_id cmd P o (or_intror Hop)) as (Hi & Ho & _ & Hl).
    destruct (Hl Hop) as [->| ->]; [by apply (leave_chat_run CMD_FRAME_OUT true p P)|].
    by apply (leave_chat_run CMD_FRAME_DISMISS false p P).
  - by apply Process_quiet.
Qed.

(** (C24) The end of a connection takes its user out of every chat listed for the
    user, over a database that can be reached: out of each of them, whoever was in it otherwise, and the chat ends if
    nobody is left.  A user who is in a chat on a newer connection too loses
    that place with the old one: every occurrence is taken away. *)
Theorem Close_leaves_chats (p : ptr) (c : Client) (fs : list (string * value)) (os : list string)
    (w w' : World)
    (Hc : w_clients w !! p = Some c) (Hcl : IsClient c = true)
    (Hone : (mgo_one (b_db (w_base w)) (C "user_info") (by_id (uuid c)) the_chats).2 = inr (VDoc fs))
    (Hf : field "frame_chat" fs = Some (VArr (VOid <$> os)))
    (Hrun : Close p w = (Ret tt, w')) :
  left_all (uuid c) os (chats_of w) (chats_of w')
  ∧ ∀ o f, o ∈ os → chats_of w' o = Some f → (uuid c ∉ f_activeUser f) ∧ f_activeUser f ≠ [].
Proof.
  assert (left_all (uuid c) os (chats_of w) (chats_of w')) as H.
  { set (w1 := set_clients (<[p := with_state CLIENT_STATE_DEAD c]> (w_clients w)) w).
    assert (get_client p w1 = (Ret (with_state CLIENT_STATE_DEAD c), w1)) as Hg
      by (apply get_client_run; simpl; apply lookup_insert_eq).
    unfold Close in Hrun. rewrite (bind_ret_run _ _ _ _ _ (upd_client_run p c _ w Hc)) in Hrun.
    rewrite (bind_ret_run _ _ _ _ _ Hg) in Hrun.
    change (IsClient (with_state _ c)) with (IsClient c) in Hrun. rewrite Hcl in Hrun.
    rewrite !bind_assoc_run in Hrun. destruct (clearFrameChat p w1) as [[[]|e|] w2] eqn:E.
    2: by rewrite (bind_panic_run _ _ _ _ _ E) in Hrun.
    2: by rewrite (bind_block_run _ _ _ _ E) in Hrun.
    rewrite (bind_ret_run _ _ _ _ _ E) in Hrun.
    assert (chats_of w' = chats_of w2) as ->.
    { unfold UnsubscribeAllChannels, Remove, GetClient in Hrun. revert Hrun. clear. mred.
      destruct (cmap_Get _ _); [case_bool_decide|]; by intros [= <-]. }
    apply (clearFrameChat_left p (with_state CLIENT_STATE_DEAD c) fs os w1 w2);
      [apply lookup_insert_eq|exact Hone|exact Hf|exact E]. }
  split; [exact H|]. intros o f Ho. rewrite (H o), decide_True by done.
  destruct (chats_of w o) as [f0|]; [|done]. cbn. unfold left_by.
  destruct (others (uuid c) (f_activeUser f0)) as [|x l] eqn:E; [done|]. intros [= <-]. split; [|done].
  simpl. rewrite <- E. unfold others. rewrite list_elem_of_filter. tauto.
Qed.
End frames.

(** ** A database of chats

    An instance of the interface: chats as a finite map; every user has every
    chat in the list [frame_chat]. *)
Module FrameRef.

#[local] Abbreviation store := (gmap string frame).

Definition parse (v : value) : option (string * frame) :=
  match v with
  | VDoc [_; (_, VInt st); (_, VStr p); (_, VStr ch); (_, VInt64 t); (_, l); (_, VOid o)] =>
      Some (o, mkFrame st p ch t (RoomRef.strs l))
  | _ => None
  end.

Definition is_ui (c : coll) : bool := String.eqb (coll_name c) "unstable_info".

Definition frame_insert (s : store) (c : coll) (ds : list value) : store * option error :=
  match is_ui c, ds with
  | true, [v] =>
      match parse v with
      | Some (o, f) => match s !! o with
                       | Some _ => (s, Some (LastError "duplicate key"))
                       | None => (<[o := f]> s, None)
                       end
      | None => (s, None)
      end
  | _, _ => (s, None)
  end.

Definition id_of (q : value) : string :=
  match q with VDoc ((_, VOid o) :: _) => o | _ => "" end.
Definition user_of (u : value) : string :=
  match u with VDoc [(_, VDoc [(_, VStr x)])] => x | _ => "" end.

Definition frame_update (s : store) (c : coll) (q u : value) : store * option error :=
  match is_ui c, s !! id_of q with
  | true, Some f => (<[id_of q := with_active (f_activeUser f ++ [user_of u]) f]> s, None)
  | true, None => (s, Some ErrNotFound)
  | false, _ => (s, None)
  end.

Definition frame_apply (s : store) (c : coll) (q u : value) : store * (error + value) :=
  match s !! id_of q with
  | Some f => let f' := with_active (others (user_of u) (f_activeUser f)) f in
              (<[id_of q := f']> s, inr (frame_doc (id_of q) f'))
  | None => (s, inl ErrNotFound)
  end.

Definition frame_remove (s : store) (c : coll) (q : value) : store * option error :=
  match q, s !! id_of q with
  | VDoc [_], _ => (delete (id_of q) s, None)
  | _, Some f => if bool_decide (f_activeUser f = []) then (delete (id_of q) s, None)
                 else (s, Some ErrNotFound)
  | _, None => (s, Some ErrNotFound)
  end.

Definition find_channel (s : store) (ch : string) : option (string * frame) :=
  head (filter (λ x, f_channelId x.2 = ch) (map_to_list s)).

Definition frame_one (s : store) (c : coll) (q prj : value) : store * (error + value) :=
  (s, match is_ui c, q with
      | true, VDoc [(_, VStr ch)] =>
          match find_channel s ch with
          | Some (o, f) => inr (frame_doc o f)
          | None => inl ErrNotFound
          end
      | true, _ => match s !! id_of q with Some f => inr (frame_doc (id_of q) f) | None => inl ErrNotFound end
      | false, _ => if String.eqb (coll_name c) "user_info"
                    then inr (VDoc [("frame_chat", VArr (VOid <$> (map_to_list s).*1))])
                    else inl ErrNotFound
      end).

Definition frame_mongo : Mongo := {|
  db := store;
  mgo_one := frame_one;
  mgo_all s c q prj := (s, ([], None));
  mgo_apply := frame_apply;
  mgo_insert := frame_insert;
  mgo_update := frame_update;
  mgo_upsert s c q u := (s, None);
  mgo_remove := frame_remove;
  mgo_bulk_update s c ps := (s, None);
  mgo_bulk_upsert s c ps := (s, None)
|}.

Definition frame_externals : Externals := {|
  ext_mongo := frame_mongo; ext_bson := Ref.ref_bson; ext_env := Ref.ref_env;
  ext_lru := Ref.ref_lru; ext_cmap := Ref.ref_cmap; ext_set := Ref.ref_set
|}.
#[local] Existing Instance frame_externals.

#[export] Instance frame_db : @FrameDb frame_mongo :=
  @Build_FrameDb frame_mongo (λ s o, (s : store) !! o).

Lemma parse_doc (o : string) (f : frame) : parse (frame_doc o f) = Some (o, f).
Proof. destruct f as [st p ch t l]. cbn. by rewrite <- (RoomRef.strs_VStrs l) at 2. Qed.

Lemma put_insert (o : string) (f : frame) (d : store) : @put_frame frame_mongo frame_db o (Some f) d (<[o := f]> d).
Proof.
  intros x. simpl. case_decide as E; [subst; apply lookup_insert_eq|by apply lookup_insert_ne].
Qed.
Lemma put_delete (o : string) (d : store) : @put_frame frame_mongo frame_db o None d (delete o d).
Proof.
  intros x. simpl. case_decide as E; [subst; apply lookup_delete_eq|by apply lookup_delete_ne].
Qed.

#[export] Instance frame_db_laws : @FrameDbLaws frame_mongo frame_db.
Proof.
  split; simpl.
  - intros d o f. unfold frame_insert. rewrite parse_doc. simpl. destruct (d !! o) eqn:E; [done|].
    split; [done|apply put_insert].
  - intros d o u. unfold frame_update. simpl. destruct (d !! o) as [f|] eqn:E; [|done].
    exists f. split; [done|apply put_insert].
  - intros d o u. unfold frame_apply. simpl. destruct (d !! o) as [f|] eqn:E; [|done].
    eexists f, _. split_and!; [done|apply put_insert|reflexivity|reflexivity|reflexivity].
  - intros d o. unfold frame_remove. simpl. destruct (d !! o) as [f|] eqn:E; [|done].
    case_bool_decide; [by exists f; auto using put_delete|]. split; [done|]. by intros f' [= <-].
  - intros d o. apply put_delete.
  - intros d ch. unfold find_channel.
    destruct (filter _ (map_to_list d)) as [|[o f] l] eqn:E; simpl.
    + intros o f Hf Hch. assert ((o, f) ∈ filter (λ x, f_channelId x.2 = ch) (map_to_list d)) as H.
      { rewrite list_elem_of_filter, elem_of_map_to_list. done. }
      rewrite E in H. by apply elem_of_nil in H.
    + assert ((o, f) ∈ filter (λ x, f_channelId x.2 = ch) (map_to_list d)) as H by (rewrite E; left).
      rewrite list_elem_of_filter, elem_of_map_to_list in H. destruct H as [Hch Hf].
      eexists o, f, _. done.
  - done.
  - done.
Qed.

#[export] Instance frame_conf : Global := example_config 0 None.

Definition chat1 : string := "0123456789abcdef01234560".

(** Two users are online; [u1] is in a chat of the channel [room]. *)
Definition frame_world (l : list string) : World (EX := frame_externals) (NT := ref_net) :=
  mkWorld (mkBase (MG := frame_mongo)
             ({[ chat1 := mkFrame 1 "u1" "room" 0 l ]} : gmap string frame) 0)
    {[ 1%nat := example_client "u1"; 2%nat := example_client "u2" ]}
    {[ "u1" := 1%nat; "u2" := 2%nat ]} (newChannelToUserIds 10)
    (NewLruCache 10) None set_NewSet (mkchan 0 []) None [] [].
End FrameRef.

Import FrameRef.
#[local] Existing Instance frame_externals.

Lemma frames_refine_witness :
  let out := Process (mkCmdline "frame_out" chat1 [] 1) (frame_world ["u1"; "u2"]) in
  chats_of out.2 chat1 = Some (mkFrame 1 "u1" "room" 0 ["u2"])
  ∧ spec_op "u1" (OpLeave chat1) (chats_of (frame_world ["u1"; "u2"])) (chats_of out.2) out.1.
Proof.
  intros out. split; [vm_compute; reflexivity|].
  apply (frames_refine 1 "frame_out" chat1 [] (example_client "u1") (frame_world ["u1"; "u2"]));
    [reflexivity|by do 3 right; left].
Defined.

Lemma Close_leaves_chats_witness :
  let w' := (Close 1 (frame_world ["u1"; "u2"; "u1"])).2 in
  ∃ f, chats_of w' chat1 = Some f ∧ "u1" ∉ f_activeUser f.
Proof.
  intros w'.
  assert (chats_of w' chat1 = Some (mkFrame 1 "u1" "room" 0 ["u2"])) as Hf by (vm_compute; reflexivity).
  eexists. split; [exact Hf|].
  assert ((Close 1 (frame_world ["u1"; "u2"; "u1"])).1 = Ret tt) as Hr by (vm_compute; reflexivity).
  destruct (Close_leaves_chats 1 (example_client "u1") [("frame_chat", VArr [VOid chat1])] [chat1]
    (frame_world ["u1"; "u2"; "u1"]) w') as [_ H]; [reflexivity|reflexivity|vm_compute; reflexivity
    |reflexivity| |].
  - unfold w'. destruct (Close 1 _) as [o w1]. simpl in Hr. by subst o.
  - refine (proj1 (H chat1 _ _ Hf)). by left.
Defined.
