(* ===== verification/FrameRace.v ===== *)
(** * Frame chats under interleaving (engine/cmd_interface.go, engine/client.go)

    Between two requests of a command, other goroutines (of this server or of
    another, over the same database) make theirs.  Here is where a goroutine is
    between the requests of a frame command, or of the closing of a connection,
    that can change a chat or decide what it does next. *)
From S2P Require Import Prelude GoStrings Wire Deps RefDeps Config Base UserIdCache Storage Router.
From S2P Require Import World PubSub Client Rooms RoomStore Auth Mail Commands Frames.

Local Open Scope string_scope.
Local Open Scope list_scope.
Local Open Scope Z_scope.

Section race.
  Context {EX : Externals} {NT : Net} {FD : FrameDb} {FL : FrameDbLaws}.

(** Where a goroutine is, with the request it makes next. *)
Inductive fpc : Type :=
| AFind (n : Z) (u ch : string)      (* Find({channelId}).One *)
| AInsert (n : Z) (u ch : string)    (* Insert *)
| ABulk (ch o : string)              (* the members are told in user_info *)
| ARemove (o : string)               (* RemoveId, when that failed *)
| EPush (u o : string)               (* UpdateId($push) *)
| LPull (closing : bool) (u o : string)  (* Find.Apply($pull) *)
| LRemove (o : string)               (* Remove({activeUser: []}), "double check" *)
| FDone.

(** [frame_out] and [frame_dismiss] remove the chat when nobody was left in the
    result of the first request; the closing of a connection tries always. *)
Definition request (c : fpc) : M Base fpc :=
  match c with
  | AFind n u ch =>
      r ← findOne ui (of_channel ch) the_proposer;
      mret (match r with inl _ => AInsert n u ch | inr _ => FDone end)
  | AInsert n u ch =>
      o ← draw_oid; now ← now_Unix;
      err0 ← insert_ ui [frame_doc o (mkFrame n u ch now [u])];
      mret (match err0 with Some _ => FDone | None => ABulk ch o end)
  | ABulk ch o =>
      us ← FetchUuidsAboutChannel ch;
      err0 ← bulkUpsert (C "user_info")
               (for_each us (VDoc [("$push", VDoc [("frame_chat", VOid o)])]));
      mret (match err0 with Some _ => ARemove o | None => FDone end)
  | ARemove o => _ ← remove_ ui (by_oid o); mret FDone
  | EPush u o => _ ← update_ ui (by_oid o) (push_user u); mret FDone
  | LPull closing u o =>
      r ← applyOne ui (by_oid o) (pull_user u);
      match r with
      | inl _ => mret FDone
      | inr found =>
          v ← doc_get found "activeUser"; active ← as_arr v;
          mret (if closing || (length active =? 0)%nat then LRemove o else FDone)
      end
  | LRemove o => _ ← remove_ ui (nobody_in o); mret FDone
  | FDone => mret FDone
  end.

Record fsys : Type := mkFsys { fs_base : Base; fs_threads : gmap nat fpc }.

(** Where a goroutine starts. *)
Definition starts (c : fpc) : bool :=
  match c with AFind _ _ _ | EPush _ _ | LPull _ _ _ => true | _ => false end.

(** A goroutine that panics is over. *)
Inductive fstep : fsys → fsys → Prop :=
| fstep_go s t c :
    fs_threads s !! t = None → starts c → fstep s (mkFsys (fs_base s) (<[t := c]> (fs_threads s)))
| fstep_run s t c c' b' :
    fs_threads s !! t = Some c → request c (fs_base s) = (Ret c', b') →
    fstep s (mkFsys b' (<[t := c']> (fs_threads s)))
| fstep_panic s t c e b' :
    fs_threads s !! t = Some c → request c (fs_base s) = (Panic e, b') →
    fstep s (mkFsys b' (<[t := FDone]> (fs_threads s))).

(** A schedule: [inl] starts a goroutine, [inr] runs one. *)
Definition sched_step (s : fsys) (a : (nat * fpc) + nat) : option fsys :=
  match a with
  | inl (t, c) =>
      match fs_threads s !! t with
      | None => if starts c then Some (mkFsys (fs_base s) (<[t := c]> (fs_threads s))) else None
      | Some _ => None
      end
  | inr t =>
      c ← fs_threads s !! t;
      match request c (fs_base s) with
      | (Ret c', b') => Some (mkFsys b' (<[t := c']> (fs_threads s)))
      | _ => None
      end
  end.

Fixpoint sched (s : fsys) (l : list ((nat * fpc) + nat)) : option fsys :=
  match l with [] => Some s | a :: l' => s' ← sched_step s a; sched s' l' end.

Lemma sched_fstep s l s' : sched s l = Some s' → rtc fstep s s'.
Proof.
  revert s. induction l as [|a l IH]; intros s; cbn [sched]; [by intros [= ->]|].
  destruct (sched_step s a) as [s1|] eqn:E; [|done]. cbn. intros H. eapply rtc_l; [|by apply IH].
  destruct a as [[t c]|t]; cbn in E.
  - destruct (fs_threads s !! t) eqn:Et; [done|]. destruct (starts c) eqn:Es; [|done].
    injection E as <-. apply fstep_go; [done|by rewrite Es].
  - destruct (fs_threads s !! t) as [c|] eqn:Et; [|done]. cbn in E.
    destruct (request c (fs_base s)) as [[c'|e|] b'] eqn:Er; [|done..]. injection E as <-.
    by apply (fstep_run s t c).
Qed.

Definition on_record (s : fsys) : chats := frame_of (b_db (fs_base s)).

(** An empty chat is about to be removed. *)
Definition tended (s : fsys) : Prop :=
  ∀ o f, on_record s o = Some f → f_activeUser f = [] →
         ∃ t, fs_threads s !! t = Some (LRemove o).

(** What a request does to the chats and where it leads. *)
Lemma request_run c b :
  let '(out, b') := request c b in
  let m := frame_of (b_db b) in let m' := frame_of (b_db b') in
  match c with
  | AFind _ _ _ | ABulk _ _ | FDone => same_chats m m'
  | AInsert _ u _ => same_chats m m' ∨ ∃ o f, m o = None ∧ f_activeUser f = [u] ∧ set_chat o (Some f) m m'
  | ARemove o => set_chat o None m m'
  | EPush u o => same_chats m m'
      ∨ ∃ f, m o = Some f ∧ set_chat o (Some (with_active (f_activeUser f ++ [u]) f)) m m'
  | LPull _ u o => same_chats m m'
      ∨ ∃ f, m o = Some f ∧ set_chat o (Some (with_active (others u (f_activeUser f)) f)) m m'
             ∧ (others u (f_activeUser f) = [] → out = Ret (LRemove o))
  | LRemove o => (same_chats m m' ∧ ∀ f, m o = Some f → f_activeUser f ≠ [])
      ∨ ∃ f, m o = Some f ∧ f_activeUser f = [] ∧ set_chat o None m m'
  end.
Proof.
  destruct c as [n u ch|n u ch|ch o|o|u o|cl u o|o|]; cbn [request].
  - unfold findOne, on_db, mbind, M_bind. pose proof (fd_one (b_db b) ui (of_channel ch) the_proposer) as H.
    by destruct (mgo_one _ _ _ _) as [d [e|v]].
  - unfold draw_oid, now_Unix, draw, insert_, on_db. mred. simpl.
    match goal with |- context [mgo_insert ?d ui [frame_doc ?o ?f]] =>
      pose proof (fd_insert d o f) as H; destruct (mgo_insert d ui [frame_doc o f]) as [d' [e|]] eqn:E;
      [by left|right; exists o, f; by destruct H] end.
  - match goal with |- let '(_, _) := ?m b in _ => set (req := m) end.
    assert (within BR req) as H.
    { apply within_bind; [apply _|apply FetchUuids_BR|intros us].
      apply within_bind; [apply _| |intros r; frame]. apply on_db_BR. intros d. by apply fd_bulk_upsert. }
    specialize (H b). by destruct (req b).
  - unfold remove_, on_db. mred. pose proof (fd_remove (b_db b) o) as H.
    by destruct (mgo_remove _ _ _).
  - unfold update_, on_db. mred. pose proof (fd_push (b_db b) o u) as H.
    destruct (mgo_update _ _ _ _) as [d [e|]]; [left; apply H|by right].
  - unfold applyOne, on_db. mred. pose proof (fd_pull (b_db b) o u) as H.
    destruct (mgo_apply _ _ _ _) as [d [e|v]]; [left; apply H|].
    destruct H as (f & fs & Hf & Hput & -> & Ha & _). unfold doc_get. mred. rewrite Ha. simpl. mred.
    right. exists f. split_and!; [done|done|]. rewrite length_fmap. intros ->. by rewrite orb_true_r.
  - unfold remove_, on_db. mred. pose proof (fd_remove_empty (b_db b) o) as H.
    destruct (mgo_remove _ _ _) as [d [e|]]; [by left|by right].
  - done.
Qed.

(** ** No empty chat is forgotten *)
Lemma set_chat_at o v (m m' : chats) : set_chat o v m m' → m' o = v.
Proof. intros H. by rewrite H, decide_True. Qed.
Lemma set_chat_ne o v (m m' : chats) x : set_chat o v m m' → x ≠ o → m' x = m x.
Proof. intros H Hx. by rewrite H, decide_False. Qed.

(** Whatever a goroutine does, the chats that are empty afterwards were empty
    before, or are its own to remove; and it forgets about none. *)
Lemma request_tends c b o f :
  let '(out, b') := request c b in
  frame_of (b_db b') o = Some f → f_activeUser f = [] →
  out = Ret (LRemove o) ∨ (c ≠ LRemove o ∧ frame_of (b_db b) o = Some f).
Proof.
  pose proof (request_run c b) as H. destruct (request c b) as [out b']. cbv zeta in H.
  intros Hf He. destruct c as [n u ch|n u ch|ch o'|o'|u o'|cl u o'|o'|].
  - right. split; [done|]. by rewrite <- H.
  - destruct H as [H|(o1 & f1 & Hn & Hu & H)]; [right; split; [done|]; by rewrite <- H|].
    destruct (decide (o = o1)) as [->|Hne].
    + rewrite (set_chat_at _ _ _ _ H) in Hf. congruence.
    + right. split; [done|]. by rewrite <- (set_chat_ne _ _ _ _ _ H Hne).
  - right. split; [done|]. by rewrite <- H.
  - right. split; [done|]. destruct (decide (o = o')) as [->|Hne].
    + by rewrite (set_chat_at _ _ _ _ H) in Hf.
    + by rewrite <- (set_chat_ne _ _ _ _ _ H Hne).
  - right. split; [done|]. destruct H as [H|(f1 & Hf1 & H)]; [by rewrite <- H|].
    destruct (decide (o = o')) as [->|Hne].
    + rewrite (set_chat_at _ _ _ _ H) in Hf. injection Hf as <-. simpl in He.
      by destruct (f_activeUser f1).
    + by rewrite <- (set_chat_ne _ _ _ _ _ H Hne).
  - destruct H as [H|(f1 & Hf1 & H & Hout)]; [right; split; [done|]; by rewrite <- H|].
    destruct (decide (o = o')) as [->|Hne].
    + rewrite (set_chat_at _ _ _ _ H) in Hf. injection Hf as <-. left. by apply Hout.
    + right. split; [done|]. by rewrite <- (set_chat_ne _ _ _ _ _ H Hne).
  - right. destruct H as [[H Hn]|(f1 & Hf1 & He1 & H)].
    + rewrite H in Hf. split; [|done]. intros [= ->]. by apply (Hn f).
    + destruct (decide (o = o')) as [->|Hne]; [by rewrite (set_chat_at _ _ _ _ H) in Hf|].
      split; [congruence|]. by rewrite <- (set_chat_ne _ _ _ _ _ H Hne).
  - right. split; [done|]. by rewrite <- H.
Qed.

Lemma tended_step s s' : tended s → fstep s s' → tended s'.
Proof.
  intros Ht Hs o f Hf He. destruct Hs as [s t c Hn _|s t c c' b' Hc Hr|s t c e b' Hc Hr]; simpl in *.
  - destruct (Ht o f Hf He) as [t' Ht']. exists t'. by rewrite lookup_insert_ne by congruence.
  - pose proof (request_tends c (fs_base s) o f) as H. rewrite Hr in H.
    destruct (H Hf He) as [[= ->]|[Hne H1]]; [exists t; apply lookup_insert_eq|].
    destruct (Ht o f H1 He) as [t' Ht']. exists t'. rewrite lookup_insert_ne; congruence.
  - pose proof (request_tends c (fs_base s) o f) as H. rewrite Hr in H.
    destruct (H Hf He) as [H0|[Hne H1]]; [done|].
    destruct (Ht o f H1 He) as [t' Ht']. exists t'. rewrite lookup_insert_ne; congruence.
Qed.

(** Only the two removals end a chat. *)
Lemma request_ends c b o f :
  frame_of (b_db b) o = Some f → frame_of (b_db (request c b).2) o = None →
  (c = LRemove o ∧ f_activeUser f = []) ∨ c = ARemove o.
Proof.
  pose proof (request_run c b) as H. destruct (request c b) as [out b']. cbv zeta in H. simpl.
  intros Hf Hn. assert (∀ o' v, set_chat o' v (frame_of (b_db b)) (frame_of (b_db b')) →
                          o = o' ∧ v = None) as Hset.
  { intros o' v Hs. rewrite Hs in Hn. case_decide; [done|congruence]. }
  assert (¬ same_chats (frame_of (b_db b)) (frame_of (b_db b'))) as Hsame.
  { intros Hs. rewrite Hs in Hn. congruence. }
  destruct c; try by destruct Hsame.
  - destruct H as [H|(? & ? & _ & _ & H)]; [done|]. by apply Hset in H as [_ ?].
  - right. apply Hset in H as [-> _]. done.
  - destruct H as [H|(? & _ & H)]; [done|]. by apply Hset in H as [_ ?].
  - destruct H as [H|(? & _ & H & _)]; [done|]. by apply Hset in H as [_ ?].
  - destruct H as [[H _]|(f1 & Hf1 & He & H)]; [done|]. apply Hset in H as [-> _]. left. split; congruence.
Qed.

(** ** Properties *)

(** (C23) No interleaving of the requests breaks a chat, over a database that can be
    reached (a request fails only where the record it is about makes it fail).
    Whatever order the frame
    commands and the ends of connections make their requests in: once they have
    all come to their end, every chat on record has a user in it; and a chat
    that disappears was empty at that moment, so that nobody who has entered it
    in the meantime is thrown out, unless it is one whose announcement failed
    and whose proposer withdraws it. *)
Theorem frames_interleaved (b : Base) (s : fsys)
    (Hb : ∀ o f, frame_of (b_db b) o = Some f → f_activeUser f ≠ [])
    (Hr : rtc fstep (mkFsys b ∅) s) :
  ((∀ t c, fs_threads s !! t = Some c → c = FDone) →
     ∀ o f, on_record s o = Some f → f_activeUser f ≠ [])
  ∧ ∀ s' o f, fstep s s' → on_record s o = Some f → on_record s' o = None →
      f_activeUser f = [] ∨ ∃ t, fs_threads s !! t = Some (ARemove o).
Proof.
  split.
  - intros Hq o f Hf He.
    assert (tended s) as Ht.
    { apply (rtc_ind_r (R := fstep) tended (mkFsys b ∅)); [|intros s1 s2 _ Hs H; by apply (tended_step s1)|done].
      intros o' f' Hf' He'. by apply Hb in Hf'. }
    destruct (Ht o f Hf He) as [t Hth]. apply Hq in Hth. done.
  - intros s' o f Hs Hf Hn. destruct Hs as [s t c _ _|s t c c' b' Hc Hreq|s t c e b' Hc Hreq];
      unfold on_record in *; simpl in *; [congruence| |];
      (destruct (request_ends c (fs_base s) o f Hf) as [[-> He]| ->];
        [by rewrite Hreq|by left|right; by exists t]).
Qed.
End race.

Import FrameRef.
#[local] Existing Instance frame_externals.

(** [u1] leaves, [u2] enters before the chat is removed: it stays. *)
Definition race_start : Base (MG := frame_mongo) := w_base (frame_world ["u1"]).

Definition race : list ((nat * fpc) + nat) :=
  [inl (1%nat, LPull false "u1" chat1); inr 1%nat; inl (2%nat, EPush "u2" chat1); inr 2%nat; inr 1%nat].

Definition race_from : fsys := mkFsys (EX := frame_externals) race_start ∅.
(** Where the schedule ends. *)
Definition race_end : fsys := default race_from (sched race_from race).

Lemma race_run : rtc fstep race_from race_end.
Proof.
  assert (bool_decide (is_Some (sched race_from race)) = true) as H by (vm_compute; reflexivity).
  apply bool_decide_eq_true in H as [s Hs]. apply (sched_fstep _ race). unfold race_end. by rewrite Hs.
Qed.

Lemma race_over t c : fs_threads race_end !! t = Some c → c = FDone.
Proof.
  intros H%elem_of_map_to_list.
  assert (map_to_list (fs_threads race_end) = [(1%nat, FDone); (2%nat, FDone)]
          ∨ map_to_list (fs_threads race_end) = [(2%nat, FDone); (1%nat, FDone)]) as Hl
    by (first [left; vm_compute; reflexivity|right; vm_compute; reflexivity]).
  destruct Hl as [Hl|Hl]; rewrite Hl in H; set_solver.
Qed.

Lemma race_start_alive o f : frame_of (b_db race_start) o = Some f → f_activeUser f ≠ [].
Proof. simpl. rewrite lookup_singleton. case_decide; [|done]. by intros [= <-]. Qed.

Lemma frames_interleaved_witness :
  on_record race_end chat1 = Some (mkFrame 1 "u1" "room" 0 ["u2"])
  ∧ ∀ o f, on_record race_end o = Some f → f_activeUser f ≠ [].
Proof.
  split; [vm_compute; reflexivity|].
  apply (frames_interleaved (EX := frame_externals) race_start race_end race_start_alive race_run).
  exact race_over.
Defined.

(** Two users apply for the same channel at the same time: with no unique index
    but the one on [_id], both get a chat, contrary to what the comment on the
    insertion says. *)
Definition two_applies : list ((nat * fpc) + nat) :=
  [inl (1%nat, AFind 1 "u1" "hall"); inl (2%nat, AFind 1 "u2" "hall");
   inr 1%nat; inr 2%nat; inr 1%nat; inr 2%nat].

Definition no_chats : fsys :=
  mkFsys (EX := frame_externals) (mkBase (MG := frame_mongo) (∅ : gmap string frame) 0) ∅.

Lemma apply_race :
  ∃ s, rtc fstep no_chats s
    ∧ length (filter (λ x, f_channelId x.2 = "hall") (map_to_list (b_db (fs_base s) : gmap string frame))) = 2%nat.
Proof.
  exists (default no_chats (sched no_chats two_applies)). split; [|vm_compute; reflexivity].
  assert (bool_decide (is_Some (sched no_chats two_applies)) = true) as H by (vm_compute; reflexivity).
  apply bool_decide_eq_true in H as [s Hs]. apply (sched_fstep _ two_applies). by rewrite Hs.
Qed.
