(* ===== verification/S2s.v ===== *)
(** * Connections from other servers (engine/s2s_server.go) *)
From S2P Require Import Prelude GoStrings Wire Deps RefDeps Config Base UserIdCache Storage Router.
From S2P Require Import World PubSub Client Commands.

Local Open Scope string_scope.
Local Open Scope list_scope.
Local Open Scope Z_scope.

(** The connection of another server: its identity and its remote address. *)
Record S2sConn : Type := mkS2sConn { sc_id : nat; sc_RemoteAddr : string }.

(** golib's [TcpServer], as far as the processors read it. *)
Record TcpServer : Type := mkTcpServer { SessTimeout : Z }.

Section s2s.
  Context {EX : Externals} {NT : Net} {CF : Global}.

Definition checkAndSetLocalChannel (channelId : string) (client : S2sConn) : M World unit :=
  o ← onRouter (LookupPeersByChannel channelId);
  isLoadFromDatabase ←
    (match o with
     | Some _ => mret false
     | None => _ ← onRouter (AddPeerToChannel (GetS2sAddr (sc_RemoteAddr client)) channelId);
               mret true
     end : M World bool);
  o ← PubsubGet channelId;
  match o with
  | Some _ => mret tt
  | None =>
      if negb isLoadFromDatabase then mret tt else
      r ← onBase (findOne (C "channel_uuids") (by_id channelId)
                    (VDoc [("uuids", VInt 1); ("_id", VInt 0)]));
      match r with
      | inl _ => mret tt
      | inr found =>
          v ← doc_get found "uuids";
          userIds ← as_arr v;
          mapM_ (λ userId,
            u ← as_str userId;
            o ← GetClient u;
            match o with
            | Some tempClient => _ ← Subscribe tempClient channelId; mret tt
            | None => mret tt
            end) userIds
      end
  end.

Definition processCmd (cl : ServerCmdline) (client : S2sConn) : M World (option error) :=
  let cmd := SCmd cl in
  if (length (SParams cl) =? 0)%nat then mret (Some (NewError "param wrong")) else
  if String.eqb cmd S2S_SUB_CMD then
    _ ← checkAndSetLocalChannel (string_of_bytes (SParams cl)) client; mret None
  else if String.eqb cmd S2S_UNSUB_CMD then
    _ ← onRouter (RemovePeerFromChannel (GetS2sAddr (sc_RemoteAddr client))
                    (string_of_bytes (SParams cl)));
    mret None
  else if String.eqb cmd S2S_PUSH_BINARY_MESSAGE then
    let index1 := first_blank (SParams cl) 0 in
    if (index1 =? 0)%nat then mret (Some (NewError "param wrong")) else
    let channelId := string_of_bytes (take index1 (SParams cl)) in
    let binMsg := drop (S index1) (SParams cl) in
    _ ← checkAndSetLocalChannel channelId client;
    _ ← PublishBinMsg channelId "" binMsg false;
    mret None
  else if String.eqb cmd S2S_PUSH_STRING_MESSAGE then
    match SplitN space (string_of_bytes (SParams cl)) 2 with
    | [channelId; message] =>
        _ ← checkAndSetLocalChannel channelId client;
        _ ← PublishStrMsg channelId message "" false;
        mret None
    | _ => mret (Some (NewError "param error"))
    end
  else mret None.

Definition s2s_OnRead (client : S2sConn) (input : list byte) : M World (option error) :=
  r ← NewServerCmdline input;
  match r with
  | inl err => mret (Some err)
  | inr cl => processCmd cl client
  end.

(** The loop of [OnAccept], on the results of the successive reads; with no more
    of them the goroutine is parked in [Read]. *)
Fixpoint s2s_OnAccept (srv : TcpServer) (client : S2sConn) (reads : list read) : M World unit :=
  match reads with
  | [] => block
  | r :: reads' =>
      _ ← (if 0 <? SessTimeout srv then emit (ES2sDeadline (sc_id client)) else mret tt);
      let close := emit (ES2sClose (sc_id client)) in
      match r with
      | ReadEOF => close
      | ReadNetErr true _ => close
      | ReadNetErr false false | ReadOtherErr => close
      | ReadNetErr false true => close
      | ReadOk input =>
          err ← s2s_OnRead client input;
          match err with
          | Some _ => close
          | None => s2s_OnAccept srv client reads'
          end
      end
  end.

(** ** Frames *)
Section frame.
  Context (R : relation World) `{!Inert R}.

Lemma within_checkAndSetLocalChannel ch conn : within R (checkAndSetLocalChannel ch conn).
Proof. unfold checkAndSetLocalChannel, onRouter, Subscribe. frame. Qed.
Hint Resolve within_checkAndSetLocalChannel : within.

Lemma within_processCmd cl conn : within R (processCmd cl conn).
Proof. unfold processCmd, onRouter. frame. Qed.
Hint Resolve within_processCmd : within.

Lemma within_s2s_OnRead conn input : within R (s2s_OnRead conn input).
Proof.
  intros w. unfold s2s_OnRead. destruct (NewServerCmdline_sound input w) as (r & Hr & _).
  mstep Hr. destruct r as [e|cl]; [reflexivity|apply within_processCmd].
Qed.
End frame.

(** A frame as the receiver gets it, given the command and its parameters. *)
Definition frame_of (cmd : string) (body : list byte) : list byte :=
  block32 (bytes_of_string cmd) ++ block32 body.

Context {LL : LruLaws} {GL : GoSetLaws} {CL : CmapLaws}.

(** ** Lemmas *)
Lemma bytes_of_string_cons s : s ≠ "" → bytes_of_string s ≠ [].
Proof. by destruct s. Qed.

Lemma frame_of_ok cmd body :
  cmd ≠ "" → len (bytes_of_string cmd) < 2 ^ 31 → body ≠ [] → len body < 2 ^ 31 →
  server_frame (frame_of cmd body) (bytes_of_string cmd) body.
Proof. intros. split_and!; auto using bytes_of_string_cons. Qed.

Lemma s2s_OnRead_frame conn cmd body w :
  cmd ≠ "" → len (bytes_of_string cmd) < 2 ^ 31 → body ≠ [] → len body < 2 ^ 31 →
  s2s_OnRead conn (frame_of cmd body) w = processCmd (mkServerCmdline cmd body) conn w.
Proof.
  intros. unfold s2s_OnRead.
  mstep (NewServerCmdline_complete _ _ _ w (frame_of_ok cmd body ltac:(done) ltac:(done)
           ltac:(done) ltac:(done))).
  by rewrite string_of_bytes_of_string.
Qed.

(** A channel the router already knows: nothing but recency changes. *)
Lemma check_known_run ch conn px q w :
  w_proxy w = Some px → lru_find (r_cache (px_Router px)) ch = Some q →
  ∃ w' px', checkAndSetLocalChannel ch conn w = (Ret tt, w')
    ∧ w_proxy w' = Some px' ∧ px_ForwardTuple px' = px_ForwardTuple px
    ∧ w_clients w' = w_clients w ∧ w_uuids w' = w_uuids w ∧ w_cache w' = w_cache w
    ∧ w_tasks w' = w_tasks w ∧ w_msgQueue w' = w_msgQueue w ∧ w_base w' = w_base w.
Proof.
  intros Hp Hq. unfold checkAndSetLocalChannel, onRouter, onProxy, LookupPeersByChannel,
    put_cache, PubsubGet, lru_find in *.
  mred. rewrite Hp. cbn. destruct (lru_Get (r_cache (px_Router px)) ch) as [c' o]. cbn in *.
  subst o. cbn. destruct (lru_Get (w_pubsub w) ch) as [c2 o2]. cbn.
  destruct o2; cbn; eexists _, _; split_and!; reflexivity.
Qed.

Lemma relay_words ch msg :
  occurs space ch = false →
  SplitN space (string_of_bytes (bytes_of_string (spaced [ch; msg]))) 2 = [ch; msg].
Proof.
  intros H. rewrite string_of_bytes_of_string. unfold spaced, Join.
  change (ch +:+ " " +:+ msg) with (ch +:+ String space msg). by rewrite SplitN_app.
Qed.

Lemma s2s_keeps conn input w :
  w_clients (s2s_OnRead conn input w).2 = w_clients w
  ∧ w_uuids (s2s_OnRead conn input w).2 = w_uuids w
  ∧ w_out (s2s_OnRead conn input w).2 = w_out w.
Proof.
  assert (Inert (same (λ w, (w_clients w, w_uuids w, w_out w)))) as HI.
  { split; try done; [apply _|]. intros. by apply within_onCache. }
  pose proof (within_s2s_OnRead _ conn input w) as H. unfold same in H.
  by injection H.
Qed.

(** ** Properties *)

(** Relay of a text message.  What [PublishStrMsg] queues for the other
    servers (its command and its payload, framed) is understood by
    [OnRead] of the receiving server: on a channel that server knows, each
    member connected there gets the text, byte for byte, and the message is
    neither forwarded again nor stored again. *)
Theorem s2s_relay_string (ch msg : string) (conn : S2sConn) (s : gset string) (px : S2sProxy)
    (q : ptr) (w : World)
    (Hch : occurs space ch = false) (Hlen : len (bytes_of_string (spaced [ch; msg])) < 2 ^ 31)
    (Hne : ch ≠ "") (Hp : w_proxy w = Some px)
    (Hq : lru_find (r_cache (px_Router px)) ch = Some q)
    (Hl : registry_valid w) (Hwf : cache_wf (w_cache w))
    (Hs : members (w_cache w) ch = Some s) (Hb : cmap_Get (w_uuids w) "" = None) :
  ∃ us w' px', us ≡ₚ elements s
    ∧ s2s_OnRead conn (frame_of S2S_PUSH_STRING_MESSAGE (bytes_of_string (spaced [ch; msg]))) w
      = (Ret None, w')
    ∧ w_tasks w' = w_tasks w ++ ((λ p, GoWriteFormatBinMsg p OUTPUT_RCIV (bytes_of_string msg))
                                   <$> omap (recipient w "") us)
    ∧ w_proxy w' = Some px' ∧ px_ForwardTuple px' = px_ForwardTuple px
    ∧ w_msgQueue w' = w_msgQueue w.
Proof.
  assert (bytes_of_string (spaced [ch; msg]) ≠ []) as Hbody by (by destruct ch).
  rewrite s2s_OnRead_frame by done. unfold processCmd. cbn [SParams SCmd].
  destruct (bytes_of_string (spaced [ch; msg])) as [|b bs] eqn:E; [done|].
  cbn [length Nat.eqb String.eqb Ascii.eqb Bool.eqb S2S_PUSH_STRING_MESSAGE S2S_SUB_CMD
       S2S_UNSUB_CMD S2S_PUSH_BINARY_MESSAGE]. rewrite <- E, relay_words by done.
  destruct (check_known_run ch conn px q w Hp Hq)
    as (w1 & px1 & Hrun & Hp1 & Hf & Hc1 & Hu1 & Hca1 & Ht1 & Hq1 & _). mstep Hrun.
  destruct (pushToNativeClient_run OUTPUT_RCIV ch "" (bytes_of_string msg) s w1)
    as (us & Hus & Hpush).
  { intros u p. rewrite Hu1, Hc1. apply Hl. }
  { by rewrite Hca1. }
  { by rewrite Hca1. }
  { by rewrite Hu1. }
  exists us. unfold PublishStrMsg, mbind, M_bind. rewrite Hpush.
  eexists _, px1. split_and!; [done|reflexivity| |done|done|done].
  simpl. rewrite Ht1. f_equal. f_equal. apply list_omap_ext. apply Forall2_same_length_lookup.
  split; [done|]. intros i x y -> [= ->]. unfold recipient. simpl. by rewrite Hu1, Hc1.
Qed.

(** Binary messages do not cross servers.  The command under which
    [PublishBinMsg] queues a message for the other servers is none that
    [processCmd] handles: the receiver reports success, and nothing happens. *)
Theorem s2s_binary_dropped (ch owner : string) (msg : list byte) (conn : S2sConn)
    (px px' : S2sProxy) (w0 w0' w : World) (t : ForwardTuple)
    (Hw : PublishBinMsg ch owner msg true w0 = (Ret tt, w0'))
    (Hp : w_proxy w0 = Some px) (Hp' : w_proxy w0' = Some px')
    (Ht : ch_buf (px_ForwardTuple px') = ch_buf (px_ForwardTuple px) ++ [t])
    (Hlen : len (f_msg t) < 2 ^ 31) :
  s2s_OnRead conn (frame_of (f_cmd t) (f_msg t)) w = (Ret None, w).
Proof.
  assert (f_cmd t = CMD_VIDO_CHAT ∧ f_msg t ≠ []) as [-> Hm].
  { unfold PublishBinMsg, mbind, M_bind in Hw.
    assert (within (same w_proxy) (pushToNativeClient CMD_VIDO_CHAT ch owner msg)) as Hpush.
    { unfold pushToNativeClient, fetchAllMatchUserIds, pushOne, LoadUserIdsByChannel,
        LoadUserIdsFromDatabase, GetClient.
      assert (∀ A (m : M ChannelToUserIds A), within (same w_proxy) (onCache m))
        by (intros; by apply within_onCache).
      assert (∀ A (m : M Base A), within (same w_proxy) (onBase m))
        by (intros; by apply within_onBase).
      assert (∀ t, within (same w_proxy) (spawn t)) by (intros; by apply within_spawn).
      frame. }
    specialize (Hpush w0).
    destruct (pushToNativeClient CMD_VIDO_CHAT ch owner msg w0) as [[[]|e|] w1]; try done.
    unfold same in Hpush. simpl in Hpush. rewrite Hp in Hpush.
    unfold forwardToAllOtherServer in Hw.
    set (m := bytes_of_string ch ++ bytes_of_string " " ++ msg) in *.
    assert (m ≠ []) as Hm0 by (unfold m; by destruct (bytes_of_string ch)).
    destruct (IsDistMode PushdConf) eqn:Hd.
    - pose proof (forward_run CMD_VIDO_CHAT m px w1 Hd ltac:(done) Hm0 Hpush) as Hf.
      unfold forwardToAllOtherServer in Hf. rewrite Hd in Hf. rewrite Hf in Hw.
      destruct (chan_full (px_ForwardTuple px)); [done|]. injection Hw as <-.
      simpl in Hp'. injection Hp' as <-. simpl in Ht. apply app_inj_tail in Ht as [_ <-].
      by split.
    - cbn in Hw. injection Hw as <-. rewrite Hpush in Hp'. injection Hp' as <-.
      exfalso. apply (f_equal length) in Ht. rewrite length_app in Ht. simpl in Ht. lia. }
  rewrite s2s_OnRead_frame by done. unfold processCmd. cbn [SParams SCmd].
  destruct (f_msg t); [done|]. reflexivity.
Qed.

(** Another server cannot disturb the connections of this one: whatever it
    sends, no connection object and no registration changes, and nothing is
    written to a connection except by the goroutines started for it. *)
Theorem s2s_isolation (conn : S2sConn) (input : list byte) (w : World) :
  w_clients (s2s_OnRead conn input w).2 = w_clients w
  ∧ w_uuids (s2s_OnRead conn input w).2 = w_uuids w
  ∧ w_out (s2s_OnRead conn input w).2 = w_out w.
Proof. apply s2s_keeps. Qed.

(** A connection from another server is closed exactly once, when and only
    when its loop ends; before that only read deadlines are set.  The loop ends
    at the first read error or malformed frame. *)
Theorem s2s_OnAccept_closes_once (srv : TcpServer) (conn : S2sConn) (reads : list read)
    (w : World) :
  let '(o, w') := s2s_OnAccept srv conn reads w in
  ∃ k, (k ≤ length reads)%nat
    ∧ w_out w' = w_out w ++ replicate k (ES2sDeadline (sc_id conn))
                   ++ match o with Ret _ => [ES2sClose (sc_id conn)] | _ => [] end.
Proof.
  revert w. induction reads as [|r reads IH]; intros w; cbn [s2s_OnAccept].
  { exists 0%nat. simpl. by rewrite app_nil_r. }
  assert (∃ w1, (if 0 <? SessTimeout srv then emit (ES2sDeadline (sc_id conn)) else mret tt) w
                = (Ret tt, w1)
                ∧ ∃ j, (j ≤ 1)%nat ∧ w_out w1 = w_out w ++ replicate j (ES2sDeadline (sc_id conn)))
    as (w1 & Hrun & j & Hj & Hout).
  { destruct (0 <? SessTimeout srv); eexists; (split; [reflexivity|]).
    - by exists 1%nat.
    - exists 0%nat. simpl. rewrite app_nil_r. split; [lia|done]. }
  mstep Hrun.
  assert (∀ w1, w_out w1 = w_out w ++ replicate j (ES2sDeadline (sc_id conn)) →
    let '(o, w') := emit (ES2sClose (sc_id conn)) w1 in
    ∃ k, (k ≤ S (length reads))%nat ∧ w_out w' = w_out w ++ replicate k (ES2sDeadline (sc_id conn))
           ++ match o with Ret _ => [ES2sClose (sc_id conn)] | _ => [] end) as Hclose.
  { intros w2 H2. exists j. split; [lia|]. simpl. by rewrite H2, <- app_assoc. }
  destruct r as [input| |[] []|]; try by apply Hclose.
  pose proof (proj2 (proj2 (s2s_keeps conn input w1))) as Hkeep.
  unfold mbind, M_bind. destruct (s2s_OnRead conn input w1) as [[[e|]|e|] w2]; simpl in Hkeep.
  - apply Hclose. congruence.
  - specialize (IH w2). destruct (s2s_OnAccept srv conn reads w2) as [o w3].
    destruct IH as (k & Hk & Hout3). exists (j + k)%nat. split; [simpl; lia|].
    by rewrite Hout3, Hkeep, Hout, replicate_add, <- !app_assoc.
  - exists j. split; [simpl; lia|]. by rewrite Hkeep, Hout, app_nil_r.
  - exists j. split; [simpl; lia|]. by rewrite Hkeep, Hout, app_nil_r.
Qed.
End s2s.

#[export] Hint Resolve within_checkAndSetLocalChannel within_processCmd within_s2s_OnRead
  : within.

Import Ref.
#[local] Existing Instance example_conf.

Definition example_conn : S2sConn := mkS2sConn 5 "10.0.0.8:41000".

(** The example server, its router knowing "room". *)
Definition example_proxy2 : S2sProxy (EX := ref_externals) (NT := ref_net) :=
  mkProxy (mkRouter ∅ (lru_Set (NewLruCache 10) "room" 0%nat) {[ 0%nat := set_NewSet ]} ∅
             ([] : @net ref_net) [])
          (mkchan 100 []).
Definition example_known : World (EX := ref_externals) (NT := ref_net) :=
  set_proxy (Some example_proxy2) example_world.

Lemma s2s_relay_string_witness :
  ∃ w', s2s_OnRead example_conn
          (frame_of S2S_PUSH_STRING_MESSAGE
             (bytes_of_string (spaced ["room"; "0 room u9 5 7 hi"]))) example_known
        = (Ret None, w').
Proof.
  destruct (s2s_relay_string (CF := example_conf) "room" "0 room u9 5 7 hi" example_conn
    {["u1"; "u2"]} example_proxy2 0%nat example_known) as (us & w' & px' & _ & Hrun & _).
  - reflexivity.
  - vm_compute. reflexivity.
  - discriminate.
  - reflexivity.
  - reflexivity.
  - exact example_valid.
  - exact example_cache_wf.
  - exact example_room.
  - reflexivity.
  - exists w'. exact Hrun.
Defined.

Lemma s2s_binary_dropped_witness :
  s2s_OnRead example_conn (frame_of "vido" (bytes_of_string "room u1 room x")) example_known
  = (Ret None, example_known).
Proof.
  set (msg := bytes_of_string "u1 room x").
  set (t := mkForward (all_peers (px_Router example_proxy)) (bytes_of_string "room u1 room x")
              CMD_VIDO_CHAT).
  apply (s2s_binary_dropped (CF := example_conf) "room" "u1" msg example_conn example_proxy
    (mkProxy (px_Router example_proxy) (mkchan 100 [t])) example_world
    (PublishBinMsg "room" "u1" msg true example_world).2 example_known t).
  - assert ((PublishBinMsg "room" "u1" msg true example_world).1 = Ret tt) as H
      by (vm_compute; reflexivity).
    destruct (PublishBinMsg "room" "u1" msg true example_world); simpl in *; congruence.
  - reflexivity.
  - reflexivity.
  - reflexivity.
  - reflexivity.
Defined.
