(* ===== verification/LongPoll.v ===== *)
(** * The HTTP front end (engine/server_http_polling.go)

    Three routes: a long-polling subscription, a publication and the history of
    a channel.  [vars] is what mux extracts from the path of the request, one
    value per variable of the route's template. *)
From S2P Require Import Prelude GoStrings Wire Deps RefDeps Config Base UserIdCache Storage Router.
From S2P Require Import World PubSub Client Commands S2s.

Local Open Scope string_scope.
Local Open Scope list_scope.
Local Open Scope Z_scope.

(** The variables of the templates that [Launch] registers. *)
Definition sub_route : list string := ["channel"; "ts"].
Definition pub_route : list string := ["channel"; "msg"].
Definition history_route : list string := ["channel"; "ts"].

(** ** The server

    golib's [HttpServer] gets the handlers with the templates of their routes and
    is launched: the calls it receives, in order.  mux binds what a template has
    in braces. *)
Inductive http_handler : Type := HServeSubscribe | HServePublish | HServeHistory.
Inductive http_call : Type :=
| RegisterHandler (path : string) (h : http_handler)
| LaunchHttp (listenAddr : string).

Record PushdLongPollingServer : Type := mkLongPolling {
  lp_name : string;
  lp_sessTimeout : Z;
  lp_calls : list http_call
}.

Definition NewPushdLongPollingServer (name : string) : PushdLongPollingServer :=
  mkLongPolling name 0 [].

Definition http (c : http_call) : M PushdLongPollingServer unit :=
  modify (λ s, mkLongPolling (lp_name s) (lp_sessTimeout s) (lp_calls s ++ [c])).

Definition Launch (listenAddr : string) (sessTimeout : Z) : M PushdLongPollingServer unit :=
  _ ← modify (λ s, mkLongPolling (lp_name s) sessTimeout (lp_calls s));
  _ ← http (RegisterHandler "/sub/{channel}/{ts}" HServeSubscribe);
  _ ← http (RegisterHandler "/pub/{channel}/{msg}" HServePublish);
  _ ← http (RegisterHandler "/history/{channel}/{ts}" HServeHistory);
  http (LaunchHttp listenAddr).

Definition braced (segment : string) : option string :=
  match segment with
  | String a s => if Ascii.eqb a "{"%char then Some (TrimRight s ["}"%char]) else None
  | EmptyString => None
  end.
Definition template_vars (path : string) : list string := omap braced (Split "/"%char path).

Definition route_of (h : http_handler) : list string :=
  match h with
  | HServeSubscribe => sub_route | HServePublish => pub_route | HServeHistory => history_route
  end.

(** The routes of the launched server are those above. *)
Lemma Launch_routes name listenAddr t :
  let s := (Launch listenAddr t (NewPushdLongPollingServer name)).2 in
  lp_sessTimeout s = t
  ∧ omap (λ c, match c with RegisterHandler p h => Some (h, template_vars p) | _ => None end) (lp_calls s)
    = (λ h, (h, route_of h)) <$> [HServeSubscribe; HServePublish; HServeHistory].
Proof. split; [done|]. vm_compute. reflexivity. Qed.

(** [vars[k]]: the zero value when the route has no such variable. *)
Definition var (vars : gmap string string) (k : string) : string := default "" (vars !! k).

(** [vars] comes from a request that matched the route. *)
Definition matched (route : list string) (vars : gmap string string) : Prop :=
  dom vars = list_to_set route.

Section longpoll.
  Context {EX : Externals} {NT : Net} {CF : Global}.

(** The read loop of a subscription: what is read is thrown away. *)
Fixpoint poll_reads (sessTimeout : Z) (client : ptr) (reads : list read) : M World unit :=
  match reads with
  | [] => block
  | r :: reads' =>
      _ ← (if 0 <? sessTimeout then emit (EDeadline client) else mret tt);
      match r with
      | ReadEOF => Close client
      | ReadNetErr true _ => Close client
      | ReadNetErr false false | ReadOtherErr => Close client
      | ReadNetErr false true => Close client
      | ReadOk _ => poll_reads sessTimeout client reads'
      end
  end.

(** [bson.M] records with the time stamp turned into a string. *)
Definition ts_to_string (v : value) : M World value :=
  fs ← as_doc v;
  ts ← as_int64 (default VNil (field "ts" fs));
  mret (VDoc (("ts", VStr (fmt_d ts)) :: List.filter (λ kv, negb (String.eqb "ts" kv.1)) fs)).

(** [hijack] is the outcome of taking the connection over: [None] when the
    response writer does not support it. *)
Definition ServeSubscribe (sessTimeout : Z) (vars : gmap string string)
    (hijack : option (option error)) (reads : list read) : M World unit :=
  let channel := var vars "channel" in
  match Atoi (var vars "ts") with
  | None => emit (EHttp "invalid timestamp")
  | Some ts =>
      match hijack with
      | None => emit (EHttp "webserver doesn't support hijacking")
      | Some (Some err) => emit (EHttp (Error err))
      | Some None =>
          _ ← emit (EHttp "HTTP/1.1 200 OK");
          _ ← emit (EHttp "Access-Control-Allow-Origin: *");
          _ ← emit (EHttp "");
          let '(hisRet, _) := history channel (wrap64 (ts + 1)) in
          hisRet ← (if ts =? 0 then mret [] else collectM ts_to_string hisRet);
          match hisRet with
          | _ :: _ => _ ← emit (EHttp (marshalled (VArr hisRet))); emit EHttpClose
          | [] =>
              client ← new_client NewClient;
              _ ← Subscribe client channel;
              poll_reads sessTimeout client reads
          end
      end
  end.

Definition ServeHistory (vars : gmap string string) : M World unit :=
  let channel := var vars "channel" in
  match Atoi (var vars "ts") with
  | None => emit (EHttp "invalid timestamp")
  | Some tsInt =>
      let '(hisRet, err) := history channel tsInt in
      match err with
      | Some _ => emit (EHttp ("fetch history of channel[" +:+ channel +:+ "] from["
                               +:+ fmt_d tsInt +:+ "] error"))
      | None => emit (EHttp (marshalled (VArr hisRet)))
      end
  end.

Definition ServePublish (vars : gmap string string) : M World unit :=
  let channel := var vars "channel" in
  let msg := var vars "msg" in
  let mid := var vars "msgid" in
  match ParseInt64 mid with
  | None => mret tt
  | Some msgId => ret ← Publish channel msg "" msgId false; emit (EHttp ret)
  end.

(** ** Frames *)
Section frame.
  Context (R : relation World) `{!Inert R}.
  Hypothesis emit_ok : ∀ e, within R (emit e).
  Hint Resolve emit_ok : within.

Lemma within_ServePublish vars : within R (ServePublish vars).
Proof. unfold ServePublish. frame. Qed.

Lemma within_ServeHistory vars : within R (ServeHistory vars).
Proof. unfold ServeHistory. frame. Qed.
End frame.

(** What the server does with a request of a route. *)
Definition serve_http (s : PushdLongPollingServer) (h : http_handler) (vars : gmap string string)
    (hijack : option (option error)) (reads : list read) : M World unit :=
  match h with
  | HServeSubscribe => ServeSubscribe (lp_sessTimeout s) vars hijack reads
  | HServePublish => ServePublish vars
  | HServeHistory => ServeHistory vars
  end.

(** ** A subscription, run *)

(** Only a connection without identity has come, and nothing has been written to
    any connection of a user. *)
Definition polled (w w' : World) : Prop :=
  ∃ cs es, w' = set_out (w_out w ++ es) (set_clients cs w)
    ∧ (cs = w_clients w
       ∨ ∃ st, cs = <[fresh (dom (w_clients w)) := with_state st NewClient]> (w_clients w))
    ∧ Forall (λ e, ∀ q op m, e ≠ EWrite q op m) es.

Lemma polled_here w es :
  Forall (λ e, ∀ q op m, e ≠ EWrite q op m) es → polled w (set_out (w_out w ++ es) w).
Proof. intros He. exists (w_clients w), es. split; [by destruct w|]. split; [by left|done]. Qed.

Lemma Close_anonymous p st w :
  w_clients w !! p = Some (with_state st NewClient) →
  Close p w = (Ret tt, set_out (w_out w ++ [EClose p])
                 (set_clients (<[p := with_state CLIENT_STATE_DEAD NewClient]> (w_clients w)) w)).
Proof.
  intros Hp. unfold Close. mstep (upd_client_run p _ (with_state CLIENT_STATE_DEAD) w Hp).
  set (w1 := set_clients _ w).
  by mstep (get_client_run p (with_state CLIENT_STATE_DEAD (with_state st NewClient)) w1 (lookup_insert_eq _ _ _)).
Qed.

Lemma poll_reads_run t p reads w :
  w_clients w !! p = Some NewClient →
  ∃ o es st, poll_reads t p reads w =
      (o, set_out (w_out w ++ es) (set_clients (<[p := with_state st NewClient]> (w_clients w)) w))
    ∧ (o = Ret tt ∨ o = Block) ∧ Forall (λ e, ∀ q op m, e ≠ EWrite q op m) es.
Proof.
  revert w. induction reads as [|r reads IH]; intros w Hp; cbn [poll_reads].
  - exists Block, [], CLIENT_STATE_CREATE. split; [|by auto]. unfold block.
    rewrite app_nil_r, insert_id by done. by destruct w.
  - set (es0 := if 0 <? t then [EDeadline p] else []).
    assert ((if 0 <? t then emit (EDeadline p) else mret tt) w = (Ret tt, set_out (w_out w ++ es0) w))
      as Hd by (unfold es0; destruct (0 <? t); [done|]; rewrite app_nil_r; by destruct w).
    mstep Hd. set (w1 := set_out _ w).
    assert (Forall (λ e, ∀ q op m, e ≠ EWrite q op m) es0) as H0
      by (unfold es0; destruct (0 <? t); by repeat constructor).
    pose proof (Close_anonymous p CLIENT_STATE_CREATE w1 Hp) as Hc.
    assert (∀ m : M World unit, m = Close p → ∃ o es st, m w1 =
        (o, set_out (w_out w ++ es) (set_clients (<[p := with_state st NewClient]> (w_clients w)) w))
        ∧ (o = Ret tt ∨ o = Block) ∧ Forall (λ e, ∀ q op m, e ≠ EWrite q op m) es) as Hend.
    { intros m ->. rewrite Hc. exists (Ret tt), (es0 ++ [EClose p]), CLIENT_STATE_DEAD.
      split; [by rewrite app_assoc|]. split; [by left|]. apply Forall_app. split; [done|by repeat constructor]. }
    destruct r as [input| |[] []|]; try (by apply Hend).
    destruct (IH w1 Hp) as (o & es & st & Hr & Ho & He). exists o, (es0 ++ es), st.
    rewrite Hr. split; [by rewrite app_assoc|]. split; [done|]. by apply Forall_app.
Qed.

Lemma ServeSubscribe_run t vars hijack reads w :
  ∃ o w', ServeSubscribe t vars hijack reads w = (o, w') ∧ (o = Ret tt ∨ o = Block) ∧ polled w w'.
Proof.
  assert (∀ text, ∃ o w', emit (EHttp text) w = (o, w') ∧ (o = Ret tt ∨ o = Block) ∧ polled w w') as Hans.
  { intros text. eexists _, _. split; [reflexivity|]. split; [by left|].
    apply polled_here. by repeat constructor. }
  unfold ServeSubscribe. destruct (Atoi (var vars "ts")) as [ts|]; [|apply Hans].
  destruct hijack as [[e|]|]; [apply Hans| |apply Hans].
  set (answer := [EHttp "HTTP/1.1 200 OK"; EHttp "Access-Control-Allow-Origin: *"; EHttp ""]).
  set (w1 := set_out (w_out w ++ answer) w). set (p := fresh (dom (w_clients w))).
  destruct (poll_reads_run t p reads (set_clients (<[p := NewClient]> (w_clients w1)) w1)) as (o & es & st & Hr & Ho & He);
    [apply lookup_insert_eq|].
  exists o, (set_out (w_out w ++ answer ++ es) (set_clients (<[p := with_state st NewClient]> (w_clients w)) w)).
  split; [|split; [done|]].
  - transitivity (poll_reads t p reads (set_clients (<[p := NewClient]> (w_clients w1)) w1)).
    + unfold emit, modify, new_client, Subscribe, history, cache_GetRange. mred. simpl.
      unfold w1, answer. by destruct (ts =? 0); simpl; rewrite <- !app_assoc.
    + rewrite Hr. simpl. by rewrite insert_insert_eq, <- app_assoc.
  - eexists _, (answer ++ es). split; [reflexivity|]. split; [right; by exists st|].
    apply Forall_app. split; [by repeat constructor|done].
Qed.

Lemma polled_recipient w w' owner u :
  registry_valid w → polled w w' → recipient w' owner u = recipient w owner u.
Proof.
  intros Hl (cs & es & -> & Hcs & _). unfold recipient. simpl.
  destruct (cmap_Get (w_uuids w) u) as [q|] eqn:Hq; [|done]. simpl.
  destruct Hcs as [->|[st ->]]; [done|]. rewrite lookup_insert_ne; [done|].
  intros Heq. destruct (Hl u q Hq) as [c Hc]. apply (is_fresh (dom (w_clients w))).
  rewrite Heq. by apply elem_of_dom.
Qed.

(** ** Properties *)

(** (C33) A long-polling subscriber is never told anything.  A subscription ends or
    waits, whatever its request and whatever is read from it; it has made at most
    one connection object, which has no user id and is registered under none; it
    writes nothing to the connections of users.  Afterwards a message for a
    cached room goes to exactly the connections it would have gone to before, all
    of them there before the subscription. *)
Theorem ServeSubscribe_deaf {LL : LruLaws} {GL : GoSetLaws} (t : Z) (vars : gmap string string)
    (hijack : option (option error)) (reads : list read) (w : World)
    (Hl : registry_valid w) (Hwf : cache_wf (w_cache w)) (Hb : cmap_Get (w_uuids w) "" = None) :
  ∃ o w', ServeSubscribe t vars hijack reads w = (o, w') ∧ (o = Ret tt ∨ o = Block) ∧ polled w w'
    ∧ ∀ op ch owner msg s, members (w_cache w) ch = Some s →
        ∃ vs w2, vs ≡ₚ elements s ∧ pushToNativeClient op ch owner msg w' = (Ret tt, w2)
          ∧ w_tasks w2 = w_tasks w ++ ((λ q, GoWriteFormatBinMsg q op msg) <$> omap (recipient w owner) vs)
          ∧ ∀ q, q ∈ omap (recipient w owner) vs → is_Some (w_clients w !! q).
Proof.
  destruct (ServeSubscribe_run t vars hijack reads w) as (o & w' & Hr & Ho & Hp).
  exists o, w'. split; [done|]. split; [done|]. split; [done|]. intros op ch owner msg s Hs.
  pose proof Hp as (cs & es & Hw & Hcs & _).
  assert (registry_valid w') as Hl'.
  { intros u q Hq. rewrite Hw in *. destruct (Hl u q Hq) as [c Hc]. simpl.
    destruct Hcs as [->|[st ->]]; [by exists c|]. apply lookup_insert_is_Some'. right. by exists c. }
  destruct (pushToNativeClient_run op ch owner msg s w' Hl') as (vs & Hvs & Hpush);
    [by rewrite Hw..|]. exists vs. eexists. split; [done|]. split; [exact Hpush|]. split.
  - assert (omap (recipient w' owner) vs = omap (recipient w owner) vs) as <-.
    { apply list_omap_ext, Forall_Forall2_diag, Forall_true. intros u. by apply polled_recipient. }
    simpl. by rewrite Hw.
  - intros q (u & _ & Hq)%list_elem_of_omap. unfold recipient in Hq.
    destruct (cmap_Get (w_uuids w) u) as [p|] eqn:Eu; [|done]. simpl in Hq.
    destruct (Hl u p Eu) as [c Hc]. rewrite Hc in Hq. simpl in Hq.
    destruct (String.eqb (uuid c) owner); [done|]. injection Hq as <-. by exists c.
Qed.

(** The history route answers every request that has a time stamp with an empty
    list, whatever has been said in the channel: the message cache it reads is
    switched off. *)
Theorem ServeHistory_empty (vars : gmap string string) (w : World) :
  ServeHistory vars w
  = (Ret tt, set_out (w_out w ++ [EHttp (match Atoi (var vars "ts") with
                                         | Some _ => marshalled (VArr [])
                                         | None => "invalid timestamp"
                                         end)]) w).
Proof. unfold ServeHistory. by destruct (Atoi (var vars "ts")). Qed.

(** Publishing over HTTP never publishes: the handler parses a message id
    that the registered route does not carry, fails, and returns without
    touching anything and without an answer. *)
Theorem ServePublish_does_nothing (vars : gmap string string) (w : World)
    (Hvars : matched pub_route vars) :
  ServePublish vars w = (Ret tt, w).
Proof.
  unfold ServePublish, var. assert (vars !! "msgid" = None) as ->; [|done].
  apply not_elem_of_dom. rewrite Hvars. unfold pub_route. set_solver.
Qed.
End longpoll.

Import Ref.
#[local] Existing Instance example_conf.

Lemma ServePublish_does_nothing_witness :
  ServePublish {[ "channel" := "room"; "msg" := "hello" ]} example_world
  = (Ret tt, example_world).
Proof.
  apply (ServePublish_does_nothing (CF := example_conf)
    {[ "channel" := "room"; "msg" := "hello" ]} example_world).
  unfold matched, pub_route. set_solver.
Defined.

Lemma ServeSubscribe_deaf_witness :
  ∃ w' vs w2,
    ServeSubscribe 30 {[ "channel" := "room"; "ts" := "0" ]} (Some None) [ReadOk []; ReadEOF] example_world
      = (Ret tt, w')
    ∧ w_out w' = [EHttp "HTTP/1.1 200 OK"; EHttp "Access-Control-Allow-Origin: *"; EHttp "";
                  EDeadline 3; EDeadline 3; EClose 3]
    ∧ vs ≡ₚ elements ({["u1"; "u2"]} : gset string)
    ∧ pushToNativeClient "RCIV" "room" "u1" [] w' = (Ret tt, w2)
    ∧ w_tasks w2 = (λ q, GoWriteFormatBinMsg q "RCIV" []) <$> omap (recipient example_world "u1") vs.
Proof.
  destruct (ServeSubscribe_deaf 30 {[ "channel" := "room"; "ts" := "0" ]} (Some None)
              [ReadOk []; ReadEOF] example_world example_valid example_cache_wf eq_refl)
    as (o & w' & Hr & _ & _ & Hpush).
  destruct (Hpush "RCIV" "room" "u1" [] {["u1"; "u2"]} example_room) as (vs & w2 & Hvs & Hp & Ht & _).
  set (run := ServeSubscribe _ _ _ _) in *.
  assert ((run example_world).1 = Ret tt) as Ho by (vm_compute; reflexivity).
  rewrite Hr in Ho. simpl in Ho. subst o.
  assert (w' = (run example_world).2) as Hw by (by rewrite Hr).
  exists w', vs, w2. split; [exact Hr|]. split; [rewrite Hw; vm_compute; reflexivity|].
  split; [exact Hvs|]. split; [exact Hp|exact Ht].
Defined.
