(* ===== verification/Stats.v ===== *)
(** * Statistics (engine/server_tcp_stats.go, engine/proxy_stats.go)

    The status page over HTTP and the metrics.  What the runtime reports, the
    HTTP server and the metrics library are not this program's. *)
From S2P Require Import Prelude GoStrings Wire Deps RefDeps Config Base UserIdCache Storage Router.
From S2P Require Import World PubSub.

Local Open Scope string_scope.
Local Open Scope list_scope.

(** ** The Go runtime and golib's [server] package

    The argument is the moment of the call. *)
Class Runtime : Type := {
  runtime_Stack : nat → string;
  NumGoroutine : nat → Z;
  mem_stats : Type;
  ReadMemStats : nat → mem_stats;
  rusage : Type;
  Getrusage : nat → rusage;
  VERSION : string;
  BuildID : string
}.

(** ** The metrics

    What is asked of the metrics library, in order; a metric is known by the
    number of the call that made it. *)
Inductive metric_call : Type :=
| CNewHistogram (sample : Z)
| CNewMeter
| CRegister (name : string) (metric : nat).

Definition make (c : metric_call) : M (list metric_call) nat := λ l, (Ret (length l), l ++ [c]).
Definition NewMeter : M (list metric_call) nat := make CNewMeter.
Definition Register (name : string) (m : nat) : M (list metric_call) unit :=
  modify (λ l, l ++ [CRegister name m]).

Record ServerStats : Type := mkServerStats { CallLatencies : nat; CallPerSecond : nat }.

(** The histogram samples 1028 values. *)
Definition NewServerStats : M (list metric_call) ServerStats :=
  latencies ← make (CNewHistogram 1028);
  _ ← Register "latency.call" latencies;
  persecond ← NewMeter;
  _ ← Register "qps.call" persecond;
  mret (mkServerStats latencies persecond).

Record ProxyStats : Type := mkProxyStats {
  pubCalls : nat; subCalls : nat; unsubCalls : nat; outChannels : nat
}.

Definition newProxyStats : M (list metric_call) ProxyStats :=
  a ← NewMeter; b ← NewMeter; c ← NewMeter; d ← NewMeter; mret (mkProxyStats a b c d).

(** Every meter is replaced. *)
Definition registerMetrics (this : ProxyStats) : M (list metric_call) ProxyStats :=
  a ← NewMeter; _ ← Register "proxy.pub_calls" a;
  b ← NewMeter; _ ← Register "proxy.sub_calls" b;
  c ← NewMeter; _ ← Register "proxy.unsub_calls" c;
  d ← NewMeter; _ ← Register "proxy.out_channels" d;
  mret (mkProxyStats a b c d).

(** The meters that are left in the object are those that were registered, each
    under its own name; the first four are never seen again. *)
Lemma proxy_meters l :
  let n := length l in
  (s0 ← newProxyStats; registerMetrics s0) l =
    (Ret (mkProxyStats (4 + n) (6 + n) (8 + n) (10 + n)),
     l ++ replicate 4 CNewMeter
       ++ [CNewMeter; CRegister "proxy.pub_calls" (4 + n); CNewMeter; CRegister "proxy.sub_calls" (6 + n);
           CNewMeter; CRegister "proxy.unsub_calls" (8 + n); CNewMeter;
           CRegister "proxy.out_channels" (10 + n)]).
Proof.
  unfold registerMetrics, newProxyStats, NewMeter, make, Register. mred.
  rewrite !length_app. simpl length. rewrite <- !app_assoc. simpl app.
  repeat f_equal; lia.
Qed.

Section stats.
  Context {EX : Externals} {NT : Net} {CF : Global} {RT : Runtime}.

(** What the page shows, before it is turned into JSON. *)
Inductive shown : Type :=
| SStr (s : string)
| SInt (z : Z)
| SMem (m : mem_stats)
| SUsage (r : rusage)
| SCounts (pubsub_channel_count s2s_channel_count : Z)
| SConf (c : ConfigPushd).

Definition ErrHttp404 : error := NewError "404 not found".

(** A moment of the clock, for the runtime's reports. *)
Definition moment : M World nat :=
  onBase (λ b, (Ret (b_tick b), mkBase (b_db b) (S (b_tick b)))).

(** [mux.Vars(req)["cmd"]] is [cmd]. *)
Definition query_output (cmd : string) : M World (option (gmap string shown)) :=
  if String.eqb cmd "ping" then mret (Some {[ "status" := SStr "ok" ]})
  else if String.eqb cmd "trace" then
    t ← moment; mret (Some {[ "callstack" := SStr (runtime_Stack t) ]})
  else if String.eqb cmd "sys" then
    t1 ← moment; t2 ← moment; t3 ← moment;
    mret (Some (<[ "goroutines" := SInt (NumGoroutine t1) ]>
                (<[ "memory" := SMem (ReadMemStats t2) ]>
                 {[ "rusage" := SUsage (Getrusage t3) ]})))
  else if String.eqb cmd "stat" then
    channels ← gets w_pubsub;
    router ← onProxy (gets px_Router);
    mret (Some (<[ "ver" := SStr VERSION ]> (<[ "build" := SStr BuildID ]>
                (<[ "stats" := SCounts (lru_Len channels) (lru_Len (r_cache router)) ]>
                 {[ "conf" := SConf PushdConf ]}))))
  else mret None.

Definition handleHttpQuery (cmd : string) : M World (error + gmap string shown) :=
  o ← query_output cmd;
  match o with
  | None => mret (inl ErrHttp404)
  | Some output =>
      mret (inr (if String.eqb (ProfListenAddr PushdConf) "" then output
                 else <[ "pprof" := SStr ("http://" +:+ ProfListenAddr PushdConf
                                            +:+ "/debug/pprof/") ]> output))
  end.

(** ** The life of the status server *)
Inductive stats_call : Type :=
| LaunchHttpServer (listenAddr profAddr : string)
| RegisterHttpApi (path method : string)
| StopHttpServer
| MetricsLog (interval : Z).

Definition call (c : stats_call) : M (list stats_call) unit := modify (λ l, l ++ [c]).

Definition launchHttpServer : M (list stats_call) unit :=
  if String.eqb (StatsListenAddr PushdConf) "" then mret tt else
  _ ← call (LaunchHttpServer (StatsListenAddr PushdConf) (ProfListenAddr PushdConf));
  call (RegisterHttpApi "/s/{cmd}" "GET").

Definition stopHttpServer : M (list stats_call) unit := call StopHttpServer.

(** [defer f()]: [f] runs when the body returns and when it panics; a body that
    never returns leaves it waiting. *)
Definition with_defer {S A} (m : M S A) (f : M S unit) : M S A := λ s,
  match m s with
  | (Ret a, s') => match f s' with
                   | (Ret _, s'') => (Ret a, s'')
                   | (Panic e, s'') => (Panic e, s'')
                   | (Block, s'') => (Block, s'')
                   end
  | (Panic e, s') => let '(_, s'') := f s' in (Panic e, s'')
  | (Block, s') => (Block, s')
  end.

(** [opened] is the outcome of opening the log file.  [metrics.Log] writes the
    registry at every tick and does not return. *)
Definition Start (opened : option error) (interval : Z) : M (list stats_call) unit :=
  _ ← launchHttpServer;
  with_defer
    (match opened with
     | Some e => panic (Error e)
     | None => if (0 <? interval)%Z then _ ← call (MetricsLog interval); block else mret tt
     end)
    stopHttpServer.

(** ** Lemmas *)
Lemma moment_run w : moment w = (Ret (b_tick (w_base w)), tick w).
Proof. done. Qed.

Lemma set_base_same w : set_base (mkBase (b_db (w_base w)) (b_tick (w_base w))) w = w.
Proof. by destruct w as [[] ? ? ? ? ? ? ? ? ? ?]. Qed.

(** Whether there is a profiler decides one key and no other. *)
Definition with_pprof (output : gmap string shown) : gmap string shown :=
  if String.eqb (ProfListenAddr PushdConf) "" then output
  else <[ "pprof" := SStr ("http://" +:+ ProfListenAddr PushdConf +:+ "/debug/pprof/") ]> output.

Lemma with_pprof_key output :
  output !! "pprof" = None →
  is_Some (with_pprof output !! "pprof") ↔ ProfListenAddr PushdConf ≠ "".
Proof.
  intros Hn. unfold with_pprof. destruct (String.eqb_spec (ProfListenAddr PushdConf) "") as [E|E].
  - rewrite Hn. split; [by intros [? ?]|done].
  - rewrite lookup_insert_eq. split; [done|eauto].
Qed.

Lemma with_pprof_other output k : k ≠ "pprof" → with_pprof output !! k = output !! k.
Proof. intros Hk. unfold with_pprof. destruct (String.eqb _ _); [done|]. by rewrite lookup_insert_ne. Qed.

(** What is to be shown of a page that was made. *)
Lemma page_ok cmd w n output w' :
  w' = set_base (mkBase (b_db (w_base w)) (n + b_tick (w_base w))) w →
  cmd ∈ ["ping"; "trace"; "sys"; "stat"] → output !! "pprof" = None →
  (cmd = "ping" → output !! "status" = Some (SStr "ok")) →
  (cmd = "stat" → ∃ px, w_proxy w = Some px
     ∧ output !! "stats" = Some (SCounts (lru_Len (w_pubsub w)) (lru_Len (r_cache (px_Router px))))) →
  (∃ n, w' = set_base (mkBase (b_db (w_base w)) (n + b_tick (w_base w))) w)
  ∧ cmd ∈ ["ping"; "trace"; "sys"; "stat"]
  ∧ (is_Some (with_pprof output !! "pprof") ↔ ProfListenAddr PushdConf ≠ "")
  ∧ (cmd = "ping" → with_pprof output !! "status" = Some (SStr "ok"))
  ∧ (cmd = "stat" → ∃ px, w_proxy w = Some px
       ∧ with_pprof output !! "stats"
         = Some (SCounts (lru_Len (w_pubsub w)) (lru_Len (r_cache (px_Router px))))).
Proof.
  intros Hw Hc Hn Hping Hstat. split; [by exists n|]. split; [done|].
  split; [by apply with_pprof_key|]. by rewrite !with_pprof_other.
Qed.

(** ** Properties *)

(** The status page.  A query changes nothing in the server but the reading of
    the clock; it answers [ping], [trace], [sys] and [stat], with the address of
    the profiler when one is configured, and 404 to anything else.  [stat] counts
    the channels of the router, and panics while there is none: outside
    distributed mode. *)
Theorem handleHttpQuery_spec (cmd : string) (w : World) :
  let '(o, w') := handleHttpQuery cmd w in
  (∃ n, w' = set_base (mkBase (b_db (w_base w)) (n + b_tick (w_base w))) w)
  ∧ match o with
    | Ret (inl e) => e = ErrHttp404 ∧ cmd ∉ ["ping"; "trace"; "sys"; "stat"]
    | Ret (inr output) =>
        cmd ∈ ["ping"; "trace"; "sys"; "stat"]
        ∧ (is_Some (output !! "pprof") ↔ ProfListenAddr PushdConf ≠ "")
        ∧ (cmd = "ping" → output !! "status" = Some (SStr "ok"))
        ∧ (cmd = "stat" → ∃ px, w_proxy w = Some px
             ∧ output !! "stats" = Some (SCounts (lru_Len (w_pubsub w))
                                             (lru_Len (r_cache (px_Router px)))))
    | Panic _ => cmd = "stat" ∧ w_proxy w = None
    | Block => False
    end.
Proof.
  unfold handleHttpQuery, query_output.
  destruct (String.eqb_spec cmd "ping") as [->|H1];
    [|destruct (String.eqb_spec cmd "trace") as [->|H2];
      [|destruct (String.eqb_spec cmd "sys") as [->|H3];
        [|destruct (String.eqb_spec cmd "stat") as [->|H4]]]].
  - eapply (page_ok "ping" w 0); [symmetry; apply set_base_same|by apply (bool_decide_unpack (_ ∈ _))
      |reflexivity|intros _; apply lookup_singleton_eq|done].
  - eapply (page_ok "trace" w 1 _ (tick w)); [done|by apply (bool_decide_unpack (_ ∈ _))
      |reflexivity|done|done].
  - eapply (page_ok "sys" w 3 _ (tick (tick (tick w)))); [done|by apply (bool_decide_unpack (_ ∈ _))
      |reflexivity|done|done].
  - rewrite bind_assoc_run, (bind_ret_run (gets w_pubsub) _ w _ w eq_refl), bind_assoc_run.
    destruct (w_proxy w) as [px|] eqn:Hp.
    + assert (onProxy (gets px_Router) w = (Ret (px_Router px), w)) as Hrun.
      { unfold onProxy. rewrite Hp. cbn. destruct w; simpl in *. by rewrite Hp. }
      mstep Hrun. rewrite <- Hp. eapply (page_ok "stat" w 0); [symmetry; apply set_base_same
        |by apply (bool_decide_unpack (_ ∈ _))|reflexivity|done|].
      intros _. exists px. split; [done|reflexivity].
    + assert (onProxy (gets px_Router) w = (Panic "invalid memory address or nil pointer dereference", w))
        as Hrun by (unfold onProxy; by rewrite Hp).
      mstep Hrun. split; [exists 0; by rewrite set_base_same|done].
  - split; [exists 0; by rewrite set_base_same|]. split; [done|].
    rewrite !elem_of_cons, elem_of_nil. naive_solver.
Qed.
End stats.
