(* ===== verification/Server.v ===== *)
(** * Client connections and start-up (engine/server_tcp.go, daemon/pushd/main.go)

    [OnAccept] reads frames from a connection until one of them, or the
    connection itself, is broken; [OnRead] parses one frame, checks access and
    the token, runs the command and starts the write of the reply. *)
From S2P Require Import Prelude GoStrings Wire Deps RefDeps Config Base SenderPool UserIdCache Storage.
From S2P Require Import Router World PubSub Client Rooms Auth Mail Commands S2s LongPoll.

Local Open Scope string_scope.
Local Open Scope list_scope.
Local Open Scope Z_scope.

Record PushdClientProcessor : Type := mkProcessor {
  enableAclCheck : bool;
  pr_server : TcpServer
}.

Definition NewPushdClientProcessor (server : TcpServer) : PushdClientProcessor :=
  mkProcessor true server.
Definition EnableAclCheck (p : PushdClientProcessor) := mkProcessor true (pr_server p).
Definition DisableAclCheck (p : PushdClientProcessor) := mkProcessor false (pr_server p).

Section server.
  Context {EX : Externals} {NT : Net} {CF : Global}.

(** The checks before a command; [None] when one of them answered instead. *)
Definition check_access (client : ptr) (cl : Cmdline) : M World (option Cmdline) :=
  err ← AclCheck client (Cmd cl);
  match err with
  | Some e => _ ← spawn (GoWriteFormatMsg client (Cmd cl) (Error e)); mret None
  | None =>
      '(err, cl') ← TokenCheck cl;
      match err with
      | Some e =>
          _ ← spawn (GoWriteFormatMsg client (Cmd cl)
                       (fmt_d CODE_TOKEN_OR_TERM_ERROR +:+ " " +:+ Error e));
          mret None
      | None => mret (Some cl')
      end
  end.

(** Commands whose result is never sent. *)
Definition silent (cmd : string) : bool :=
  String.eqb cmd CMD_VIDO_CHAT || String.eqb cmd CMD_ACK_MSG
  || String.eqb cmd CMD_INVOKE_FRAME_ACTION || String.eqb cmd CMD_ACK_SERVER_NOTIFY.

(** The latency histogram and the call meter are left out. *)
Definition OnRead (this : PushdClientProcessor) (client : ptr) (input : list byte)
    : M World (option error) :=
  r ← NewCmdline input client;
  match r with
  | inl res => mret (Some res)
  | inr cl =>
      o ← (if enableAclCheck this then check_access client cl else mret (Some cl));
      match o with
      | None => mret None
      | Some cl =>
          '(ret, err) ← Process cl;
          if silent (Cmd cl) then mret None else
          match err with
          | Some _ => mret None
          | None => _ ← spawn (GoWriteFormatMsg client (Cmd cl) ret); mret None
          end
      end
  end.

(** The loop of [OnAccept], on the results of the successive reads; with no more
    of them the goroutine is parked in [Read]. *)
Fixpoint serve_reads (this : PushdClientProcessor) (client : ptr) (reads : list read)
    : M World unit :=
  match reads with
  | [] => block
  | r :: reads' =>
      _ ← (if 0 <? SessTimeout (pr_server this) then emit (EDeadline client) else mret tt);
      match r with
      | ReadEOF => Close client
      | ReadNetErr true _ => Close client
      | ReadNetErr false false | ReadOtherErr => Close client
      | ReadNetErr false true => Close client
      | ReadOk input =>
          err ← OnRead this client input;
          match err with
          | Some _ => Close client
          | None => serve_reads this client reads'
          end
      end
  end.

Definition OnAccept (this : PushdClientProcessor) (reads : list read) : M World unit :=
  client ← new_client NewClient;
  serve_reads this client reads.

(** ** Start-up: [init] and [main] of daemon/pushd, up to the servers *)
Definition blank_world (b : Base) : World :=
  mkWorld b ∅ cmap_New (newChannelToUserIds 0) (NewLruCache 0) None set_NewSet
    (mkchan 0 []) None [] [].

Definition NewS2sProxy (n : net) : S2sProxy :=
  mkProxy (NewRouter (S2sChannelPeersMaxItems PushdConf) n) (mkchan 100 []).

Definition InitOffPushService : M World (error + OffSenderPool) :=
  _ ← modify (set_cache (newChannelToUserIds (ChannelInfoCacheNum PushdConf)));
  initOffSenderPool PushdConf (OffSenderPoolNum PushdConf)
    (default [] (MsgQueueAddrs PushdConf)).

(** Storage's [Init] also creates the write buffer, which is private to [Serv]. *)
Definition storage_Init : M World unit :=
  modify (λ w,
    mkWorld (w_base w) (w_clients w) (w_uuids w) (w_cache w) (w_pubsub w) (w_proxy w)
      (w_skipAcl w) (mkchan (Z.to_nat (MaxStorageOutstandingMsg PushdConf)) [])
      (factory (MsgStorage PushdConf)) (w_tasks w) (w_out w)).

(** ** The whole server as a step relation

    Any of the goroutines may run next: a connection is accepted, a frame of an
    open connection is handled, a connection is closed, a spawned goroutine
    runs, a frame from another server is handled, [WaitMsg] takes a message,
    storage takes a message from its queue, the watcher of etcd hears of
    servers, an HTTP request is answered.  A long-polling subscription is a
    connection that is accepted and closed. *)
Inductive sys_step (pr : PushdClientProcessor) : World → World → Prop :=
| sys_accept w : sys_step pr w (new_client NewClient w).2
| sys_read p input w : is_Some (w_clients w !! p) → sys_step pr w (OnRead pr p input w).2
| sys_close p w : is_Some (w_clients w !! p) → sys_step pr w (Close p w).2
| sys_go w w' : go_step w w' → sys_step pr w w'
| sys_s2s conn input w : sys_step pr w (s2s_OnRead conn input w).2
| sys_forward w : sys_step pr w (WaitMsg_round w).2
| sys_store w : sys_step pr w (onQueue chan_recv w).2
| sys_peers servers w : sys_step pr w (onRouter (watchPeers_event PushdConf servers) w).2
| sys_publish vars w : sys_step pr w (ServePublish vars w).2
| sys_history vars w : sys_step pr w (ServeHistory vars w).2.

(** ** Frames *)
Section frame.
  Context (R : relation World) `{!Inert R}.
  Hypothesis spawn_write : ∀ cli op msg, within R (spawn (GoWriteFormatMsg cli op msg)).
  Hypothesis self_ok : ∀ p, within R (ClearIdentity p).
  Hypothesis expire_ok : ∀ p e, within R (updateTokenExpire p e).
  Hint Resolve spawn_write self_ok expire_ok : within.

Lemma within_checkClientToken p tk : within R (checkClientToken p tk).
Proof. unfold checkClientToken. frame. Qed.
Hint Resolve within_checkClientToken : within.

Lemma within_TokenCheck cl : within R (TokenCheck cl).
Proof. unfold TokenCheck. frame. Qed.
Hint Resolve within_TokenCheck : within.

Lemma within_check_access p cl : within R (check_access p cl).
Proof. unfold check_access. frame. Qed.
Hint Resolve within_check_access : within.

Lemma within_NewCmdline input p : within R (NewCmdline input p).
Proof.
  intros w. destruct (NewCmdline_sound input p w) as (r & Hr & _). rewrite Hr. reflexivity.
Qed.
Hint Resolve within_NewCmdline : within.

Lemma within_OnRead pr p input :
  (∀ cl, within R (Process cl)) → within R (OnRead pr p input).
Proof. intros HP. unfold OnRead. frame. Qed.
End frame.

(** Nothing a command does is a write to a connection: writes are spawned. *)
Definition out_of (w : World) : list Event := w_out w.

Lemma inert_out : Inert (same out_of).
Proof. split; try done; [apply _|]. intros. by apply within_onCache. Qed.

Lemma within_out_upd p f : within (same out_of) (upd_client p f).
Proof. apply within_upd_client; [apply _|done]. Qed.

Lemma Process_out cl w : w_out (Process cl w).2 = w_out w.
Proof.
  pose proof inert_out. change (same out_of w (Process cl w).2).
  revert w. change (within (same out_of) (Process cl)).
  destruct (decide (Cmd cl ∈ identity_commands)).
  - apply within_Process_identity; intros; first [done | apply within_out_upd | by intros w].
  - apply within_Process; intros; first [done | apply within_out_upd].
Qed.

Lemma OnRead_out pr p input w : w_out (OnRead pr p input w).2 = w_out w.
Proof.
  pose proof inert_out. change (same out_of w (OnRead pr p input w).2).
  revert w. change (within (same out_of) (OnRead pr p input)).
  apply within_OnRead; intros;
    first [done | apply within_out_upd | intros w; apply Process_out | by intros w].
Qed.

(** [Close] writes one event, as its last action. *)
Definition close_pre (p : ptr) : M World unit :=
  _ ← upd_client p (with_state CLIENT_STATE_DEAD);
  c ← get_client p;
  if IsClient c then _ ← clearFrameChat p; _ ← UnsubscribeAllChannels p; Remove (uuid c) p
  else mret tt.

Lemma Close_split p w : Close p w = (_ ← close_pre p; emit (EClose p)) w.
Proof.
  unfold Close, close_pre. rewrite bind_assoc_run. apply bind_ext_run. intros [] w1.
  by rewrite bind_assoc_run.
Qed.

Lemma within_close_pre R `{!Inert R} p :
  within R (upd_client p (with_state CLIENT_STATE_DEAD)) → (∀ u, within R (Remove u p)) →
  within R (close_pre p).
Proof. intros. unfold close_pre, UnsubscribeAllChannels. frame. Qed.

Lemma Close_out p w :
  w_out (Close p w).2 = w_out w ++ match (Close p w).1 with Ret _ => [EClose p] | _ => [] end.
Proof.
  pose proof inert_out as HI. rewrite Close_split.
  assert (within (same out_of) (close_pre p)) as H.
  { apply within_close_pre; [done|apply within_out_upd|].
    intros u w0. unfold Remove, GetClient. mred. destruct (cmap_Get _ _); [|done].
    by destruct (bool_decide _). }
  specialize (H w). unfold same, out_of in H. unfold mbind, M_bind.
  destruct (close_pre p w) as [[[]|e|] w1]; simpl in *; rewrite H; by rewrite ?app_nil_r.
Qed.

(** Nothing a command does changes the list of open commands. *)
Abbreviation acl := (same (w_skipAcl (EX := EX) (NT := NT))).

#[local] Instance inert_acl : Inert acl.
Proof. by apply inert_same. Qed.

Lemma upd_acl p f : within acl (upd_client p f).
Proof. by apply within_upd_client; [apply _|]. Qed.
Lemma spawn_acl t : within acl (spawn t).
Proof. by intros w. Qed.
Lemma emit_acl e : within acl (emit e).
Proof. by intros w. Qed.
Lemma Remove_acl u p : within acl (Remove u p).
Proof.
  intros w. unfold Remove, GetClient. mred. destruct (cmap_Get _ _); [|done].
  by destruct (bool_decide _).
Qed.
Lemma AddClient_acl u p : within acl (AddClient u p).
Proof. by intros w. Qed.
Hint Resolve upd_acl spawn_acl emit_acl Remove_acl AddClient_acl : within.

Lemma Process_acl cl : within acl (Process cl).
Proof.
  destruct (decide (Cmd cl ∈ identity_commands)).
  - apply within_Process_identity; eauto with within.
  - apply within_Process; eauto with within.
Qed.

(** ** Properties *)

(** A client connection is closed exactly once, when and only when its loop
    ends: a read error or a malformed frame ends it, a refused or failed
    command does not; before that the loop only sets read deadlines, everything
    else being written by other goroutines. *)
Theorem OnAccept_closes_once (this : PushdClientProcessor) (p : ptr) (reads : list read)
    (w : World) :
  let '(o, w') := serve_reads this p reads w in
  ∃ k, (k ≤ length reads)%nat
    ∧ w_out w' = w_out w ++ replicate k (EDeadline p)
                   ++ match o with Ret _ => [EClose p] | _ => [] end.
Proof.
  revert w. induction reads as [|r reads IH]; intros w; cbn [serve_reads].
  { exists 0%nat. simpl. by rewrite app_nil_r. }
  assert (∃ w1, (if 0 <? SessTimeout (pr_server this) then emit (EDeadline p) else mret tt) w
                = (Ret tt, w1)
                ∧ ∃ j, (j ≤ 1)%nat ∧ w_out w1 = w_out w ++ replicate j (EDeadline p))
    as (w1 & Hrun & j & Hj & Hout).
  { destruct (0 <? SessTimeout (pr_server this)); eexists; (split; [reflexivity|]).
    - by exists 1%nat.
    - exists 0%nat. simpl. rewrite app_nil_r. split; [lia|done]. }
  mstep Hrun.
  assert (∀ w1, w_out w1 = w_out w ++ replicate j (EDeadline p) →
    let '(o, w') := Close p w1 in
    ∃ k, (k ≤ S (length reads))%nat ∧ w_out w' = w_out w ++ replicate k (EDeadline p)
           ++ match o with Ret _ => [EClose p] | _ => [] end) as Hclose.
  { intros w2 H2. pose proof (Close_out p w2) as Hc. destruct (Close p w2) as [o w3].
    exists j. split; [lia|]. simpl in Hc. by rewrite Hc, H2, <- app_assoc. }
  destruct r as [input| |[] []|]; try by apply Hclose.
  pose proof (OnRead_out this p input w1) as Hkeep.
  unfold mbind, M_bind. destruct (OnRead this p input w1) as [[[e|]|e|] w2]; simpl in Hkeep.
  - apply Hclose. congruence.
  - specialize (IH w2). destruct (serve_reads this p reads w2) as [o w3].
    destruct IH as (k & Hk & Hout3). exists (j + k)%nat. split; [simpl; lia|].
    by rewrite Hout3, Hkeep, Hout, replicate_add, <- !app_assoc.
  - exists j. split; [simpl; lia|]. by rewrite Hkeep, Hout, app_nil_r.
  - exists j. split; [simpl; lia|]. by rewrite Hkeep, Hout, app_nil_r.
Qed.

Context {GL : GoSetLaws} {CL : CmapLaws}.

(** (C12) Before authentication a connection can do nothing outside the open
    commands: on a server with access control, any well-formed frame with
    another command is answered by one message, keeps the connection open, and
    changes nothing else in the whole server. *)
Theorem unauthenticated_gate (this : PushdClientProcessor) (p : ptr) (c : Client)
    (input h body : list byte) (w0 : World)
    (Hacl : enableAclCheck this = true) (Hc : w_clients w0 !! p = Some c)
    (Hcl : IsClient c = false) (Hsv : IsServer c = false)
    (Hf : client_frame input h body) (Hx : string_of_bytes h ∉ skip_commands) :
  let w := (InitAclEnv w0).2 in
  OnRead this p input w =
    (Ret None, set_tasks (w_tasks w ++
                 [GoWriteFormatMsg p (string_of_bytes h) "Need Auth first"]) w).
Proof.
  intros w. subst w. destruct (InitAclEnv_run w0) as (s & -> & Hs). cbn [snd].
  set (w := set_skipAcl s w0). unfold OnRead. mstep (NewCmdline_complete input h body p w Hf).
  rewrite Hacl. assert (Cmd (cmdline_of h body p) = string_of_bytes h) as Hcmd.
  { unfold cmdline_of. by destruct (String.eqb _ _). }
  assert (AclCheck p (Cmd (cmdline_of h body p)) w
          = (Ret (Some (NewError "Need Auth first")), w)) as Hacheck.
  { unfold AclCheck. mstep (get_client_run p c w Hc). mred.
    rewrite Hcl, Hsv, set_Contains_elems, bool_decide_false; [done|]. by rewrite Hcmd, Hs. }
  unfold check_access, mbind, M_bind. rewrite Hacheck. cbn. by rewrite Hcmd.
Qed.

Lemma cut_token tk rest :
  occurs space tk = false →
  presented (tk +:+ " " +:+ rest) = tk ∧ remaining (tk +:+ " " +:+ rest) = rest.
Proof.
  intros H. unfold presented, remaining.
  change (tk +:+ " " +:+ rest) with (tk +:+ String space rest). by rewrite cut_app.
Qed.

Lemma auth_client_run p tk c w :
  w_clients w !! p = Some c → occurs space tk = false →
  on_record w "client_token" (token_query tk) client_token_fields →
  ∃ c1 w1, do_AUTH_CLIENT p tk w = (Ret ("200 Client auth succeed", None), w1)
    ∧ w_clients w1 !! p = Some c1 ∧ IsClient c1 = true
    ∧ tokenInfo c1 = mkToken tk (UnixNano (b_tick (w_base w)))
    ∧ b_tick (w_base w1) = S (b_tick (w_base w)).
Proof.
  intros Hc Hsp Hrec. unfold do_AUTH_CLIENT. rewrite Split_noocc by done. unfold authClient.
  destruct (find_token_run "client_token" (token_query tk) client_token_fields w)
    as (o & Hrun & Ho). unfold token_query, client_token_fields in Hrun.
  destruct (proj2 Ho Hrec) as [v ->]. set (w0 := after_one _ _ _ w) in *.
  unfold mbind, M_bind. rewrite Hrun. cbn [mret M_ret]. unfold SetClient, initToken.
  rewrite (upd_client_run p c) by done. rewrite now_UnixNano_run.
  erewrite upd_client_run by apply lookup_insert_eq.
  eexists _, _. split_and!; [reflexivity|apply lookup_insert_eq| |reflexivity|reflexivity].
  apply (as_client_IsClient c).
Qed.

(** Within the range of a 64-bit clock the age of a token is never too large. *)
Lemma age_ok n m :
  0 ≤ UnixNano n < 2 ^ 63 → 0 ≤ UnixNano m < 2 ^ 63 →
  wrap64 (UnixNano n / 1000000000 - UnixNano m) ≤ TOKEN_LIFE.
Proof.
  intros Hn Hm.
  assert (0 ≤ UnixNano n / 1000000000 < 9223372037)
    by (split; [apply Z.div_pos; lia|apply Z.div_lt_upper_bound; lia]).
  rewrite wrap64_id; [unfold TOKEN_LIFE; lia|]. apply is_int64_spec.
  unfold int64_min, int64_max. lia.
Qed.

(** The token check of [check_access], on a client connection. *)
Lemma check_access_client p cmd P c w :
  w_clients w !! p = Some c → IsClient c = true → cmd ∉ token_exempt →
  check_access p (mkCmdline cmd P [] p) w =
    (err ← checkClientToken p (presented P);
     match err with
     | Some e =>
         _ ← ClearIdentity p;
         _ ← spawn (GoWriteFormatMsg p cmd (fmt_d CODE_TOKEN_OR_TERM_ERROR +:+ " " +:+ Error e));
         mret None
     | None => mret (Some (mkCmdline cmd (remaining P) [] p))
     end) w.
Proof.
  intros Hc Hi Hx. assert (AclCheck p cmd w = (Ret None, w)) as Hacl.
  { unfold AclCheck. mstep (get_client_run p c w Hc). mred. by rewrite Hi. }
  unfold check_access. cbn [Cmd]. mstep Hacl.
  unfold mbind at 1, M_bind at 1. rewrite (TokenCheck_client_run (mkCmdline cmd P [] p) w c Hc Hi Hx).
  cbn [Params cl_client]. unfold mbind, M_bind.
  destruct (checkClientToken p (presented P) w) as [[[e|]|e|] w1]; try done.
  by destruct (ClearIdentity p w1) as [[[]|?|] w2].
Qed.

(** The access check without an identity. *)
Lemma access_denied p cmd P c w :
  w_clients w !! p = Some c → IsClient c = false → IsServer c = false →
  cmd ∉ set_elems (w_skipAcl w) →
  check_access p (mkCmdline cmd P [] p) w =
    (Ret None, set_tasks (w_tasks w ++ [GoWriteFormatMsg p cmd "Need Auth first"]) w).
Proof.
  intros Hc Hcl Hsv Hx.
  assert (AclCheck p cmd w = (Ret (Some (NewError "Need Auth first")), w)) as Hacl.
  { unfold AclCheck. mstep (get_client_run p c w Hc). mred.
    by rewrite Hcl, Hsv, set_Contains_elems, bool_decide_false. }
  unfold check_access, mbind, M_bind. cbn [Cmd]. by rewrite Hacl.
Qed.

Lemma check_access_acl p cl : within acl (check_access p cl).
Proof.
  apply within_check_access; [apply _|intros; apply spawn_acl|intros; apply upd_acl|].
  intros. unfold updateTokenExpire. apply upd_acl.
Qed.

(** (C11) The life of a session.  After [auth_client] with a token the database
    holds, the connection is a client that carries that token, and a later
    command presenting it passes both checks and is run with the token
    stripped; a command presenting any other token is refused and costs the
    connection its identity.  From then on the access check refuses it every
    command outside the open ones, whatever its parameters: the answer is
    Need Auth first and nothing else changes. *)
Theorem session (p : ptr) (tk tk' rest cmd : string) (c : Client) (w : World)
    (Hc : w_clients w !! p = Some c) (Htk : tk ≠ "") (Hsp : occurs space tk = false)
    (Hsp' : occurs space tk' = false) (Hx : cmd ∉ token_exempt)
    (Hrec : on_record w "client_token" (token_query tk) client_token_fields)
    (Hskip : ∀ x, x ∈ set_elems (w_skipAcl w) ↔ x ∈ skip_commands)
    (Hclock : ∀ n, n = b_tick (w_base w) ∨ n = S (b_tick (w_base w)) → 0 ≤ UnixNano n < 2 ^ 63) :
  ∃ w1, Process (mkCmdline "auth_client" tk [] p) w = (Ret ("200 Client auth succeed", None), w1)
    ∧ client_at p w1 = true
    ∧ (∃ w2, check_access p (mkCmdline cmd (tk +:+ " " +:+ rest) [] p) w1
             = (Ret (Some (mkCmdline cmd rest [] p)), w2) ∧ client_at p w2 = true)
    ∧ (tk' ≠ tk → ∃ w2, check_access p (mkCmdline cmd (tk' +:+ " " +:+ rest) [] p) w1
             = (Ret None, w2) ∧ client_at p w2 = false ∧ server_at p w2 = false
             ∧ ∀ cmd' P, cmd' ∉ skip_commands →
                 check_access p (mkCmdline cmd' P [] p) w2 =
                   (Ret None, set_tasks (w_tasks w2 ++
                                [GoWriteFormatMsg p cmd' "Need Auth first"]) w2)).
Proof.
  change (Process (mkCmdline "auth_client" tk [] p) w) with (do_AUTH_CLIENT p tk w).
  destruct (auth_client_run p tk c w Hc Hsp Hrec) as (c1 & w1 & Hrun & Hc1 & Hi1 & Ht1 & Hb1).
  assert (w_skipAcl w1 = w_skipAcl w) as Ha1.
  { pose proof (Process_acl (mkCmdline "auth_client" tk [] p) w) as Ha.
    change (Process (mkCmdline "auth_client" tk [] p) w) with (do_AUTH_CLIENT p tk w) in Ha.
    by rewrite Hrun in Ha. }
  exists w1. split; [done|]. split; [by unfold client_at; rewrite Hc1|]. split.
  - rewrite (check_access_client p cmd _ c1 w1 Hc1 Hi1 Hx).
    destruct (cut_token tk rest Hsp) as [-> ->].
    assert (token_ok c1 tk (clock_s w1)) as Hok.
    { unfold token_ok, clock_s. rewrite Ht1, Hb1. split_and!; [done|done|].
      apply age_ok; apply Hclock; auto. }
    mstep (checkClientToken_ok p c1 tk w1 Hc1 Hok). eexists. split; [reflexivity|].
    unfold client_at. simpl. rewrite lookup_insert_eq. exact Hi1.
  - intros Hne. pose proof (check_access_acl p (mkCmdline cmd (tk' +:+ " " +:+ rest) [] p) w1) as Ha.
    rewrite (check_access_client p cmd _ c1 w1 Hc1 Hi1 Hx) in Ha |- *.
    destruct (cut_token tk' rest Hsp') as [Ep Er]. rewrite Ep, Er in *.
    destruct (checkClientToken_bad p c1 tk' w1 Hc1) as (e & w2 & Hbad & Hcl2 & _).
    { unfold token_ok. rewrite Ht1. intros (_ & Heq & _). by apply Hne. }
    unfold ClearIdentity, mbind, M_bind in Ha |- *. rewrite Hbad in Ha |- *.
    rewrite (upd_client_run p c1) in Ha |- * by (by rewrite Hcl2). eexists. split; [reflexivity|].
    unfold client_at, server_at. simpl. rewrite lookup_insert_eq.
    destruct (no_identity_spec c1) as [Hn1 Hn2]. split_and!; [done..|].
    intros cmd' P Hx'. eapply access_denied; [apply lookup_insert_eq|done..|].
    intros Hin. apply Hx', Hskip. rewrite <- Ha1. rewrite <- Ha. exact Hin.
Qed.
End server.

Import Ref.
#[local] Existing Instance example_conf.

Definition example_processor : PushdClientProcessor :=
  NewPushdClientProcessor (mkTcpServer (2 * Minute)).

Lemma unauthenticated_gate_witness :
  (OnRead example_processor 3
     (block32 (bytes_of_string "sendmsg") ++ block32 (bytes_of_string "tk N room 7 hi"))
     (InitAclEnv example_tokens).2).1 = Ret None.
Proof.
  rewrite (unauthenticated_gate (CF := example_conf) example_processor 3 NewClient _
    (bytes_of_string "sendmsg") (bytes_of_string "tk N room 7 hi") example_tokens);
    [reflexivity..| |].
  - split_and!; [discriminate|reflexivity|]. left. split_and!; [discriminate|reflexivity..].
  - vm_compute. set_solver.
Defined.

Definition example_gated : World := (InitAclEnv example_tokens).2.

Lemma session_witness :
  ∃ w1, Process (mkCmdline "auth_client" "tk" [] 3) example_gated
        = (Ret ("200 Client auth succeed", None), w1) ∧ client_at 3 w1 = true
    ∧ ∃ w2, check_access 3 (mkCmdline "sendmsg" "other N room 7 hi" [] 3) w1 = (Ret None, w2)
        ∧ check_access 3 (mkCmdline "his" "tk room 0" [] 3) w2 =
            (Ret None, set_tasks (w_tasks w2 ++ [GoWriteFormatMsg 3 "his" "Need Auth first"]) w2).
Proof.
  destruct (session (CF := example_conf) 3 "tk" "other" "N room 7 hi" "sendmsg" NewClient
    example_gated) as (w1 & Hrun & Hcl & _ & Hbad).
  - reflexivity.
  - discriminate.
  - reflexivity.
  - reflexivity.
  - vm_compute. set_solver.
  - eexists. split; [vm_compute; reflexivity|discriminate].
  - unfold example_gated. destruct (InitAclEnv_run example_tokens) as (s & -> & Hs). exact Hs.
  - intros n [->| ->]; vm_compute; split; congruence.
  - destruct (Hbad ltac:(discriminate)) as (w2 & Hrun2 & _ & _ & Hno).
    exists w1. split; [exact Hrun|]. split; [exact Hcl|]. exists w2. split; [exact Hrun2|].
    apply Hno. vm_compute. set_solver.
Defined.
