(* ===== verification/Delivery.v ===== *)
(** * A message from end to end

    The path of one [sendmsg]: the bytes of the frame, the checks, the command,
    the goroutines that write to the connections of the members, the other
    servers and the storage queue; and the path of the same text on a server
    that receives it from this one. *)
From S2P Require Import Prelude GoStrings Wire Deps RefDeps Config Base UserIdCache Storage Router.
From S2P Require Import World PubSub Client Rooms RoomStore Auth Mail Commands Membership S2s.
From S2P Require Import LongPoll Server.

Local Open Scope string_scope.
Local Open Scope list_scope.
Local Open Scope Z_scope.

(** What a write goroutine does to its connection. *)
Definition event_of (t : Task) : option Event :=
  match t with
  | GoWriteFormatMsg cli op msg => Some (EWrite cli op (bytes_of_string msg))
  | GoWriteFormatBinMsg cli op msg => Some (EWrite cli op msg)
  | GoInitChatEnv _ _ | GoPeerWrite _ _ _ => None
  end.

(** Every goroutine that is running will write to a connection. *)
Definition only_writes {EX : Externals} {NT : Net} (w : World) : Prop :=
  Forall (λ t, is_Some (event_of t)) (w_tasks w).

Section delivery.
  Context {EX : Externals} {NT : Net} {CF : Global} {RD : RoomDb} {RL : RoomDbLaws}.
  Context {LL : LruLaws} {GL : GoSetLaws} {CL : CmapLaws}.

(** ** The goroutines that write *)
Lemma write_step w w' :
  only_writes w → go_step w w' →
  only_writes w' ∧ length (w_tasks w) = S (length (w_tasks w'))
  ∧ w_out w' ++ omap event_of (w_tasks w') ≡ₚ w_out w ++ omap event_of (w_tasks w).
Proof.
  intros Hw Hs. destruct Hs as [w l1 t l2 Ht]. unfold only_writes in *. rewrite Ht in *.
  apply Forall_app in Hw as [H1 [[e He] H2]%Forall_cons].
  assert ((run_task t (set_tasks (l1 ++ l2) w)).2
          = set_out (w_out w ++ [e]) (set_tasks (l1 ++ l2) w)) as ->.
  { destruct t; simpl in He; try done; by injection He as <-. }
  simpl. split; [by apply Forall_app|]. split; [rewrite !length_app; simpl; lia|].
  rewrite !omap_app. simpl. rewrite He, <- app_assoc. apply Permutation_app_head. simpl.
  apply Permutation_middle.
Qed.

Lemma write_rtc w w' :
  only_writes w → rtc go_step w w' →
  w_out w' ++ omap event_of (w_tasks w') ≡ₚ w_out w ++ omap event_of (w_tasks w).
Proof.
  intros Hw Hr. induction Hr as [|w1 w2 w3 Hs _ IH]; [done|].
  destruct (write_step w1 w2 Hw Hs) as (Hw2 & _ & Hp). by rewrite (IH Hw2).
Qed.

Lemma writes_end w : only_writes w → ∃ w', rtc go_step w w' ∧ w_tasks w' = [].
Proof.
  remember (length (w_tasks w)) as n eqn:Hn. revert w Hn. induction n as [|n IH]; intros w Hn Hw.
  - exists w. split; [done|]. by apply nil_length_inv.
  - destruct (w_tasks w) as [|t l] eqn:E; [done|].
    assert (go_step w (run_task t (set_tasks ([] ++ l) w)).2) as Hs by by apply go_run.
    destruct (write_step _ _ Hw Hs) as (Hw' & Hlen & _). rewrite E, <- Hn in Hlen.
    injection Hlen as Hlen. destruct (IH _ Hlen Hw') as (w' & Hr & He). exists w'.
    split; [by eapply rtc_l|done].
Qed.

(** Writes that have been started, and nothing else, end as events. *)
Lemma writes_settle w :
  only_writes w →
  (∃ w', rtc go_step w w' ∧ w_tasks w' = [])
  ∧ ∀ w', rtc go_step w w' → w_tasks w' = [] → w_out w' ≡ₚ w_out w ++ omap event_of (w_tasks w).
Proof.
  intros Hw. split; [by apply writes_end|]. intros w' Hr He.
  pose proof (write_rtc w w' Hw Hr) as Hp. rewrite He in Hp. simpl in Hp. by rewrite app_nil_r in Hp.
Qed.

Lemma omap_writes op msg (ps : list ptr) :
  omap event_of ((λ p, GoWriteFormatBinMsg p op msg) <$> ps) = (λ p, EWrite p op msg) <$> ps.
Proof. induction ps as [|p ps IH]; csimpl; [done|]. by rewrite IH. Qed.

(** ** Publishing *)
Lemma Publish_run ch msg user id s px w :
  IsDistMode PushdConf = true → EnableStorage PushdConf = true →
  registry_valid w → cmap_Get (w_uuids w) "" = None → coherent w → room_list w ch s →
  readable w ch → w_proxy w = Some px → chan_full (px_ForwardTuple px) = false →
  chan_full (w_msgQueue w) = false → ch ≠ "" →
  let ts := UnixNano (b_tick (w_base w)) in
  let text := clientMsg ch user ts id msg in
  ∃ us w', us ≡ₚ elements s ∧ Publish ch msg user id false w = (Ret "", w')
    ∧ w_tasks w' = w_tasks w ++ ((λ p, GoWriteFormatBinMsg p OUTPUT_RCIV (bytes_of_string text))
                                   <$> omap (recipient w user) us)
    ∧ w_proxy w' = Some (forwarded S2S_PUSH_STRING_MESSAGE
                           (bytes_of_string (ch +:+ " " +:+ text)) px)
    ∧ w_msgQueue w' = chan_push (mkMsg ch msg ts user id) (w_msgQueue w)
    ∧ w_clients w' = w_clients w ∧ w_uuids w' = w_uuids w ∧ w_out w' = w_out w
    ∧ b_tick (w_base w') = S (b_tick (w_base w)) ∧ coherent w' ∧ same_lists w w'.
Proof.
  intros Hd Hst Hl Hb Hco Hr Hrd Hp Hf Hq Hch ts text.
  unfold Publish. mstep (now_UnixNano_run w). fold ts. fold text.
  destruct (deliver_run OUTPUT_RCIV ch user (bytes_of_string text) s (tick w))
    as (us & w1 & Hus & (st & d & Hw1) & Hco1 & Hs1 & Hrun); try done.
  exists us. unfold PublishStrMsg. cbn [negb].
  assert (∀ w2, w_proxy w2 = Some px →
    forwardToAllOtherServer S2S_PUSH_STRING_MESSAGE (bytes_of_string (spaced [ch; text])) w2 =
    (Ret tt, set_proxy (Some (forwarded S2S_PUSH_STRING_MESSAGE
       (bytes_of_string (spaced [ch; text])) px)) w2)) as Hfwd.
  { intros w2 Hp2. rewrite (forward_run _ _ px) by (done || by destruct ch). by rewrite Hf. }
  unfold mbind, M_bind. rewrite Hrun. cbv beta iota. rewrite Hfwd by (by rewrite Hw1).
  cbv beta iota. rewrite Hst. cbn [andb]. rewrite EnqueueMsg_run by (by rewrite Hw1).
  eexists. split_and!; [done|reflexivity|..]; try (by rewrite Hw1); [exact Hco1|exact Hs1].
Qed.

(** A publisher that goes on has found room in both queues. *)
Lemma Publish_returns ch msg user id s px r w w' :
  IsDistMode PushdConf = true → EnableStorage PushdConf = true →
  registry_valid w → cmap_Get (w_uuids w) "" = None → coherent w → room_list w ch s →
  readable w ch → w_proxy w = Some px → ch ≠ "" → Publish ch msg user id false w = (Ret r, w') →
  chan_full (px_ForwardTuple px) = false ∧ chan_full (w_msgQueue w) = false.
Proof.
  intros Hd Hst Hl Hb Hco Hr Hrd Hp Hch. unfold Publish. mstep (now_UnixNano_run w).
  set (text := clientMsg _ _ _ _ _).
  destruct (deliver_run OUTPUT_RCIV ch user (bytes_of_string text) s (tick w))
    as (us & w1 & Hus & (st & d & Hw1) & _ & _ & Hrun); try done.
  unfold PublishStrMsg. cbn [negb].
  set (w2 := set_tasks _ w1) in Hrun. unfold mbind, M_bind. rewrite Hrun. cbv beta iota.
  rewrite (forward_run _ _ px w2) by (done || (by destruct ch) || by (unfold w2; rewrite Hw1)).
  destruct (chan_full (px_ForwardTuple px)); [done|]. rewrite Hst. cbn [andb].
  assert (w_msgQueue w2 = w_msgQueue w) as Hq by (unfold w2; by rewrite Hw1).
  unfold EnqueueMsg, onQueue, zoom, chan_send. simpl. rewrite Hw1. simpl.
  by destruct (chan_full (w_msgQueue w)).
Qed.

(** The reply to a message that was accepted. *)
Definition sent_reply (id ts : Z) : string := fmt_d CODE_SUCCESS +:+ " " +:+ spaced [fmt_d id; fmt_d ts].

Lemma SENDMSG_run p ch msg id c s px w :
  occurs space ch = false → is_int64 id = true → w_clients w !! p = Some c →
  IsDistMode PushdConf = true → EnableStorage PushdConf = true →
  registry_valid w → cmap_Get (w_uuids w) "" = None → coherent w → room_list w ch s →
  readable w ch → w_proxy w = Some px → chan_full (px_ForwardTuple px) = false →
  chan_full (w_msgQueue w) = false → ch ≠ "" →
  let ts := UnixNano (b_tick (w_base w)) in
  let text := clientMsg ch (uuid c) ts id msg in
  ∃ us w', us ≡ₚ elements s
    ∧ do_SENDMSG p (sendmsg_params "N" ch id msg) w =
        (Ret (sent_reply id (UnixNano (S (b_tick (w_base w)))), None), w')
    ∧ w_tasks w' = w_tasks w ++ ((λ p, GoWriteFormatBinMsg p OUTPUT_RCIV (bytes_of_string text))
                                   <$> omap (recipient w (uuid c)) us)
    ∧ w_proxy w' = Some (forwarded S2S_PUSH_STRING_MESSAGE
                           (bytes_of_string (ch +:+ " " +:+ text)) px)
    ∧ w_msgQueue w' = chan_push (mkMsg ch msg ts (uuid c) id) (w_msgQueue w)
    ∧ w_out w' = w_out w ∧ coherent w'.
Proof.
  intros Hsp Hid Hc Hd Hst Hl Hb Hco Hr Hrd Hp Hf Hq Hch ts text.
  destruct (Publish_run ch msg (uuid c) id s px w)
    as (us & w1 & Hus & Hrun & Ht & Hp1 & Hq1 & _ & _ & Ho & Hb1 & Hco1 & _); try done.
  exists us. unfold do_SENDMSG. rewrite SENDMSG_words by done. rewrite ParseInt64_fmt, Hid.
  rewrite (bind_ret_run (my_uuid p) _ w (uuid c) w)
    by (unfold my_uuid; by mstep (get_client_run p c w Hc)).
  cbn [String.eqb Ascii.eqb Bool.eqb]. rewrite (bind_ret_run (mret false) _ w false w eq_refl).
  mstep Hrun. mstep (now_UnixNano_run w1). rewrite Hb1.
  eexists. split_and!; [done|reflexivity|done..].
Qed.

(** The frame in which a client with token [tk] sends [msg]. *)
Definition sendmsg_frame (tk ch : string) (id : Z) (msg : string) : list byte :=
  frame_of CMD_SENDMSG (bytes_of_string (tk +:+ " " +:+ sendmsg_params "N" ch id msg)).

Lemma frame_cmdline cmd P p (w : World) :
  cmd ≠ "" → String.eqb cmd CMD_VIDO_CHAT = false → len (bytes_of_string cmd) < 2 ^ 31 → P ≠ "" →
  len (bytes_of_string P) < 2 ^ 31 →
  NewCmdline (frame_of cmd (bytes_of_string P)) p w = (Ret (inr (mkCmdline cmd P [] p)), w).
Proof.
  intros Hc Hv Hl HP HlP.
  rewrite (NewCmdline_complete (S := World) _ (bytes_of_string cmd) (bytes_of_string P) p w).
  - unfold cmdline_of. by rewrite !string_of_bytes_of_string, Hv.
  - split_and!; [by apply bytes_of_string_cons|done|left].
    split_and!; [by apply bytes_of_string_cons|done..].
Qed.

Lemma OnRead_client pr p cmd tk rest c w :
  enableAclCheck pr = true → w_clients w !! p = Some c → IsClient c = true →
  token_ok c tk (clock_s w) → occurs space tk = false → cmd ∉ token_exempt → cmd ≠ "" →
  String.eqb cmd CMD_VIDO_CHAT = false → len (bytes_of_string cmd) < 2 ^ 31 →
  len (bytes_of_string (tk +:+ " " +:+ rest)) < 2 ^ 31 → silent cmd = false →
  OnRead pr p (frame_of cmd (bytes_of_string (tk +:+ " " +:+ rest))) w =
    ('(ret, err) ← Process (mkCmdline cmd rest [] p);
     match err with
     | Some _ => mret None
     | None => _ ← spawn (GoWriteFormatMsg p cmd ret); mret None
     end)
    (set_clients (<[p := with_tokenInfo (mkToken tk (clock_s (tick w))) c]> (w_clients w))
       (tick (tick w))).
Proof.
  intros Ha Hc Hi Hok Hsp Hx Hne Hv Hl HlP Hs. unfold OnRead.
  assert (tk +:+ " " +:+ rest ≠ "") as HP by (by destruct tk).
  mstep (frame_cmdline cmd (tk +:+ " " +:+ rest) p w Hne Hv Hl HP HlP). rewrite Ha.
  destruct (cut_token tk rest Hsp) as [Hpr Hrm].
  assert (check_access p (mkCmdline cmd (tk +:+ " " +:+ rest) [] p) w
    = (Ret (Some (mkCmdline cmd rest [] p)),
       set_clients (<[p := with_tokenInfo (mkToken tk (clock_s (tick w))) c]> (w_clients w))
         (tick (tick w)))) as Hacc.
  { rewrite (check_access_client p cmd _ c w Hc Hi Hx), Hpr, Hrm.
    by mstep (checkClientToken_ok p c tk w Hc Hok). }
  mstep Hacc. apply bind_ext_run. intros [ret err] w'. cbn [Cmd]. by rewrite Hs.
Qed.

(** A server in distributed mode that can serve a message for the room [ch]. *)
Record serving (ch : string) (s : gset string) (px : S2sProxy) (w : World) : Prop := {
  sv_valid : registry_valid w;
  sv_named : cmap_Get (w_uuids w) "" = None;
  sv_coherent : coherent w;
  sv_room : room_list w ch s;
  sv_readable : readable w ch;
  sv_proxy : w_proxy w = Some px;
  sv_forward : chan_full (px_ForwardTuple px) = false;
  sv_queue : chan_full (w_msgQueue w) = false
}.

(** The renewal of a token and the passing of time. *)
Lemma serving_renewed p c tk ch s px w :
  w_clients w !! p = Some c → serving ch s px w →
  serving ch s px
    (set_clients (<[p := with_tokenInfo tk c]> (w_clients w)) (tick (tick w))).
Proof.
  intros Hc [Hl Hn [Hwf Hco] Hr Hrd Hp Hf Hq]. split; try done.
  intros u q Hu. simpl in *. destruct (decide (q = p)) as [->|Hne].
  - rewrite lookup_insert_eq. eauto.
  - rewrite lookup_insert_ne by done. by apply (Hl u).
Qed.

Lemma recipient_renewed p c tk owner u w w' :
  w_clients w !! p = Some c → w_clients w' = <[p := with_tokenInfo tk c]> (w_clients w) →
  w_uuids w' = w_uuids w → recipient w' owner u = recipient w owner u.
Proof.
  intros Hc Hc' Hu. unfold recipient. rewrite Hc', Hu.
  destruct (cmap_Get (w_uuids w) u) as [q|]; [|done]. simpl.
  destruct (decide (q = p)) as [->|Hne]; [by rewrite lookup_insert_eq, Hc|].
  by rewrite lookup_insert_ne.
Qed.

(** ** Properties *)

(** (C1) A message from end to end.  A client that is authenticated sends a
    [sendmsg] frame to an idle server in distributed mode, for a room that the
    database knows, while the cache of members is true to the database and neither
    the forward queue nor the storage queue is full: the frame is accepted, the goroutines it starts all end,
    whatever their order, and by then the connection of each member who is
    online here has been sent the message once, the sender the reply, and nobody
    anything else; the text is queued for every other server, and the message
    for storage with the time stamp that the members see. *)
Theorem SENDMSG_delivers (pr : PushdClientProcessor) (p : ptr) (tk ch msg : string) (id : Z)
    (c : Client) (s : gset string) (px : S2sProxy) (w : World)
    (Hacl : enableAclCheck pr = true) (Hd : IsDistMode PushdConf = true)
    (Hst : EnableStorage PushdConf = true)
    (Hc : w_clients w !! p = Some c) (Hi : IsClient c = true) (Hok : token_ok c tk (clock_s w))
    (Hsp : occurs space tk = false) (Hch : occurs space ch = false) (Hne : ch ≠ "")
    (Hid : is_int64 id = true)
    (Hlen : len (bytes_of_string (tk +:+ " " +:+ sendmsg_params "N" ch id msg)) < 2 ^ 31)
    (Hs : serving ch s px w) (Hidle : w_tasks w = []) :
  let ts := UnixNano (S (S (b_tick (w_base w)))) in
  let text := clientMsg ch (uuid c) ts id msg in
  let reply := sent_reply id (UnixNano (S (S (S (b_tick (w_base w)))))) in
  ∃ us w', us ≡ₚ elements s
    ∧ OnRead pr p (sendmsg_frame tk ch id msg) w = (Ret None, w')
    ∧ (∃ w'', rtc go_step w' w'' ∧ w_tasks w'' = [])
    ∧ (∀ w'', rtc go_step w' w'' → w_tasks w'' = [] →
         w_out w'' ≡ₚ w_out w ++ EWrite p CMD_SENDMSG (bytes_of_string reply)
                        :: ((λ q, EWrite q OUTPUT_RCIV (bytes_of_string text))
                              <$> omap (recipient w (uuid c)) us))
    ∧ w_proxy w' = Some (forwarded S2S_PUSH_STRING_MESSAGE
                           (bytes_of_string (ch +:+ " " +:+ text)) px)
    ∧ w_msgQueue w' = chan_push (mkMsg ch msg ts (uuid c) id) (w_msgQueue w).
Proof.
  intros ts text reply. unfold sendmsg_frame.
  assert (CMD_SENDMSG ∉ token_exempt) as Hx by (by apply (bool_decide_unpack (_ ∉ _))).
  rewrite (OnRead_client pr p CMD_SENDMSG tk _ c w) by done.
  set (c1 := with_tokenInfo (mkToken tk (clock_s (tick w))) c). set (w1 := set_clients _ _).
  assert (w_clients w1 !! p = Some c1) as Hc1 by apply lookup_insert_eq.
  assert (serving ch s px w1) as Hs1 by by apply serving_renewed.
  destruct Hs1 as [? ? ? ? ? ? ? ?].
  change (Process (mkCmdline CMD_SENDMSG ?P [] p)) with (do_SENDMSG p P).
  destruct (SENDMSG_run p ch msg id c1 s px w1)
    as (us & w2 & Hus & Hrun & Ht & Hp2 & Hq2 & Ho & _); try done.
  mstep Hrun.
  set (w3 := set_tasks (w_tasks w2 ++ [GoWriteFormatMsg p CMD_SENDMSG reply]) w2).
  assert (omap (recipient w1 (uuid c1)) us = omap (recipient w (uuid c)) us) as Hrec.
  { apply list_omap_ext. apply Forall2_same_length_lookup. split; [done|].
    intros i x y -> [= ->]. by apply (recipient_renewed p c (mkToken tk (clock_s (tick w)))). }
  rewrite Hrec in Ht. change (w_tasks w1) with (w_tasks w) in Ht. rewrite Hidle in Ht. simpl in Ht.
  destruct (writes_settle w3) as [Hend Hall].
  { unfold only_writes. simpl. rewrite Ht. apply Forall_app. split; [|by repeat constructor].
    apply Forall_fmap, Forall_true. by eexists. }
  exists us, w3. split_and!; [done|done|done| |done|done].
  intros w4 Hr He. rewrite (Hall w4 Hr He). simpl. rewrite Ho, Ht, omap_app, omap_writes. simpl.
  apply Permutation_app_head. symmetry. apply Permutation_cons_append.
Qed.

(** What a server knows of the others, and what waits to be sent to them. *)
Definition same_links (px px' : S2sProxy) : Prop :=
  px_ForwardTuple px' = px_ForwardTuple px ∧ Peers (px_Router px') = Peers (px_Router px)
  ∧ r_peers (px_Router px') = r_peers (px_Router px) ∧ r_net (px_Router px') = r_net (px_Router px).

(** Only the router's channels, the subscriptions and the database have been
    touched. *)
Definition only_asked (w w' : World) : Prop :=
  ∃ px px' ps d, w_proxy w = Some px ∧ same_links px px' ∧ same_lists w w'
    ∧ w' = set_proxy (Some px') (set_pubsub ps (set_base (mkBase d (b_tick (w_base w))) w)).

Lemma Add_channel_run addr ch r :
  lru_find (r_cache r) ch = None →
  ∃ c ss, AddPeerToChannel addr ch r =
            (Ret None, mkRouter (Peers r) c ss (r_peers r) (r_net r) (r_readers r)).
Proof.
  intros Hf. unfold AddPeerToChannel, LookupPeersByChannel, lru_find in *. mred.
  destruct (lru_Get (r_cache r) ch) as [c' o]. simpl in Hf. subst o. cbn. unfold load_set. mred.
  rewrite lookup_insert_eq. cbn. destruct (set_Add set_NewSet (Peers r !! addr)) as [s []]; cbn;
    by eexists _, _.
Qed.

(** [checkAndSetLocalChannel] subscribes nobody. *)
Lemma subscribe_loop (ch : string) us w :
  mapM_ (λ userId, u ← as_str userId; o ← GetClient u;
           match o with Some c => _ ← Subscribe c ch; mret tt | None => mret tt end)
    (VStr <$> us) w = (Ret tt, w).
Proof.
  induction us as [|u us IH]; [done|]. cbn [fmap list_fmap mapM_].
  rewrite (bind_ret_run _ _ w tt w); [done|]. unfold GetClient. mred.
  by destruct (cmap_Get (w_uuids w) u).
Qed.

Lemma onRouter_run {A} (m : M Router A) px w o r :
  w_proxy w = Some px → m (px_Router px) = (o, r) →
  onRouter m w = (o, set_proxy (Some (mkProxy r (px_ForwardTuple px))) w).
Proof. intros Hp Hm. unfold onRouter, onProxy, zoom. by rewrite Hp, Hm. Qed.

Lemma asked_self px px' ps w :
  w_proxy w = Some px → same_links px px' →
  only_asked w (set_proxy (Some px') (set_pubsub ps w)).
Proof.
  intros Hp Hl. exists px, px', ps, (b_db (w_base w)). split_and!; [done..|].
  by destruct w as [[] ? ? ? ? ? ? ? ? ? ?].
Qed.

(** Both ways through [checkAndSetLocalChannel]: the channel may be known to the
    router or be added to it now. *)
Lemma check_run ch conn px w :
  w_proxy w = Some px →
  ∃ w', checkAndSetLocalChannel ch conn w = (Ret tt, w') ∧ only_asked w w'.
Proof.
  intros Hp. unfold checkAndSetLocalChannel.
  set (r1 := mkRouter (Peers (px_Router px)) (lru_Get (r_cache (px_Router px)) ch).1
               (r_sets (px_Router px)) (r_peers (px_Router px)) (r_net (px_Router px))
               (r_readers (px_Router px))).
  assert (LookupPeersByChannel ch (px_Router px)
          = (Ret (lru_find (r_cache (px_Router px)) ch), r1)) as Hlook.
  { unfold LookupPeersByChannel, lru_find. mred.
    unfold r1. by destruct (lru_Get (r_cache (px_Router px)) ch). }
  mstep (onRouter_run _ px w _ _ Hp Hlook). set (w1 := set_proxy _ w).
  destruct (lru_find (r_cache (px_Router px)) ch) as [q|] eqn:E.
  - rewrite (bind_ret_run (mret false) _ w1 false w1 eq_refl). unfold PubsubGet. mred.
    destruct (lru_Get (w_pubsub w) ch) as [ps [m|]]; cbn; eexists; (split; [reflexivity|]);
      by apply (asked_self px (mkProxy r1 (px_ForwardTuple px)) ps w Hp).
  - destruct (Add_channel_run (GetS2sAddr (sc_RemoteAddr conn)) ch r1) as (c & ss & Hadd).
    { unfold r1. simpl. by rewrite lru_find_Get. }
    rewrite (bind_ret_run _ _ w1 true
               (set_proxy (Some (mkProxy (mkRouter (Peers r1) c ss (r_peers r1) (r_net r1)
                                            (r_readers r1)) (px_ForwardTuple px))) w1))
      by (by mstep (onRouter_run _ (mkProxy r1 (px_ForwardTuple px)) w1 _ _ eq_refl Hadd)).
    set (w2 := set_proxy _ w1).
    assert (PubsubGet ch w2 = (Ret (lru_find (w_pubsub w) ch),
                               set_pubsub (lru_Get (w_pubsub w) ch).1 w2)) as Hps.
    { unfold PubsubGet, lru_find. mred. by destruct (lru_Get (w_pubsub w) ch). }
    mstep Hps. set (w3 := set_pubsub _ w2).
    assert (∀ d, (∀ c, room_of d c = room_of (b_db (w_base w)) c) →
              only_asked w (set_base (mkBase d (b_tick (w_base w))) w3)) as Hdone.
    { intros d Hd. exists px. eexists _, _, d. split_and!; [done| |exact Hd|reflexivity]. done. }
    destruct (lru_find (w_pubsub w) ch) as [m|].
    { exists w3. split; [done|].
      by apply (asked_self px (mkProxy (mkRouter (Peers r1) c ss (r_peers r1) (r_net r1)
                  (r_readers r1)) (px_ForwardTuple px)) (lru_Get (w_pubsub w) ch).1 w Hp). }
    cbn [negb]. unfold findOne. fold cu members_only.
    rewrite (bind_ret_run _ _ _ _ _ (onBase_req _ _)). change (w_base w3) with (w_base w).
    pose proof (rd_one (b_db (w_base w)) ch members_only) as Hone.
    destruct (mgo_one _ cu (by_id ch) members_only) as [d [e|v]]; destruct Hone as [Hs Hv]; cbn [fst snd].
    { eexists. split; [reflexivity|]. by apply Hdone. }
    destruct (Hv v eq_refl) as (fs & l & -> & Hf & Hl). set (w4 := set_base _ w3).
    rewrite (bind_ret_run (doc_get (VDoc fs) "uuids") _ w4 (VStrs l) w4)
      by (unfold doc_get; mred; by rewrite Hf).
    rewrite (bind_ret_run (as_arr (VStrs l)) _ w4 (VStr <$> l) w4 eq_refl).
    exists w4. split; [apply subscribe_loop|]. by apply Hdone.
Qed.

(** A text from another server. *)
Lemma relay_run `{!RoomDbUp} ch msg conn s px w :
  occurs space ch = false → len (bytes_of_string (spaced [ch; msg])) < 2 ^ 31 → ch ≠ "" →
  w_proxy w = Some px →
  registry_valid w → cmap_Get (w_uuids w) "" = None → coherent w → room_list w ch s →
  ∃ us w' px', us ≡ₚ elements s
    ∧ s2s_OnRead conn (frame_of S2S_PUSH_STRING_MESSAGE (bytes_of_string (spaced [ch; msg]))) w
      = (Ret None, w')
    ∧ w_tasks w' = w_tasks w ++ ((λ p, GoWriteFormatBinMsg p OUTPUT_RCIV (bytes_of_string msg))
                                   <$> omap (recipient w "") us)
    ∧ w_proxy w' = Some px' ∧ same_links px px'
    ∧ w_msgQueue w' = w_msgQueue w ∧ w_clients w' = w_clients w ∧ w_uuids w' = w_uuids w
    ∧ w_out w' = w_out w ∧ same_lists w w' ∧ coherent w'.
Proof.
  intros Hch Hlen Hne Hp Hl Hb [Hwf Hco] Hr.
  assert (bytes_of_string (spaced [ch; msg]) ≠ []) as Hbody by (by destruct ch).
  rewrite s2s_OnRead_frame by done. unfold processCmd. cbn [SParams SCmd].
  destruct (bytes_of_string (spaced [ch; msg])) as [|b bs] eqn:E; [done|].
  cbn [length Nat.eqb String.eqb Ascii.eqb Bool.eqb S2S_PUSH_STRING_MESSAGE S2S_SUB_CMD
       S2S_UNSUB_CMD S2S_PUSH_BINARY_MESSAGE]. rewrite <- E, relay_words by done.
  destruct (check_run ch conn px w Hp) as (w1 & Hrun & px0 & px1 & ps & d & Hp0 & Hlk & Hs1 & Hw1).
  mstep Hrun. assert (px0 = px) as -> by congruence.
  destruct (deliver_run OUTPUT_RCIV ch "" (bytes_of_string msg) s w1)
    as (us & w2 & Hus & (st & d2 & Hw2) & Hco2 & Hs2 & Hpush).
  { intros u p. rewrite Hw1. apply Hl. }
  { by rewrite Hw1. }
  { split; [by rewrite Hw1|]. intros c t. rewrite (same_lists_rooms _ _ Hs1), Hw1. apply Hco. }
  { unfold room_list. by rewrite Hs1. }
  { apply (readable_up _ _ s). unfold room_list. by rewrite Hs1. }
  exists us. unfold PublishStrMsg, mbind, M_bind. rewrite Hpush.
  eexists _, px1. split_and!;
    [done|reflexivity| |by rewrite Hw2, Hw1|done|by rewrite Hw2, Hw1|by rewrite Hw2, Hw1
    |by rewrite Hw2, Hw1|by rewrite Hw2, Hw1| |exact Hco2].
  - by rewrite Hw1.
  - intros c. simpl. by rewrite Hs2, Hs1.
Qed.

(** Across servers: the members on another server get the same text.  What
    [Publish] queues on one server is one message for exactly the peers
    registered there; a server that receives it, framed, writes to each member
    online there the bytes that the members of the first server get, once, and
    neither forwards nor stores it again. *)
Theorem message_relayed `{!RoomDbUp} (ch msg user : string) (id : Z) (s sb : gset string) (px pxb : S2sProxy)
    (conn : S2sConn) (w wb : World)
    (Hd : IsDistMode PushdConf = true) (Hst : EnableStorage PushdConf = true)
    (Hch : occurs space ch = false) (Hne : ch ≠ "")
    (Hlen : len (bytes_of_string (spaced [ch; clientMsg ch user (UnixNano (b_tick (w_base w))) id msg]))
            < 2 ^ 31)
    (Hs : serving ch s px w) (Hsb : serving ch sb pxb wb) :
  ∃ text us usb w' px' wb' pxb' t,
    us ≡ₚ elements s ∧ usb ≡ₚ elements sb
    ∧ Publish ch msg user id false w = (Ret "", w')
    ∧ w_tasks w' = w_tasks w ++ ((λ p, GoWriteFormatBinMsg p OUTPUT_RCIV text)
                                   <$> omap (recipient w user) us)
    ∧ w_proxy w' = Some px'
    ∧ ch_buf (px_ForwardTuple px') = ch_buf (px_ForwardTuple px) ++ [t]
    ∧ f_peers t = all_peers (px_Router px)
    ∧ s2s_OnRead conn (frame_of (f_cmd t) (f_msg t)) wb = (Ret None, wb')
    ∧ w_tasks wb' = w_tasks wb ++ ((λ p, GoWriteFormatBinMsg p OUTPUT_RCIV text)
                                     <$> omap (recipient wb "") usb)
    ∧ w_proxy wb' = Some pxb' ∧ px_ForwardTuple pxb' = px_ForwardTuple pxb
    ∧ w_msgQueue wb' = w_msgQueue wb.
Proof.
  destruct Hs as [? ? ? ? ? ? ? ?], Hsb as [? ? ? ? ? ? ? ?].
  destruct (Publish_run ch msg user id s px w)
    as (us & w' & Hus & Hrun & Ht & Hp & _); try done.
  destruct (relay_run ch _ conn sb pxb wb Hch Hlen)
    as (usb & wb' & pxb' & Husb & Hrunb & Htb & Hpb & [Hfb _] & Hqb & _); try done.
  eexists _, us, usb, w', _, wb', pxb', (mkForward _ _ _).
  split_and!; [done|done|done|exact Ht|exact Hp|reflexivity|reflexivity|exact Hrunb|exact Htb
              |exact Hpb|exact Hfb|exact Hqb].
Qed.
End delivery.

Import Ref RoomRef.
#[local] Existing Instance room_externals.
#[local] Existing Instance example_conf.

(** The three users of [member_world], on a server in distributed mode. *)
Definition delivery_proxy : S2sProxy (EX := room_externals) (NT := ref_net) :=
  mkProxy (mkRouter {[ "10.0.0.8:2223" := 0%nat ]} (lru_Set (NewLruCache 10) "room" 0%nat)
             {[ 0%nat := set_NewSet ]} {[ 0%nat := mkPeer "10.0.0.8:2223" (Some 7%nat) ]}
             ([] : @net ref_net) [])
          (mkchan 100 []).
Definition delivery_world : World (EX := room_externals) (NT := ref_net) :=
  set_msgQueue (mkchan 100 []) (set_proxy (Some delivery_proxy) member_world).

Lemma delivery_serving : serving "room" {["u1"; "u2"]} delivery_proxy delivery_world.
Proof.
  split; [exact member_valid|reflexivity|exact member_coherent|exact member_list| |reflexivity..].
  eexists. vm_compute. reflexivity.
Qed.

Lemma SENDMSG_delivers_witness :
  ∃ w' w'', OnRead example_processor 1 (sendmsg_frame "tk" "room" 7 "hi") delivery_world
              = (Ret None, w')
    ∧ rtc go_step w' w'' ∧ w_tasks w'' = [] ∧ length (w_out w'') = 2%nat.
Proof.
  destruct (SENDMSG_delivers (CF := example_conf) example_processor 1 "tk" "room" "hi" 7
    (example_client "u1") {["u1"; "u2"]} delivery_proxy delivery_world)
    as (us & w' & Hus & Hrun & (w'' & Hr & He) & Hall & _);
    [reflexivity..| |reflexivity|reflexivity|discriminate|reflexivity|reflexivity
    |exact delivery_serving|reflexivity|].
  - by apply (bool_decide_unpack (token_ok _ _ _)).
  - exists w', w''. split; [exact Hrun|]. split; [exact Hr|]. split; [exact He|].
    rewrite (Permutation_length (Hall w'' Hr He)). simpl.
    rewrite length_fmap. f_equal.
    assert (us ≡ₚ ["u1"; "u2"]) as Hus2.
    { rewrite Hus, elements_disj_union by set_solver. by rewrite !elements_singleton. }
    rewrite Hus2. reflexivity.
Defined.

Lemma message_relayed_witness :
  ∃ text w' wb' usb, Publish "room" "hi" "u1" 7 false delivery_world = (Ret "", w')
    ∧ usb ≡ₚ elements ({["u1"; "u2"]} : gset string)
    ∧ w_tasks wb' = (λ p, GoWriteFormatBinMsg p OUTPUT_RCIV text)
                      <$> omap (recipient delivery_world "") usb.
Proof.
  destruct (message_relayed (CF := example_conf) "room" "hi" "u1" 7 {["u1"; "u2"]} {["u1"; "u2"]}
    delivery_proxy delivery_proxy example_conn delivery_world delivery_world)
    as (text & us & usb & w' & px' & wb' & pxb' & t & _ & Husb & Hrun & _ & _ & _ & _ & _ & Htb & _);
    [reflexivity|reflexivity|reflexivity|discriminate|vm_compute; reflexivity
    |exact delivery_serving|exact delivery_serving|].
  exists text, w', wb', usb. split; [exact Hrun|]. split; [exact Husb|]. exact Htb.
Defined.
