(* ===== verification/Cluster.v ===== *)
(** * Several servers, one database and the network between them

    [Delivery] follows a message on one server.  Here are any number of them,
    with their queues, their goroutines and the packets that are on their way
    between them, as one step relation, and the accounts that [ClusterFaults]
    keeps of what each server has still to write.

    Every server reads the same database and keeps a cache of its own. *)
From S2P Require Import Prelude GoStrings Wire Deps RefDeps Config Base UserIdCache Storage Router.
From S2P Require Import World PubSub Client Rooms RoomStore Auth Mail Commands Membership S2s.
From S2P Require Import LongPoll Server Delivery.

Local Open Scope string_scope.
Local Open Scope list_scope.

(** ** The network

    [sent] is what has been written to the connections so far, each message with
    the address its connection was dialled to; [up n b c] says that [c] was
    dialled to [b].  Connections may be gone and any call may fail: the laws only
    say that a call does what it reports, so that a write that succeeds has sent
    one packet and nothing else sends any. *)
Record packet : Type := mkPacket { k_to : string; k_op : string; k_body : list byte }.

Class Wires `{Net} : Type := {
  sent : net → list packet;
  up : net → string → conn → Prop
}.

Class FrailLaws `{Wires} : Prop := {
  frail_probe n o n' r : net_IsConnected n o = (n', r) →
    sent n' = sent n ∧ ∀ b c, up n b c → up n' b c;
  frail_write n b c op m n' e : up n b c → net_WriteFormatBinMsg n (Some c) op m = (n', e) →
    sent n' = sent n ++ (match e with None => [mkPacket b op m] | Some _ => [] end)
    ∧ ∀ b' c', up n b' c' → up n' b' c';
  frail_nil n op m n' e : net_WriteFormatBinMsg n None op m = (n', e) →
    sent n' = sent n ∧ ∀ b c, up n b c → up n' b c;
  frail_dial n laddr b n' r : net_Dial n laddr b = (n', r) →
    sent n' = sent n ∧ (∀ b' c', up n b' c' → up n' b' c')
    ∧ match r with inr c => up n' b c | inl _ => True end
}.

Section links.
  Context {EX : Externals} {NT : Net} {WR : Wires} {FL : FrailLaws}.

(** The router knows exactly the other servers, each by a connection dialled to it. *)
Definition linked (a : string) (nodes : gset string) (r : Router) : Prop :=
  (∀ b, is_Some (Peers r !! b) ↔ b ∈ nodes ∧ b ≠ a)
  ∧ ∀ b p, Peers r !! b = Some p →
      ∃ c, r_peers r !! p = Some (mkPeer b (Some c)) ∧ up (r_net r) b c.

(** The same, with [st] unset, of peers that may be without a client. *)
Definition client_ok (st : bool) (n : net) (b : string) (o : option conn) : Prop :=
  match o with Some c => up n b c | None => st = false end.
Definition attached (st : bool) (a : string) (nodes : gset string) (r : Router) : Prop :=
  (∀ b, is_Some (Peers r !! b) ↔ b ∈ nodes ∧ b ≠ a)
  ∧ ∀ b p, Peers r !! b = Some p →
      ∃ o, r_peers r !! p = Some (mkPeer b o) ∧ client_ok st (r_net r) b o.

Lemma linked_attached a nodes r : linked a nodes r ↔ attached true a nodes r.
Proof.
  split; (intros [H1 H2]; split; [done|]; intros b p Hp).
  - destruct (H2 b p Hp) as (c & Hc & Hu). by exists (Some c).
  - destruct (H2 b p Hp) as ([c|] & Hc & Hu); [by exists c|done].
Qed.

Lemma client_ok_mono st n n' b o :
  (∀ b c, up n b c → up n' b c) → client_ok st n b o → client_ok st n' b o.
Proof. intros H. destruct o; simpl; auto. Qed.

Lemma attached_keep st a nodes r r' :
  attached st a nodes r → Peers r' = Peers r → r_peers r' = r_peers r →
  (∀ b c, up (r_net r) b c → up (r_net r') b c) → attached st a nodes r'.
Proof.
  intros [H1 H2] HP Hr Hup. split; [by rewrite HP|]. intros b p. rewrite HP, Hr.
  intros (o & Ho & Hok)%H2. exists o. split; [done|]. by apply (client_ok_mono _ (r_net r)).
Qed.

(** ** How the servers come to know each other *)
Lemma linked_fresh me m (n : net) : linked me ∅ (NewRouter m n).
Proof.
  split; [|done]. intros b. simpl. rewrite lookup_empty. split; [by intros []|set_solver].
Qed.

Lemma connectPeer_links cfg me nodes s r :
  net_ResolveTCPAddr (TcpListenAddr cfg) = true → me = S2sListenAddr cfg →
  (∀ n b, ∃ n' c, net_Dial n (TcpListenAddr cfg) b = (n', inr c)) → linked me nodes r →
  ∃ r', connectPeer cfg s r = (Ret tt, r') ∧ linked me ({[s]} ∪ nodes) r'.
Proof.
  intros Hres Hme Hdial [Hl1 Hl2]. unfold connectPeer. rewrite <- Hme.
  destruct (String.eqb_spec s me) as [->|Hne].
  { exists r. split; [done|]. split; [|done]. intros b. rewrite Hl1. set_solver. }
  unfold NewPeer. mred. set (p := fresh (dom (r_peers r))).
  assert (r_peers r !! p = None) as Hp by apply not_elem_of_dom, is_fresh.
  unfold initClientConn, on_net. rewrite Hres. cbn [negb]. mred. rewrite lookup_insert_eq. cbn.
  destruct (Hdial (r_net r) s) as (n' & c & Hd). rewrite Hd. cbn.
  destruct (frail_dial _ _ _ _ _ Hd) as (_ & Hkeep & Hup). eexists. split; [reflexivity|].
  split; cbn.
  - intros b. rewrite lookup_insert_is_Some, Hl1, elem_of_union, elem_of_singleton.
    destruct (decide (s = b)) as [<-|Hsb]; [tauto|]. split; [tauto|].
    intros [[Hb|Hb] ?]; [by destruct Hsb|tauto].
  - intros b q [[<- <-]|[_ Hb]]%lookup_insert_Some.
    + exists c. by rewrite lookup_insert_eq.
    + destruct (Hl2 b q Hb) as (c' & Hc' & Hu'). exists c'. split; [|by apply Hkeep].
      rewrite !lookup_insert_ne by congruence. done.
Qed.

(** The registry of servers links them up.  A router that watches, on a network
    where every dial succeeds, has a connection to each of
    exactly the addresses announced so far except its own; none is ever given
    up, even when a later list no longer has it. *)
Theorem watchPeers_links (cfg : ConfigPushd) (m : Z) (n : net) (events : list (list string))
    (Hres : net_ResolveTCPAddr (TcpListenAddr cfg) = true)
    (Hdial : ∀ n b, ∃ n' c, net_Dial n (TcpListenAddr cfg) b = (n', inr c)) :
  ∃ r', mapM_ (watchPeers_event cfg) events (NewRouter m n) = (Ret tt, r')
        ∧ linked (S2sListenAddr cfg) (list_to_set (concat events)) r'.
Proof.
  assert (∀ servers nodes r, linked (S2sListenAddr cfg) nodes r →
    ∃ r', watchPeers_event cfg servers r = (Ret tt, r')
          ∧ linked (S2sListenAddr cfg) (list_to_set servers ∪ nodes) r') as Hone.
  { unfold watchPeers_event. induction servers as [|s l IH]; intros nodes r Hl.
    - exists r. split; [done|]. cbn [concat]. by rewrite list_to_set_nil, union_empty_l_L.
    - destruct (connectPeer_links cfg _ nodes s r Hres eq_refl Hdial Hl) as (r1 & Hrun & Hl1).
      destruct (IH _ r1 Hl1) as (r2 & Hrun2 & Hl2). exists r2. cbn [mapM_]. mstep Hrun.
      split; [done|]. rewrite list_to_set_cons.
      by rewrite (comm_L _ {[s]}), <- (assoc_L _ _ {[s]}). }
  assert (∀ nodes r, linked (S2sListenAddr cfg) nodes r →
    ∃ r', mapM_ (watchPeers_event cfg) events r = (Ret tt, r')
          ∧ linked (S2sListenAddr cfg) (list_to_set (concat events) ∪ nodes) r') as Hall.
  { induction events as [|e es IH]; intros nodes r Hl.
    - exists r. split; [done|]. cbn [concat]. by rewrite list_to_set_nil, union_empty_l_L.
    - destruct (Hone e nodes r Hl) as (r1 & Hrun & Hl1).
      destruct (IH _ r1 Hl1) as (r2 & Hrun2 & Hl2). exists r2. cbn [mapM_]. mstep Hrun.
      split; [done|]. simpl. rewrite list_to_set_app_L.
      by rewrite (comm_L _ (list_to_set e)), <- (assoc_L _ _ (list_to_set e)). }
  destruct (Hall ∅ (NewRouter m n) (linked_fresh _ _ _)) as (r' & Hrun & Hl).
  exists r'. split; [done|]. by rewrite union_empty_r_L in Hl.
Qed.

End links.

Section cluster.
  Context {EX : Externals} {NT : Net} {WR : Wires} {RD : RoomDb}.

(** ** The state

    The servers by the addresses they listen on for each other. *)
Record cluster : Type := mkCluster {
  c_db : db;
  c_servers : gmap string World;
  c_wire : list packet
}.

(** A server at work sees the database as it is now. *)
Definition see (d : db) (w : World) : World := set_base (mkBase d (b_tick (w_base w))) w.

Definition sent_by (w : World) : list packet :=
  match w_proxy w with Some px => sent (r_net (px_Router px)) | None => [] end.

(** The server at [a] has gone from [w] to [w']; what it wrote is on the wire
    behind [ks]. *)
Definition commit (C : cluster) (a : string) (w w' : World) (ks : list packet) : cluster :=
  mkCluster (b_db (w_base w')) (<[a := w']> (c_servers C))
    (ks ++ drop (length (sent_by w)) (sent_by w')).

(** ** The steps

    Each server has its configuration.  The loop of [WaitMsg] may take a message
    from the forward queue; any goroutine may run; the loop of [Serv] may take a
    message from the storage queue; and any packet may reach the server it was
    sent to, on some connection. *)
Context (conf : string → Global).

Inductive cl_step (C : cluster) : cluster → Prop :=
| cl_forward a w w' :
    c_servers C !! a = Some w → WaitMsg_round (see (c_db C) w) = (Ret tt, w') →
    cl_step C (commit C a w w' (c_wire C))
| cl_go a w w' :
    c_servers C !! a = Some w → go_step (CF := conf a) (see (c_db C) w) w' →
    cl_step C (commit C a w w' (c_wire C))
| cl_store a w w' m :
    c_servers C !! a = Some w → onQueue chan_recv (see (c_db C) w) = (Ret m, w') →
    cl_step C (commit C a w w' (c_wire C))
| cl_deliver k l1 l2 w conn :
    c_wire C = l1 ++ k :: l2 → c_servers C !! k_to k = Some w →
    cl_step C (commit C (k_to k) w
      (s2s_OnRead (CF := conf (k_to k)) conn (frame_of (k_op k) (k_body k)) (see (c_db C) w)).2
      (l1 ++ l2)).

(** A message that has been published: where, for which room, by whom, and what
    the members get to see. *)
Record pub : Type := mkPub { m_on : string; m_room : string; m_author : string; m_text : string }.

(** A run of such steps, with the messages published during it. *)
Inductive cl_run (step : cluster → cluster → Prop) : list pub → cluster → cluster → Prop :=
| run_nil C : cl_run step [] C C
| run_step ms C1 C2 C3 : step C1 C2 → cl_run step ms C2 C3 → cl_run step ms C1 C3
| run_publish ms C1 C3 a ch msg user id w w' :
    c_servers C1 !! a = Some w →
    Publish (CF := conf a) ch msg user id false (see (c_db C1) w) = (Ret "", w') →
    cl_run step ms (commit C1 a w w' (c_wire C1)) C3 →
    cl_run step (mkPub a ch user (clientMsg ch user (UnixNano (b_tick (w_base w))) id msg) :: ms) C1 C3.

(** Nothing is under way. *)
Definition idle (w : World) : Prop :=
  w_tasks w = [] ∧ ∀ px, w_proxy w = Some px → ch_buf (px_ForwardTuple px) = [].
Definition settled (C : cluster) : Prop :=
  c_wire C = [] ∧ ∀ a w, c_servers C !! a = Some w → idle w.

(** Nothing is left for storage. *)
Definition drained (C : cluster) : Prop :=
  ∀ a w, c_servers C !! a = Some w → ch_buf (w_msgQueue w) = [].

(** ** What is due

    The writes that a text for a room means on the server at [a]. *)
Definition writes_on (C : cluster) (a owner ch text : string) : list Event :=
  match c_servers C !! a with
  | Some w => (λ p, EWrite p OUTPUT_RCIV (bytes_of_string text))
                <$> omap (recipient w owner) (default [] (room_of (c_db C) ch))
  | None => []
  end.

(** A message means writes for its author's server, where the author is left
    out, and for every other one. *)
Definition pub_writes (C : cluster) (a : string) (m : pub) : list Event :=
  writes_on C a (if decide (a = m_on m) then m_author m else "") (m_room m) (m_text m).

Definition relay_writes (C : cluster) (k : packet) : list Event :=
  match SplitN space (string_of_bytes (k_body k)) 2 with
  | [ch; text] => writes_on C (k_to k) "" ch text
  | _ => []
  end.

(** The packets that the goroutines and the forward queue of a server stand for. *)
Definition peer_addr (r : Router) (x : option ptr) : option string := p ← x; p_addr <$> r_peers r !! p.
Definition packets_to (r : Router) (xs : list (option ptr)) (op : string) (m : list byte)
    : list packet := (λ b, mkPacket b op m) <$> omap (peer_addr r) xs.
Definition task_packets (r : Router) (t : Task) : list packet :=
  match t with GoPeerWrite x op m => packets_to r [x] op m | _ => [] end.
Definition tuple_packets (r : Router) (t : ForwardTuple) : list packet :=
  packets_to r (set_elems (f_peers t)) (f_cmd t) (f_msg t).
Definition queued (px : S2sProxy) : list packet :=
  ch_buf (px_ForwardTuple px) ≫= tuple_packets (px_Router px).
Definition outgoing (px : S2sProxy) (w : World) : list packet :=
  w_tasks w ≫= task_packets (px_Router px).
Definition relays (w : World) : list packet :=
  match w_proxy w with Some px => queued px ++ outgoing px w | None => [] end.

Definition pending (C : cluster) : list packet :=
  c_wire C ++ (map_to_list (c_servers C) ≫= λ x, relays x.2).

(** What the server at [a] has written, is writing, and will have to write. *)
Definition due (C0 C : cluster) (a : string) : list Event :=
  match c_servers C !! a with
  | Some w => w_out w ++ omap event_of (w_tasks w)
                ++ (filter (λ k, k_to k = a) (pending C) ≫= relay_writes C0)
  | None => []
  end.

(** ** What holds of a cluster that is linked up *)

(** A relay of a text for a room that the database has. *)
Definition known_room (C0 : cluster) (ch : string) : Prop :=
  ∃ l, room_of (c_db C0) ch = Some l ∧ NoDup l.
Definition relayable (C0 : cluster) (ch text : string) : Prop :=
  occurs space ch = false ∧ ch ≠ "" ∧ (len (bytes_of_string (spaced [ch; text])) < 2 ^ 31)%Z
  ∧ known_room C0 ch.
Definition relay_ok (C0 : cluster) (k : packet) : Prop :=
  k_op k = S2S_PUSH_STRING_MESSAGE ∧ is_Some (c_servers C0 !! k_to k)
  ∧ ∃ ch text, k_body k = bytes_of_string (spaced [ch; text]) ∧ relayable C0 ch text.

Definition is_peer (r : Router) (x : option ptr) : Prop := ∃ b p, x = Some p ∧ Peers r !! b = Some p.

(** Pending goroutines write to a client or to a peer. *)
Definition task_ok (r : Router) (t : Task) : Prop :=
  match t with
  | GoPeerWrite x _ _ => is_peer r x
  | GoInitChatEnv _ _ => False
  | _ => True
  end.

(** Whether connections are known to be live. *)
Context (st : bool).

(** The server at [a], in a run that began in [C0]. *)
Record node (C0 : cluster) (a : string) (w : World) : Prop := {
  nd_static : ∃ w0, c_servers C0 !! a = Some w0
                    ∧ w_clients w = w_clients w0 ∧ w_uuids w = w_uuids w0;
  nd_valid : registry_valid w;
  nd_named : cmap_Get (w_uuids w) "" = None;
  nd_coherent : coherent (see (c_db C0) w);
  nd_proxy : ∃ px, w_proxy w = Some px ∧ attached st a (dom (c_servers C0)) (px_Router px)
    ∧ Forall (task_ok (px_Router px)) (w_tasks w)
    ∧ Forall (λ t, Forall (is_peer (px_Router px)) (set_elems (f_peers t)))
        (ch_buf (px_ForwardTuple px));
  nd_relays : Forall (relay_ok C0) (relays w)
}.

(** The rooms of the database are those of the beginning. *)
Definition rooms_kept (C0 : cluster) (d : db) : Prop :=
  ∀ ch, room_of d ch = room_of (c_db C0) ch.

Record good (C0 C : cluster) : Prop := {
  gd_rooms : rooms_kept C0 (c_db C);
  gd_nodes : dom (c_servers C) = dom (c_servers C0);
  gd_node : ∀ a w, c_servers C !! a = Some w → node C0 a w;
  gd_wire : Forall (relay_ok C0) (c_wire C)
}.

(** ** Work left

    A message is one unit of work on the wire and one more for each stage
    before; the writes it means are one each, and so is what waits for storage. *)
Definition load (C0 : cluster) (stages : nat) (ks : list packet) : nat :=
  sum_list_with (λ k, stages + length (relay_writes C0 k)) ks.
Definition burden (C0 : cluster) (w : World) : nat :=
  length (omap event_of (w_tasks w))
  + match w_proxy w with
    | Some px => load C0 2 (outgoing px w) + load C0 3 (queued px)
                 + length (ch_buf (px_ForwardTuple px))
    | None => 0
    end
  + length (ch_buf (w_msgQueue w)).
Definition work (C0 C : cluster) : nat :=
  load C0 1 (c_wire C) + sum_list_with (λ x, burden C0 x.2) (map_to_list (c_servers C)).

(** What one step of a server amounts to: it received [recv], accepted [new] for
    relay, wrote [snt] to its peers, failed to write [lost] and began [evs] of its
    own. *)
Record effect (C0 : cluster) (a : string) (w w' : World)
    (recv new snt lost : list packet) (evs : list Event) : Prop := {
  ef_node : node C0 a w';
  ef_rooms : rooms_kept C0 (b_db (w_base w'));
  ef_sent : sent_by w' = sent_by w ++ snt;
  ef_relays : relays w' ++ snt ++ lost ≡ₚ relays w ++ new;
  ef_out : w_out w' ++ omap event_of (w_tasks w')
           ≡ₚ w_out w ++ omap event_of (w_tasks w) ++ (recv ≫= relay_writes C0) ++ evs
}.

(** ** Lemmas: one server among the others *)
Lemma servers_split {A} (m : gmap string A) a x :
  m !! a = Some x → map_to_list m ≡ₚ (a, x) :: map_to_list (delete a m).
Proof. intros H. symmetry. by apply map_to_list_delete. Qed.

Lemma servers_replace {A} (m : gmap string A) a x :
  map_to_list (<[a := x]> m) ≡ₚ (a, x) :: map_to_list (delete a m).
Proof. rewrite (servers_split _ a x) by apply lookup_insert_eq. by rewrite delete_insert_eq. Qed.

Lemma load_app C0 n ks1 ks2 : load C0 n (ks1 ++ ks2) = load C0 n ks1 + load C0 n ks2.
Proof. apply sum_list_with_app. Qed.

#[local] Instance load_perm C0 n : Proper ((≡ₚ) ==> (=)) (load C0 n).
Proof. intros l k H. unfold load. apply (sum_list_with_Permutation_proper _ l k H). Qed.

Lemma load_more C0 n ks : load C0 (S n) ks = load C0 n ks + length ks.
Proof. induction ks as [|k ks IH]; [done|]. unfold load in *. simpl in *. lia. Qed.

Section commit.
  Context (C0 C : cluster) (a : string) (w w' : World) (recv new snt lost : list packet).
  Context (evs : list Event) (ks : list packet).
  Context (HG : good C0 C) (Ha : c_servers C !! a = Some w).
  Context (He : effect C0 a w w' recv new snt lost evs) (Hks : c_wire C ≡ₚ recv ++ ks).
  Context (Hto : Forall (λ k, k_to k = a) recv) (Hnew : Forall (relay_ok C0) new).

Lemma commit_wire : c_wire (commit C a w w' ks) = ks ++ snt.
Proof. simpl. by rewrite (ef_sent _ _ _ _ _ _ _ _ _ He), drop_app_length. Qed.

Lemma commit_pending : pending (commit C a w w' ks) ++ recv ++ lost ≡ₚ pending C ++ new.
Proof.
  unfold pending. rewrite commit_wire. change (c_servers (commit C a w w' ks))
    with (<[a := w']> (c_servers C)). rewrite servers_replace, (servers_split _ a w Ha), Hks.
  simpl. pose proof (ef_relays _ _ _ _ _ _ _ _ _ He) as Hr.
  set (rest := map_to_list (delete a (c_servers C)) ≫= λ x, relays x.2).
  trans (recv ++ ks ++ (relays w' ++ snt ++ lost) ++ rest); [solve_Permutation|].
  rewrite Hr. solve_Permutation.
Qed.

Lemma commit_work :
  work C0 (commit C a w w' ks) + load C0 1 recv + burden C0 w
  = work C0 C + load C0 1 snt + burden C0 w'.
Proof.
  unfold work. rewrite commit_wire. change (c_servers (commit C a w w' ks))
    with (<[a := w']> (c_servers C)). rewrite servers_replace, (servers_split _ a w Ha), Hks.
  rewrite !load_app. simpl. lia.
Qed.

Lemma commit_good : good C0 (commit C a w w' ks).
Proof.
  destruct HG as [Hr Hd Hn Hw]. split.
  - exact (ef_rooms _ _ _ _ _ _ _ _ _ He).
  - simpl. rewrite dom_insert_lookup_L; [done|by eexists].
  - intros b u. simpl. destruct (decide (a = b)) as [<-|Hne].
    + rewrite lookup_insert_eq. intros [= <-]. apply (ef_node _ _ _ _ _ _ _ _ _ He).
    + rewrite lookup_insert_ne by done. apply Hn.
  - rewrite commit_wire. rewrite Hks in Hw. apply Forall_app in Hw as [_ Hw].
    apply Forall_app. split; [done|].
    assert (Forall (relay_ok C0) (relays w' ++ snt ++ lost)) as H;
      [|by apply Forall_app in H as [_ [H _]%Forall_app]].
    rewrite (ef_relays _ _ _ _ _ _ _ _ _ He). apply Forall_app. split; [|done].
    apply (nd_relays C0 a), (Hn _ _ Ha).
Qed.

(** What is lost on the way to [b] is not due any more. *)
Definition at_node (b : string) (ks : list packet) : list Event :=
  filter (λ k, k_to k = b) ks ≫= relay_writes C0.

Lemma commit_relays b :
  at_node b (pending (commit C a w w' ks)) ++ at_node b recv ++ at_node b lost
  ≡ₚ at_node b (pending C) ++ at_node b new.
Proof.
  unfold at_node. pose proof commit_pending as Hp.
  apply (filter_Permutation (λ k, k_to k = b)) in Hp. rewrite !filter_app in Hp.
  apply (bind_Permutation (relay_writes C0)) in Hp. by rewrite !bind_app in Hp.
Qed.

Lemma commit_due b :
  is_Some (c_servers C !! b) →
  due C0 (commit C a w w' ks) b ++ at_node b lost
  ≡ₚ due C0 C b ++ at_node b new ++ (if decide (b = a) then evs else []).
Proof.
  intros [u Hu]. unfold due. pose proof (commit_relays b) as Hp.
  change (c_servers (commit C a w w' ks)) with (<[a := w']> (c_servers C)).
  fold (at_node b (pending (commit C a w w' ks))) (at_node b (pending C)).
  set (fp := at_node b (pending (commit C a w w' ks))) in *.
  set (fq := at_node b (pending C)) in *. set (fn := at_node b new) in *. set (fl := at_node b lost) in *.
  unfold at_node in Hp. case_decide as Hb.
  - subst b. rewrite lookup_insert_eq, Ha.
    rewrite (filter_all _ recv Hto) in Hp. pose proof (ef_out _ _ _ _ _ _ _ _ _ He) as Ho.
    set (rw := recv ≫= relay_writes C0) in *.
    trans ((w_out w' ++ omap event_of (w_tasks w')) ++ fp ++ fl); [solve_Permutation|].
    rewrite Ho. trans (w_out w ++ omap event_of (w_tasks w) ++ evs ++ (fp ++ rw ++ fl)); [solve_Permutation|].
    rewrite Hp. solve_Permutation.
  - rewrite lookup_insert_ne, Hu by done.
    rewrite (filter_none _ recv) in Hp by (eapply Forall_impl; [exact Hto|]; simpl; congruence).
    simpl in Hp. rewrite app_nil_r.
    trans (w_out u ++ omap event_of (w_tasks u) ++ (fp ++ fl)); [solve_Permutation|].
    rewrite Hp. solve_Permutation.
Qed.
End commit.

(** ** Lemmas: what each step does to its server *)
Context {RL : RoomDbLaws} {LL : LruLaws} {GL : GoSetLaws} {CL : CmapLaws}.

Lemma packets_to_ext r r' xs op m :
  (∀ x, peer_addr r' x = peer_addr r x) → packets_to r' xs op m = packets_to r xs op m.
Proof.
  intros H. unfold packets_to. f_equal. apply list_omap_ext, Forall_Forall2_diag, Forall_true. exact H.
Qed.

Lemma peer_addr_ext r r' : r_peers r' = r_peers r → ∀ x, peer_addr r' x = peer_addr r x.
Proof. intros H x. unfold peer_addr. by rewrite H. Qed.

Lemma tuple_packets_ext r r' t :
  (∀ x, peer_addr r' x = peer_addr r x) → tuple_packets r' t = tuple_packets r t.
Proof. apply packets_to_ext. Qed.

Lemma task_packets_ext r r' t :
  (∀ x, peer_addr r' x = peer_addr r x) → task_packets r' t = task_packets r t.
Proof. intros H. destruct t; try done. by apply packets_to_ext. Qed.

Lemma queued_ext px px' :
  px_ForwardTuple px' = px_ForwardTuple px →
  (∀ x, peer_addr (px_Router px') x = peer_addr (px_Router px) x) → queued px' = queued px.
Proof.
  intros Hf Hr. unfold queued. rewrite Hf. apply list_bind_ext; [|done].
  intros t. by apply tuple_packets_ext.
Qed.

Lemma outgoing_app px px' w l1 l2 :
  (∀ x, peer_addr (px_Router px') x = peer_addr (px_Router px) x) → w_tasks w = l1 ++ l2 →
  outgoing px' w = (l1 ≫= task_packets (px_Router px)) ++ (l2 ≫= task_packets (px_Router px)).
Proof.
  intros Hr Ht. unfold outgoing. rewrite Ht, bind_app.
  f_equal; (apply list_bind_ext; [|done]; intros t; by apply task_packets_ext).
Qed.

(** Writes to clients send nothing to peers, and the other way round. *)
Lemma writes_no_packets r op m (ps : list ptr) :
  ((λ p, GoWriteFormatBinMsg p op m) <$> ps) ≫= task_packets r = [].
Proof. induction ps as [|p ps IH]; csimpl; done. Qed.

Lemma sends_packets r op m xs :
  ((λ x, GoPeerWrite x op m) <$> xs) ≫= task_packets r = packets_to r xs op m.
Proof.
  unfold packets_to. induction xs as [|x xs IH]; [done|]. csimpl. rewrite IH. unfold packets_to.
  simpl. by destruct (peer_addr r x).
Qed.

Lemma sends_no_writes op m (xs : list (option ptr)) :
  omap event_of ((λ x, GoPeerWrite x op m) <$> xs) = [].
Proof. induction xs as [|x xs IH]; csimpl; done. Qed.

Lemma relays_eq w px : w_proxy w = Some px → relays w = queued px ++ outgoing px w.
Proof. intros H. unfold relays. by rewrite H. Qed.

Lemma burden_eq C0 w px :
  w_proxy w = Some px →
  burden C0 w = length (omap event_of (w_tasks w)) + (load C0 2 (outgoing px w)
                + load C0 3 (queued px) + length (ch_buf (px_ForwardTuple px)))
                + length (ch_buf (w_msgQueue w)).
Proof. intros H. unfold burden. by rewrite H. Qed.

(** A server that has kept its connections, its peers and a coherent cache. *)
Lemma node_keep C0 a w w' px px' :
  node C0 a w → w_proxy w = Some px → w_proxy w' = Some px' →
  w_clients w' = w_clients w → w_uuids w' = w_uuids w → coherent (see (c_db C0) w') →
  Peers (px_Router px') = Peers (px_Router px) →
  attached st a (dom (c_servers C0)) (px_Router px') →
  Forall (task_ok (px_Router px)) (w_tasks w') →
  Forall (λ t, Forall (is_peer (px_Router px)) (set_elems (f_peers t)))
    (ch_buf (px_ForwardTuple px')) →
  Forall (relay_ok C0) (relays w') → node C0 a w'.
Proof.
  intros [Hst Hl Hn _ (px0 & Hp0 & _) _] Hp Hp' Hc Hu Hco HP Hat Ht Hq Hrel.
  assert (px0 = px) as -> by congruence. split; try done.
  - destruct Hst as (w0 & ? & ? & ?). exists w0. by rewrite Hc, Hu.
  - intros u q. rewrite Hu, Hc. apply Hl.
  - by rewrite Hu.
  - exists px'. split; [done|]. split; [done|]. split.
    + eapply Forall_impl; [exact Ht|]. intros [] H; try done. simpl in *. unfold is_peer in *.
      by rewrite HP.
    + eapply Forall_impl; [exact Hq|]. intros t H. eapply Forall_impl; [exact H|].
      unfold is_peer. by rewrite HP.
Qed.

Lemma coherent_see d d' w :
  (∀ ch, room_of d ch = room_of d' ch) → coherent (see d w) → coherent (see d' w).
Proof.
  intros Hd [Hwf Hco]. split; [done|]. intros ch s Hs. unfold rooms_of. simpl. rewrite <- Hd.
  by apply (Hco ch s).
Qed.

(** [WaitMsg] takes a message from the queue. *)
Lemma forward_effect C0 d a w w' :
  node C0 a w → rooms_kept C0 d → WaitMsg_round (see d w) = (Ret tt, w') →
  effect C0 a w w' [] [] [] [] [] ∧ burden C0 w' < burden C0 w.
Proof.
  intros Hn Hd. destruct (nd_proxy _ _ _ Hn) as (px & Hp & Hlk & Ht & Hq).
  destruct (ch_buf (px_ForwardTuple px)) as [|t bs] eqn:E.
  { unfold WaitMsg_round, onForward, onProxy, chan_recv. mred. rewrite Hp. mred. by rewrite E. }
  rewrite (WaitMsg_round_run (see d w) px t bs Hp E). intros [= <-].
  set (px' := mkProxy (px_Router px) (mkchan (ch_cap (px_ForwardTuple px)) bs)).
  set (sends := (λ peer, GoPeerWrite peer (f_cmd t) (f_msg t)) <$> set_elems (f_peers t)).
  set (w' := set_tasks _ _). assert (w_proxy w' = Some px') as Hp' by done.
  assert (outgoing px' w' = outgoing px w ++ tuple_packets (px_Router px) t) as Ho.
  { rewrite (outgoing_app px px' w' (w_tasks w) sends (λ _, eq_refl) eq_refl). f_equal.
    apply sends_packets. }
  assert (queued px = tuple_packets (px_Router px) t ++ queued px') as Hqd
    by (unfold queued; by rewrite E).
  assert (relays w' ≡ₚ relays w) as Hrel.
  { rewrite (relays_eq w' px' Hp'), (relays_eq w px Hp), Ho, Hqd. solve_Permutation. }
  assert (omap event_of (w_tasks w') = omap event_of (w_tasks w)) as Hev.
  { simpl. rewrite omap_app. unfold sends. by rewrite sends_no_writes, app_nil_r. }
  apply Forall_cons in Hq as [Hqt Hq].
  split; [split|].
  - apply (node_keep C0 a w w' px px'); try done; [|..].
    + apply (nd_coherent _ _ _ Hn).
    + apply Forall_app. split; [done|]. apply Forall_fmap. exact Hqt.
    + rewrite Hrel. apply (nd_relays _ _ _ Hn).
  - exact Hd.
  - unfold sent_by. rewrite Hp'. simpl. by rewrite Hp, app_nil_r.
  - by rewrite !app_nil_r.
  - rewrite Hev. simpl. by rewrite app_nil_r.
  - rewrite (burden_eq C0 w' px' Hp'), (burden_eq C0 w px Hp), Hev, Ho, Hqd, E.
    rewrite !load_app, (load_more C0 2 (tuple_packets _ _)). simpl. lia.
Qed.

(** [Serv] takes a message from the storage queue. *)
Lemma store_effect C0 d a w w' m :
  node C0 a w → rooms_kept C0 d → onQueue chan_recv (see d w) = (Ret m, w') →
  effect C0 a w w' [] [] [] [] [] ∧ burden C0 w' < burden C0 w.
Proof.
  intros Hn Hd. destruct (nd_proxy _ _ _ Hn) as (px & Hp & Hat & Ht & Hq).
  unfold onQueue, zoom, chan_recv. change (w_msgQueue (see d w)) with (w_msgQueue w).
  destruct (ch_buf (w_msgQueue w)) as [|x q] eqn:E; [done|]. intros [= _ <-]. set (w' := set_msgQueue _ _).
  assert (relays w' = relays w) as Hrel by done.
  split; [split|].
  - apply (node_keep C0 a w w' px px); try done.
    + apply (nd_coherent _ _ _ Hn).
    + rewrite Hrel. apply (nd_relays _ _ _ Hn).
  - exact Hd.
  - unfold sent_by. simpl. by rewrite app_nil_r.
  - by rewrite Hrel, !app_nil_r.
  - simpl. by rewrite app_nil_r.
  - rewrite (burden_eq C0 w' px Hp), (burden_eq C0 w px Hp), E. simpl.
    change (outgoing px w') with (outgoing px w). lia.
Qed.

(** A goroutine writes to a client. *)
Lemma go_write_effect cf C0 d a w l1 t l2 e :
  event_of t = Some e → node C0 a w → rooms_kept C0 d → w_tasks w = l1 ++ t :: l2 →
  let w' := (run_task (CF := cf) t (set_tasks (l1 ++ l2) (see d w))).2 in
  effect C0 a w w' [] [] [] [] [] ∧ burden C0 w' < burden C0 w.
Proof.
  intros Ee Hn Hd Htk. destruct (nd_proxy _ _ _ Hn) as (px & Hp & Hat & Ht & Hq).
  rewrite Htk in Ht. apply Forall_app in Ht as [H1 [_ H2]%Forall_cons].
  pose proof (outgoing_app px px w l1 (t :: l2) (λ _, eq_refl) Htk) as Hout. rewrite bind_cons in Hout.
  assert ((run_task (CF := cf) t (set_tasks (l1 ++ l2) (see d w))).2
          = set_out (w_out w ++ [e]) (set_tasks (l1 ++ l2) (see d w))) as ->.
  { destruct t; simpl in Ee; try done; by injection Ee as <-. }
  set (w' := set_out _ _). assert (task_packets (px_Router px) t = []) as Hnp by (by destruct t).
  rewrite Hnp in Hout. simpl in Hout.
  pose proof (outgoing_app px px w' l1 l2 (λ _, eq_refl) eq_refl) as Hout'.
  rewrite <- Hout in Hout'.
  assert (relays w' = relays w) as Hrel.
  { by rewrite (relays_eq w' px Hp), (relays_eq w px Hp), Hout'. }
  split; [split|].
  - apply (node_keep C0 a w w' px px); try done.
    + apply (nd_coherent _ _ _ Hn).
    + by apply Forall_app.
    + rewrite Hrel. apply (nd_relays _ _ _ Hn).
  - exact Hd.
  - unfold sent_by. simpl. by rewrite app_nil_r.
  - by rewrite Hrel, !app_nil_r.
  - simpl. rewrite Htk, !omap_app. simpl. rewrite Ee. simpl. solve_Permutation.
  - rewrite (burden_eq C0 w' px Hp), (burden_eq C0 w px Hp), Hout', Htk.
    change (w_tasks w') with (l1 ++ l2).
    rewrite !omap_app. csimpl. rewrite Ee, !length_app. csimpl. lia.
Qed.

(** A goroutine writes to a peer, or fails to. *)
Lemma go_send_effect cf C0 d a w l1 l2 p op m px b o r' snt lost :
  node C0 a w → rooms_kept C0 d → w_tasks w = l1 ++ GoPeerWrite (Some p) op m :: l2 →
  w_proxy w = Some px → r_peers (px_Router px) !! p = Some (mkPeer b o) →
  (WriteFormatMsg cf p op m (px_Router px)).2 = r' →
  Peers r' = Peers (px_Router px) → attached st a (dom (c_servers C0)) r' →
  (∀ x, peer_addr r' x = peer_addr (px_Router px) x) →
  sent (r_net r') = sent (r_net (px_Router px)) ++ snt → snt ++ lost = [mkPacket b op m] →
  let w' := (run_task (CF := cf) (GoPeerWrite (Some p) op m) (set_tasks (l1 ++ l2) (see d w))).2 in
  effect C0 a w w' [] [] snt lost [] ∧ burden C0 w' + load C0 1 (snt ++ lost) < burden C0 w.
Proof.
  intros Hn Hd Htk Hp Hb Hr' HP Hat Haddr Hsent Hsl.
  destruct (nd_proxy _ _ _ Hn) as (px0 & Hp0 & _ & Ht & Hq). assert (px0 = px) as -> by congruence.
  rewrite Htk in Ht. apply Forall_app in Ht as [H1 [_ H2]%Forall_cons].
  pose proof (outgoing_app px px w l1 _ (λ _, eq_refl) Htk) as Hout. rewrite bind_cons in Hout.
  destruct (WriteFormatMsg cf p op m (px_Router px)) as [out r] eqn:Hrun. simpl in Hr'. subst r'.
  set (px' := mkProxy r (px_ForwardTuple px)).
  assert ((run_task (CF := cf) (GoPeerWrite (Some p) op m) (set_tasks (l1 ++ l2) (see d w))).2
          = set_proxy (Some px') (set_tasks (l1 ++ l2) (see d w))) as ->.
  { exact (f_equal snd (onRouter_run _ px (set_tasks (l1 ++ l2) (see d w)) _ _ Hp Hrun)). }
  set (w' := set_proxy _ _).
  assert (task_packets (px_Router px) (GoPeerWrite (Some p) op m) = snt ++ lost) as Hpk.
  { rewrite Hsl. simpl. unfold packets_to, peer_addr. simpl. by rewrite Hb. }
  rewrite Hpk in Hout. pose proof (outgoing_app px px' w' l1 l2 Haddr eq_refl) as Hout'.
  pose proof (queued_ext px px' eq_refl Haddr) as Hqd.
  assert (relays w' ++ snt ++ lost ≡ₚ relays w) as Hrel.
  { rewrite (relays_eq w' px' eq_refl), (relays_eq w px Hp), Hqd, Hout, Hout'. solve_Permutation. }
  split; [split|].
  - apply (node_keep C0 a w w' px px'); try done.
    + apply (nd_coherent _ _ _ Hn).
    + by apply Forall_app.
    + pose proof (nd_relays _ _ _ Hn) as HF. rewrite <- Hrel in HF.
      by apply Forall_app in HF as [HF _].
  - exact Hd.
  - unfold sent_by. rewrite Hp. exact Hsent.
  - by rewrite Hrel, app_nil_r.
  - simpl. rewrite Htk, !omap_app. simpl. solve_Permutation.
  - rewrite (burden_eq C0 w' px' eq_refl), (burden_eq C0 w px Hp), Hout, Hout', Hqd, Htk.
    change (w_tasks w') with (l1 ++ l2). rewrite !omap_app, !length_app, !load_app.
    rewrite (load_more C0 1 snt), (load_more C0 1 lost). csimpl.
    assert (length snt + length lost = 1) as Hlen by (by rewrite <- length_app, Hsl). lia.
Qed.

(** Goroutines that write to clients have been started, and messages [ts] have been
    queued for the peers. *)
Lemma started_effect C0 a w w' px px' msg ps ts recv evs :
  node C0 a w → w_proxy w = Some px → w_proxy w' = Some px' →
  w_clients w' = w_clients w → w_uuids w' = w_uuids w → w_out w' = w_out w →
  w_tasks w' = w_tasks w ++ ((λ p, GoWriteFormatBinMsg p OUTPUT_RCIV msg) <$> ps) →
  Peers (px_Router px') = Peers (px_Router px) → r_peers (px_Router px') = r_peers (px_Router px) →
  r_net (px_Router px') = r_net (px_Router px) →
  ch_buf (px_ForwardTuple px') = ch_buf (px_ForwardTuple px) ++ ts →
  Forall (λ t, Forall (is_peer (px_Router px)) (set_elems (f_peers t))) ts →
  Forall (relay_ok C0) (ts ≫= tuple_packets (px_Router px)) →
  coherent (see (c_db C0) w') → rooms_kept C0 (b_db (w_base w')) →
  (λ p, EWrite p OUTPUT_RCIV msg) <$> ps ≡ₚ (recv ≫= relay_writes C0) ++ evs →
  effect C0 a w w' recv (ts ≫= tuple_packets (px_Router px)) [] [] evs.
Proof.
  intros Hn Hp Hp' Hc Hu Ho Ht HP Hr Hnet Hts Hpeers Hok Hco Hd Hev.
  destruct (nd_proxy _ _ _ Hn) as (px0 & Hp0 & Hat & Htk & Htq).
  assert (px0 = px) as -> by congruence. pose proof (peer_addr_ext _ _ Hr) as Haddr.
  pose proof (outgoing_app px px' w' _ _ Haddr Ht) as Hout. rewrite writes_no_packets, app_nil_r in Hout.
  assert (queued px' = queued px ++ (ts ≫= tuple_packets (px_Router px))) as Hq.
  { unfold queued. rewrite Hts, bind_app.
    f_equal; (apply list_bind_ext; [|done]; intros t; by apply tuple_packets_ext). }
  assert (relays w' ≡ₚ relays w ++ (ts ≫= tuple_packets (px_Router px))) as Hrel.
  { rewrite (relays_eq w' px' Hp'), (relays_eq w px Hp), Hq, Hout. unfold outgoing.
    solve_Permutation. }
  split.
  - apply (node_keep C0 a w w' px px'); try done.
    + apply (attached_keep st a _ (px_Router px)); [done..|]. intros b c. by rewrite Hnet.
    + rewrite Ht. apply Forall_app. split; [done|]. by apply Forall_fmap, Forall_true.
    + rewrite Hts. by apply Forall_app.
    + rewrite Hrel. apply Forall_app. split; [apply (nd_relays _ _ _ Hn)|done].
  - done.
  - unfold sent_by. by rewrite Hp, Hp', Hnet, app_nil_r.
  - by rewrite app_nil_r.
  - rewrite Ho, Ht, omap_app, omap_writes, Hev. solve_Permutation.
Qed.

Lemma writes_on_node C0 a w owner ch text l us :
  node C0 a w → room_of (c_db C0) ch = Some l → us ≡ₚ l →
  (λ p, EWrite p OUTPUT_RCIV (bytes_of_string text)) <$> omap (recipient w owner) us
  ≡ₚ writes_on C0 a owner ch text.
Proof.
  intros Hn Hl Hus. destruct (nd_static _ _ _ Hn) as (w0 & Hw0 & Hc & Hu).
  unfold writes_on. rewrite Hw0, Hl, Hus. simpl. apply fmap_Permutation.
  replace (omap (recipient w0 owner) l) with (omap (recipient w owner) l); [done|].
  apply list_omap_ext, Forall2_same_length_lookup. split; [done|].
  intros i x y -> [= ->]. by apply recipient_ext.
Qed.

Lemma relay_writes_eq C0 a op ch text :
  occurs space ch = false →
  relay_writes C0 (mkPacket a op (bytes_of_string (spaced [ch; text]))) = writes_on C0 a "" ch text.
Proof. intros H. unfold relay_writes. cbn [k_body k_to]. by rewrite relay_words. Qed.

(** A server receives a packet from another one. *)
Lemma deliver_effect `{!RoomDbUp} cf C0 d a w k conn :
  node C0 a w → rooms_kept C0 d → relay_ok C0 k → k_to k = a →
  let w' := (s2s_OnRead (CF := cf) conn (frame_of (k_op k) (k_body k)) (see d w)).2 in
  effect C0 a w w' [k] [] [] [] [] ∧ burden C0 w' < burden C0 w + load C0 1 [k].
Proof.
  intros Hn Hd (Hop & _ & ch & text & Hbody & Hsp & Hne & Hlen & l & Hl & Hnd) Hk.
  destruct (nd_proxy _ _ _ Hn) as (px & Hp & _).
  destruct (relay_run (CF := cf) ch text conn (list_to_set l) px (see d w))
    as (us & w' & px' & Hus & Hrun & Ht & Hp' & (Hf & HP & Hr & Hnet) & Hmq & Hc & Hu & Ho & Hs & Hco);
    try done.
  { apply (nd_valid _ _ _ Hn). }
  { apply (nd_named _ _ _ Hn). }
  { apply (coherent_see (c_db C0)); [by intros c; rewrite Hd|apply (nd_coherent _ _ _ Hn)]. }
  { exists l. simpl. by rewrite Hd. }
  rewrite Hop, Hbody, Hrun. cbn [snd].
  rewrite elements_list_to_set in Hus by done.
  assert (k = mkPacket a S2S_PUSH_STRING_MESSAGE (bytes_of_string (spaced [ch; text]))) as ->.
  { destruct k; simpl in *; congruence. }
  assert (rooms_kept C0 (b_db (w_base w'))) as Hd' by (intros c; by rewrite (Hs c); apply Hd).
  assert ((λ p, EWrite p OUTPUT_RCIV (bytes_of_string text)) <$> omap (recipient w "") us
          ≡ₚ relay_writes C0 (mkPacket a S2S_PUSH_STRING_MESSAGE
                               (bytes_of_string (spaced [ch; text])))) as Hw.
  { rewrite relay_writes_eq by done. by apply (writes_on_node C0 a w "" ch text l). }
  split.
  - apply (started_effect C0 a w w' px px' _ _ [] _ [] Hn Hp Hp' Hc Hu Ho Ht HP Hr Hnet); try done.
    + by rewrite Hf, app_nil_r.
    + apply (coherent_see (b_db (w_base w'))); [exact Hd'|].
      destruct w' as [[] ? ? ? ? ? ? ? ? ? ?]. exact Hco.
    + csimpl. by rewrite !app_nil_r.
  - rewrite (burden_eq C0 w' px' Hp'), (burden_eq C0 w px Hp).
    pose proof (outgoing_app px px' w' _ _ (peer_addr_ext _ _ Hr) Ht) as Hout.
    rewrite writes_no_packets, app_nil_r in Hout.
    change (w_tasks (see d w)) with (w_tasks w) in *. fold (outgoing px w) in Hout.
    rewrite Hout, (queued_ext px px' Hf (peer_addr_ext _ _ Hr)), Hf, Ht, omap_app, omap_writes, length_app.
    unfold load at 5. simpl.
    change (omap (recipient (see d w) "") us) with (omap (recipient w "") us).
    rewrite (Permutation_length Hw), Hmq. simpl. lia.
Qed.

(** ** Lemmas: publishing *)
Lemma all_peers_packets a nodes r op m :
  attached st a nodes r →
  packets_to r (set_elems (all_peers r)) op m
  ≡ₚ (λ b, mkPacket b op m) <$> (map_to_list (Peers r)).*1.
Proof.
  intros [_ Hl]. unfold packets_to. apply fmap_Permutation.
  assert (set_elems (all_peers r) ≡ₚ (Some ∘ snd) <$> map_to_list (Peers r)) as ->.
  { apply NoDup_Permutation.
    - apply set_elems_NoDup.
    - apply NoDup_fmap_2_strong; [|apply NoDup_map_to_list].
      intros [b p] [b' p'] Hb%elem_of_map_to_list Hb'%elem_of_map_to_list [= <-].
      destruct (Hl _ _ Hb) as (c & Hc & _), (Hl _ _ Hb') as (c' & Hc' & _). congruence.
    - intros x. rewrite all_peers_elems, list_elem_of_fmap. split.
      + intros (b & p & Hb & ->). exists (b, p). split; [done|]. by apply elem_of_map_to_list.
      + intros ([b p] & -> & Hb%elem_of_map_to_list). by exists b, p. }
  assert (∀ l, l ⊆ map_to_list (Peers r) →
    omap (peer_addr r) ((Some ∘ snd) <$> l) = l.*1) as H; [|by rewrite H].
  induction l as [|[b p] l IH]; intros Hs; [done|]. csimpl.
  destruct (Hl b p) as (c & Hc & _); [apply elem_of_map_to_list, Hs; by left|].
  unfold peer_addr at 1. simpl. rewrite Hc. simpl. f_equal. apply IH.
  intros x Hx. apply Hs. by right.
Qed.

Lemma filter_packets op m keys b :
  NoDup keys →
  filter (λ k, k_to k = b) ((λ b, mkPacket b op m) <$> keys)
  = if decide (b ∈ keys) then [mkPacket b op m] else [].
Proof.
  induction 1 as [|x l Hx _ IH]; [done|]. csimpl. destruct (decide (x = b)) as [->|Hne].
  - rewrite filter_cons_True, IH by done. by rewrite decide_False, decide_True by set_solver.
  - rewrite filter_cons_False, IH by done. apply decide_ext. set_solver.
Qed.

Lemma publish_effect `{!RoomDbUp} cf C0 d a w w' ch msg user id :
  let text := clientMsg ch user (UnixNano (b_tick (w_base w))) id msg in
  IsDistMode cf = true → EnableStorage cf = true →
  node C0 a w → rooms_kept C0 d → relayable C0 ch text →
  Publish (CF := cf) ch msg user id false (see d w) = (Ret "", w') →
  ∃ new, effect C0 a w w' [] new [] [] (writes_on C0 a user ch text) ∧ Forall (relay_ok C0) new
    ∧ ∀ b, is_Some (c_servers C0 !! b) →
        at_node C0 b new ≡ₚ if decide (b = a) then [] else writes_on C0 b "" ch text.
Proof.
  intros text Hdist Hst Hn Hd (Hsp & Hne & Hlen & l & Hl & Hnd) Hrun.
  destruct (nd_proxy _ _ _ Hn) as (px & Hp & Hlk & _).
  assert (coherent (see d w)) as Hco.
  { apply (coherent_see (c_db C0)); [by intros c; rewrite Hd|apply (nd_coherent _ _ _ Hn)]. }
  assert (room_list (see d w) ch (list_to_set l)) as Hrl by (exists l; simpl; by rewrite Hd).
  pose proof (readable_up _ _ _ Hrl) as Hrd.
  pose proof (nd_valid _ _ _ Hn) as Hlive. pose proof (nd_named _ _ _ Hn) as Hnamed.
  destruct (Publish_returns (CF := cf) ch msg user id (list_to_set l) px "" (see d w) w')
    as [Hf Hq]; try done.
  destruct (Publish_run (CF := cf) ch msg user id (list_to_set l) px (see d w))
    as (us & w1 & Hus & Hrun' & Ht & Hp' & _ & Hc & Hu & Ho & _ & Hco' & Hs); try done.
  rewrite Hrun in Hrun'. injection Hrun' as <-. rewrite elements_list_to_set in Hus by done.
  fold text in Ht, Hp'. change (b_tick (w_base (see d w))) with (b_tick (w_base w)) in *.
  fold text in Ht, Hp'.
  set (body := bytes_of_string (ch +:+ " " +:+ text)) in Hp'.
  set (px' := forwarded _ body px) in Hp'.
  set (t := mkForward (all_peers (px_Router px)) body S2S_PUSH_STRING_MESSAGE).
  assert (tuple_packets (px_Router px) t
          ≡ₚ (λ b, mkPacket b S2S_PUSH_STRING_MESSAGE body) <$> (map_to_list (Peers (px_Router px))).*1)
    as Hnew by by apply (all_peers_packets a (dom (c_servers C0))).
  assert (∀ b, b ∈ (map_to_list (Peers (px_Router px))).*1 ↔ is_Some (c_servers C0 !! b) ∧ b ≠ a) as Hkeys.
  { intros b. rewrite <- elem_of_dom, <- (proj1 Hlk b), list_elem_of_fmap. split.
    - intros ([b' p] & -> & Hb%elem_of_map_to_list). by eexists.
    - intros [p Hb]. exists (b, p). split; [done|]. by apply elem_of_map_to_list. }
  assert (Forall (relay_ok C0) (tuple_packets (px_Router px) t)) as Hok.
  { rewrite Hnew. apply Forall_fmap, Forall_forall. intros b Hb. apply Hkeys in Hb as [Hb _].
    split; [done|]. split; [done|]. exists ch, text. split; [done|]. split_and!; try done. by exists l. }
  assert (rooms_kept C0 (b_db (w_base w'))) as Hd' by (intros c; by rewrite (Hs c); apply Hd).
  exists (tuple_packets (px_Router px) t). split; [|split; [done|]].
  - rewrite <- (app_nil_r (tuple_packets _ t)) at 1.
    apply (started_effect C0 a w w' px px' _ _ [t] _ _ Hn Hp Hp' Hc Hu Ho Ht); try done.
    + repeat constructor. apply Forall_forall. intros x (b & p & Hb & ->)%all_peers_elems.
      by exists b, p.
    + csimpl. by rewrite app_nil_r.
    + apply (coherent_see (b_db (w_base w'))); [exact Hd'|].
      destruct w' as [[] ? ? ? ? ? ? ? ? ? ?]. exact Hco'.
    + by apply (writes_on_node C0 a w user ch text l).
  - intros b Hb. unfold at_node. rewrite Hnew, filter_packets.
    2: { apply NoDup_fst_map_to_list. }
    destruct (decide (b = a)) as [->|Hba].
    + rewrite decide_False; [done|]. rewrite Hkeys. naive_solver.
    + rewrite decide_True by (by apply Hkeys). csimpl. rewrite app_nil_r.
      pose proof (relay_writes_eq C0 b S2S_PUSH_STRING_MESSAGE ch text Hsp) as Hw.
      change (bytes_of_string (spaced [ch; text])) with body in Hw. by rewrite Hw.
Qed.

(** ** Lemmas: runs *)

(** A cluster at rest: every server has its registry in order, a cache that agrees
    with the database, and every other server as a peer. *)
Record at_rest (C : cluster) : Prop := {
  ar_settled : settled C;
  ar_server a w : c_servers C !! a = Some w →
    registry_valid w ∧ cmap_Get (w_uuids w) "" = None ∧ coherent (see (c_db C) w)
    ∧ ∃ px, w_proxy w = Some px ∧ attached st a (dom (c_servers C)) (px_Router px)
}.

Lemma idle_relays w : idle w → relays w = [].
Proof.
  intros [Ht Hq]. unfold relays. destruct (w_proxy w) as [px|] eqn:Hp; [|done].
  unfold queued, outgoing. by rewrite Ht, Hq.
Qed.

Lemma at_rest_good C : at_rest C → good C C.
Proof.
  intros [[Hw Hi] Hs]. split; [done|done| |by rewrite Hw].
  intros a w Ha. destruct (Hs a w Ha) as (Hl & Hn & Hco & px & Hp & Hlk).
  destruct (Hi a w Ha) as [Ht Hq]. split; try done.
  - by exists w.
  - exists px. rewrite Ht, Hq; done.
  - by rewrite idle_relays.
Qed.

Lemma settled_pending C : settled C → pending C = [].
Proof.
  intros [Hw Hi]. unfold pending. rewrite Hw. simpl.
  assert (∀ l, l ⊆ map_to_list (c_servers C) → l ≫= (λ x, relays x.2) = []) as H; [|by apply H].
  induction l as [|[b u] l IH]; intros Hl; [done|]. csimpl.
  rewrite idle_relays, IH; [done| |].
  - intros x Hx. apply Hl. by right.
  - apply (Hi b), elem_of_map_to_list, Hl. by left.
Qed.

Lemma settled_due C0 C a w :
  settled C → c_servers C !! a = Some w → due C0 C a = w_out w.
Proof.
  intros Hst Ha. unfold due. rewrite Ha, (settled_pending C Hst).
  destruct (proj2 Hst a w Ha) as [-> _]. by rewrite app_nil_r.
Qed.

(** The books after a step that received no packet but [recv]. *)
Lemma keep_due C0 C a w w' recv snt ks b :
  good C0 C → c_servers C !! a = Some w → effect C0 a w w' recv [] snt [] [] →
  c_wire C ≡ₚ recv ++ ks → Forall (λ k, k_to k = a) recv → is_Some (c_servers C0 !! b) →
  due C0 (commit C a w w' ks) b ≡ₚ due C0 C b.
Proof.
  intros HG Ha He Hks Hto Hb.
  assert (is_Some (c_servers C !! b)) as Hb' by (by rewrite <- elem_of_dom, (gd_nodes _ _ HG), elem_of_dom).
  pose proof (commit_due C0 C a w w' recv [] snt [] [] ks Ha He Hks Hto b Hb') as H.
  unfold at_node in H. rewrite filter_nil, app_nil_r in H. rewrite H.
  destruct (decide (b = a)); by rewrite app_nil_r.
Qed.

#[local] Instance idle_dec w : Decision (idle w).
Proof.
  unfold idle. destruct (w_tasks w) as [|t l]; [|right; by intros [[=] _]].
  destruct (w_proxy w) as [px|]; [|by left; split].
  destruct (ch_buf (px_ForwardTuple px)) as [|t l] eqn:E.
  - left. split; [done|]. by intros px' [= <-].
  - right. intros [_ Hq]. specialize (Hq px eq_refl). congruence.
Qed.

(** While something is under way, or waits for storage, some step is possible. *)
Lemma cl_progress C0 C : good C0 C → (settled C ∧ drained C) ∨ ∃ C', cl_step C C'.
Proof.
  intros HG. destruct (c_wire C) as [|k l] eqn:Hw.
  - destruct (decide (map_Forall (λ _ w, ch_buf (w_msgQueue w) = []) (c_servers C))) as [Hdr|Hdr].
    2: { apply map_not_Forall in Hdr as (a & w & Ha & Hq); [|apply _]. right.
         destruct (ch_buf (w_msgQueue w)) as [|m q] eqn:E; [done|]. eexists.
         eapply (cl_store C a w _ m Ha). unfold onQueue, zoom, chan_recv.
         change (w_msgQueue (see (c_db C) w)) with (w_msgQueue w). by rewrite E. }
    destruct (decide (map_Forall (λ _ w, idle w) (c_servers C))) as [Hi|Hi].
    { left. split; [split; [done|exact Hi]|exact Hdr]. }
    apply map_not_Forall in Hi as (a & w & Ha & Hi); [|apply _]. right.
    destruct (nd_proxy _ _ _ (gd_node _ _ HG _ _ Ha)) as (px & Hp & _).
    destruct (w_tasks w) as [|t ts] eqn:Ht.
    + destruct (ch_buf (px_ForwardTuple px)) as [|t bs] eqn:Hq.
      { exfalso. apply Hi. split; [done|]. intros px' Hp'. congruence. }
      eexists. eapply cl_forward; [exact Ha|].
      exact (WaitMsg_round_run (see (c_db C) w) px t bs Hp Hq).
    + eexists. eapply cl_go; [exact Ha|]. by apply (go_run _ [] t ts).
  - right. pose proof (gd_wire _ _ HG) as HW. rewrite Hw in HW. apply Forall_cons in HW as [Hk _].
    destruct Hk as (_ & Hk & _). rewrite <- elem_of_dom, <- (gd_nodes _ _ HG), elem_of_dom in Hk.
    destruct Hk as [w Ha]. eexists. by apply (cl_deliver C k [] l w (mkS2sConn 0 "")).
Qed.

(** The books after a message has been published. *)
Lemma publish_good `{!RoomDbUp} C0 C a w w' ch msg user id :
  let m := mkPub a ch user (clientMsg ch user (UnixNano (b_tick (w_base w))) id msg) in
  let C' := commit C a w w' (c_wire C) in
  IsDistMode (conf a) = true → EnableStorage (conf a) = true →
  good C0 C → c_servers C !! a = Some w → relayable C0 ch (m_text m) →
  Publish (CF := conf a) ch msg user id false (see (c_db C) w) = (Ret "", w') →
  good C0 C' ∧ ∀ b, is_Some (c_servers C0 !! b) →
    due C0 C' b ≡ₚ due C0 C b ++ pub_writes C0 b m
    ∧ at_node C0 b (pending C') ≡ₚ at_node C0 b (pending C)
                                    ++ (if decide (b = a) then [] else pub_writes C0 b m).
Proof.
  intros m C' Hdist Hst HG Ha Hm Hp.
  destruct (publish_effect (conf a) C0 _ a w w' ch msg user id Hdist Hst
              (gd_node _ _ HG _ _ Ha) (gd_rooms _ _ HG) Hm Hp) as (new & He & Hnew & Hdst).
  split; [by apply (commit_good C0 C a w w' [] new [] [] (writes_on C0 a user ch (m_text m)))|].
  intros b Hb. pose proof (Hdst b Hb) as Hdb.
  assert (is_Some (c_servers C !! b)) as Hb' by (by rewrite <- elem_of_dom, (gd_nodes _ _ HG), elem_of_dom).
  pose proof (commit_due C0 C a w w' [] new [] [] _ (c_wire C) Ha He (reflexivity _)
                (Forall_nil_2 _) b Hb') as Hdue.
  pose proof (commit_relays C0 C a w w' [] new [] [] _ (c_wire C) Ha He (reflexivity _) b) as Hrel.
  unfold at_node at 1 in Hdue. unfold at_node at 2 3 in Hrel. rewrite filter_nil in Hdue, Hrel.
  simpl in Hdue, Hrel. rewrite app_nil_r in Hdue, Hrel.
  fold C' in Hdue, Hrel. rewrite Hdb in Hdue, Hrel. unfold pub_writes, m. cbn [m_on m_author m_room m_text].
  rewrite Hdue, Hrel. destruct (decide (b = a)) as [->|]; simpl; [done|by rewrite app_nil_r].
Qed.
End cluster.

(** ** Caches of different servers *)
Section caches.
  Context {EX : Externals} {NT : Net} {WR : Wires} {RD : RoomDb}.
  Context {RL : RoomDbLaws} {LL : LruLaws} {GL : GoSetLaws} {CL : CmapLaws}.
  Context (conf : string → Global).

(** (C7) The caches of the other servers go stale.  [add_into_room] and [unsubs]
    change the database and the cache of their own server, and send nothing:
    another server that has cached the room keeps writing to its old members,
    so that a new member gets no messages there and a removed one still does. *)
Theorem cluster_stale (C : cluster) (a b cmd P ch : string) (p : ptr) (us : list string)
    (s : gset string) (wa wb w' : World)
    (Hrest : at_rest true C) (Hab : a ≠ b)
    (Ha : c_servers C !! a = Some wa) (Hb : c_servers C !! b = Some wb)
    (Hcmd : cmd ∈ [CMD_ADD_USER_INTO_ROOM; CMD_UNSUBS]) (HP : Split space P = ch :: us)
    (Hs : members (w_cache wb) ch = Some s)
    (Hrun : Process (CF := conf a) (mkCmdline cmd P [] p) (see (c_db C) wa) = (Ret done_reply, w')) :
  let C' := commit C a wa w' (c_wire C) in
  let now := rooms_of (see (c_db C') wb) ch in
  (if decide (cmd = CMD_UNSUBS)
   then now = Some (s ∖ list_to_set us) ∨ s ∖ list_to_set us = ∅ ∧ now = None
   else now = Some (s ∪ list_to_set us))
  ∧ pending C' ≡ₚ pending C
  ∧ ∀ op owner msg, ∃ vs w2, vs ≡ₚ elements s
      ∧ pushToNativeClient op ch owner msg (see (c_db C') wb) = (Ret tt, w2)
      ∧ w_tasks w2 = (λ q, GoWriteFormatBinMsg q op msg) <$> omap (recipient wb owner) vs.
Proof.
  intros C' now. destruct (ar_server true C Hrest a wa Ha) as (_ & _ & Hcoa & _).
  destruct (ar_server true C Hrest b wb Hb) as (Hlb & Hnb & [Hwfb Hcob] & _).
  assert (cmd ∈ [CMD_ADD_USER_INTO_ROOM; CMD_SUBS; CMD_UNSUBS; CMD_DISOLVE]) as Hcmd4 by set_solver.
  pose proof (rooms_untold (CF := conf a) cmd p P [] (see (c_db C) wa) Hcmd4) as (Hpx & Htk & _).
  rewrite Hrun in Hpx, Htk. cbn [snd] in Hpx, Htk.
  assert (rooms_of (see (c_db C) wa) ch = Some s) as Hold by (by apply (Hcob ch s)).
  split; [|split].
  - apply elem_of_cons in Hcmd as [-> | ->%list_elem_of_singleton]; case_decide as Hc; try done.
    + destruct (ADD_run p P (see (c_db C) wa) w' Hcoa Hrun)
        as (_ & ch' & us' & t & HP' & Ht & Hnow).
      rewrite HP in HP'. injection HP' as <- <-. rewrite Hold in Ht. injection Ht as <-. exact Hnow.
    + destruct (UNSUBS_rooms p P (see (c_db C) wa) w' Hrun)
        as (ch' & us' & HP' & t & Ht & Hnow).
      rewrite HP in HP'. injection HP' as <- <-. rewrite Hold in Ht. injection Ht as <-.
      destruct Hnow as [[Hnow _]|(He & Hnow & _)]; [left|right]; done.
  - unfold pending. change (c_servers C') with (<[a := w']> (c_servers C)).
    rewrite servers_replace, (servers_split _ a wa Ha). simpl.
    assert (relays w' = relays wa) as ->.
    { unfold relays, outgoing. by rewrite Hpx, Htk. }
    unfold sent_by. rewrite Hpx. simpl. by rewrite drop_all, app_nil_r.
  - intros op owner msg.
    destruct (pushToNativeClient_run op ch owner msg s (see (c_db C') wb) Hlb Hwfb Hs Hnb)
      as (vs & Hvs & Hpush).
    exists vs. eexists. split; [done|]. split; [exact Hpush|]. simpl.
    by rewrite (proj1 (proj2 (ar_settled true C Hrest) b wb Hb)).
Qed.
End caches.

Import Ref RoomRef.

(** ** A network of wires

    Connections are never lost; a connection is the address it was dialled to. *)
Definition wire_net : Net := {|
  net := list packet;
  conn := string;
  net_ResolveTCPAddr _ := true;
  net_Dial n _ b := (n, inr b);
  net_IsConnected n c := (n, match c with Some _ => Some true | None => None end);
  net_WriteFormatBinMsg n c op m :=
    match c with
    | Some b => (n ++ [mkPacket b op m], None)
    | None => (n, Some (NewError "nil client"))
    end
|}.
#[local] Existing Instances wire_net room_externals.

#[local] Instance wire_wires : Wires := {| sent n := n; up _ b c := c = b |}.

#[export] Instance wire_laws : FrailLaws.
Proof.
  split; simpl.
  - intros n o n' r [= <- _]. done.
  - intros n b c op m n' e -> [= <- <-]. done.
  - intros n op m n' e [= <- _]. by rewrite ?app_nil_r.
  - intros n laddr b n' r [= <- <-]. done.
Qed.

(** Two servers, each with the other as its peer; [u1] is connected to the first,
    [u2] to the second, [u3] to both. *)
Definition server_on (peer : string) (cs : gmap ptr Client) (us : gmap string ptr) : World :=
  mkWorld (mkBase (MG := room_mongo) (∅ : gmap string (list string)) 0) cs us
    (newChannelToUserIds 10) (NewLruCache 10)
    (Some (mkProxy (mkRouter {[ peer := 0%nat ]} (NewLruCache 10) ∅
             {[ 0%nat := mkPeer peer (Some peer) ]} ([] : @net wire_net) []) (mkchan 100 [])))
    set_NewSet (mkchan 100 []) None [] [].
Definition here : World :=
  server_on "10.0.0.8:2223" {[ 1%nat := example_client "u1"; 3%nat := example_client "u3" ]}
    {[ "u1" := 1%nat; "u3" := 3%nat ]}.
Definition there : World :=
  server_on "10.0.0.7:2223" {[ 2%nat := example_client "u2"; 4%nat := example_client "u3" ]}
    {[ "u2" := 2%nat; "u3" := 4%nat ]}.
Definition two : cluster :=
  mkCluster ({[ "room" := ["u1"; "u2"; "u3"] ]} : gmap string (list string))
    {[ "10.0.0.7:2223" := here; "10.0.0.8:2223" := there ]} [].
Definition same_conf (a : string) : Global := example_config 0 (Some ["127.0.0.1:2181"]).

Lemma server_on_rest a peer cs us :
  a ≠ peer → (∀ u p, us !! u = Some p → is_Some (cs !! p)) → us !! "" = None →
  let w := server_on peer cs us in
  registry_valid w ∧ cmap_Get (w_uuids w) "" = None ∧ coherent (see (c_db two) w)
  ∧ ∃ px, w_proxy w = Some px ∧ attached true a {[a; peer]} (px_Router px).
Proof.
  intros Hne Hus Hn w. split; [exact Hus|]. split; [exact Hn|]. split.
  { split; [apply cache_wf_new|]. intros ch s. simpl. by rewrite members_new. }
  eexists. split; [reflexivity|]. split; simpl.
  - intros b. rewrite <- elem_of_dom, dom_singleton_L. set_solver.
  - intros b p [<- <-]%lookup_singleton_Some. exists (Some peer). by rewrite lookup_singleton_eq.
Qed.

Lemma two_cases {A} (m : gmap string A) a x b y c z :
  m = {[a := x; b := y]} → m !! c = Some z → c = a ∧ z = x ∨ c = b ∧ z = y.
Proof.
  intros -> [[<- <-]|[_ [<- <-]%lookup_singleton_Some]]%lookup_insert_Some; auto.
Qed.

Lemma two_at_rest : at_rest true two.
Proof.
  split.
  - split; [done|]. intros a w H.
    by destruct (two_cases _ _ _ _ _ _ _ eq_refl H) as [[_ ->]|[_ ->]]; (split; [|intros px [= <-]]).
  - assert (dom (c_servers two) = {["10.0.0.7:2223"; "10.0.0.8:2223"]}) as ->.
    { simpl. rewrite dom_insert_L, dom_singleton_L. done. }
    intros a w H. destruct (two_cases _ _ _ _ _ _ _ eq_refl H) as [[-> ->]|[-> ->]];
      [|rewrite (union_comm_L {["10.0.0.7:2223"]})]; (apply server_on_rest; [done| |reflexivity]);
      intros u p Hu; destruct (two_cases {[_ := _; _ := _]} _ _ _ _ _ _ eq_refl Hu) as [[_ ->]|[_ ->]];
      vm_compute; by eexists.
Qed.

(** What [u1] publishes on the first server. *)
Definition hi : pub := mkPub "10.0.0.7:2223" "room" "u1" "0 room u1 1500000000000000000 7 hi".

Lemma hi_relayable : relayable two (m_room hi) (m_text hi).
Proof.
  split; [reflexivity|]. split; [discriminate|]. split; [vm_compute; reflexivity|].
  exists ["u1"; "u2"; "u3"]. split; [reflexivity|].
  by apply (bool_decide_unpack (NoDup ["u1"; "u2"; "u3"])).
Qed.

Lemma conf_ok a : IsDistMode (same_conf a) = true ∧ EnableStorage (same_conf a) = true.
Proof. done. Qed.

(** The second server has cached the room; [u3] is then taken out of it on the
    first. *)
Definition there_warm : World := (LoadUserIdsByChannel "room" (see (c_db two) there)).2.
Definition two_warm : cluster :=
  mkCluster (c_db two) (<["10.0.0.8:2223" := there_warm]> (c_servers two)) [].

Lemma two_warm_at_rest : at_rest true two_warm.
Proof.
  destruct two_at_rest as [[Hw Hi] Hs].
  destruct (Hs "10.0.0.8:2223" there eq_refl) as (Hl & Hn & Hco & px & Hp & Hlk).
  destruct (fetch_current "room" (list_to_set ["u1"; "u2"; "u3"]) (see (c_db two) there) Hco)
    as (n & us & w1 & Hrun & _ & (st & d & Hw1) & Hco1 & Hlists).
  { exists ["u1"; "u2"; "u3"]. split; [reflexivity|]. split; [|done].
    by apply (bool_decide_unpack (NoDup ["u1"; "u2"; "u3"])). }
  { eexists. vm_compute. reflexivity. }
  assert (there_warm = w1) as Hwarm by (unfold there_warm; by rewrite Hrun).
  assert (dom (c_servers two_warm) = dom (c_servers two)) as Hdom.
  { simpl. apply dom_insert_lookup_L. by eexists. }
  assert (∀ a w, c_servers two_warm !! a = Some w →
            a = "10.0.0.8:2223" ∧ w = there_warm ∨ c_servers two !! a = Some w) as Hcases.
  { intros a w H. unfold two_warm in H. cbn [c_servers] in H.
    apply lookup_insert_Some in H as [[<- <-]|[_ H]]; auto. }
  split.
  - split; [done|]. intros a w H. apply Hcases in H as [[_ ->]|H]; [|by apply (Hi a)].
    rewrite Hwarm, Hw1. by apply (Hi "10.0.0.8:2223" there).
  - rewrite Hdom. intros a w H. apply Hcases in H as [[-> ->]|H]; [|by apply Hs].
    rewrite Hwarm. split; [by rewrite Hw1|]. split; [by rewrite Hw1|]. split; [|exists px; by rewrite Hw1].
    apply (coherent_see (b_db (w_base w1))); [intros c; apply (Hlists c)|].
    destruct w1 as [[] ? ? ? ? ? ? ? ? ? ?]. exact Hco1.
Qed.

Lemma cluster_stale_witness :
  ∃ C' vs w2, c_servers C' !! "10.0.0.8:2223" = Some there_warm
    ∧ rooms_of (see (c_db C') there_warm) "room" = Some {["u1"; "u2"]}
    ∧ vs ≡ₚ ["u1"; "u2"; "u3"]
    ∧ pushToNativeClient "RCIV" "room" "u1" [] (see (c_db C') there_warm) = (Ret tt, w2)
    ∧ w_tasks w2 = (λ q, GoWriteFormatBinMsg q "RCIV" []) <$> omap (recipient there_warm "u1") vs.
Proof.
  assert (is_Some (members (w_cache there_warm) "room")) as [s Hs] by (vm_compute; eauto).
  assert (s = list_to_set ["u1"; "u2"; "u3"]) as Hset.
  { destruct (ar_server _ _ two_warm_at_rest "10.0.0.8:2223" there_warm eq_refl) as (_ & _ & [_ Hco] & _).
    specialize (Hco "room" s Hs). by injection Hco. }
  destruct (Process (CF := same_conf "10.0.0.7:2223") (mkCmdline "unsubs" "room u3" [] 1)
              (see (c_db two_warm) here)) as [o w'] eqn:E.
  assert (o = Ret done_reply) as -> by (change o with ((o, w').1); rewrite <- E; vm_compute; reflexivity).
  destruct (cluster_stale same_conf two_warm "10.0.0.7:2223" "10.0.0.8:2223" "unsubs" "room u3" "room" 1
    ["u3"] s here there_warm w' two_warm_at_rest) as (Hnow & _ & Hpush);
    [discriminate|reflexivity|reflexivity|by right; left|reflexivity|exact Hs|exact E|].
  destruct (Hpush "RCIV" "u1" []) as (vs & w2 & Hvs & Hrun & Ht).
  eexists _, vs, w2. split; [|split; [|split; [|split; [exact Hrun|exact Ht]]]].
  - reflexivity.
  - rewrite decide_True in Hnow by done. destruct Hnow as [Hnow|[He _]]; [rewrite Hnow|].
    + f_equal. rewrite Hset. by apply (bool_decide_unpack (_ = _)).
    + exfalso. assert ("u1" ∈ s ∖ list_to_set ["u3"]) as Hin by (rewrite Hset; set_solver).
      rewrite He in Hin. set_solver.
  - rewrite Hvs, Hset. apply elements_list_to_set.
    by apply (bool_decide_unpack (NoDup ["u1"; "u2"; "u3"])).
Defined.

Lemma watchPeers_links_witness :
  ∃ r', mapM_ (watchPeers_event (example_config 0 None))
          [["10.0.0.7:2223"; "10.0.0.8:2223"]; ["10.0.0.9:2223"]]
          (NewRouter 10 ([] : @net wire_net)) = (Ret tt, r')
        ∧ linked "10.0.0.7:2223" {["10.0.0.7:2223"; "10.0.0.8:2223"; "10.0.0.9:2223"]} r'.
Proof.
  destruct (watchPeers_links (example_config 0 None) 10 ([] : @net wire_net)
    [["10.0.0.7:2223"; "10.0.0.8:2223"]; ["10.0.0.9:2223"]]) as (r' & Hrun & [H1 H2]);
    [reflexivity|intros n b; by eexists _, _|].
  exists r'. split; [exact Hrun|]. split; [|exact H2]. intros b. rewrite H1. set_solver.
Defined.
