(* ===== verification/ClusterFaults.v ===== *)
(** * A cluster and what becomes of its messages

    Connections may end at any time, dials and writes may fail, and packets may
    get lost on their way; [Peer.WriteFormatMsg] (engine/router.go) reconnects and
    tries again.  Every relay that is given up or lost is recorded, and the
    delivery of messages is exact but for what is on that record; without the
    record it is at most once, and complete on the server of the author.  The
    work that a publication means ends, whatever the network does. *)
From S2P Require Import Prelude GoStrings Wire Deps RefDeps Config Base UserIdCache Storage Router.
From S2P Require Import PeerReader World PubSub Client Rooms RoomStore Auth Mail Commands.
From S2P Require Import Membership S2s Delivery Cluster.

Local Open Scope string_scope.
Local Open Scope list_scope.

Section frail.
  Context {EX : Externals} {NT : Net} {WR : Wires} {RD : RoomDb}.
  Context {FL : FrailLaws} {RL : RoomDbLaws} {LL : LruLaws} {GL : GoSetLaws} {CL : CmapLaws}.
  Context (conf : string → Global).

(** ** Sending to a peer *)

(** What a call for the peer [p] at [b] may have done to the router: [snt] is on
    its way. *)
Record sending (p : ptr) (b : string) (r r' : Router) (snt : list packet) : Prop := {
  sg_addrs : Peers r' = Peers r;
  sg_client : ∃ o, client_ok false (r_net r') b o ∧ r_peers r' = <[p := mkPeer b o]> (r_peers r);
  sg_up b' c : up (r_net r) b' c → up (r_net r') b' c;
  sg_sent : sent (r_net r') = sent (r_net r) ++ snt
}.

Lemma sending_trans p b r r1 r2 s1 s2 :
  sending p b r r1 s1 → sending p b r1 r2 s2 → sending p b r r2 (s1 ++ s2).
Proof.
  intros [H1 (o1 & _ & H2) H3 H4] [K1 (o2 & Ko & K2) K3 K4]. split; [congruence| |auto|].
  - exists o2. split; [done|]. by rewrite K2, H2, insert_insert_eq.
  - by rewrite K4, H4, app_assoc.
Qed.

(** Its client is still one for [b]. *)
Definition known_peer (p : ptr) (b : string) (r : Router) : Prop :=
  ∃ o, r_peers r !! p = Some (mkPeer b o) ∧ client_ok false (r_net r) b o.

Lemma sending_known p b r r' snt : sending p b r r' snt → known_peer p b r'.
Proof. intros [_ (o & Ho & Hr) _ _]. exists o. by rewrite Hr, lookup_insert_eq. Qed.

Lemma sending_net p b r n' snt :
  known_peer p b r → (∀ b' c, up (r_net r) b' c → up n' b' c) → sent n' = sent (r_net r) ++ snt →
  sending p b r (with_net n' r) snt.
Proof.
  intros (o & Hp & Ho) Hup Hs. split; [done| |done|done].
  exists o. split; [by apply (client_ok_mono _ (r_net r))|]. simpl. by rewrite insert_id.
Qed.

Lemma dial_sending cfg p b r :
  known_peer p b r →
  ∃ out r', initClientConn cfg p r = (out, r') ∧ sending p b r r' [].
Proof.
  intros Hk. pose proof Hk as (o & Hp & Ho). unfold initClientConn.
  destruct (net_ResolveTCPAddr (TcpListenAddr cfg)); cbn [negb].
  2: { eexists _, r. split; [reflexivity|]. split; [done| |done|by rewrite app_nil_r].
       exists o. by rewrite insert_id. }
  unfold on_net. mred. rewrite Hp. cbn.
  destruct (net_Dial (r_net r) (TcpListenAddr cfg) b) as [n' [e|c]] eqn:E;
    destruct (frail_dial _ _ _ _ _ E) as (Hs & Hup & Hc); eexists _, _; (split; [reflexivity|]).
  - apply (sending_net p b r n' []); [done..|]. by rewrite app_nil_r.
  - split; [done| |done|by rewrite app_nil_r]. by exists (Some c).
Qed.

(** At most one packet, and none after a failure. *)
Lemma write_sending p b op m r :
  known_peer p b r →
  ∃ e r' snt, peer_Write p op m r = (Ret e, r') ∧ sending p b r r' snt
    ∧ (snt = [] ∨ e = None ∧ snt = [mkPacket b op m]).
Proof.
  intros Hk. pose proof Hk as (o & Hp & Ho). unfold peer_Write, peer_client, on_net. mred. rewrite Hp. cbn.
  destruct (net_WriteFormatBinMsg (r_net r) o op m) as [n' e] eqn:E.
  destruct o as [c|].
  - destruct (frail_write _ _ _ _ _ _ _ Ho E) as [Hs Hup]. eexists e, _, _.
    split; [reflexivity|]. split; [by apply (sending_net p b r n')|]. destruct e; auto.
  - destruct (frail_nil _ _ _ _ _ E) as [Hs Hup]. eexists e, _, [].
    split; [reflexivity|]. split; [apply (sending_net p b r n')|by left]; [done..|by rewrite app_nil_r].
Qed.

Lemma retry_sending cfg p b op m k r :
  known_peer p b r →
  ∃ out r' snt, retry cfg p op m k r = (out, r') ∧ sending p b r r' snt
    ∧ (snt = [] ∨ snt = [mkPacket b op m]).
Proof.
  revert r. induction k as [|k IH]; intros r Hk; cbn [retry].
  - exists (Ret tt), r, []. split; [done|]. split; [|by left].
    destruct Hk as (o & Hp & Ho). split; [done| |done|by rewrite app_nil_r]. exists o. by rewrite insert_id.
  - destruct (dial_sending cfg p b r Hk) as (out & r1 & Hd & S1). pose proof (sending_known _ _ _ _ _ S1) as K1.
    destruct out as [[e|]|e|].
    + mstep Hd. destruct (IH r1 K1) as (out & r2 & snt & Hr & S2 & Hsnt).
      exists out, r2, snt. split; [done|]. split; [by apply (sending_trans p b r r1 r2 [])|done].
    + mstep Hd. destruct (write_sending p b op m r1 K1) as (e & r2 & snt & Hw & S2 & Hsnt).
      pose proof (sending_known _ _ _ _ _ S2) as K2. mstep Hw. pose proof (sending_trans _ _ _ _ _ _ _ S1 S2) as S3.
      destruct e as [e|]; [|exists (Ret tt), r2, snt; split; [done|]; split; [done|]; tauto].
      destruct Hsnt as [->|[[=] _]]. destruct (IH r2 K2) as (out & r3 & snt & Hr & S4 & Hsnt).
      exists out, r3, snt. split; [done|]. split; [by apply (sending_trans p b r r2 r3 [])|done].
    + exists (Panic e), r1, []. unfold mbind, M_bind. rewrite Hd. auto.
    + exists Block, r1, []. unfold mbind, M_bind. rewrite Hd. auto.
Qed.

Lemma probe_sending p b r :
  known_peer p b r → ∃ out r', peer_IsConnected p r = (out, r') ∧ sending p b r r' [].
Proof.
  intros Hk. pose proof Hk as (o & Hp & Ho). unfold peer_IsConnected, peer_client, on_net. mred.
  rewrite Hp. cbn. destruct (net_IsConnected (r_net r) o) as [n' x] eqn:E.
  destruct (frail_probe _ _ _ _ E) as [Hs Hup].
  assert (sending p b r (with_net n' r) []) as S1 by (apply sending_net; [done..|by rewrite app_nil_r]).
  by destruct x; eexists _, _.
Qed.

Lemma WriteFormatMsg_sending cfg p b op m r :
  known_peer p b r →
  ∃ r' snt, (WriteFormatMsg cfg p op m r).2 = r' ∧ sending p b r r' snt
    ∧ (snt = [] ∨ snt = [mkPacket b op m]).
Proof.
  intros Hk. destruct (probe_sending p b r Hk) as (out & r1 & Hpr & S1).
  pose proof (sending_known _ _ _ _ _ S1) as K1. unfold WriteFormatMsg.
  destruct out as [x|e|]; [mstep Hpr|unfold mbind, M_bind; rewrite Hpr; exists r1, []; auto..].
  destruct x.
  - destruct (write_sending p b op m r1 K1) as (e & r2 & snt & Hw & S2 & Hsnt).
    pose proof (sending_trans _ _ _ _ _ _ _ S1 S2) as S3. mstep Hw.
    destruct e as [e|]; [|exists r2, snt; split; [done|]; split; [done|]; tauto].
    destruct Hsnt as [->|[[=] _]].
    destruct (retry_sending cfg p b op m RETRY_CNT r2 (sending_known _ _ _ _ _ S2)) as (out & r3 & snt & Hr & S4 & Hsnt).
    exists r3, snt. rewrite Hr. split; [done|]. split; [by apply (sending_trans p b r r2 r3 [])|done].
  - destruct (retry_sending cfg p b op m RETRY_CNT r1 K1) as (out & r3 & snt & Hr & S4 & Hsnt).
    exists r3, snt. rewrite Hr. split; [done|]. split; [by apply (sending_trans p b r r1 r3 [])|done].
Qed.

(** ** What a goroutine does *)
Lemma sending_attached a nodes p b r r' snt :
  attached false a nodes r → Peers r !! b = Some p → sending p b r r' snt → attached false a nodes r'.
Proof.
  intros [H1 H2] Hb [S1 (o & Ho & Sr) Su _]. split; [by rewrite S1|]. intros b' q. rewrite S1, Sr. intros Hq.
  destruct (H2 b' q Hq) as (o' & Hr & Ho'). destruct (decide (p = q)) as [<-|Hne].
  - destruct (H2 b p Hb) as (o2 & Hr2 & _). assert (b' = b) as -> by congruence.
    exists o. by rewrite lookup_insert_eq.
  - exists o'. rewrite lookup_insert_ne by done. split; [done|]. by apply (client_ok_mono _ (r_net r)).
Qed.

Lemma sending_addr p b r r' snt x :
  known_peer p b r → sending p b r r' snt → peer_addr r' x = peer_addr r x.
Proof.
  intros (o & Hp & _) [_ (o' & _ & Sr) _ _]. unfold peer_addr. rewrite Sr. destruct x as [q|]; [|done]. simpl.
  destruct (decide (p = q)) as [<-|Hne]; [by rewrite lookup_insert_eq, Hp|by rewrite lookup_insert_ne].
Qed.

(** What a goroutine gives up: the message for a peer, when no attempt has sent
    anything. *)
Definition given_up (w : World) (t : Task) (w' : World) : list packet :=
  match w_proxy w with
  | Some px => if decide (length (sent_by w') = length (sent_by w))
               then task_packets (px_Router px) t else []
  | None => []
  end.

Lemma given_up_write w t w' e : event_of t = Some e → given_up w t w' = [].
Proof. intros He. unfold given_up. destruct (w_proxy w); [|done]. case_decide; by destruct t. Qed.

Lemma frail_go_effect cf C0 d a w l1 t l2 :
  node false C0 a w → rooms_kept C0 d → w_tasks w = l1 ++ t :: l2 →
  let w' := (run_task (CF := cf) t (set_tasks (l1 ++ l2) (see d w))).2 in
  ∃ snt, effect false C0 a w w' [] [] snt (given_up w t w') []
    ∧ burden C0 w' + load C0 1 snt < burden C0 w.
Proof.
  intros Hn Hd Htk w'. destruct (nd_proxy _ _ _ _ Hn) as (px & Hp & Hat & Ht & _).
  rewrite Htk in Ht. apply Forall_app in Ht as [_ [Htt _]%Forall_cons].
  destruct (event_of t) as [e|] eqn:Ee.
  - exists []. destruct (go_write_effect false cf C0 d a w l1 t l2 e Ee Hn Hd Htk) as [He Hb].
    rewrite (given_up_write w t w' e Ee). split; [exact He|]. change (load C0 1 []) with 0. unfold w'. lia.
  - destruct t as [| | |[p|] op m]; try done; [|by destruct Htt as (? & ? & ? & _)].
    destruct Htt as (b & p' & [= <-] & Hb). destruct (proj2 Hat b p Hb) as (o & Hc & Ho).
    assert (known_peer p b (px_Router px)) as Hk by (by exists o).
    destruct (WriteFormatMsg_sending cf p b op m _ Hk) as (r' & snt & Hr & Hsnd & Hsnt).
    destruct (go_send_effect false cf C0 d a w l1 l2 p op m px b o r' snt
                (match snt with [] => [mkPacket b op m] | _ => [] end)) as [He Hburd]; try done.
    + apply (sg_addrs _ _ _ _ _ Hsnd).
    + by apply (sending_attached _ _ p b (px_Router px) _ snt).
    + intros x. by apply (sending_addr p b _ _ snt).
    + apply (sg_sent _ _ _ _ _ Hsnd).
    + by destruct Hsnt as [->| ->].
    + fold w' in He, Hburd. exists snt.
      assert (given_up w (GoPeerWrite (Some p) op m) w' = match snt with [] => [mkPacket b op m] | _ => [] end)
        as ->; [|split; [exact He|]; rewrite load_app in Hburd; lia].
      unfold given_up. rewrite Hp, (ef_sent _ _ _ _ _ _ _ _ _ _ He), length_app. simpl.
      unfold packets_to, peer_addr. simpl. rewrite Hc. simpl.
      destruct Hsnt as [->| ->]; simpl; [by rewrite decide_True by lia|by rewrite decide_False by lia].
Qed.

(** ** Steps with faults

    A step of [Cluster]; a packet is lost; the connections of a server change by
    themselves, as when the other end closes them or a reader of [PeerReader] does. *)
Inductive frail_step (C : cluster) : cluster → Prop :=
| frail_go C' : cl_step conf C C' → frail_step C C'
| frail_lose k l1 l2 :
    c_wire C = l1 ++ k :: l2 → frail_step C (mkCluster (c_db C) (c_servers C) (l1 ++ l2))
| frail_net a w px n' :
    c_servers C !! a = Some w → w_proxy w = Some px →
    sent n' = sent (r_net (px_Router px)) → (∀ b c, up (r_net (px_Router px)) b c → up n' b c) →
    frail_step C (commit C a w
      (set_proxy (Some (mkProxy (with_net n' (px_Router px)) (px_ForwardTuple px))) (see (c_db C) w))
      (c_wire C)).

(** The same steps, with the packets that each of them loses: those that a
    goroutine gives up, and those that the network drops.  A change of the
    connections loses nothing, and is no progress either. *)
Inductive advance_step (C : cluster) : list packet → list packet → cluster → Prop :=
| adv_forward a w w' :
    c_servers C !! a = Some w → WaitMsg_round (see (c_db C) w) = (Ret tt, w') →
    advance_step C [] [] (commit C a w w' (c_wire C))
| adv_go a w l1 t l2 :
    c_servers C !! a = Some w → w_tasks w = l1 ++ t :: l2 →
    let w' := (run_task (CF := conf a) t (set_tasks (l1 ++ l2) (see (c_db C) w))).2 in
    advance_step C (given_up w t w') [] (commit C a w w' (c_wire C))
| adv_store a w w' m :
    c_servers C !! a = Some w → onQueue chan_recv (see (c_db C) w) = (Ret m, w') →
    advance_step C [] [] (commit C a w w' (c_wire C))
| adv_deliver k l1 l2 w conn :
    c_wire C = l1 ++ k :: l2 → c_servers C !! k_to k = Some w →
    advance_step C [] [] (commit C (k_to k) w
      (s2s_OnRead (CF := conf (k_to k)) conn (frame_of (k_op k) (k_body k)) (see (c_db C) w)).2
      (l1 ++ l2))
| adv_drop k l1 l2 :
    c_wire C = l1 ++ k :: l2 → advance_step C [] [k] (mkCluster (c_db C) (c_servers C) (l1 ++ l2)).

Inductive drift_step (C : cluster) : cluster → Prop :=
| drift_net a w px n' :
    c_servers C !! a = Some w → w_proxy w = Some px →
    sent n' = sent (r_net (px_Router px)) → (∀ b c, up (r_net (px_Router px)) b c → up n' b c) →
    drift_step C (commit C a w
      (set_proxy (Some (mkProxy (with_net n' (px_Router px)) (px_ForwardTuple px))) (see (c_db C) w))
      (c_wire C)).

Inductive lossy_step (C : cluster) : list packet → list packet → cluster → Prop :=
| lossy_advance given dropped C' : advance_step C given dropped C' → lossy_step C given dropped C'
| lossy_drift C' : drift_step C C' → lossy_step C [] [] C'.

(** A run, with the messages published and the packets lost during it. *)
Inductive lossy_run : list pub → list packet → list packet → cluster → cluster → Prop :=
| lrun_nil C : lossy_run [] [] [] C C
| lrun_step ms g d given dropped C1 C2 C3 :
    lossy_step C1 g d C2 → lossy_run ms given dropped C2 C3 →
    lossy_run ms (g ++ given) (d ++ dropped) C1 C3
| lrun_publish ms given dropped C1 C3 a ch msg user id w w' :
    c_servers C1 !! a = Some w →
    Publish (CF := conf a) ch msg user id false (see (c_db C1) w) = (Ret "", w') →
    lossy_run ms given dropped (commit C1 a w w' (c_wire C1)) C3 →
    lossy_run (mkPub a ch user (clientMsg ch user (UnixNano (b_tick (w_base w))) id msg) :: ms)
      given dropped C1 C3.

Lemma cl_advance C C' : cl_step conf C C' → ∃ given, advance_step C given [] C'.
Proof.
  intros Hs. destruct Hs as [a w w' Ha Hrun|a w w' Ha Hgo|a w w' m Ha Hrun|k l1 l2 w conn Hw Ha].
  - eexists. by eapply adv_forward.
  - remember (see (c_db C) w) as w1 eqn:Hw1. destruct Hgo as [w1 l1 t l2 Htk]. subst w1.
    eexists. by apply (adv_go C a w l1 t l2).
  - eexists. by eapply adv_store.
  - eexists. by eapply adv_deliver.
Qed.

Lemma frail_lossy C C' : frail_step C C' → ∃ given dropped, lossy_step C given dropped C'.
Proof.
  intros [C1 Hs|k l1 l2 Hw|a w px n' Ha Hp Hs Hup].
  - destruct (cl_advance _ _ Hs) as [g Hl]. eexists _, _. by apply lossy_advance.
  - eexists _, _. apply lossy_advance. by eapply adv_drop.
  - eexists _, _. by eapply lossy_drift, drift_net.
Qed.

Lemma lossy_frail C given dropped C' : lossy_step C given dropped C' → frail_step C C'.
Proof.
  intros [g l C1 Hs|C1 [a w px n' Ha Hp Hs Hup]]; [|by eapply frail_net].
  destruct Hs as [a w w' Ha Hrun|a w l1 t l2 Ha Htk|a w w' m Ha Hrun|k l1 l2 w conn Hw Ha|k l1 l2 Hw].
  - apply frail_go. by eapply cl_forward.
  - apply frail_go. eapply cl_go; [exact Ha|]. by apply (go_run (see (c_db C) w) l1 t l2).
  - apply frail_go. by eapply cl_store.
  - apply frail_go. by eapply cl_deliver.
  - by eapply frail_lose.
Qed.

(** The record of losses is only a record. *)
Lemma frail_run_lossy ms C C' :
  cl_run conf frail_step ms C C' ↔ ∃ given dropped, lossy_run ms given dropped C C'.
Proof.
  split.
  - intros Hrun. induction Hrun as [C|ms C1 C2 C3 Hs _ (g2 & d2 & IH)
      |ms C1 C3 a ch msg user id w w' Ha Hp _ (g & l & IH)].
    + eexists _, _. constructor.
    + destruct (frail_lossy _ _ Hs) as (g1 & d1 & Hl). eexists _, _. by eapply lrun_step.
    + eexists _, _. by eapply lrun_publish.
  - intros (given & dropped & Hrun).
    induction Hrun; [constructor|eapply run_step; [by eapply lossy_frail|done]|by eapply run_publish].
Qed.

Lemma net_effect st C0 d a w px n' :
  node st C0 a w → rooms_kept C0 d → w_proxy w = Some px →
  sent n' = sent (r_net (px_Router px)) → (∀ b c, up (r_net (px_Router px)) b c → up n' b c) →
  effect st C0 a w
    (set_proxy (Some (mkProxy (with_net n' (px_Router px)) (px_ForwardTuple px))) (see d w)) [] [] [] [] [].
Proof.
  intros Hn Hd Hp Hs Hup. set (px' := mkProxy _ _). set (w' := set_proxy _ _).
  destruct (nd_proxy _ _ _ _ Hn) as (px0 & Hp0 & Hat & Ht & Hq). assert (px0 = px) as -> by congruence.
  assert (relays w' = relays w) as Hrel by (unfold relays; by rewrite Hp).
  split.
  - apply (node_keep st C0 a w w' px px'); try done.
    + apply (nd_coherent _ _ _ _ Hn).
    + by apply (attached_keep st a _ (px_Router px)).
    + rewrite Hrel. apply (nd_relays _ _ _ _ Hn).
  - exact Hd.
  - unfold sent_by. rewrite Hp. simpl. by rewrite Hs, app_nil_r.
  - by rewrite Hrel, !app_nil_r.
  - simpl. by rewrite app_nil_r.
Qed.

(** ** The books *)
Section books.
  Context `{!RoomDbUp} (C0 : cluster) (st : bool).

(** How the goroutines behave: [frail_go_effect], or [sound_go_effect] below. *)
Hypothesis go_ok : ∀ cf d a w l1 t l2,
  node st C0 a w → rooms_kept C0 d → w_tasks w = l1 ++ t :: l2 →
  let w' := (run_task (CF := cf) t (set_tasks (l1 ++ l2) (see d w))).2 in
  ∃ snt, effect st C0 a w w' [] [] snt (given_up w t w') []
    ∧ burden C0 w' + load C0 1 snt < burden C0 w.

(** [lost] goes off the books of [b]; it was to be relayed. *)
Definition written_off (b : string) (C C' : cluster) (lost : list packet) : Prop :=
  due C0 C' b ++ at_node C0 b lost ≡ₚ due C0 C b
  ∧ at_node C0 b (pending C') ++ at_node C0 b lost ⊆+ at_node C0 b (pending C).

Lemma effect_books C a w w' recv snt lost ks b :
  good st C0 C → c_servers C !! a = Some w → effect st C0 a w w' recv [] snt lost [] →
  c_wire C ≡ₚ recv ++ ks → Forall (λ k, k_to k = a) recv → is_Some (c_servers C0 !! b) →
  written_off b C (commit C a w w' ks) lost.
Proof.
  intros HG Ha He Hks Hto Hb.
  assert (is_Some (c_servers C !! b)) as Hb' by (by rewrite <- elem_of_dom, (gd_nodes _ _ _ HG), elem_of_dom).
  pose proof (commit_due st C0 C a w w' recv [] snt lost [] ks Ha He Hks Hto b Hb') as Hdue.
  pose proof (commit_relays st C0 C a w w' recv [] snt lost [] ks Ha He Hks b) as Hrel.
  change (at_node C0 b []) with (@nil Event) in *. rewrite app_nil_r in Hrel. split.
  - rewrite Hdue. by destruct (decide (b = a)); rewrite app_nil_r.
  - rewrite <- Hrel. apply submseteq_app; [done|]. apply submseteq_inserts_l. done.
Qed.

(** What is lost on the wire. *)
Lemma lose_books C k l1 l2 b :
  c_wire C = l1 ++ k :: l2 → is_Some (c_servers C !! b) →
  written_off b C (mkCluster (c_db C) (c_servers C) (l1 ++ l2)) [k].
Proof.
  intros Hw [w Hb]. set (C' := mkCluster _ _ _).
  assert (pending C ≡ₚ pending C' ++ [k]) as Hp by (unfold pending; rewrite Hw; simpl; solve_Permutation).
  assert (at_node C0 b (pending C) ≡ₚ at_node C0 b (pending C') ++ at_node C0 b [k]) as Hat.
  { unfold at_node. apply (filter_Permutation (λ k, k_to k = b)) in Hp. rewrite filter_app in Hp.
    apply (bind_Permutation (relay_writes C0)) in Hp. by rewrite bind_app in Hp. }
  split; [|by rewrite Hat]. unfold due. change (c_servers C') with (c_servers C). rewrite Hb.
  fold (at_node C0 b (pending C')) (at_node C0 b (pending C)). rewrite Hat. solve_Permutation.
Qed.

(** What a step that is not a fault leaves, for a server that has gone from [w] to
    [w']. *)
Lemma effect_good C a w w' recv snt lost ks :
  good st C0 C → c_servers C !! a = Some w → effect st C0 a w w' recv [] snt lost [] →
  c_wire C ≡ₚ recv ++ ks → Forall (λ k, k_to k = a) recv →
  let C' := commit C a w w' ks in
  good st C0 C' ∧ Forall (relay_ok C0) lost
  ∧ work C0 C' + load C0 1 recv + burden C0 w = work C0 C + load C0 1 snt + burden C0 w'
  ∧ ∀ b, is_Some (c_servers C0 !! b) → written_off b C C' lost.
Proof.
  intros HG Ha He Hks Hto C'. split; [by apply (commit_good st C0 C a w w' recv [] snt lost [])|].
  split; [|split; [by apply (commit_work st C0 C a w w' recv [] snt lost [])|]].
  - pose proof (nd_relays _ _ _ _ (gd_node _ _ _ HG _ _ Ha)) as HF.
    rewrite <- (app_nil_r (relays w)), <- (ef_relays _ _ _ _ _ _ _ _ _ _ He) in HF.
    by apply Forall_app in HF as [_ [_ HF]%Forall_app].
  - intros b. by apply (effect_books C a w w' recv snt).
Qed.

Lemma advance_good C given dropped C' :
  good st C0 C → advance_step C given dropped C' →
  good st C0 C' ∧ Forall (relay_ok C0) (given ++ dropped) ∧ work C0 C' < work C0 C
  ∧ ∀ b, is_Some (c_servers C0 !! b) → written_off b C C' (given ++ dropped).
Proof.
  intros HG Hs.
  destruct Hs as [a w w' Ha Hrun|a w l1 t l2 Ha Htk w'|a w w' m Ha Hrun|k l1 l2 w conn Hw Ha|k l1 l2 Hw].
  all: try (pose proof (gd_node _ _ _ HG _ _ Ha) as Hn). all: pose proof (gd_rooms _ _ _ HG) as Hd.
  - destruct (forward_effect st C0 _ a w w' Hn Hd Hrun) as [He Hb].
    destruct (effect_good C a w w' [] [] [] (c_wire C) HG Ha He) as (? & ? & Hwk & ?); [done..|].
    split_and!; [done..| |done]. change (load C0 1 []) with 0 in Hwk. lia.
  - destruct (go_ok (conf a) _ a w l1 t l2 Hn Hd Htk) as (snt & He & Hb). fold w' in He, Hb.
    destruct (effect_good C a w w' [] snt _ (c_wire C) HG Ha He) as (? & ? & Hwk & ?); [done..|].
    rewrite app_nil_r.
    split_and!; [done..| |done]. change (load C0 1 []) with 0 in Hwk. lia.
  - destruct (store_effect st C0 _ a w w' m Hn Hd Hrun) as [He Hb].
    destruct (effect_good C a w w' [] [] [] (c_wire C) HG Ha He) as (? & ? & Hwk & ?); [done..|].
    split_and!; [done..| |done]. change (load C0 1 []) with 0 in Hwk. lia.
  - pose proof (gd_wire _ _ _ HG) as HW. rewrite Hw in HW. apply Forall_app in HW as [_ [Hk _]%Forall_cons].
    destruct (deliver_effect st (conf (k_to k)) C0 _ _ w k conn Hn Hd Hk eq_refl) as [He Hb].
    set (w' := (s2s_OnRead _ _ _).2) in *.
    destruct (effect_good C (k_to k) w w' [k] [] [] (l1 ++ l2) HG Ha He) as (? & ? & Hwk & ?);
      [rewrite Hw; solve_Permutation|by repeat constructor|].
    split_and!; [done..| |done]. change (load C0 1 []) with 0 in Hwk. lia.
  - pose proof (gd_wire _ _ _ HG) as HW. rewrite Hw in HW. apply Forall_app in HW as [HW1 [Hk HW2]%Forall_cons].
    split_and!; [|constructor; [exact Hk|constructor]| |].
    + destruct HG as [H1 H2 H3 H4]. split; [done..|]. by apply Forall_app.
    + unfold work. simpl. rewrite Hw, !load_app. unfold load. simpl. lia.
    + intros b Hb. apply lose_books; [done|].
      by rewrite <- elem_of_dom, (gd_nodes _ _ _ HG), elem_of_dom.
Qed.

Lemma drift_good C C' :
  good st C0 C → drift_step C C' →
  good st C0 C' ∧ work C0 C' = work C0 C
  ∧ ∀ b, is_Some (c_servers C0 !! b) → written_off b C C' [].
Proof.
  intros HG [a w px n' Ha Hp Hsent Hup].
  pose proof (net_effect st C0 _ a w px n' (gd_node _ _ _ HG _ _ Ha) (gd_rooms _ _ _ HG) Hp Hsent Hup) as He.
  destruct (effect_good C a w _ [] [] [] (c_wire C) HG Ha He) as (? & _ & Hwk & ?); [done..|].
  split_and!; [done| |done]. change (load C0 1 []) with 0 in Hwk.
  set (px' := mkProxy (with_net n' (px_Router px)) (px_ForwardTuple px)) in *.
  set (w' := set_proxy (Some px') (see (c_db C) w)) in *.
  assert (burden C0 w' = burden C0 w) as Hb; [|lia].
  rewrite (burden_eq C0 w' px' eq_refl), (burden_eq C0 w px Hp). done.
Qed.

Lemma lossy_good C given dropped C' :
  good st C0 C → lossy_step C given dropped C' →
  good st C0 C' ∧ Forall (relay_ok C0) (given ++ dropped)
  ∧ ∀ b, is_Some (c_servers C0 !! b) → written_off b C C' (given ++ dropped).
Proof.
  intros HG [g l C1 Hs|C1 Hs].
  - by destruct (advance_good C g l C1 HG Hs) as (? & ? & _ & ?).
  - by destruct (drift_good C C1 HG Hs) as (? & _ & ?).
Qed.

(** Messages of other servers for the members at [b]. *)
Definition elsewhere (b : string) (ms : list pub) : list pub := filter (λ m, m_on m ≠ b) ms.

(** The messages [ms] went on the books of [b] and [gone], a part of what the
    others relayed, went off them. *)
Definition accounted (b : string) (ms : list pub) (gone : list Event) (C C' : cluster) : Prop :=
  due C0 C' b ++ gone ≡ₚ due C0 C b ++ (ms ≫= pub_writes C0 b)
  ∧ at_node C0 b (pending C') ++ gone
    ⊆+ at_node C0 b (pending C) ++ (elsewhere b ms ≫= pub_writes C0 b).

Lemma written_off_accounted b ms gone lost C1 C2 C3 :
  written_off b C1 C2 lost → accounted b ms gone C2 C3 →
  accounted b ms (at_node C0 b lost ++ gone) C1 C3.
Proof.
  intros [H1 H2] [H3 H4]. split.
  - trans ((due C0 C3 b ++ gone) ++ at_node C0 b lost); [solve_Permutation|].
    rewrite H3, <- H1. solve_Permutation.
  - trans ((at_node C0 b (pending C2) ++ (elsewhere b ms ≫= pub_writes C0 b)) ++ at_node C0 b lost).
    + trans ((at_node C0 b (pending C3) ++ gone) ++ at_node C0 b lost);
        [apply Permutation_submseteq; solve_Permutation|]. by apply submseteq_app.
    + trans ((at_node C0 b (pending C2) ++ at_node C0 b lost) ++ (elsewhere b ms ≫= pub_writes C0 b));
        [apply Permutation_submseteq; solve_Permutation|]. by apply submseteq_app.
Qed.

Lemma lossy_run_good ms given dropped C C' :
  (∀ a, IsDistMode (conf a) = true ∧ EnableStorage (conf a) = true) →
  Forall (λ m, relayable C0 (m_room m) (m_text m)) ms → good st C0 C →
  lossy_run ms given dropped C C' →
  good st C0 C' ∧ Forall (relay_ok C0) (given ++ dropped)
  ∧ ∀ b, is_Some (c_servers C0 !! b) → accounted b ms (at_node C0 b (given ++ dropped)) C C'.
Proof.
  intros Hconf Hms HG Hrun.
  induction Hrun as [C|ms g d given dropped C1 C2 C3 Hs _ IH
    |ms given dropped C1 C3 a ch msg user id w w' Ha Hp _ IH].
  - split_and!; [done..|]. intros b _. split; by rewrite !app_nil_r.
  - destruct (lossy_good C1 g d C2 HG Hs) as (HG2 & Hok & Hlost).
    destruct (IH Hms HG2) as (HG3 & Hok' & Hb3).
    assert ((g ++ given) ++ d ++ dropped ≡ₚ (g ++ d) ++ given ++ dropped) as Hperm by solve_Permutation.
    split_and!; [done|by rewrite Hperm; apply Forall_app|]. intros b Hb.
    assert (at_node C0 b ((g ++ given) ++ d ++ dropped)
            ≡ₚ at_node C0 b (g ++ d) ++ at_node C0 b (given ++ dropped)) as Hat.
    { unfold at_node. rewrite <- bind_app, <- filter_app.
      by apply bind_Permutation, filter_Permutation. }
    destruct (written_off_accounted b ms (at_node C0 b (given ++ dropped)) (g ++ d) C1 C2 C3
                (Hlost b Hb) (Hb3 b Hb)) as [H1 H2].
    by split; rewrite Hat.
  - apply Forall_cons in Hms as [Hm Hms]. destruct (Hconf a) as [Hdist Hst].
    destruct (publish_good conf st C0 C1 a w w' ch msg user id Hdist Hst HG Ha Hm Hp) as [HG2 Hb2].
    destruct (IH Hms HG2) as (HG3 & Hok & Hb3). split_and!; [done..|]. intros b Hb.
    destruct (Hb2 b Hb) as [Hdue Hpend]. destruct (Hb3 b Hb) as (H1 & H2). split.
    + by rewrite H1, Hdue, bind_cons, app_assoc.
    + rewrite H2, Hpend, <- app_assoc. apply submseteq_app; [done|]. unfold elsewhere.
      destruct (decide (b = a)) as [->|Hne].
      * by rewrite filter_cons_False by (simpl; naive_solver).
      * by rewrite filter_cons_True by (simpl; naive_solver).
Qed.

(** ** Termination *)

(** Progress, after any number of changes of the connections. *)
Definition advances (C C' : cluster) : Prop :=
  ∃ C1 given dropped, rtc drift_step C C1 ∧ advance_step C1 given dropped C'.

Lemma drifts_good C C' :
  good st C0 C → rtc drift_step C C' → good st C0 C' ∧ work C0 C' = work C0 C.
Proof.
  intros HG Hr. induction Hr as [C|C C1 C' Hs _ IH]; [done|].
  destruct (drift_good C C1 HG Hs) as (HG1 & <- & _). by apply IH.
Qed.

Lemma advances_sn C : good st C0 C → sn advances C.
Proof.
  intros HG. remember (work C0 C) as n eqn:Hn. revert C HG Hn.
  induction (lt_wf n) as [n _ IH]. intros C HG ->. constructor. intros C' (C1 & g & l & Hr & Hs).
  destruct (drifts_good C C1 HG Hr) as [HG1 Hw].
  destruct (advance_good C1 g l C' HG1 Hs) as (HG' & _ & Hlt & _). rewrite Hw in Hlt.
  by apply (IH _ Hlt C' HG').
Qed.

Lemma frail_ends C :
  good st C0 C → ∃ C', rtc (cl_step conf) C C' ∧ settled C' ∧ drained C'.
Proof.
  intros HG. remember (work C0 C) as n eqn:Hn. revert C HG Hn.
  induction (lt_wf n) as [n _ IH]. intros C HG ->.
  destruct (cl_progress conf st C0 C HG) as [Hst|[C1 Hs]]; [by exists C|].
  destruct (cl_advance C C1 Hs) as [g Hl]. destruct (advance_good C g [] C1 HG Hl) as (HG1 & _ & Hlt & _).
  destruct (IH _ Hlt C1 HG1 eq_refl) as (C' & Hr & Hst). exists C'. split; [by eapply rtc_l|done].
Qed.
End books.

Lemma frail_run `{!RoomDbUp} C0 ms C C' :
  (∀ a, IsDistMode (conf a) = true ∧ EnableStorage (conf a) = true) →
  Forall (λ m, relayable C0 (m_room m) (m_text m)) ms → good false C0 C →
  cl_run conf frail_step ms C C' →
  good false C0 C'
  ∧ ∀ b, is_Some (c_servers C0 !! b) → ∃ gone, accounted C0 b ms gone C C'.
Proof.
  intros Hconf Hms HG (given & dropped & Hrun)%frail_run_lossy.
  destruct (lossy_run_good C0 false (λ cf, frail_go_effect cf C0) ms given dropped C C' Hconf Hms HG Hrun)
    as (HG' & _ & Hacc). eauto.
Qed.

(** ** When every call succeeds *)

(** A connection that was dialled is found connected, and takes what is written. *)
Definition calls_succeed : Prop :=
  ∀ n b c, up n b c →
    (net_IsConnected n (Some c)).2 = Some true ∧ ∀ op m, (net_WriteFormatBinMsg n (Some c) op m).2 = None.

Lemma sound_send_run cfg p b c op m r :
  calls_succeed → r_peers r !! p = Some (mkPeer b (Some c)) → up (r_net r) b c →
  ∃ n', WriteFormatMsg cfg p op m r = (Ret tt, with_net n' r)
    ∧ sent n' = sent (r_net r) ++ [mkPacket b op m] ∧ ∀ b' c', up (r_net r) b' c' → up n' b' c'.
Proof.
  intros Hcs Hp Hu. destruct (net_IsConnected (r_net r) (Some c)) as [n1 x] eqn:E1.
  destruct (frail_probe _ _ _ _ E1) as [Hs1 Hu1].
  pose proof (proj1 (Hcs _ _ _ Hu)) as Hx. rewrite E1 in Hx. simpl in Hx. subst x.
  destruct (net_WriteFormatBinMsg n1 (Some c) op m) as [n2 e] eqn:E2.
  pose proof (proj2 (Hcs _ _ _ (Hu1 _ _ Hu)) op m) as He. rewrite E2 in He. simpl in He. subst e.
  destruct (frail_write _ _ _ _ _ _ _ (Hu1 _ _ Hu) E2) as [Hs2 Hu2].
  assert (peer_IsConnected p r = (Ret true, with_net n1 r)) as Hrun1.
  { unfold peer_IsConnected, peer_client, on_net. mred. rewrite Hp. cbn. by rewrite E1. }
  assert (peer_Write p op m (with_net n1 r) = (Ret None, with_net n2 r)) as Hrun2.
  { unfold peer_Write, peer_client, on_net. mred. rewrite Hp. cbn. by rewrite E2. }
  unfold WriteFormatMsg. mstep Hrun1. mstep Hrun2.
  exists n2. split; [done|]. rewrite Hs2, Hs1. eauto.
Qed.

Lemma sound_go_effect cf C0 d a w l1 t l2 :
  calls_succeed → node true C0 a w → rooms_kept C0 d → w_tasks w = l1 ++ t :: l2 →
  let w' := (run_task (CF := cf) t (set_tasks (l1 ++ l2) (see d w))).2 in
  given_up w t w' = []
  ∧ ∃ snt, effect true C0 a w w' [] [] snt (given_up w t w') []
      ∧ burden C0 w' + load C0 1 snt < burden C0 w.
Proof.
  intros Hcs Hn Hd Htk w'. destruct (nd_proxy _ _ _ _ Hn) as (px & Hp & Hat & Ht & _).
  rewrite Htk in Ht. apply Forall_app in Ht as [_ [Htt _]%Forall_cons].
  destruct (event_of t) as [e|] eqn:Ee.
  - destruct (go_write_effect true cf C0 d a w l1 t l2 e Ee Hn Hd Htk) as [He Hb].
    rewrite (given_up_write w t w' e Ee). split; [done|]. exists []. split; [exact He|].
    change (load C0 1 []) with 0. unfold w'. lia.
  - destruct t as [| | |[p|] op m]; try done; [|by destruct Htt as (? & ? & ? & _)].
    destruct Htt as (b & p' & [= <-] & Hb). destruct (proj2 Hat b p Hb) as ([c|] & Hc & Hu); [|done].
    destruct (sound_send_run cf p b c op m (px_Router px) Hcs Hc Hu) as (n' & Hrun & Hsent & Hup).
    destruct (go_send_effect true cf C0 d a w l1 l2 p op m px b (Some c) (with_net n' (px_Router px))
                [mkPacket b op m] []) as [He Hburd]; try done.
    + by rewrite Hrun.
    + by apply (attached_keep true a _ (px_Router px)).
    + fold w' in He, Hburd. assert (given_up w (GoPeerWrite (Some p) op m) w' = []) as ->.
      { unfold given_up. rewrite Hp, (ef_sent _ _ _ _ _ _ _ _ _ _ He), length_app. simpl.
        by rewrite decide_False by lia. }
      split; [done|]. by exists [mkPacket b op m].
Qed.

(** Then no goroutine gives anything up. *)
Lemma sound_run `{!RoomDbUp} C0 ms given dropped C C' :
  calls_succeed → (∀ a, IsDistMode (conf a) = true ∧ EnableStorage (conf a) = true) →
  Forall (λ m, relayable C0 (m_room m) (m_text m)) ms → good true C0 C →
  lossy_run ms given dropped C C' → given = [].
Proof.
  intros Hcs Hconf Hms HG Hrun.
  assert (∀ cf d a w l1 t l2, node true C0 a w → rooms_kept C0 d → w_tasks w = l1 ++ t :: l2 →
    let w' := (run_task (CF := cf) t (set_tasks (l1 ++ l2) (see d w))).2 in
    ∃ snt, effect true C0 a w w' [] [] snt (given_up w t w') []
      ∧ burden C0 w' + load C0 1 snt < burden C0 w) as Hgo.
  { intros cf d a w l1 t l2 Hn Hd Htk. by apply (sound_go_effect cf C0 d a w l1 t l2). }
  induction Hrun as [C|ms g d given dropped C1 C2 C3 Hs _ IH
    |ms given dropped C1 C3 a ch msg user id w w' Ha Hp _ IH]; [done| |].
  - destruct (lossy_good C0 true Hgo C1 g d C2 HG Hs) as (HG2 & _). rewrite (IH Hms HG2), app_nil_r.
    destruct Hs as [g d C2 Hs|]; [|done]. destruct Hs as [|a w l1 t l2 Ha Htk w'| | |]; try done.
    by apply (sound_go_effect (conf a) C0 (c_db C1) a w l1 t l2 Hcs (gd_node _ _ _ HG _ _ Ha) (gd_rooms _ _ _ HG)).
  - apply Forall_cons in Hms as [Hm Hms]. destruct (Hconf a) as [Hdist Hst].
    destruct (publish_good conf true C0 C1 a w w' ch msg user id Hdist Hst HG Ha Hm Hp) as [HG2 _].
    by apply IH.
Qed.

Lemma cl_rtc_lossy C C' : rtc (cl_step conf) C C' → ∃ given, lossy_run [] given [] C C'.
Proof.
  intros Hr. induction Hr as [C|C C1 C' Hs _ [g2 IH]]; [eexists; constructor|].
  destruct (cl_advance C C1 Hs) as [g1 Hl]. exists (g1 ++ g2).
  apply (lrun_step [] g1 [] g2 [] C C1 C'); [by apply lossy_advance|done].
Qed.

Lemma run_rtc step ms C1 C2 C3 :
  cl_run conf step ms C1 C2 → rtc step C2 C3 → cl_run conf step ms C1 C3.
Proof.
  intros Hrun Hr. induction Hrun as [C|ms C1 C2 C4 Hs _ IH|].
  - induction Hr as [C|C1 C2 C4 Hs _ IH]; [constructor|by eapply run_step].
  - eapply run_step; eauto.
  - eapply run_publish; eauto.
Qed.

(** ** Properties *)

(** (C2) Delivery across servers is exact but for what is lost on the way.  Start
    from any number of servers in distributed mode that are at rest and know each
    other, and let clients publish messages on any of them, for rooms the
    database knows, at any time (a publisher waits while a queue is full).  The
    network may fail in any way: connections end, dials and writes fail, packets
    get lost; two lists record the relays that a goroutine gave up, every attempt
    of it having failed, and those that the network dropped.  Whatever the order
    in which queues, goroutines and packets make progress, once nothing is under
    way every server has written, for each message, exactly one copy to the
    connection of each member who is online there (the author's server leaves the
    author out), except for the copies that the recorded relays stood for, and
    nothing else.  Only relays to servers other than the author's are ever lost,
    and where every call on a connection succeeds none is given up. *)
Theorem cluster_delivers `{!RoomDbUp} (C C' : cluster) (ms : list pub) (given dropped : list packet)
    (a : string) (w w' : World)
    (Hconf : ∀ a, IsDistMode (conf a) = true ∧ EnableStorage (conf a) = true)
    (Hrest : at_rest false C) (Hms : Forall (λ m, relayable C (m_room m) (m_text m)) ms)
    (Hrun : lossy_run ms given dropped C C') (Hend : settled C')
    (Hw : c_servers C !! a = Some w) (Hw' : c_servers C' !! a = Some w') :
  let lost := at_node C a (given ++ dropped) in
  w_out w' ++ lost ≡ₚ w_out w ++ (ms ≫= pub_writes C a)
  ∧ lost ⊆+ (elsewhere a ms ≫= pub_writes C a)
  ∧ (at_rest true C → calls_succeed → given = []).
Proof.
  intros lost. destruct (lossy_run_good C false (λ cf, frail_go_effect cf C) ms given dropped C C' Hconf Hms
    (at_rest_good false C Hrest) Hrun) as (_ & _ & Hacc).
  destruct (Hacc a ltac:(by eexists)) as [H1 H2].
  rewrite (settled_due C C' a w' Hend Hw'), (settled_due C C a w (ar_settled _ _ Hrest) Hw) in H1.
  rewrite (settled_pending C' Hend), (settled_pending C (ar_settled _ _ Hrest)) in H2.
  split; [exact H1|]. split; [exact H2|]. intros Ht Hcs.
  by apply (sound_run C ms given dropped C C' Hcs Hconf Hms (at_rest_good true C Ht)).
Qed.

(** (C3) A cluster comes to rest.  At every moment of such a run, whatever the
    network did and however many messages are under way, the work that is left
    ends: no schedule makes progress for ever, however often the connections
    change in between; no schedule gets stuck with something still to do; and a
    state can be reached in which nothing is under way and the storage queues
    are empty, so that no publisher has to wait. *)
Theorem cluster_settles `{!RoomDbUp} (C C' : cluster) (ms : list pub)
    (Hconf : ∀ a, IsDistMode (conf a) = true ∧ EnableStorage (conf a) = true)
    (Hrest : at_rest false C) (Hms : Forall (λ m, relayable C (m_room m) (m_text m)) ms)
    (Hrun : cl_run conf frail_step ms C C') :
  sn advances C' ∧ ((settled C' ∧ drained C') ∨ ∃ C'', cl_step conf C' C'')
  ∧ ∃ C'', rtc (cl_step conf) C' C'' ∧ settled C'' ∧ drained C''.
Proof.
  destruct (frail_run C ms C C' Hconf Hms (at_rest_good false C Hrest) Hrun) as [HG _].
  pose proof (λ cf, frail_go_effect cf C) as Hgo.
  split; [by apply (advances_sn C false Hgo)|].
  split; [by apply (cl_progress conf false C)|by apply (frail_ends C false Hgo)].
Qed.

(** (C4) With faults, delivery is at most once, and complete at home.  Let
    connections end, dials and writes fail and packets get lost, anywhere and at
    any time, while clients publish on any of the servers.  At every moment no
    server has written more than one copy of a message to the connection of a
    member who is online there, nor anything to anyone else.  The cluster can
    still come to rest; once it has, every member at the server of the author has
    the message, and of the messages from other servers some may be missing. *)
Theorem cluster_at_most_once `{!RoomDbUp} (C C' : cluster) (ms : list pub) (a : string) (w w' : World)
    (Hconf : ∀ a, IsDistMode (conf a) = true ∧ EnableStorage (conf a) = true)
    (Hrest : at_rest false C) (Hms : Forall (λ m, relayable C (m_room m) (m_text m)) ms)
    (Hrun : cl_run conf frail_step ms C C')
    (Hw : c_servers C !! a = Some w) (Hw' : c_servers C' !! a = Some w') :
  w_out w' ⊆+ w_out w ++ (ms ≫= pub_writes C a)
  ∧ (∃ C'', rtc (cl_step conf) C' C'' ∧ settled C'')
  ∧ (settled C' → ∃ relayed, relayed ⊆+ (elsewhere a ms ≫= pub_writes C a)
      ∧ w_out w' ≡ₚ w_out w ++ (filter (λ m, m_on m = a) ms ≫= pub_writes C a) ++ relayed).
Proof.
  destruct (frail_run C ms C C' Hconf Hms (at_rest_good false C Hrest) Hrun) as [HG Hacc].
  destruct (Hacc a ltac:(by eexists)) as (gone & H1 & H2).
  pose proof (ar_settled _ _ Hrest) as Hst.
  rewrite (settled_due C C a w Hst Hw) in H1. rewrite (settled_pending C Hst) in H2. simpl in H2.
  split; [|split; [|]].
  2: { destruct (frail_ends C false (λ cf, frail_go_effect cf C) C' HG) as (C'' & Hr & Hs & _). eauto. }
  - rewrite <- H1. unfold due. rewrite Hw'. rewrite <- !app_assoc. by apply submseteq_inserts_r.
  - intros Hst'. rewrite (settled_due C C' a w' Hst' Hw') in H1.
    rewrite (settled_pending C' Hst') in H2. simpl in H2.
    apply submseteq_Permutation in H2 as [relayed Hrel]. exists relayed.
    split; [rewrite Hrel; by apply submseteq_inserts_l|].
    apply (Permutation_app_inv_r gone). rewrite H1, <- !app_assoc. apply Permutation_app_head.
    rewrite (Permutation_app_comm relayed gone), <- Hrel, <- bind_app. apply bind_Permutation.
    symmetry. apply filter_app_complement.
Qed.
End frail.

Import Ref RoomRef.

(** On the wires of [Cluster], where nothing fails, [hi] reaches everybody. *)
Section wired.
#[local] Existing Instances wire_net wire_wires room_externals.

Lemma two_frail : at_rest false two.
Proof.
  destruct two_at_rest as [Hst Hs]. split; [exact Hst|]. intros a w Ha.
  destruct (Hs a w Ha) as (H1 & H2 & H3 & px & Hp & Hat1 & Hat2).
  split; [exact H1|]. split; [exact H2|]. split; [exact H3|]. exists px. split; [exact Hp|].
  split; [exact Hat1|]. intros b p Hb. destruct (Hat2 b p Hb) as ([c|] & Hc & Hu); [by exists (Some c)|done].
Qed.

Lemma wires_succeed : calls_succeed.
Proof. intros n b c ->. done. Qed.

Lemma hi_two :
  ∃ w', Publish (CF := same_conf "10.0.0.7:2223") "room" "hi" "u1" 7 false (see (c_db two) here) = (Ret "", w').
Proof.
  destruct (Publish (CF := same_conf "10.0.0.7:2223") "room" "hi" "u1" 7 false (see (c_db two) here))
    as [o w'] eqn:E.
  assert (o = Ret "") as -> by (change o with ((o, w').1); rewrite <- E; vm_compute; reflexivity).
  by eexists.
Qed.

Lemma cluster_delivers_witness :
  ∃ C' w', lossy_run same_conf [hi] [] [] two C' ∧ settled C'
    ∧ c_servers C' !! "10.0.0.8:2223" = Some w'
    ∧ w_out w' ≡ₚ [EWrite 2 "RCIV" (bytes_of_string (m_text hi));
                   EWrite 4 "RCIV" (bytes_of_string (m_text hi))].
Proof.
  assert (Forall (λ m, relayable two (m_room m) (m_text m)) [hi]) as Hms
    by (repeat constructor; apply hi_relayable).
  destruct hi_two as [w1 Hpub]. set (C1 := commit two "10.0.0.7:2223" here w1 (c_wire two)).
  assert (∀ given C', lossy_run same_conf [] given [] C1 C' →
            lossy_run same_conf [hi] given [] two C') as Hfirst.
  { intros given C'. exact (lrun_publish same_conf [] given [] two C' "10.0.0.7:2223" "room" "hi" "u1" 7
                              here w1 eq_refl Hpub). }
  pose proof (λ cf, frail_go_effect same_conf cf two) as Hgo.
  pose proof (at_rest_good false two two_frail) as HG0.
  destruct (lossy_run_good same_conf two false Hgo [hi] [] [] two C1 conf_ok Hms HG0
              (Hfirst [] C1 (lrun_nil same_conf C1))) as [HG1 _].
  destruct (frail_ends same_conf two false Hgo C1 HG1) as (C' & Hr & Hend & _).
  destruct (cl_rtc_lossy same_conf C1 C' Hr) as [given Hrun%Hfirst].
  destruct (lossy_run_good same_conf two false Hgo [hi] given [] two C' conf_ok Hms HG0 Hrun) as [HG _].
  assert (is_Some (c_servers C' !! "10.0.0.8:2223")) as [w' Hw'].
  { rewrite <- elem_of_dom, (gd_nodes _ _ _ HG). by apply elem_of_dom. }
  destruct (cluster_delivers same_conf two C' [hi] given [] "10.0.0.8:2223" there w' conf_ok two_frail Hms
              Hrun Hend eq_refl Hw') as (Hout & _ & Hnone).
  rewrite (Hnone two_at_rest wires_succeed) in Hrun, Hout. simpl in Hout. rewrite app_nil_r in Hout.
  exists C', w'. split; [exact Hrun|]. split; [exact Hend|]. split; [exact Hw'|]. exact Hout.
Defined.
End wired.


(** ** A network that fails by a script

    Each call takes the next outcome; past the script every call succeeds.  A
    connection is the address it was dialled to. *)
Definition shaky_net : Net := {|
  net := list bool * list packet;
  conn := string;
  net_ResolveTCPAddr _ := true;
  net_Dial n _ b :=
    match n.1 with
    | false :: s => ((s, n.2), inl (NewError "connection refused"))
    | _ => ((tail n.1, n.2), inr b)
    end;
  net_IsConnected n c :=
    ((tail n.1, n.2), match c with Some _ => Some (default true (head n.1)) | None => None end);
  net_WriteFormatBinMsg n c op m :=
    match c, n.1 with
    | None, _ => (n, Some (NewError "nil client"))
    | Some _, false :: s => ((s, n.2), Some (NewError "broken pipe"))
    | Some b, _ => ((tail n.1, n.2 ++ [mkPacket b op m]), None)
    end
|}.
#[local] Existing Instances shaky_net room_externals.

#[local] Instance shaky_wires : Wires := {| sent n := n.2; up _ b c := c = b |}.

#[local] Instance shaky_laws : FrailLaws.
Proof.
  split; simpl.
  - intros [s l] o n' r [= <- _]. done.
  - intros [[|[] s] l] b c op m n' e ->; intros [= <- <-]; simpl; by rewrite ?app_nil_r.
  - intros [s l] op m n' e [= <- _]. done.
  - intros [[|[] s] l] laddr b n' r [= <- <-]; done.
Qed.

(** Two servers.  The first finds its connection to the second broken, and its
    first attempt to dial fails. *)
Definition shaky_on (script : list bool) (peer : string) (cs : gmap ptr Client) (us : gmap string ptr)
    : World :=
  mkWorld (mkBase (MG := room_mongo) (∅ : gmap string (list string)) 0) cs us
    (newChannelToUserIds 10) (NewLruCache 10)
    (Some (mkProxy (mkRouter {[ peer := 0%nat ]} (NewLruCache 10) ∅
             {[ 0%nat := mkPeer peer (Some peer) ]} ((script, []) : @net shaky_net) []) (mkchan 100 [])))
    set_NewSet (mkchan 100 []) None [] [].
Definition broken_here : World :=
  shaky_on [true; false; false] "10.0.0.8:2223"
    {[ 1%nat := example_client "u1"; 3%nat := example_client "u3" ]} {[ "u1" := 1%nat; "u3" := 3%nat ]}.
Definition sound_there : World :=
  shaky_on [] "10.0.0.7:2223" {[ 2%nat := example_client "u2" ]} {[ "u2" := 2%nat ]}.
Definition shaky : cluster :=
  mkCluster ({[ "room" := ["u1"; "u2"; "u3"] ]} : gmap string (list string))
    {[ "10.0.0.7:2223" := broken_here; "10.0.0.8:2223" := sound_there ]} [].

Lemma shaky_on_rest script a peer cs us :
  a ≠ peer → (∀ u p, us !! u = Some p → is_Some (cs !! p)) → us !! "" = None →
  let w := shaky_on script peer cs us in
  registry_valid w ∧ cmap_Get (w_uuids w) "" = None ∧ coherent (see (c_db shaky) w)
  ∧ ∃ px, w_proxy w = Some px ∧ attached false a {[a; peer]} (px_Router px).
Proof.
  intros Hne Hus Hn w. split; [exact Hus|]. split; [exact Hn|]. split.
  { split; [apply cache_wf_new|]. intros ch s. simpl. by rewrite members_new. }
  eexists. split; [reflexivity|]. split; simpl.
  - intros b. rewrite <- elem_of_dom, dom_singleton_L. set_solver.
  - intros b p [<- <-]%lookup_singleton_Some. exists (Some peer). by rewrite lookup_singleton_eq.
Qed.

Lemma shaky_at_rest : at_rest false shaky.
Proof.
  split.
  - split; [done|]. intros a w H.
    by destruct (two_cases _ _ _ _ _ _ _ eq_refl H) as [[_ ->]|[_ ->]]; (split; [|intros px [= <-]]).
  - assert (dom (c_servers shaky) = {["10.0.0.7:2223"; "10.0.0.8:2223"]}) as ->.
    { simpl. rewrite dom_insert_L, dom_singleton_L. done. }
    intros a w H. destruct (two_cases _ _ _ _ _ _ _ eq_refl H) as [[-> ->]|[-> ->]].
    + apply shaky_on_rest; [done| |reflexivity]. intros u p Hu.
      destruct (two_cases {[_ := _; _ := _]} _ _ _ _ _ _ eq_refl Hu) as [[_ ->]|[_ ->]];
        vm_compute; by eexists.
    + rewrite (union_comm_L {["10.0.0.7:2223"]}). apply shaky_on_rest; [done| |reflexivity].
      intros u p [_ <-]%lookup_singleton_Some. vm_compute. by eexists.
Qed.

Lemma hi_relayable_shaky : relayable shaky (m_room hi) (m_text hi).
Proof.
  split; [reflexivity|]. split; [discriminate|]. split; [vm_compute; reflexivity|].
  exists ["u1"; "u2"; "u3"]. split; [reflexivity|].
  by apply (bool_decide_unpack (NoDup ["u1"; "u2"; "u3"])).
Qed.

Lemma hi_published : ∃ C', cl_run same_conf (frail_step same_conf) [hi] shaky C'.
Proof.
  destruct (Publish (CF := same_conf "10.0.0.7:2223") "room" "hi" "u1" 7 false (see (c_db shaky) broken_here))
    as [o w'] eqn:E.
  assert (o = Ret "") as -> by (change o with ((o, w').1); rewrite <- E; vm_compute; reflexivity).
  eexists. apply (run_publish same_conf _ [] shaky _ "10.0.0.7:2223" "room" "hi" "u1" 7 broken_here w');
    [reflexivity|exact E|constructor].
Qed.

Lemma shaky_ends :
  ∃ C', cl_run same_conf (frail_step same_conf) [hi] shaky C' ∧ settled C' ∧ good false shaky C'.
Proof.
  assert (Forall (λ m, relayable shaky (m_room m) (m_text m)) [hi]) as Hms
    by (repeat constructor; apply hi_relayable_shaky).
  destruct hi_published as [C1 Hrun1]. pose proof (at_rest_good false shaky shaky_at_rest) as HG0.
  destruct (frail_run same_conf shaky [hi] shaky C1 conf_ok Hms HG0 Hrun1) as [HG1 _].
  destruct (frail_ends same_conf shaky false (λ cf, frail_go_effect same_conf cf shaky) C1 HG1)
    as (C' & Hr & Hend & _).
  assert (cl_run same_conf (frail_step same_conf) [hi] shaky C') as Hrun.
  { apply (run_rtc same_conf _ [hi] shaky C1); [done|]. clear -Hr.
    induction Hr as [C|C1 C2 C3 Hs _ IH]; [done|]. eapply rtc_l; [by apply frail_go|done]. }
  exists C'. split; [exact Hrun|]. split; [exact Hend|].
  by destruct (frail_run same_conf shaky [hi] shaky C' conf_ok Hms HG0 Hrun) as [HG _].
Qed.

Lemma cluster_settles_witness :
  ∃ C', cl_run same_conf (frail_step same_conf) [hi] shaky C' ∧ sn (advances same_conf) C'
    ∧ ((settled C' ∧ drained C') ∨ ∃ C'', cl_step same_conf C' C'').
Proof.
  destruct hi_published as [C' Hrun]. exists C'. split; [exact Hrun|].
  destruct (cluster_settles same_conf shaky C' [hi] conf_ok shaky_at_rest
              ltac:(repeat constructor; apply hi_relayable_shaky) Hrun) as (Hsn & Hgo & _).
  split; [exact Hsn|exact Hgo].
Defined.

Lemma cluster_at_most_once_witness :
  ∃ C' w1 w2, cl_run same_conf (frail_step same_conf) [hi] shaky C' ∧ settled C'
    ∧ c_servers C' !! "10.0.0.7:2223" = Some w1 ∧ c_servers C' !! "10.0.0.8:2223" = Some w2
    ∧ w_out w1 ≡ₚ [EWrite 3 "RCIV" (bytes_of_string (m_text hi))]
    ∧ w_out w2 ⊆+ [EWrite 2 "RCIV" (bytes_of_string (m_text hi))].
Proof.
  assert (Forall (λ m, relayable shaky (m_room m) (m_text m)) [hi]) as Hms
    by (repeat constructor; apply hi_relayable_shaky).
  destruct shaky_ends as (C' & Hrun & Hend & HG).
  assert (∀ a, a ∈ dom (c_servers shaky) → is_Some (c_servers C' !! a)) as Hdom.
  { intros a. rewrite <- (gd_nodes _ _ _ HG). by rewrite elem_of_dom. }
  destruct (Hdom "10.0.0.7:2223") as [w1 H1]; [by apply elem_of_dom|].
  destruct (Hdom "10.0.0.8:2223") as [w2 H2]; [by apply elem_of_dom|].
  exists C', w1, w2. split; [exact Hrun|]. split; [exact Hend|]. split; [exact H1|]. split; [exact H2|].
  split.
  - destruct (cluster_at_most_once same_conf shaky C' [hi] "10.0.0.7:2223" broken_here w1 conf_ok
                shaky_at_rest Hms Hrun eq_refl H1) as (_ & _ & Hset).
    destruct (Hset Hend) as (rel & Hrel & ->). apply submseteq_nil_r in Hrel as ->. reflexivity.
  - exact (proj1 (cluster_at_most_once same_conf shaky C' [hi] "10.0.0.8:2223" sound_there w2 conf_ok
                    shaky_at_rest Hms Hrun eq_refl H2)).
Defined.
