(* ===== verification/Daemon.v ===== *)
(** * The daemon (daemon/pushd/main.go, daemon/pushd/option.go, engine/etcClient.go)

    [init] turns the command line into options and a configuration.  [main] starts its services one after the other and the goroutines of those
    already started run in between: start-up is a program counter over the
    statements of [main], interleaved with the steps of the server.  [shutdown]
    stops the services, when [main] ends and when the process gets a signal. *)
From S2P Require Import Prelude GoStrings Flags Wire Deps RefDeps Config Base SenderPool UserIdCache Storage.
From S2P Require Import Router World PubSub Client Rooms Auth Mail Commands S2s LongPoll Server.

Local Open Scope string_scope.
Local Open Scope list_scope.

(** ** github.com/nicholaskh/etclib *)
Class Etc : Type := {
  etc_Dial : list string → option error;
  BootService : string → string → option error;
  ShutdownService : string → string → option error;
  SERVICE_PUSHD : string
}.

(** ** github.com/nicholaskh/golib *)
(** [server.LoadConfig] reads a file or panics; [ShowVersionAndExit] exits with a
    status of its own; [StopTcpServer] on a nil server may panic. *)
Class Golib {JC : JsConf} : Type := {
  server_LoadConfig : string → string + conf;
  version_status : Z;
  nil_StopTcpServer : option string
}.

(** ** option.go *)
Record options : Type := mkOptions {
  configFile : string;
  logFile : string;
  logLevel : string;
  crashLogFile : string;
  showVersion : bool;
  tick : Z;
  aclCheck : bool
}.

Definition pushd_flags : FlagSet :=
  list_to_map [("conf", FStr "etc/pushd.cf"); ("v", FBool false); ("acl", FBool true);
               ("log", FStr "stdout"); ("level", FStr "info"); ("crashlog", FStr "panic.dump");
               ("tick", FInt (60 * 10))].

Definition options_of (fs : FlagSet) : options :=
  mkOptions (str_flag fs "conf") (str_flag fs "log") (str_flag fs "level") (str_flag fs "crashlog")
    (bool_flag fs "v") (int_flag fs "tick") (bool_flag fs "acl").

Definition parseFlags {DT : DurationText} (args : list string) : startup options :=
  flag_Parse pushd_flags args (λ fs,
    let o := options_of fs in
    if (tick o <=? 0)%Z then Crashed "tick must be possitive" else Started o).

(** ** The flags *)

(** What the command line [l] says of each option. *)
Definition asked (l : list setting) (o : options) : Prop :=
  configFile o = text_of l "conf" "etc/pushd.cf" ∧ logFile o = text_of l "log" "stdout"
  ∧ logLevel o = text_of l "level" "info" ∧ crashLogFile o = text_of l "crashlog" "panic.dump"
  ∧ ParseBool (text_of l "v" "false") = Some (showVersion o)
  ∧ ParseBool (text_of l "acl" "true") = Some (aclCheck o)
  ∧ ParseInt0 (text_of l "tick" "600") = Some (tick o).

Lemma options_asked {DT : DurationText} l (fs : FlagSet) :
  Forall (admissible pushd_flags) l → (∀ name, fs !! name = value_after pushd_flags l name) →
  asked l (options_of fs).
Proof.
  intros Hl Hfs. unfold asked, options_of. simpl.
  split_and!; [by eapply str_after..|by eapply bool_after|by eapply bool_after|by eapply int_after].
Qed.

Lemma asked_unique l o o' : asked l o → asked l o' → o = o'.
Proof.
  destruct o, o'. unfold asked. simpl. intros (?&?&?&?&?&?&?) (?&?&?&?&?&?&?). congruence.
Qed.

(** (C35) The daemon starts with what its command line asks for.  [parseFlags]
    succeeds exactly when the command line is a list of settings of the seven
    flags in one of their spellings, each with a text of the flag's kind, up to
    "--" or the first argument that is no flag, and the tick is positive; each
    option is then what the last setting of its flag says, or the default. *)
Theorem parseFlags_spec {DT : DurationText} (args : list string) (o : options) :
  parseFlags args = Started o ↔
  ∃ l, settings pushd_flags args l ∧ asked l o ∧ (0 < tick o)%Z.
Proof.
  unfold parseFlags. rewrite flag_Parse_spec. split.
  - intros (l & fs & Hs & Hv & Hk). exists l. split; [done|].
    destruct (Z.leb_spec (tick (options_of fs)) 0); [done|]. injection Hk as <-.
    split; [|done]. apply options_asked; [|done]. apply (settings_flags _ _ _ Hs).
  - intros (l & Hs & Ho & Ht). destruct (settings_flags _ _ _ Hs) as [Hl [fs Hv]].
    exists l, fs. split; [done|]. split; [done|].
    rewrite (asked_unique l (options_of fs) o); [|by apply options_asked|done].
    by destruct (Z.leb_spec (tick o) 0); [lia|].
Qed.

(** ** init *)

(** The options and the configuration; [LoadConfig] does not block
    ([Config.LoadConfig_spec]). *)
Definition init {DT : DurationText} {JC : JsConf} {GO : Golib} (args : list string)
    : startup (options * ConfigPushd) :=
  match parseFlags args with
  | Started o =>
      if showVersion o then Exited version_status else
      match server_LoadConfig (configFile o) with
      | inl e => Crashed e
      | inr cf =>
          match (LoadConfig cf tt).1 with
          | Ret cfg => Started (o, cfg)
          | Panic e => Crashed e
          | Block => Crashed ""
          end
      end
  | Exited code => Exited code
  | Crashed e => Crashed e
  end.

(** The processor of client connections that [main] makes. *)
Definition client_processor (o : options) (srv : TcpServer) : PushdClientProcessor :=
  let p := NewPushdClientProcessor srv in
  if negb (aclCheck o) then DisableAclCheck p else p.

(** ** main *)

(** The goroutines that [main] starts. *)
Inductive service : Type :=
| SysStats | ClientServer | StatsServer | LongPollServer | S2sServer | ProxyWaitMsg | StorageServ.

#[export] Instance service_eq_dec : EqDecision service.
Proof. solve_decision. Defined.

Section daemon.
  Context {EX : Externals} {NT : Net} {CF : Global} {EC : Etc} {JC : JsConf} {GO : Golib}.

Definition RegisterEtc : option error :=
  match etc_Dial (default [] (EtcServers PushdConf)) with
  | Some err => Some err
  | None => BootService (S2sListenAddr PushdConf) SERVICE_PUSHD
  end.

Definition UnregisterEtc : option error :=
  ShutdownService (S2sListenAddr PushdConf) SERVICE_PUSHD.

(** [pushdServer] and [s2sServer] are nil until [NewTcpServer]; the flag says
    whether they are set. *)
Record daemon : Type := mkDaemon {
  d_world : World;
  d_running : list service;
  d_pushd : bool;
  d_s2s : bool
}.

Definition in_world {A} (m : M World A) : M daemon A := λ d,
  let '(o, w) := m (d_world d) in (o, mkDaemon w (d_running d) (d_pushd d) (d_s2s d)).
Definition go (s : service) : M daemon unit :=
  modify (λ d, mkDaemon (d_world d) (d_running d ++ [s]) (d_pushd d) (d_s2s d)).
Definition new_pushd : M daemon unit :=
  modify (λ d, mkDaemon (d_world d) (d_running d) true (d_s2s d)).
Definition new_s2s : M daemon unit :=
  modify (λ d, mkDaemon (d_world d) (d_running d) (d_pushd d) true).
Definition when (b : bool) (m : M daemon unit) : M daemon unit := if b then m else mret tt.

(** The statements of [main], in order; [n] is the network.  The statistics and
    the processor of client connections are values made on the way: the latter is
    the argument [pr] of [daemon_step], with its access check on or off as the
    command line says. *)
Definition main (n : net) : list (M daemon unit) :=
  let dist := when (IsDistMode PushdConf) in
  [in_world InitAclEnv;
   r ← in_world InitOffPushService;
   match r with inl err => panic (Error err) | inr _ => mret tt end;
   new_pushd;
   go SysStats;
   go ClientServer;
   go StatsServer;
   when (negb (String.eqb (LongPollingListenAddr PushdConf) "")) (go LongPollServer);
   dist new_s2s;
   dist (go S2sServer);
   dist (match RegisterEtc with Some err => panic (Error err) | None => mret tt end);
   dist (in_world (modify (set_proxy (Some (NewS2sProxy n)))));
   dist (go ProxyWaitMsg);
   when (EnableStorage PushdConf) (in_world storage_Init);
   when (EnableStorage PushdConf) (go StorageServ)].

(** [main] executes its next statement, or a goroutine of a service that has
    been started takes a step. *)
Inductive daemon_step (n : net) (pr : PushdClientProcessor) : nat * daemon → nat * daemon → Prop :=
| d_main k m d d' :
    main n !! k = Some m → m d = (Ret tt, d') → daemon_step n pr (k, d) (S k, d')
| d_serve k d w' :
    ClientServer ∈ d_running d → sys_step pr (d_world d) w' →
    daemon_step n pr (k, d) (k, mkDaemon w' (d_running d) (d_pushd d) (d_s2s d)).

(** What [init] leaves behind. *)
Definition initialised (b : Base) : daemon :=
  mkDaemon (set_uuids NewUuidClientMap
              (set_pubsub (NewPubsubChannels (PubsubChannelMaxItems PushdConf)) (blank_world b)))
    [] false false.

(** ** shutdown *)
Inductive stop_call : Type := Unregister (err : option error) | StopS2s | StopPushd | Exit (code : Z).

Definition stop (set : bool) (c : stop_call) : M (list stop_call) unit :=
  if set then modify (λ l, l ++ [c])
  else match nil_StopTcpServer with Some e => panic e | None => mret tt end.

Definition shutdown_body (d : daemon) : M (list stop_call) unit :=
  _ ← (if IsDistMode PushdConf then modify (λ l, l ++ [Unregister UnregisterEtc]) else mret tt);
  _ ← (if IsDistMode PushdConf then stop (d_s2s d) StopS2s else mret tt);
  _ ← stop (d_pushd d) StopPushd;
  modify (λ l, l ++ [Exit 0]).

(** The deferred [recover] turns a panic into a return. *)
Definition shutdown (d : daemon) : M (list stop_call) unit := λ l,
  match shutdown_body d l with
  | (Panic _, l') => (Ret tt, l')
  | r => r
  end.

(** ** The process *)

(** The process with [main] before its statement [k], behind the last one while
    it waits for ever, and the calls made by shutdowns so far; or gone, with its
    exit status. *)
Inductive process : Type :=
| Up (k : nat) (d : daemon) (calls : list stop_call)
| Gone (calls : list stop_call) (code : Z).

Definition exit_code (c : stop_call) : option Z := match c with Exit z => Some z | _ => None end.

(** [shutdown], and what follows it where [os.Exit] has not been reached. *)
Definition after_shutdown (d : daemon) (calls : list stop_call) (next : list stop_call → process)
    : process :=
  let calls' := (shutdown d calls).2 in
  match last calls' ≫= exit_code with
  | Some z => Gone calls' z
  | None => next calls'
  end.

(** The status the Go runtime gives a process that ends in a panic. *)
Definition PANIC_STATUS : Z := 2.

(** A statement of [main] that panics is recovered and followed by [shutdown];
    then [main] returns, which ends the process with status 0.  The handler of
    the signal runs [shutdown] in a goroutine of its own.  Nothing recovers a
    panic in the goroutine of a service, or in one it starts (the [recover]
    calls of the repository are those of [main], of [shutdown] and of one
    command): the process may end there, as Go ends a process, with status 2 and
    without a [shutdown].  Whether it does is left open, a panic below the
    accept loop of golib being golib's business. *)
Inductive process_step (n : net) (pr : PushdClientProcessor) : process → process → Prop :=
| p_run k d k' d' calls :
    daemon_step n pr (k, d) (k', d') → process_step n pr (Up k d calls) (Up k' d' calls)
| p_panic k d m e d' calls :
    main n !! k = Some m → m d = (Panic e, d') →
    process_step n pr (Up k d calls) (after_shutdown d' calls (λ cs, Gone cs 0))
| p_signal k d calls :
    process_step n pr (Up k d calls) (after_shutdown d calls (Up k d))
| p_crash k d calls s :
    s ∈ d_running d → process_step n pr (Up k d calls) (Gone calls PANIC_STATUS).

(** ** Lemmas *)
Abbreviation acl := (same (w_skipAcl (EX := EX) (NT := NT))).
#[local] Existing Instance inert_acl.
Hint Resolve upd_acl spawn_acl emit_acl Remove_acl AddClient_acl : within.

Lemma go_step_acl w w' : go_step w w' → acl w w'.
Proof.
  intros Hgo. destruct Hgo as [w l1 t l2 Ht].
  assert (within acl (run_task t)) as H; [|apply (H (set_tasks (l1 ++ l2) w))].
  destruct t as [cli op msg|cli op msg|cli uid|[q|] op msg]; cbn [run_task]; eauto with within.
  - unfold initChatEnv, loadUserInfo, updateUserIdToClientMappingTable. frame.
Qed.

Lemma sys_step_acl pr w w' : sys_step pr w w' → acl w w'.
Proof.
  intros Hstep. destruct Hstep as [w|q input w _|q w _|w w' Hgo|conn input w|w|w|sv w|vars w|vars w].
  - done.
  - assert (within acl (OnRead pr q input)) as H; [|apply H].
    apply within_OnRead; intros; first [apply _|apply Process_acl|eauto with within].
  - assert (within acl (Close q)) as H; [|apply H]. unfold Close, UnsubscribeAllChannels. frame.
  - by apply go_step_acl.
  - apply (within_s2s_OnRead acl).
  - assert (within acl WaitMsg_round) as H by (unfold WaitMsg_round, onForward; frame). apply H.
  - assert (within acl (onQueue (chan_recv (A := MsgTuple)))) as H by frame. apply H.
  - assert (within acl (onRouter (watchPeers_event PushdConf sv))) as H by (unfold onRouter; frame).
    apply H.
  - apply within_ServePublish; [apply _|apply emit_acl].
  - apply within_ServeHistory, emit_acl.
Qed.

Context {GL : GoSetLaws}.

(** The access list is complete. *)
Definition gated (d : daemon) : Prop :=
  ∀ x, x ∈ set_elems (w_skipAcl (d_world d)) ↔ x ∈ skip_commands.

(** What holds after [k] statements: none but the first changes the access list,
    and no client is served before the fifth. *)
Definition boot_inv (k : nat) (d : daemon) : Prop :=
  (0 < k → gated d) ∧ (ClientServer ∈ d_running d → 4 < k).

(** A statement that leaves the access list alone and starts no client server. *)
Definition mild (m : M daemon unit) : Prop :=
  ∀ d d', m d = (Ret tt, d') →
    w_skipAcl (d_world d') = w_skipAcl (d_world d)
    ∧ (ClientServer ∈ d_running d' → ClientServer ∈ d_running d).

Lemma mild_modify f :
  (∀ d, w_skipAcl (d_world (f d)) = w_skipAcl (d_world d)) →
  (∀ d, ClientServer ∈ d_running (f d) → ClientServer ∈ d_running d) → mild (modify f).
Proof. intros H1 H2 d d' [= <-]. auto. Qed.

Lemma mild_when b m : mild m → mild (when b m).
Proof. intros Hm. destruct b; [exact Hm|]. by intros d d' [= <-]. Qed.

Lemma mild_go x : x ≠ ClientServer → mild (go x).
Proof. intros Hx. apply mild_modify; [done|]. intros d. simpl. set_solver. Qed.

Lemma mild_world m : within acl m → mild (in_world m).
Proof.
  intros Hm d d' Hrun. unfold in_world in Hrun. pose proof (Hm (d_world d)) as H.
  destruct (m (d_world d)) as [o w]. injection Hrun as -> <-. split; [exact H|done].
Qed.

Lemma InitOff_state w :
  (InitOffPushService w).2 = set_cache (newChannelToUserIds (ChannelInfoCacheNum PushdConf)) w.
Proof.
  unfold InitOffPushService, initOffSenderPool. mred. destruct (default [] _); [done|].
  destruct (_ <? 0)%Z; [done|]. by destruct (fill_pool _ _ _ _).
Qed.

Lemma mild_offpush :
  mild (r ← in_world InitOffPushService;
        match r with inl err => panic (Error err) | inr _ => mret tt end).
Proof.
  intros d d' Hrun. unfold in_world, mbind, M_bind in Hrun.
  pose proof (InitOff_state (d_world d)) as H. destruct (InitOffPushService (d_world d)) as [[[e|pool]|e|] w];
    simpl in Hrun; try done. injection Hrun as <-. simpl in H. by subst w.
Qed.

Ltac solve_mild :=
  repeat first [apply mild_when | by apply mild_go | apply mild_modify; [done|set_solver]
               | apply mild_offpush | by apply mild_world
               | (destruct RegisterEtc; by intros d d' [= <-])].

Lemma main_mild n k m : main n !! S k = Some m → S k ≠ 4 → mild m.
Proof.
  intros Hm Hk. unfold main in Hm. pose proof (lookup_lt_Some _ _ _ Hm) as Hlt. simpl in Hlt.
  do 13 (destruct k as [|k];
    [injection Hm as <-; first [by destruct Hk | solve [solve_mild]]|]). lia.
Qed.

Lemma boot_inv_step n pr x y :
  boot_inv x.1 x.2 → daemon_step n pr x y → boot_inv y.1 y.2.
Proof.
  intros [Hg Hc] Hs. destruct Hs as [k m d d' Hm Hrun|k d w' Hin Hsys]; simpl in *.
  - destruct k as [|k].
    + injection Hm as <-. unfold in_world in Hrun.
      destruct (InitAclEnv_run (d_world d)) as (s & Hi & Hs). rewrite Hi in Hrun.
      injection Hrun as <-. split; [intros _; exact Hs|]. simpl. intros H%Hc. lia.
    + destruct (decide (S k = 4)) as [E|E].
      * injection E as ->. injection Hm as <-. injection Hrun as <-.
        split; [intros _; apply Hg; lia|intros _; lia].
      * destruct (main_mild n k m Hm E d d' Hrun) as [Ha Hr]. split.
        -- intros _ x. unfold gated in Hg. rewrite Ha. apply Hg. lia.
        -- intros H%Hr%Hc. lia.
  - apply Hc in Hin as Hk. split; [|done]. intros _ x. simpl.
    rewrite (sys_step_acl pr _ _ Hsys). apply Hg. lia.
Qed.

(** The first five statements, when nothing else runs. *)
Lemma boot_to_clients n pr b pool :
  (∀ w, (InitOffPushService w).1 = Ret (inr pool)) →
  ∃ d sk, rtc (daemon_step n pr) (0, initialised b) (5, d) ∧ ClientServer ∈ d_running d
    ∧ d_world d = set_cache (newChannelToUserIds (ChannelInfoCacheNum PushdConf))
                    (set_skipAcl sk (d_world (initialised b))).
Proof.
  intros Hpool. set (w1 := d_world (initialised b)).
  destruct (InitAclEnv_run w1) as (sk & Hi & _).
  set (w2 := (InitOffPushService (set_skipAcl sk w1)).2).
  assert (InitOffPushService (set_skipAcl sk w1) = (Ret (inr pool), w2)) as Ho.
  { rewrite <- (Hpool (set_skipAcl sk w1)). apply surjective_pairing. }
  exists (mkDaemon w2 [SysStats; ClientServer] true false), sk.
  split; [|split; [right; left|apply InitOff_state]].
  eapply rtc_l; [apply d_main with (m := in_world InitAclEnv); [done|]|].
  { unfold in_world. fold w1. by rewrite Hi. }
  eapply rtc_l; [eapply d_main; [reflexivity|]|].
  { unfold in_world, mbind, M_bind. simpl. rewrite Ho. reflexivity. }
  eapply rtc_l; [by eapply d_main|]. eapply rtc_l; [by eapply d_main|].
  apply rtc_once. by eapply d_main.
Qed.

(** ** Properties *)

(** (C36) Nobody is served before access control is in force.  Whatever the
    goroutines of the services that are already running do while [main] is still
    starting the others, from the moment the client-facing server runs the
    commands open to connections that are not authenticated are exactly those
    of [skipAclCmd]. *)
Theorem gate_before_serving (n : net) (pr : PushdClientProcessor) (b : Base) (k : nat) (d : daemon)
    (Hr : rtc (daemon_step n pr) (0, initialised b) (k, d))
    (Hs : ClientServer ∈ d_running d) :
  ∀ x, x ∈ set_elems (w_skipAcl (d_world d)) ↔ x ∈ skip_commands.
Proof.
  assert (boot_inv k d) as [Hg Hc].
  { change (boot_inv (k, d).1 (k, d).2).
    assert (boot_inv (0, initialised b).1 (0, initialised b).2) as H0.
    { split; simpl; [lia|]. set_solver. }
    revert H0. induction Hr as [|x y z Hxy _ IH]; [done|]. intros H. by apply IH, (boot_inv_step n pr x). }
  apply Hg. specialize (Hc Hs). lia.
Qed.

(** Clients are served before the server is ready for them.  In distributed
    mode there is a moment of start-up at which the client-facing server runs
    and [engine.Proxy] and the storage queue are still nil: a message published
    then panics as it is forwarded, and one handed to storage parks its
    goroutine for good. *)
Theorem served_too_early (n : net) (pr : PushdClientProcessor) (b : Base) (pool : OffSenderPool)
    (Hd : IsDistMode PushdConf = true)
    (Hpool : ∀ w, (InitOffPushService w).1 = Ret (inr pool)) :
  ∃ k d, rtc (daemon_step n pr) (0, initialised b) (k, d) ∧ ClientServer ∈ d_running d
    ∧ (∀ cmd m, cmd ≠ "" → m ≠ [] → ∃ e, forwardToAllOtherServer cmd m (d_world d) = (Panic e, d_world d))
    ∧ ∀ ch msg u ts id, EnqueueMsg ch msg u ts id (d_world d) = (Block, d_world d).
Proof.
  destruct (boot_to_clients n pr b pool Hpool) as (d & sk & Hr & Hs & Hw).
  exists 5, d. split; [exact Hr|]. split; [exact Hs|]. rewrite Hw. simpl. split; [|done].
  intros cmd m Hc Hm. unfold forwardToAllOtherServer. rewrite Hd.
  destruct (String.eqb_spec cmd ""); [done|]. destruct m; [done|]. by eexists.
Qed.

(** ** The world while the process starts and runs *)

(** What statements of [main] do to it. *)
Definition boots (n : net) : list (World → World) :=
  [λ w, (InitAclEnv w).2; λ w, (InitOffPushService w).2; set_proxy (Some (NewS2sProxy n));
   λ w, (storage_Init w).2].

Inductive live_step (n : net) (pr : PushdClientProcessor) : World → World → Prop :=
| live_boot f w : f ∈ boots n → live_step n pr w (f w)
| live_serve w w' : sys_step pr w w' → live_step n pr w w'.

(** A statement that leaves the world alone or does one of these. *)
Definition boot_only (n : net) (m : M daemon unit) : Prop :=
  ∀ d, d_world (m d).2 = d_world d ∨ ∃ f, f ∈ boots n ∧ d_world (m d).2 = f (d_world d).

Lemma boot_only_id n (m : M daemon unit) : (∀ d, d_world (m d).2 = d_world d) → boot_only n m.
Proof. intros H d. left. apply H. Qed.

Lemma boot_only_when n b m : boot_only n m → boot_only n (when b m).
Proof. intros H. destruct b; [exact H|]. by apply boot_only_id. Qed.

Lemma boot_only_world n (mw : M World unit) :
  (λ w, (mw w).2) ∈ boots n → boot_only n (in_world mw).
Proof.
  intros H d. right. exists (λ w, (mw w).2). split; [exact H|]. unfold in_world. by destruct (mw (d_world d)).
Qed.

Lemma boot_only_offpush n :
  boot_only n (r ← in_world InitOffPushService;
               match r with inl err => panic (Error err) | inr _ => mret tt end).
Proof.
  intros d. right. exists (λ w, (InitOffPushService w).2). split; [right; left|].
  unfold in_world, mbind, M_bind. by destruct (InitOffPushService (d_world d)) as [[[e|]|e|] w].
Qed.

Ltac solve_boot :=
  lazymatch goal with
  | |- boot_only _ (when _ _) => apply boot_only_when; solve_boot
  | |- boot_only _ (in_world _) => apply boot_only_world; unfold boots; rewrite !elem_of_cons; tauto
  | |- boot_only _ (mbind _ _) => apply boot_only_offpush
  | |- _ => apply boot_only_id; intros ?; try destruct RegisterEtc; reflexivity
  end.

Lemma main_boot_only n : Forall (boot_only n) (main n).
Proof. unfold main. rewrite !Forall_cons, Forall_nil. split_and!; try done; solve_boot. Qed.

Definition with_world (w : World) (d : daemon) : daemon :=
  mkDaemon w (d_running d) (d_pushd d) (d_s2s d).

Lemma with_world_id d : with_world (d_world d) d = d.
Proof. by destruct d. Qed.

(** The server's own steps, once it serves clients. *)
Lemma serves n pr k d w w' :
  ClientServer ∈ d_running d → rtc (sys_step pr) w w' →
  rtc (daemon_step n pr) (k, with_world w d) (k, with_world w' d).
Proof.
  intros Hin Hr. induction Hr as [w|w0 w1 w2 Hs _ IH]; [done|]. eapply rtc_l; [|exact IH].
  by apply (d_serve n pr k (with_world w0 d) w1).
Qed.

Lemma daemon_live n pr x y :
  rtc (daemon_step n pr) x y → rtc (live_step n pr) (d_world x.2) (d_world y.2).
Proof.
  intros Hr. induction Hr as [|x y z Hs _ IH]; [done|]. etransitivity; [|exact IH].
  destruct Hs as [k m d d' Hm Hrun|k d w' _ Hsys]; simpl.
  - pose proof (proj1 (Forall_lookup _ _) (main_boot_only n) k m Hm d) as H. rewrite Hrun in H.
    simpl in H. destruct H as [->|(f & Hf & ->)]; [done|]. by apply rtc_once, live_boot.
  - by apply rtc_once, live_serve.
Qed.

(** They touch neither the connections nor the registry. *)
Lemma boots_frame n f w :
  f ∈ boots n →
  w_clients (f w) = w_clients w ∧ w_uuids (f w) = w_uuids w ∧ w_tasks (f w) = w_tasks w
  ∧ (w_cache (f w) = w_cache w ∨ ∃ k, w_cache (f w) = newChannelToUserIds k).
Proof.
  unfold boots. rewrite !elem_of_cons, elem_of_nil. intros [->|[->|[->|[->|[]]]]].
  - destruct (InitAclEnv_run w) as (s & -> & _). auto.
  - rewrite InitOff_state. eauto 6.
  - auto.
  - auto.
Qed.

(** [main] when nothing else runs. *)
Lemma main_runs n pr j k d d' :
  mapM_ id (take j (drop k (main n))) d = (Ret tt, d') → (j ≤ length (drop k (main n)))%nat →
  rtc (daemon_step n pr) (k, d) (k + j, d').
Proof.
  revert k d. induction j as [|j IH]; intros k d Hrun Hj.
  { injection Hrun as <-. by rewrite Nat.add_0_r. }
  destruct (drop k (main n)) as [|m ms] eqn:E; [simpl in Hj; lia|].
  assert (main n !! k = Some m ∧ ms = drop (S k) (main n)) as [Hm ->].
  { apply (f_equal (lookup 0)) in E as E0. rewrite lookup_drop, Nat.add_0_r in E0. split; [done|].
    replace (S k) with (k + 1) by lia. by rewrite <- drop_drop, E. }
  cbn [take mapM_] in Hrun. apply le_S_n in Hj. unfold mbind, M_bind in Hrun. simpl in Hrun.
  destruct (m d) as [[[]|e|] d1] eqn:Em; try done.
  eapply rtc_l; [by eapply d_main|]. rewrite <- Nat.add_succ_comm. by apply IH.
Qed.

(** ** Ending *)

(** A stop call on a nil server that panics. *)
Definition fatal (set : bool) : bool :=
  match nil_StopTcpServer with Some _ => negb set | None => false end.
Definition stopped (set : bool) (c : stop_call) : list stop_call := if set then [c] else [].

(** The calls of a shutdown. *)
Definition shutdown_calls (d : daemon) : list stop_call :=
  let dist := IsDistMode PushdConf in
  (if dist then [Unregister UnregisterEtc] else []) ++
  if dist && fatal (d_s2s d) then [] else
  (if dist then stopped (d_s2s d) StopS2s else []) ++
  if fatal (d_pushd d) then [] else stopped (d_pushd d) StopPushd ++ [Exit 0].

(** A shutdown always returns to its caller.  It takes the service out of etcd
    first (and goes on if that fails), stops the servers and exits with status
    0; a server that is still nil can make it panic, which is swallowed, and
    then the process does not exit. *)
Theorem shutdown_spec (d : daemon) (l : list stop_call) :
  shutdown d l = (Ret tt, l ++ shutdown_calls d).
Proof.
  unfold shutdown, shutdown_body, shutdown_calls, stop, fatal, stopped, modify, panic.
  destruct (IsDistMode PushdConf), (d_s2s d), (d_pushd d), nil_StopTcpServer;
    unfold mbind, M_bind; simpl; rewrite <- ?app_assoc, ?app_nil_r; done.
Qed.

Definition can_exit (d : daemon) : bool :=
  negb (IsDistMode PushdConf && fatal (d_s2s d)) && negb (fatal (d_pushd d)).

Lemma after_shutdown_spec d l next :
  Forall (λ c, exit_code c = None) l →
  after_shutdown d l next =
    if can_exit d then Gone (l ++ shutdown_calls d) 0 else next (l ++ shutdown_calls d).
Proof.
  intros Hl. unfold after_shutdown. rewrite shutdown_spec. cbn [snd].
  assert (last l ≫= exit_code = None) as Hlast.
  { destruct (last l) as [c|] eqn:E; [|done]. apply last_Some_elem_of in E.
    rewrite Forall_forall in Hl. by apply Hl. }
  unfold can_exit, shutdown_calls, stopped.
  destruct (IsDistMode PushdConf), (fatal (d_s2s d)), (fatal (d_pushd d)), (d_s2s d), (d_pushd d);
    simpl; rewrite ?app_nil_r, ?last_app, ?last_snoc; simpl; rewrite ?Hlast; done.
Qed.

(** No statement of [main] but two makes a server, and none unmakes one. *)
Lemma main_servers n k m d o d' :
  main n !! k = Some m → m d = (o, d') →
  d_pushd d' = (bool_decide (k = 2) || d_pushd d)%bool
  ∧ d_s2s d' = (IsDistMode PushdConf && bool_decide (k = 7) || d_s2s d)%bool.
Proof.
  assert (∀ A (mw : M World A) o d', in_world mw d = (o, d') →
            d_pushd d' = d_pushd d ∧ d_s2s d' = d_s2s d) as Hw.
  { intros A mw o' d1. unfold in_world. destruct (mw (d_world d)). by intros [= _ <-]. }
  intros Hm Hrun. unfold main in Hm. pose proof (lookup_lt_Some _ _ _ Hm) as Hlt. simpl in Hlt.
  destruct k as [|[|[|[|[|[|[|[|[|[|[|[|[|[|k]]]]]]]]]]]]]]; [..|lia]; clear Hlt; injection Hm as <-;
    rewrite ?andb_false_r; try (by apply Hw in Hrun);
    unfold when, go, new_pushd, new_s2s, modify in Hrun.
  all: try (repeat case_match; by injection Hrun as <- <-).
  - unfold mbind, M_bind in Hrun. destruct (in_world InitOffPushService d) as [r d1] eqn:E.
    apply Hw in E as [<- <-]. by destruct r as [[e|]|e|]; injection Hrun as <- <-.
Qed.

(** A shutdown that has stopped nothing. *)
Definition only_unregistered (calls : list stop_call) : Prop :=
  Forall (λ c, match c with Unregister _ => True | _ => False end) calls.

Lemma only_unregistered_stay calls :
  only_unregistered calls → Forall (λ c, exit_code c = None) calls.
Proof. intros H. eapply Forall_impl; [exact H|]. by intros []. Qed.

(** Start-up while the process is up: the servers that are there, and shutdowns
    that could not stop them. *)
Definition up_inv (p : process) : Prop :=
  match p with
  | Up k d calls =>
      d_pushd d = bool_decide (2 < k) ∧ d_s2s d = (IsDistMode PushdConf && bool_decide (7 < k))%bool
      ∧ only_unregistered calls
  | Gone calls z => z = 0%Z ∨ (z = PANIC_STATUS ∧ only_unregistered calls)
  end.

Lemma up_inv_initialised b : up_inv (Up 0 (initialised b) []).
Proof. split; [done|]. split; [by rewrite andb_false_r|constructor]. Qed.

Lemma shutdown_calls_stay k d :
  d_pushd d = bool_decide (2 < k) → d_s2s d = (IsDistMode PushdConf && bool_decide (7 < k))%bool →
  can_exit d = false → only_unregistered (shutdown_calls d).
Proof.
  intros Hp Hs. assert (d_s2s d = true → d_pushd d = true) as Hsp.
  { rewrite Hp, Hs, andb_true_iff, !bool_decide_eq_true. lia. }
  unfold can_exit, shutdown_calls, stopped, fatal, only_unregistered.
  destruct (d_s2s d), (d_pushd d); try discriminate (Hsp eq_refl);
    destruct (IsDistMode PushdConf), nil_StopTcpServer; try discriminate;
    intros _; by repeat constructor.
Qed.

Lemma up_inv_step n pr p q : up_inv p → process_step n pr p q → up_inv q.
Proof.
  intros Hi Hs. destruct Hs as [k d k' d' calls Hs|k d m e d' calls Hm Hp|k d calls|k d calls s _].
  - destruct Hi as (H1 & H2 & H3). remember (k, d) as x eqn:Ex. remember (k', d') as y eqn:Ey.
    destruct Hs as [j m d0 d1 Hm Hrun|j d0 w' _ _]; simplify_eq/=; [|done].
    destruct (main_servers n k m d _ _ Hm Hrun) as [-> ->]. rewrite H1, H2.
    split_and!; [..|done].
    + repeat case_bool_decide; lia || done.
    + destruct (IsDistMode PushdConf); [|done]. simpl. repeat case_bool_decide; lia || done.
  - destruct Hi as (_ & _ & H3). rewrite after_shutdown_spec by (by apply only_unregistered_stay).
    destruct (can_exit d'); by left.
  - destruct Hi as (H1 & H2 & H3). rewrite after_shutdown_spec by (by apply only_unregistered_stay).
    destruct (can_exit d) eqn:E; [by left|]. split_and!; [done..|].
    apply Forall_app. split; [done|]. by apply (shutdown_calls_stay k).
  - destruct Hi as (_ & _ & H3). by right.
Qed.

Lemma up_inv_rtc n pr b p : rtc (process_step n pr) (Up 0 (initialised b) []) p → up_inv p.
Proof.
  intros Hr. pose proof (up_inv_initialised b) as H. revert H.
  induction Hr as [|x y z Hs _ IH]; [done|]. intros H. by apply IH, (up_inv_step n pr x).
Qed.

(** The servers that a shutdown stops are there. *)
Definition servers_up (k : nat) : Prop := if IsDistMode PushdConf then 7 < k else 2 < k.


(** A signal that comes before the servers are made is lost, where stopping a
    nil server panics: start-up goes on, and in distributed mode the service has
    been taken out of etcd before it was there. *)
Theorem signal_lost (n : net) (pr : PushdClientProcessor) (b : Base) (k : nat) (d : daemon)
    (calls : list stop_call) (e : string) (Hnil : nil_StopTcpServer = Some e)
    (Hr : rtc (process_step n pr) (Up 0 (initialised b) []) (Up k d calls)) (Hk : ¬ servers_up k) :
  process_step n pr (Up k d calls)
    (Up k d (calls ++ if IsDistMode PushdConf then [Unregister UnregisterEtc] else [])).
Proof.
  apply up_inv_rtc in Hr as (H1 & H2 & H3). apply only_unregistered_stay in H3.
  unfold servers_up in Hk.
  pose proof (p_signal n pr k d calls) as Hs. rewrite after_shutdown_spec in Hs by done.
  unfold can_exit, shutdown_calls, fatal in Hs. rewrite Hnil, H1, H2 in Hs.
  destruct (IsDistMode PushdConf); simpl in Hs.
  - rewrite (bool_decide_eq_false_2 (7 < k)) in Hs by done. exact Hs.
  - rewrite (bool_decide_eq_false_2 (2 < k)) in Hs by done. exact Hs.
Qed.

(** A start that fails looks like a success: when no message queue is
    configured there is no pool of push senders, and the process ends with
    status 0. *)
Theorem failed_start (n : net) (pr : PushdClientProcessor) (b : Base)
    (Haddrs : default [] (MsgQueueAddrs PushdConf) = []) :
  ∃ calls, rtc (process_step n pr) (Up 0 (initialised b) []) (Gone calls 0).
Proof.
  assert (∃ err, ∀ w, (InitOffPushService w).1 = Ret (inl err)) as [err Hoff].
  { eexists. intros w. unfold InitOffPushService, initOffSenderPool. mred. by rewrite Haddrs. }
  destruct (InitAclEnv_run (d_world (initialised b))) as (s & Hi & _).
  set (d1 := mkDaemon (set_skipAcl s (d_world (initialised b))) [] false false).
  set (w2 := (InitOffPushService (d_world d1)).2).
  eassert (process_step n pr (Up 1 d1 []) _) as Hp.
  { apply (p_panic n pr 1 d1 _ (Error err) (mkDaemon w2 [] false false) [] eq_refl).
    unfold in_world, mbind, M_bind. rewrite (surjective_pairing (InitOffPushService (d_world d1))).
    by rewrite Hoff. }
  rewrite after_shutdown_spec in Hp by constructor.
  eexists. eapply rtc_l; [|apply rtc_once].
  - apply p_run. eapply d_main; [reflexivity|]. unfold in_world. by rewrite Hi.
  - by destruct (can_exit _).
Qed.
End daemon.

Import Ref.
#[local] Existing Instance example_conf.
#[local] Instance example_etc : Etc := {|
  etc_Dial _ := None; BootService _ _ := None; ShutdownService _ _ := None; SERVICE_PUSHD := "pushd"
|}.

Definition example_start : daemon (EX := ref_externals) (NT := ref_net) := initialised example_base.
Definition no_net : @net ref_net := [].

Lemma example_pool : ∃ pool, ∀ w : World (EX := ref_externals) (NT := ref_net),
  (InitOffPushService (CF := example_conf) w).1 = Ret (inr pool).
Proof. eexists. intros w. reflexivity. Qed.

Lemma served_too_early_witness :
  ∃ k d, rtc (daemon_step no_net example_processor) (0, example_start) (k, d)
    ∧ ClientServer ∈ d_running d
    ∧ ∃ e, forwardToAllOtherServer "push_str_msg" (bytes_of_string "room hi") (d_world d)
           = (Panic e, d_world d).
Proof.
  destruct example_pool as [pool Hpool].
  destruct (served_too_early (EX := ref_externals) (NT := ref_net) (CF := example_conf) no_net example_processor example_base pool eq_refl Hpool)
    as (k & d & Hr & Hs & Hf & _).
  exists k, d. split; [exact Hr|]. split; [exact Hs|]. by apply Hf.
Defined.

Lemma gate_before_serving_witness :
  ∃ k d, rtc (daemon_step no_net example_processor) (0, example_start) (k, d)
    ∧ ClientServer ∈ d_running d ∧ ∀ x, x ∈ set_elems (w_skipAcl (d_world d)) ↔ x ∈ skip_commands.
Proof.
  destruct example_pool as [pool Hpool].
  destruct (boot_to_clients (EX := ref_externals) (NT := ref_net) (CF := example_conf) no_net example_processor example_base pool Hpool) as (d & sk & Hr & Hs & _).
  exists 5, d. split; [exact Hr|]. split; [exact Hs|].
  exact (gate_before_serving (EX := ref_externals) (NT := ref_net) (CF := example_conf) no_net example_processor example_base 5 d Hr Hs).
Defined.

(** ** Examples *)
#[local] Instance example_durations : DurationText := {| ParseDuration _ := None |}.

Lemma parseFlags_on :
  parseFlags ["-acl=false"; "--tick"; "0x1e"; "-v"; "etc"]
    = Started (mkOptions "etc/pushd.cf" "stdout" "info" "panic.dump" true 30 false)
  ∧ parseFlags ["-tick=0"] = Crashed "tick must be possitive"
  ∧ parseFlags ["-t"] = Exited 2.
Proof. by vm_compute. Qed.

#[local] Instance example_jsconf : JsConf := {|
  conf := unit; conf_String _ _ d := d; conf_Int _ _ d := d; conf_Duration _ _ d := d;
  conf_StringList _ _ d := d; conf_Section _ _ := inl (NewError "no section")
|}.
#[local] Instance example_golib : Golib := {|
  server_LoadConfig _ := inr tt; version_status := 0;
  nil_StopTcpServer := Some "invalid memory address or nil pointer dereference"
|}.


