(* ===== verification/Invariant.v ===== *)
(** * An invariant of the running server

    [daemon_step] of [Daemon] interleaves the statements of [main] with everything
    that can happen in the process ([sys_step] of [Server]).  In every state it
    reaches, the registry of users leads to existing objects only, the empty
    user id is never registered, and the cache of rooms is free of aliasing: the
    conditions under which the delivery theorems of [PubSub] and [S2s] hold.
    [Lifecycle] adds the states of the registered connections
    ([registry_invariant]). *)
From S2P Require Import Prelude GoStrings Wire Deps RefDeps Config Base SenderPool UserIdCache Storage.
From S2P Require Import Router World PubSub Client Rooms Auth Mail Commands S2s LongPoll Server Daemon.

Local Open Scope string_scope.
Local Open Scope list_scope.
Local Open Scope Z_scope.

Section invariant.
  Context {EX : Externals} {NT : Net} {CF : Global} {EC : Etc}.
  Context {LL : LruLaws} {GL : GoSetLaws} {CL : CmapLaws}.

(** The connection [p] exists and has been given a user id. *)
Definition named (p : ptr) (w : World) : Prop :=
  ∃ c, w_clients w !! p = Some c ∧ uuid c ≠ "".

Definition reg_inv (w : World) : Prop :=
  (∀ u p, cmap_Get (w_uuids w) u = Some p → u ≠ "" ∧ is_Some (w_clients w !! p))
  ∧ (∀ p uid, GoInitChatEnv p uid ∈ w_tasks w → named p w)
  ∧ cache_wf (w_cache w).

(** ** The cache *)
Lemma ret_unit {A} (m : M ChannelToUserIds unit) (v : A) r st st' :
  (_ ← m; mret v) st = (Ret r, st') → m st = (Ret tt, st').
Proof. unfold mbind, M_bind. destruct (m st) as [[[]|e|] s1]; intros [=]; by subst. Qed.

Lemma cache_op_wf {A} (m : M ChannelToUserIds A) st :
  cache_op m → cache_wf st → cache_wf (m st).2.
Proof.
  intros Hm Hwf. destruct Hm as [c u|c us|c u|c|c|c].
  - destruct (run_op_spec (OpAdd c u) st Hwf) as (r & st' & Hr & Hw & _).
    cbn [run_op] in Hr. by rewrite (ret_unit _ _ _ _ _ Hr).
  - destruct (run_op_spec (OpAddAll c us) st Hwf) as (r & st' & Hr & Hw & _).
    cbn [run_op] in Hr. by rewrite (ret_unit _ _ _ _ _ Hr).
  - destruct (run_op_spec (OpRemove c u) st Hwf) as (r & st' & Hr & Hw & _).
    cbn [run_op] in Hr. by rewrite (ret_unit _ _ _ _ _ Hr).
  - destruct (run_op_spec (OpGet c) st Hwf) as (r & st' & Hr & Hw & _).
    cbn [run_op] in Hr. by rewrite Hr.
  - destruct (run_op_spec (OpExists c) st Hwf) as (r & st' & Hr & Hw & _).
    cbn [run_op] in Hr. unfold mbind, M_bind in Hr.
    destruct (Exists c st) as [[b|e|] s1]; [|discriminate..].
    unfold mret, M_ret in Hr. injection Hr as _ <-. exact Hw.
  - destruct (run_op_spec (OpDel c) st Hwf) as (r & st' & Hr & Hw & _).
    cbn [run_op] in Hr. by rewrite (ret_unit _ _ _ _ _ Hr).
Qed.

(** ** Preservation, for a predicate of this shape *)
Definition inv_of (Q : World → Prop) (w : World) : Prop := reg_inv w ∧ Q w.

(** [Q] looks at the connection objects only. *)
Definition clients_only (Q : World → Prop) : Prop :=
  ∀ w w', w_clients w' = w_clients w → Q w → Q w'.

Lemma reg_inv_ext w w' :
  w_clients w' = w_clients w → w_uuids w' = w_uuids w → w_tasks w' = w_tasks w →
  cache_wf (w_cache w') → reg_inv w → reg_inv w'.
Proof.
  intros Hc Hu Ht Hwf (H1 & H2 & _). unfold reg_inv, named.
  rewrite Hc, Hu, Ht. by split_and!.
Qed.

Lemma inert_inv Q : clients_only Q → Inert (keeps (inv_of Q)).
Proof.
  intros HQ. split; unfold ignores, keeps, inv_of.
  - apply _.
  - intros b w [H1 H2]. split; [by eapply reg_inv_ext; try apply H1|by eapply HQ; try apply H2].
  - intros A m Hm w [H1 H2]. unfold onCache, zoom.
    pose proof (cache_op_wf m (w_cache w) Hm (proj2 (proj2 H1))) as Hwf.
    destruct (m (w_cache w)) as [o st]. simpl in *.
    split; [by eapply reg_inv_ext; try apply H1|by eapply HQ; try apply H2].
  - intros b w [H1 H2]. split; [by eapply reg_inv_ext; try apply H1|by eapply HQ; try apply H2].
  - intros b w [H1 H2]. split; [by eapply reg_inv_ext; try apply H1|by eapply HQ; try apply H2].
  - intros b w [H1 H2]. split; [by eapply reg_inv_ext; try apply H1|by eapply HQ; try apply H2].
  - intros t w Ht [(H1 & H2 & H3) HQ2]. split; [|by eapply HQ; try apply HQ2].
    split_and!; [done| |done]. intros p uid. simpl. rewrite elem_of_app, list_elem_of_singleton.
    intros [Hin|Heq]; [by eapply H2|]. subst t. done.
Qed.

(** Updates that never take a user id away. *)
Definition keeps_name (f : Client → Client) : Prop := ∀ c, uuid c ≠ "" → uuid (f c) ≠ "".

Lemma named_insert p q f c w :
  keeps_name f → w_clients w !! p = Some c → named q w →
  named q (set_clients (<[p := f c]> (w_clients w)) w).
Proof.
  intros Hf Hc (c' & Hc' & Hu). unfold named. simpl. rewrite lookup_insert.
  case_decide; [subst q; exists (f c); split; [done|]|by exists c'].
  apply Hf. congruence.
Qed.

Lemma reg_inv_upd p f c w :
  keeps_name f → w_clients w !! p = Some c → reg_inv w →
  reg_inv (set_clients (<[p := f c]> (w_clients w)) w).
Proof.
  intros Hf Hc (H1 & H2 & H3). split_and!; [|intros q uid Hin; by eapply named_insert, H2|done].
  intros u q Hq. destruct (H1 u q Hq) as [Hu Hl]. split; [done|]. simpl.
  rewrite lookup_insert. case_decide; [eauto|done].
Qed.

Lemma within_upd Q p f :
  keeps_name f →
  (∀ w c, w_clients w !! p = Some c → Q w → Q (set_clients (<[p := f c]> (w_clients w)) w)) →
  within (keeps (inv_of Q)) (upd_client p f).
Proof.
  intros Hf HQ. apply within_upd_client; [apply _|]. intros w c Hc [H1 H2].
  split; [by apply reg_inv_upd|by apply HQ].
Qed.

(** The plain invariant, and the invariant with [named p]. *)
Abbreviation R0 := (keeps (inv_of (λ _, True))).
Abbreviation Rn p := (keeps (inv_of (named p))).

Lemma inert_R0 : Inert R0.
Proof. by apply inert_inv. Qed.

Lemma inert_Rn p : Inert (Rn p).
Proof. apply inert_inv. intros w w' Hc (c & H1 & H2). exists c. by rewrite Hc. Qed.

Lemma upd_R0 p f : keeps_name f → within R0 (upd_client p f).
Proof. intros Hf. by apply within_upd. Qed.

Lemma upd_Rn p q f : keeps_name f → within (Rn q) (upd_client p f).
Proof. intros Hf. apply within_upd; [done|]. intros w c Hc Hn. by apply named_insert. Qed.

(** ** Each step preserves the invariant *)
Existing Instances inert_R0 inert_Rn.

Lemma inv_R0 {A} (m : M World A) w : within R0 m → reg_inv w → reg_inv (m w).2.
Proof. intros Hm Hw. by apply (Hm w). Qed.

Lemma SETUUID_R0 p P : within R0 (do_SETUUID p P).
Proof.
  unfold do_SETUUID, lacked, success, reply. destruct (Split space P) as [|? [|p1 ?]]; [frame..|].
  destruct (String.eqb_spec p1 "") as [|Hp1]; [frame|]. intros w [Hinv _]. split; [|done].
  unfold mbind, M_bind, upd_client, get_client, put_client. mred.
  destruct (w_clients w !! p) as [c|] eqn:Hc; cbn; [|done].
  assert (keeps_name (with_uuid p1)) as Hk by (by intros ? _).
  destruct (reg_inv_upd p (with_uuid p1) c w Hk Hc Hinv) as (H1 & H2 & H3).
  split_and!; [exact H1| |exact H3]. intros q uid. simpl.
  rewrite elem_of_app, list_elem_of_singleton. intros [Hin|[= -> ->]]; [by eapply H2|].
  exists (with_uuid p1 c). split; [apply lookup_insert_eq|done].
Qed.

Lemma Process_R0 cl : within R0 (Process cl).
Proof.
  destruct (decide (Cmd cl ∈ identity_commands)) as [Hx|Hx].
  - destruct cl as [cmd P P2 p]. simpl in *. unfold identity_commands in Hx.
    pose proof (upd_R0 p as_client ltac:(by intros ?)).
    pose proof (upd_R0 p as_server ltac:(by intros ?)).
    assert (∀ t, within R0 (upd_client p (with_tokenInfo t))) by (intros; by apply upd_R0; intros ?).
    rewrite !elem_of_cons, elem_of_nil in Hx. destruct Hx as [->|[->|[->|[]]]].
    + change (within R0 (do_AUTH_CLIENT p P)).
      unfold do_AUTH_CLIENT, SetClient, initToken, failed, lacked, reply. frame.
    + change (within R0 (do_AUTH_SERVER p P)). unfold do_AUTH_SERVER, SetServer. frame.
    + apply SETUUID_R0.
  - apply within_Process; intros; first [done | apply _ | by apply upd_R0; intros ?].
Qed.

Lemma OnRead_R0 pr p input : within R0 (OnRead pr p input).
Proof.
  apply within_OnRead; intros;
    first [apply _ | apply Process_R0 | by apply upd_R0; intros ? | by apply within_spawn_write; try apply _].
Qed.

Lemma Remove_R0 u p : within R0 (Remove u p).
Proof.
  intros w [(H1 & H2 & H3) _]. rewrite Remove_run. simpl. split; [|done].
  destruct (unregister_rest u p w) as (Hc & Ht & _). unfold reg_inv, named. rewrite Hc, Ht.
  split_and!; [|done|].
  - intros u' q. rewrite unregister_Get. case_decide; [done|apply H1].
  - unfold unregister. by case_bool_decide.
Qed.

Lemma emit_R0 e : within R0 (emit e).
Proof. apply within_emit. intros l w [H _]. split; [exact H|done]. Qed.

Lemma Close_R0 p w : reg_inv w → reg_inv (Close p w).2.
Proof.
  intros Hw. rewrite Close_split. apply inv_R0; [|done]. pose proof emit_R0.
  assert (within R0 (close_pre p)); [|frame].
  apply within_close_pre; [apply _|by apply upd_R0; intros ?|intros; apply Remove_R0].
Qed.

(** The registration itself, for a connection that has a user id. *)
Lemma register_Rn p : within (Rn p) (updateUserIdToClientMappingTable p).
Proof.
  intros w [Hinv (c & Hc & Hu)]. unfold updateUserIdToClientMappingTable.
  mstep (get_client_run p c w Hc). unfold mbind, M_bind. rewrite Remove_run.
  destruct (Remove_R0 (uuid c) p w (conj Hinv I)) as [(H1 & H2 & H3) _].
  rewrite Remove_run in H1, H2, H3. simpl in H1, H2, H3.
  destruct (unregister_rest (uuid c) p w) as (Hrc & _ & _).
  unfold AddClient, modify. simpl. split; [|exists c; simpl; by rewrite Hrc].
  split_and!; [|exact H2|exact H3]. intros u q. simpl. rewrite cmap_Get_Set.
  case_decide; [|apply H1]. intros [= <-]. subst u. split; [done|]. rewrite Hrc. eauto.
Qed.

Lemma initChatEnv_Rn p uid : within (Rn p) (initChatEnv p uid).
Proof.
  pose proof (register_Rn p). unfold initChatEnv, loadUserInfo.
  assert (within (Rn p) (upd_client p (λ c, with_PushId (uuid c) c))) by (by apply upd_Rn; intros ?).
  assert (∀ s, within (Rn p) (upd_client p (with_PushId s))) by (intros; by apply upd_Rn; intros ?).
  assert (∀ b, within (Rn p) (upd_client p (with_notify b))) by (intros; by apply upd_Rn; intros ?).
  assert (∀ st, within (Rn p) (upd_client p (with_state st))) by (intros; by apply upd_Rn; intros ?).
  frame.
Qed.

Lemma go_step_inv w w' : reg_inv w → go_step w w' → reg_inv w'.
Proof.
  intros Hw Hstep. destruct Hstep as [w l1 t l2 Ht].
  set (w1 := set_tasks (l1 ++ l2) w).
  assert (reg_inv w1) as Hw1.
  { destruct Hw as (H1 & H2 & H3). split_and!; [exact H1| |exact H3]. intros p uid Hin.
    apply (H2 p uid). rewrite Ht. simpl in Hin. set_solver. }
  destruct t as [cli op msg|cli op msg|cli uid|[q|] op msg]; cbn [run_task].
  - apply (inv_R0 (emit _)); [apply emit_R0|done].
  - apply (inv_R0 (emit _)); [apply emit_R0|done].
  - apply (initChatEnv_Rn cli uid w1). split; [done|].
    apply (proj1 (proj2 Hw) cli uid). rewrite Ht. set_solver.
  - apply inv_R0; [|done]. unfold onRouter. frame.
  - done.
Qed.

Lemma sys_step_inv pr w w' : reg_inv w → sys_step pr w w' → reg_inv w'.
Proof.
  intros Hw Hstep. destruct Hstep as [w|p input w _|p w _|w w' Hgo|conn input w|w|w|sv w|vars w|vars w].
  - destruct Hw as (H1 & H2 & H3). unfold new_client. simpl.
    set (p := fresh (dom (w_clients w))).
    assert (w_clients w !! p = None) as Hp by apply not_elem_of_dom, is_fresh.
    assert (∀ q c, w_clients w !! q = Some c →
              (<[p := NewClient]> (w_clients w)) !! q = Some c) as Hold.
    { intros q c Hq. rewrite lookup_insert_ne; congruence. }
    split_and!; [| |exact H3].
    + intros u q [Hu [c Hq]]%H1. split; [done|]. simpl. rewrite (Hold _ _ Hq). eauto.
    + intros q uid (c & Hq & Hu)%H2. exists c. split; [by apply Hold|done].
  - apply inv_R0; [apply OnRead_R0|done].
  - by apply Close_R0.
  - by apply (go_step_inv w).
  - apply inv_R0; [|done]. apply within_s2s_OnRead, _.
  - apply inv_R0; [|done]. unfold WaitMsg_round, onForward. frame.
  - apply inv_R0; [|done]. frame.
  - apply inv_R0; [|done]. unfold onRouter. frame.
  - apply inv_R0; [|done]. apply within_ServePublish; [apply _|apply emit_R0].
  - apply inv_R0; [|done]. apply within_ServeHistory, emit_R0.
Qed.

Lemma reg_inv_cache w w' :
  w_clients w' = w_clients w → w_uuids w' = w_uuids w → w_tasks w' = w_tasks w →
  cache_wf (w_cache w') → reg_inv w → reg_inv w'.
Proof.
  intros Hc Hu Ht Hwf (H1 & H2 & _). unfold reg_inv, named in *. rewrite Hc, Hu, Ht.
  by split_and!.
Qed.

(** The statements of [main] that run between the steps of the server. *)
Lemma live_step_inv n pr w w' : reg_inv w → live_step n pr w w' → reg_inv w'.
Proof.
  intros Hw Hl. destruct Hl as [f w0 Hf|w0 w1 Hs]; [|by apply (sys_step_inv pr w0)].
  destruct (boots_frame n f w0 Hf) as (Hc & Hu & Ht & Hch).
  apply (reg_inv_cache w0); try done. destruct Hch as [->|[k ->]]; [apply Hw|apply cache_wf_new].
Qed.

Lemma reg_inv_initialised b : reg_inv (d_world (initialised b)).
Proof.
  split_and!; [|intros p uid Hin; by apply not_elem_of_nil in Hin|apply cache_wf_new].
  intros u p. simpl. unfold NewUuidClientMap. by rewrite cmap_Get_New.
Qed.

Lemma live_rtc_inv n pr w w' : reg_inv w → rtc (live_step n pr) w w' → reg_inv w'.
Proof. intros Hw Hr. induction Hr; eauto using live_step_inv. Qed.

(** The premises of exact delivery. *)
Definition deliverable (w : World) : Prop :=
  registry_valid w ∧ cmap_Get (w_uuids w) "" = None ∧ cache_wf (w_cache w).

Lemma reg_inv_deliverable w : reg_inv w → deliverable w.
Proof.
  intros (H1 & _ & H3). split_and!; [|destruct (cmap_Get (w_uuids w) "") as [p|] eqn:E; [|done]|done].
  - intros u p Hp. by apply (H1 u p).
  - by destruct (H1 _ _ E).
Qed.
End invariant.

Import Ref.
#[local] Existing Instances example_conf example_etc.

(** A server starts its services; while [main] is at its later statements, a
    connection is accepted and names its user, and the goroutine that registers
    it runs. *)
Definition example_up : daemon (EX := ref_externals) (NT := ref_net) :=
  (mapM_ id (take 5 (main (CF := example_conf) no_net)) example_start).2.
Definition example_boot : World (EX := ref_externals) (NT := ref_net) := d_world example_up.
Definition serving (w : World (EX := ref_externals) (NT := ref_net)) : daemon := with_world w example_up.
Definition example_frame : list byte :=
  block32 (bytes_of_string "setuuid") ++ block32 (bytes_of_string "x u7").

Definition example_open : PushdClientProcessor := DisableAclCheck example_processor.
Definition example_reply : Task := GoWriteFormatMsg 0 "setuuid" "200 success".
Definition example_w1 := (new_client NewClient example_boot).2.
Definition example_w2 := (OnRead (CF := example_conf) example_open 0 example_frame example_w1).2.
Definition example_w3 := (run_task (GoInitChatEnv 0 "u7") (set_tasks [example_reply] example_w2)).2.

Lemma example_serving : ClientServer ∈ d_running example_up.
Proof. apply (bool_decide_unpack _). vm_compute. reflexivity. Qed.

Lemma example_trace :
  rtc (daemon_step (CF := example_conf) no_net example_open) (0%nat, example_start)
    (5%nat, serving example_w3).
Proof.
  etransitivity; [apply (main_runs no_net example_open 5 0 example_start example_up)|].
  - assert ((mapM_ id (take 5 (main (CF := example_conf) no_net)) example_start).1 = Ret tt) as H
      by (vm_compute; reflexivity).
    unfold example_up. change (drop 0 ?l) with l.
    destruct (mapM_ id _ _); simpl in *; congruence.
  - vm_compute. lia.
  - assert (rtc (sys_step (CF := example_conf) example_open) (d_world example_up) example_w3) as Hr.
    { change (d_world example_up) with example_boot. eapply rtc_l; [apply sys_accept|].
      eapply rtc_l; [apply (sys_read _ 0%nat example_frame); vm_compute; eauto|].
      apply rtc_once. apply sys_go, (go_run _ [] (GoInitChatEnv 0 "u7") [example_reply]).
      vm_compute. reflexivity. }
    apply (serves no_net example_open 5 example_up _ _ example_serving) in Hr.
    rewrite with_world_id in Hr. exact Hr.
Qed.
