(* ===== verification/Lifecycle.v ===== *)
(** * The life of a connection

    A [*Client] is created, initialised once by the goroutine that [setuuid]
    starts, and closed.  This file shows that every step of the server moves
    every connection along that life cycle only, and that the fields of a
    connection keep the values that their types are meant to have. *)
From S2P Require Import Prelude GoStrings Wire Deps RefDeps Config Base SenderPool UserIdCache Storage.
From S2P Require Import Router World PubSub Client Rooms Auth Mail Commands S2s LongPoll Server Daemon Invariant.

Local Open Scope string_scope.
Local Open Scope list_scope.
Local Open Scope Z_scope.

(** ** The life cycle *)
Inductive life_step : relation Z :=
| life_init : life_step CLIENT_STATE_CREATE CLIENT_STATE_INIT_DOEN
| life_close s : life_step s CLIENT_STATE_DEAD.

(** What the fields may hold: [Type] is made of two bits, [state] is one of three
    constants, an initialised connection has a user id. *)
Record client_ok (c : Client) : Prop := {
  ok_type : 0 ≤ Type_ c ≤ Z.lor TYPE_CLIENT TYPE_SERVER;
  ok_state : state c ∈ [CLIENT_STATE_CREATE; CLIENT_STATE_INIT_DOEN; CLIENT_STATE_DEAD];
  ok_named : state c = CLIENT_STATE_INIT_DOEN → uuid c ≠ ""
}.

(** [c'] is a later state of the object [c]. *)
Record evolves (c c' : Client) : Prop := {
  ev_life : rtc life_step (state c) (state c');
  ev_ok : client_ok c → client_ok c'
}.

#[export] Instance evolves_preorder : PreOrder evolves.
Proof.
  split; [by split; [apply rtc_refl|]|]. intros x y z [? ?] [? ?].
  split; [by transitivity (state y)|auto].
Qed.

(** The assignments to a connection's fields that the code makes, other than the
    one that ends the initialisation. *)
Inductive assignment : (Client → Client) → Prop :=
| as_SetClient : assignment as_client
| as_SetServer : assignment as_server
| as_ClearIdentity : assignment no_identity
| as_tokenInfo t : assignment (with_tokenInfo t)
| as_expire e : assignment (λ c, with_tokenInfo (mkToken (token (tokenInfo c)) e) c)
| as_PushId s : assignment (with_PushId s)
| as_PushId_uuid : assignment (λ c, with_PushId (uuid c) c)
| as_notify b : assignment (with_notify b)
| as_uuid u : u ≠ "" → assignment (with_uuid u)
| as_dead : assignment (with_state CLIENT_STATE_DEAD).

(** The first two bits of a number below four, whatever is done to them. *)
Lemma two_bits t : 0 ≤ t ≤ 3 → t = 0 ∨ t = 1 ∨ t = 2 ∨ t = 3.
Proof. lia. Qed.

Lemma assignment_evolves f c : assignment f → evolves c (f c).
Proof.
  intros Hf. split; [destruct Hf; simpl; try apply rtc_refl; apply rtc_once, life_close|].
  intros [Ht Hs Hn].
  destruct Hf; split; simpl in *; try done;
    try (destruct (two_bits _ Ht) as [->|[->|[->| ->]]]; vm_compute; split; discriminate).
  set_solver.
Qed.

(** Death is final. *)
Lemma life_dead s : rtc life_step CLIENT_STATE_DEAD s → s = CLIENT_STATE_DEAD.
Proof.
  assert (∀ a, rtc life_step a s → a = CLIENT_STATE_DEAD → s = CLIENT_STATE_DEAD) as H.
  { intros a Hr. induction Hr as [|x y z Hs _ IH]; [done|]. intros ->. apply IH.
    by inversion Hs. }
  intros Hr. by apply (H CLIENT_STATE_DEAD).
Qed.

Section lifecycle.
  Context {EX : Externals} {NT : Net} {CF : Global} {EC : Etc}.
  Context {LL : LruLaws} {GL : GoSetLaws} {CL : CmapLaws}.

(** What may happen to the object at an address. *)
Definition later (o o' : option Client) : Prop :=
  match o, o' with
  | None, None => True
  | None, Some c' => evolves NewClient c'
  | Some c, Some c' => evolves c c'
  | Some _, None => False
  end.

#[export] Instance later_preorder : PreOrder later.
Proof.
  split; [by intros [c|]; simpl|]. intros [x|] [y|] [z|]; simpl; try done; by transitivity y.
Qed.

Definition ages (w w' : World) : Prop := ∀ p, later (w_clients w !! p) (w_clients w' !! p).

#[export] Instance ages_preorder : PreOrder ages.
Proof.
  split; [by intros w p|]. intros x y z Hxy Hyz p. by transitivity (w_clients y !! p).
Qed.

Lemma ages_same w w' : w_clients w' = w_clients w → ages w w'.
Proof. intros E p. by rewrite E. Qed.

(** Steps that only look at, or age, the objects. *)
#[export] Instance inert_ages : Inert ages.
Proof.
  split; unfold ignores; intros; try by apply ages_same.
  - apply _.
  - apply within_onCache. intros st w. by apply ages_same.
Qed.

Lemma ages_upd p f c w :
  w_clients w !! p = Some c → evolves c (f c) → ages w (set_clients (<[p := f c]> (w_clients w)) w).
Proof.
  intros Hc He q. simpl. rewrite lookup_insert. case_decide; [subst q|done].
  by rewrite Hc.
Qed.

Lemma upd_ages p f : assignment f → within ages (upd_client p f).
Proof.
  intros Hf. apply within_upd_client; [apply _|]. intros w c Hc.
  apply ages_upd; [done|by apply assignment_evolves].
Qed.
Hint Resolve upd_ages : within.
Hint Constructors assignment : within.

Lemma spawn_ages t : within ages (spawn t).
Proof. intros w. by apply ages_same. Qed.
Lemma emit_ages e : within ages (emit e).
Proof. intros w. by apply ages_same. Qed.
Lemma Remove_ages u p : within ages (Remove u p).
Proof.
  intros w. rewrite Remove_run. apply ages_same. apply (proj1 (unregister_rest u p w)).
Qed.
Lemma AddClient_ages u p : within ages (AddClient u p).
Proof. intros w. by apply ages_same. Qed.
Hint Resolve spawn_ages emit_ages Remove_ages AddClient_ages : within.

Lemma Process_ages cl : within ages (Process cl).
Proof.
  destruct (decide (Cmd cl ∈ identity_commands)) as [Hx|Hx].
  - destruct cl as [cmd P P2 p]. simpl in *. unfold identity_commands in Hx.
    rewrite !elem_of_cons, elem_of_nil in Hx. destruct Hx as [->|[->|[->|[]]]].
    + change (within ages (do_AUTH_CLIENT p P)).
      unfold do_AUTH_CLIENT, SetClient, initToken, failed, lacked, reply. frame.
    + change (within ages (do_AUTH_SERVER p P)). unfold do_AUTH_SERVER, SetServer. frame.
    + change (within ages (do_SETUUID p P)). unfold do_SETUUID, lacked, success, reply.
      destruct (Split space P) as [|? [|p1 ?]]; [frame..|].
      destruct (String.eqb_spec p1 ""); frame.
  - apply within_Process; intros; first [done | eauto with within typeclass_instances].
Qed.

Lemma OnRead_ages pr p input : within ages (OnRead pr p input).
Proof.
  apply within_OnRead; intros; first [apply _ | apply Process_ages | eauto with within].
Qed.

Lemma Close_ages p : within ages (Close p).
Proof. unfold Close, UnsubscribeAllChannels. frame. Qed.

(** Up to its last assignment [initChatEnv] leaves the identity of the connection
    as it found it. *)
Definition ages_but (p : ptr) (w w' : World) : Prop := ages w w' ∧ ident_at p w' = ident_at p w.

#[export] Instance inert_ages_but p : Inert (ages_but p).
Proof.
  pose proof inert_ages as [? ? Hc ? ? ? ?].
  split; unfold ignores, ages_but; intros; try (split; [by apply ages_same|done]).
  - split; [by split|]. intros x y z [? E1] [? E2]. split; [by transitivity y|congruence].
  - intros w0. split; [by apply Hc|]. unfold onCache, zoom. by destruct (m (w_cache w0)).
Qed.

Lemma both_ages_but {A} (m : M World A) p :
  within ages m → within (same (ident_at p)) m → within (ages_but p) m.
Proof. intros H1 H2 w. split; [apply H1|apply H2]. Qed.

Lemma env_ages_but p :
  within (ages_but p) (_ ← loadUserInfo p; updateUserIdToClientMappingTable p).
Proof.
  assert (∀ f, assignment f → (∀ c, ident (f c) = ident c) → within (ages_but p) (upd_client p f)).
  { intros f Hf Hi. apply both_ages_but; [by apply upd_ages|]. apply within_ident_upd. auto. }
  assert (∀ u, within (ages_but p) (Remove u p)).
  { intros u. apply both_ages_but; [apply Remove_ages|]. intros w. rewrite Remove_run.
    unfold same, ident_at. simpl. by rewrite (proj1 (unregister_rest u p w)). }
  assert (∀ u, within (ages_but p) (AddClient u p)).
  { intros u. apply both_ages_but; [apply AddClient_ages|by intros w]. }
  assert (within (ages_but p) (upd_client p (λ c, with_PushId (uuid c) c))) by auto with within.
  assert (∀ s, within (ages_but p) (upd_client p (with_PushId s))) by auto with within.
  assert (∀ b, within (ages_but p) (upd_client p (with_notify b))) by auto with within.
  unfold loadUserInfo, updateUserIdToClientMappingTable. frame.
Qed.

Lemma initChatEnv_ages p uid w : named p w → ages w (initChatEnv p uid w).2.
Proof.
  intros (c & Hc & Hu). unfold initChatEnv. mstep (get_client_run p c w Hc).
  destruct (Z.eqb_spec (state c) CLIENT_STATE_CREATE) as [Hs|]; [|done]. cbn [negb].
  rewrite <- bind_assoc_run. pose proof (env_ages_but p w) as [Ha Hi].
  set (m := (_ ← loadUserInfo p; updateUserIdToClientMappingTable p)) in *.
  unfold mbind, M_bind. destruct (m w) as [[[]|e|] w1]; [|exact Ha..]. simpl in Ha, Hi.
  transitivity w1; [done|]. unfold ident_at in Hi. rewrite Hc in Hi.
  destruct (w_clients w1 !! p) as [c1|] eqn:Hc1; [|done]. simpl in Hi.
  unfold ident in Hi. injection Hi as Ht Hu1 _ Hs1.
  rewrite (upd_client_run p c1) by done. apply ages_upd; [done|]. split.
  - simpl. rewrite Hs1, Hs. apply rtc_once, life_init.
  - intros [H1 H2 H3]. split; simpl; [done|set_solver|congruence].
Qed.

Lemma new_client_ages w : ages w (new_client NewClient w).2.
Proof.
  intros p. simpl. rewrite lookup_insert. case_decide; [subst p|done].
  assert (w_clients w !! fresh (dom (w_clients w)) = None) as ->
    by apply not_elem_of_dom, is_fresh. done.
Qed.

Lemma go_step_ages w w' : reg_inv w → go_step w w' → ages w w'.
Proof.
  intros Hw Hgo. destruct Hgo as [w l1 t l2 Ht].
  transitivity (set_tasks (l1 ++ l2) w); [by apply ages_same|].
  destruct t as [cli op msg|cli op msg|cli uid|[q|] op msg]; cbn [run_task].
  - by apply ages_same.
  - by apply ages_same.
  - apply initChatEnv_ages. apply (proj1 (proj2 Hw) cli uid). rewrite Ht. set_solver.
  - assert (within ages (onRouter (WriteFormatMsg PushdConf q op msg))) as H
      by (unfold onRouter; frame). apply H.
  - done.
Qed.

Lemma sys_step_ages pr w w' : reg_inv w → sys_step pr w w' → ages w w'.
Proof.
  intros Hw Hstep. destruct Hstep as [w|p input w _|p w _|w w' Hgo|conn input w|w|w|sv w|vars w|vars w].
  - apply new_client_ages.
  - apply OnRead_ages.
  - apply Close_ages.
  - by apply go_step_ages.
  - apply (within_s2s_OnRead ages).
  - assert (within ages WaitMsg_round) as H by (unfold WaitMsg_round, onForward; frame). apply H.
  - assert (within ages (onQueue (chan_recv (A := MsgTuple)))) as H by frame. apply H.
  - assert (within ages (onRouter (watchPeers_event PushdConf sv))) as H
      by (unfold onRouter; frame). apply H.
  - apply within_ServePublish; [apply _|apply emit_ages].
  - apply within_ServeHistory, emit_ages.
Qed.

Lemma live_step_ages n pr w w' : reg_inv w → live_step n pr w w' → ages w w'.
Proof.
  intros Hw Hl. destruct Hl as [f w0 Hf|w0 w1 Hs]; [|by apply (sys_step_ages pr)].
  apply ages_same. by apply (boots_frame n f w0).
Qed.

Lemma live_rtc_ages n pr w w' : reg_inv w → rtc (live_step n pr) w w' → reg_inv w' ∧ ages w w'.
Proof.
  intros Hw Hr. induction Hr as [|w w1 w' Hs _ IH]; [done|].
  destruct (IH (live_step_inv n pr w w1 Hw Hs)) as [? ?]. split; [done|].
  transitivity w1; [by apply (live_step_ages n pr)|done].
Qed.

(** ** The registrations of a dead connection only disappear *)
Definition shrinks (p : ptr) (w w' : World) : Prop :=
  ∀ u, cmap_Get (w_uuids w') u = Some p → cmap_Get (w_uuids w) u = Some p.

Lemma shrinks_same p w w' : w_uuids w' = w_uuids w → shrinks p w w'.
Proof. intros E u. by rewrite E. Qed.

#[export] Instance inert_shrinks p : Inert (shrinks p).
Proof.
  split; unfold ignores; intros; try by apply shrinks_same.
  - split; [by intros w u|]. intros x y z H1 H2 u Hu. by apply H1, H2.
  - apply within_onCache. intros st w. by apply shrinks_same.
Qed.

Lemma upd_shrinks p q f : within (shrinks p) (upd_client q f).
Proof. apply within_upd_client; [apply _|]. intros. by apply shrinks_same. Qed.
Lemma spawn_shrinks p t : within (shrinks p) (spawn t).
Proof. intros w. by apply shrinks_same. Qed.
Lemma emit_shrinks p e : within (shrinks p) (emit e).
Proof. intros w. by apply shrinks_same. Qed.
Lemma Remove_shrinks p u q : within (shrinks p) (Remove u q).
Proof. intros w v. rewrite Remove_run. simpl. rewrite unregister_Get. by case_decide. Qed.
Lemma AddClient_shrinks p u q : q ≠ p → within (shrinks p) (AddClient u q).
Proof.
  intros Hne w v. unfold AddClient, modify. simpl. rewrite cmap_Get_Set.
  case_decide; [congruence|done].
Qed.
Hint Resolve upd_shrinks spawn_shrinks emit_shrinks Remove_shrinks : within.

Lemma initChatEnv_shrinks p uid w :
  (∀ c, w_clients w !! p = Some c → state c ≠ CLIENT_STATE_CREATE) →
  shrinks p w (initChatEnv p uid w).2.
Proof.
  intros Hp. unfold initChatEnv, mbind, M_bind. destruct (w_clients w !! p) as [c|] eqn:Hc.
  - rewrite (get_client_run p c w Hc).
    rewrite (proj2 (Z.eqb_neq _ _) (Hp c eq_refl)). by apply shrinks_same.
  - unfold get_client. mred. rewrite Hc. by apply shrinks_same.
Qed.

(** Only its own [initChatEnv] registers a connection. *)
Definition registers (p : ptr) (w w' : World) : Prop :=
  ∃ uid w0, w_clients w0 = w_clients w ∧ w_uuids w0 = w_uuids w ∧ w_tasks w0 ⊆ w_tasks w
    ∧ GoInitChatEnv p uid ∈ w_tasks w ∧ w' = (initChatEnv p uid w0).2.

Lemma go_step_registry p w w' : go_step w w' → shrinks p w w' ∨ registers p w w'.
Proof.
  intros Hgo. destruct Hgo as [w l1 t l2 Ht].
  destruct t as [cli op msg|cli op msg|cli uid|[q|] op msg]; cbn [run_task];
    try (left; by apply shrinks_same).
  - destruct (decide (cli = p)) as [->|Hne].
    + right. exists uid, (set_tasks (l1 ++ l2) w). rewrite Ht. split_and!; try done; set_solver.
    + left. pose proof (λ u, AddClient_shrinks p u cli Hne) as Hadd.
      assert (within (shrinks p) (initChatEnv cli uid)) as H; [|apply (H (set_tasks (l1 ++ l2) w))].
      unfold initChatEnv, loadUserInfo, updateUserIdToClientMappingTable. frame.
  - left. assert (within (shrinks p) (onRouter (WriteFormatMsg PushdConf q op msg))) as H
      by (unfold onRouter; frame). apply (H (set_tasks (l1 ++ l2) w)).
Qed.

Lemma sys_step_registry pr p w w' : sys_step pr w w' → shrinks p w w' ∨ registers p w w'.
Proof.
  intros Hstep. destruct Hstep as [w|q input w _|q w _|w w' Hgo|conn input w|w|w|sv w|vars w|vars w];
    [left|left|left|by apply go_step_registry|left..].
  - by apply shrinks_same.
  - assert (within (shrinks p) (OnRead pr q input)) as H; [|apply H].
    apply within_OnRead; intros;
      first [apply _ | solve [eauto with within] | intros w1; apply shrinks_same, Process_uuids].
  - assert (within (shrinks p) (Close q)) as H; [|apply H].
    unfold Close, UnsubscribeAllChannels. frame.
  - apply (within_s2s_OnRead (shrinks p)).
  - assert (within (shrinks p) WaitMsg_round) as H
      by (unfold WaitMsg_round, onForward; frame). apply H.
  - assert (within (shrinks p) (onQueue (chan_recv (A := MsgTuple)))) as H by frame. apply H.
  - assert (within (shrinks p) (onRouter (watchPeers_event PushdConf sv))) as H
      by (unfold onRouter; frame). apply H.
  - apply within_ServePublish; [apply _|apply emit_shrinks].
  - apply within_ServeHistory, emit_shrinks.
Qed.

Lemma live_step_registry n pr p w w' : live_step n pr w w' → shrinks p w w' ∨ registers p w w'.
Proof.
  intros Hl. destruct Hl as [f w0 Hf|w0 w1 Hs]; [|by apply (sys_step_registry pr)].
  left. apply shrinks_same. by apply (boots_frame n f w0).
Qed.

Lemma live_step_shrinks n pr p w w' :
  (∀ c, w_clients w !! p = Some c → state c ≠ CLIENT_STATE_CREATE) →
  live_step n pr w w' → shrinks p w w'.
Proof.
  intros Hp Hl. destruct (live_step_registry n pr p w w' Hl) as [H|(uid & w0 & Hc & Hu & _ & _ & ->)];
    [exact H|].
  assert (shrinks p w0 (initChatEnv p uid w0).2) as Hs
    by (apply initChatEnv_shrinks; by rewrite Hc).
  intros u Hg. rewrite <- Hu. by apply Hs.
Qed.

Lemma dead_shrinks n pr p c w w' :
  reg_inv w → w_clients w !! p = Some c → state c = CLIENT_STATE_DEAD →
  rtc (live_step n pr) w w' → shrinks p w w'.
Proof.
  intros Hw Hc Hd Hr. revert c Hc Hd.
  induction Hr as [w|w w1 w' Hs _ IH]; intros c Hc Hd; [done|].
  transitivity w1.
  - apply (live_step_shrinks n pr); [|done]. intros c1 Hc1. rewrite Hc in Hc1.
    injection Hc1 as <-. by rewrite Hd.
  - pose proof (live_step_ages n pr w w1 Hw Hs p) as Ha. rewrite Hc in Ha.
    destruct (w_clients w1 !! p) as [c1|] eqn:Hc1; [|done].
    apply (IH (live_step_inv n pr w w1 Hw Hs) c1 eq_refl). apply life_dead.
    rewrite <- Hd. apply Ha.
Qed.

(** ** The connections that are registered *)








Lemma NewClient_ok : client_ok NewClient.
Proof. split; simpl; [done|set_solver|done]. Qed.

(** ** Properties *)



(** (C15) A connection lives once: whatever happens in the server, a connection
    object never disappears, and its state only moves from created to
    initialised to dead or directly from created to dead.  Once it is dead it
    stays dead, and no user id is ever registered to it any more, however late
    its own goroutine runs. *)
Theorem connection_lifecycle (n : net) (pr : PushdClientProcessor) (b : Base)
    (k k' : nat) (d d' : daemon) (p : ptr) (c : Client)
    (Hr : rtc (daemon_step n pr) (0%nat, initialised b) (k, d))
    (Hr' : rtc (daemon_step n pr) (k, d) (k', d'))
    (Hc : w_clients (d_world d) !! p = Some c) :
  ∃ c', w_clients (d_world d') !! p = Some c' ∧ rtc life_step (state c) (state c')
    ∧ (state c = CLIENT_STATE_DEAD →
       state c' = CLIENT_STATE_DEAD
       ∧ ∀ u, cmap_Get (w_uuids (d_world d')) u = Some p → cmap_Get (w_uuids (d_world d)) u = Some p).
Proof.
  apply daemon_live, (live_rtc_inv _ _ _ _ (reg_inv_initialised b)) in Hr. apply daemon_live in Hr'.
  simpl in Hr, Hr'. destruct (live_rtc_ages n pr _ _ Hr Hr') as [_ Ha]. specialize (Ha p).
  rewrite Hc in Ha.
  destruct (w_clients (d_world d') !! p) as [c'|]; [|done]. destruct Ha as [Hl _].
  exists c'. split_and!; [done|done|]. intros Hd.
  split; [rewrite Hd in Hl; by apply life_dead|by apply (dead_shrinks n pr p c)].
Qed.

(** (C16) The fields of a connection are well typed in every reachable state: the
    type is a combination of the client and the server bit, the state is one of
    its three constants, and an initialised connection has a user id. *)
Theorem connection_types (n : net) (pr : PushdClientProcessor) (b : Base) (k : nat) (d : daemon)
    (p : ptr) (c : Client)
    (Hr : rtc (daemon_step n pr) (0%nat, initialised b) (k, d))
    (Hc : w_clients (d_world d) !! p = Some c) :
  client_ok c.
Proof.
  apply daemon_live, (live_rtc_ages _ _ _ _ (reg_inv_initialised b)) in Hr as [_ Ha].
  specialize (Ha p). simpl in Ha. rewrite lookup_empty in Ha. rewrite Hc in Ha.
  apply (ev_ok _ _ Ha), NewClient_ok.
Qed.
End lifecycle.

Import Ref.
#[local] Existing Instances example_conf example_etc.

(** The connection of the invariant's example hangs up. *)
Definition example_closed : World (EX := ref_externals) (NT := ref_net) :=
  (Close (CF := example_conf) 0 example_w3).2.


Lemma connection_lifecycle_witness :
  ∃ c c', w_clients example_w3 !! 0%nat = Some c ∧ w_clients example_closed !! 0%nat = Some c'
          ∧ state c = CLIENT_STATE_INIT_DOEN ∧ state c' = CLIENT_STATE_DEAD
          ∧ rtc life_step (state c) (state c').
Proof.
  set (c := mkClient ∅ 0 "u7" (mkToken "" 0) "" false CLIENT_STATE_INIT_DOEN).
  assert (w_clients example_w3 !! 0%nat = Some c) as Hc by (vm_compute; reflexivity).
  destruct (connection_lifecycle (EX := ref_externals) (NT := ref_net) (CF := example_conf)
    no_net example_open example_base 5 5 (serving example_w3) (serving example_closed) 0%nat c
    example_trace) as (c' & Hc' & Hl & _).
  - exact (serves no_net example_open 5 example_up example_w3 example_closed example_serving
             (rtc_once _ _ (sys_close example_open 0%nat example_w3 (ex_intro _ c Hc)))).
  - exact Hc.
  - change (w_clients example_closed !! 0%nat = Some c') in Hc'.
    exists c, c'. split_and!; [exact Hc|exact Hc'|reflexivity| |exact Hl].
    assert (w_clients example_closed !! 0%nat = Some (with_state CLIENT_STATE_DEAD c)) as Hd
      by (vm_compute; reflexivity).
    rewrite Hd in Hc'. injection Hc' as <-. reflexivity.
Defined.

Lemma connection_types_witness :
  ∃ c, w_clients example_w3 !! 0%nat = Some c ∧ client_ok c.
Proof.
  set (c := mkClient ∅ 0 "u7" (mkToken "" 0) "" false CLIENT_STATE_INIT_DOEN).
  assert (w_clients example_w3 !! 0%nat = Some c) as Hc by (vm_compute; reflexivity).
  exists c. split; [exact Hc|].
  exact (connection_types (EX := ref_externals) (NT := ref_net) (CF := example_conf)
    no_net example_open example_base 5 (serving example_w3) 0%nat c example_trace Hc).
Defined.
