(* ===== verification/Registry.v ===== *)
(** * The registry of users between goroutines (engine/pubsub.go, engine/client.go)

    [Client] treats [initChatEnv] and [Close] as atomic.  Here the two run step by
    step over the state of the whole server, any number of them at once, while
    connections are accepted, commands read, messages forwarded and goroutines
    scheduled: each holds the [clientLock] of its connection;
    [UuidClientMap.Remove] looks the user up, locks the connection it found, looks
    again and deletes; [Close] cleans up the frame chats of the user one after the
    other, and may wait for room in the forward queue in the middle of that; and
    either may panic. *)
From S2P Require Import Prelude GoStrings Wire Deps RefDeps Config Base SenderPool UserIdCache Storage.
From S2P Require Import Router World PubSub Client Rooms Auth Mail Commands S2s LongPoll Server Daemon.
From S2P Require Import Invariant Lifecycle.

Local Open Scope string_scope.
Local Open Scope list_scope.

Section registry.
  Context {EX : Externals} {NT : Net} {CF : Global}.

(** ** The pieces of [Close]

    [clearFrameChat] asks the database for the frame chats of the user; then, for
    each of them, the user is taken out, and where that ends the chat a notice is
    pushed to the members connected here ([chat_over] returns what is left to
    do) and forwarded to the other servers. *)
Definition frame_chats (this : ptr) : M World (list value) :=
  c ← get_client this;
  r ← onBase (findOne (C "user_info") (by_id (uuid c))
                (VDoc [("frame_chat", VInt 1); ("_id", VInt 0)]));
  match r with
  | inl _ => mret []
  | inr result => v ← doc_get result "frame_chat"; as_arr v
  end.

Definition chat_over (this : ptr) (id : value) : M World (option (list byte)) :=
  objectId ← as_oid id;
  let channelId := Hex objectId in
  c ← get_client this;
  r ← pull_active objectId (uuid c);
  match r with
  | inl _ => mret None
  | inr result =>
      err0 ← remove_empty objectId;
      match err0 with
      | Some _ => mret None
      | None =>
          v ← doc_get result "channelId";
          realChannelId ← as_str v;
          UUIDs ← onBase (FetchUuidsAboutChannel realChannelId);
          _ ← onBase (bulkUpsert (C "user_info")
                (for_each UUIDs (VDoc [("$pull", VDoc [("frame_chat", VOid objectId)])])));
          let notice := spaced [OUTPUT_FRAME_CHAT; CMD_FRAME_DISMISS +:+ "2"; fmt_d (-1); uuid c; channelId] in
          _ ← pushToNativeClient OUTPUT_RCIV realChannelId (uuid c) (bytes_of_string notice);
          mret (Some (bytes_of_string (spaced [realChannelId; notice])))
      end
  end.

Definition forward_notice (m : list byte) : M World unit :=
  forwardToAllOtherServer S2S_PUSH_STRING_MESSAGE m.

Lemma clearFrameChat1_split p id w :
  clearFrameChat1 p id w =
    (r ← chat_over p id; match r with Some m => forward_notice m | None => mret tt end) w.
Proof.
  unfold clearFrameChat1, chat_over. rewrite bind_assoc_run. apply bind_ext_run. intros o w1.
  cbv zeta. rewrite bind_assoc_run. apply bind_ext_run. intros c w2.
  rewrite bind_assoc_run. apply bind_ext_run. intros [e|result] w3; [done|].
  rewrite bind_assoc_run. apply bind_ext_run. intros [e|] w4; [done|].
  unfold frame_over, PublishStrMsg, forward_notice. rewrite bind_assoc_run. apply bind_ext_run. intros v w5.
  rewrite bind_assoc_run. apply bind_ext_run. intros ch w6.
  rewrite bind_assoc_run. apply bind_ext_run. intros us w7.
  rewrite bind_assoc_run. apply bind_ext_run. intros b w8.
  rewrite bind_assoc_run. apply bind_ext_run. by intros [] w9.
Qed.

Lemma clearFrameChat_split p w :
  clearFrameChat p w = (ids ← frame_chats p; mapM_ (clearFrameChat1 p) ids) w.
Proof.
  unfold clearFrameChat, frame_chats. rewrite bind_assoc_run. apply bind_ext_run. intros c w1.
  rewrite bind_assoc_run. apply bind_ext_run. intros [e|result] w2; [done|].
  rewrite bind_assoc_run. apply bind_ext_run. intros v w3. apply bind_ext_run. intros [|id ids] w4; done.
Qed.

(** ** The goroutines *)

(** The two functions that use the registry. *)
Inductive user_op : Type := OpEnv (* initChatEnv *) | OpClose (* Close *).

(** Program points of a goroutine working for connection [p]; [u] is the parameter
    [uuid] of [Remove] and [AddClient], [q] the variable [cli] of [Remove]. *)
Inductive pc : Type :=
| Start (o : user_op) (p : ptr)                 (* this.clientLock.Lock() *)
| Enter (o : user_op) (p : ptr)                 (* the test, or the assignment, of this.state *)
| Load (p : ptr)                                (* this.loadUserInfo() *)
| Test (p : ptr)                                (* if this.IsClient() *)
| Chats (p : ptr)                               (* the query of clearFrameChat *)
| Chat (p : ptr) (ids : list value)             (* its loop; UnsubscribeAllChannels *)
| Forward (p : ptr) (m : list byte) (ids : list value) (* PublishStrMsg, to the other servers *)
| Arg (o : user_op) (p : ptr)                   (* the argument this.uuid of Remove *)
| Get1 (o : user_op) (p : ptr) (u : string)     (* cli, exists := this.GetClient(uuid) *)
| Lock (o : user_op) (p : ptr) (u : string) (q : ptr)   (* cli.Mutex.Lock() *)
| Get2 (o : user_op) (p : ptr) (u : string) (q : ptr)   (* cli, _ = this.GetClient(uuid) *)
| Del (o : user_op) (p : ptr) (u : string) (q : ptr)    (* this.uuidToClient.Remove(uuid) *)
| Unlock (o : user_op) (p q : ptr)              (* the deferred cli.Mutex.Unlock() *)
| AddArg (p : ptr)                              (* the argument this.uuid of AddClient *)
| Add (p : ptr) (u : string)                    (* UuidToClient.AddClient *)
| SetState (p : ptr)                            (* this.state = CLIENT_STATE_INIT_DOEN *)
| Conn (p : ptr)                                (* this.Client.Close() *)
| Leave (p : ptr)                               (* the deferred this.clientLock.Unlock() *)
| Unwind (o : user_op) (p : ptr)                (* the same, while panicking *)
| Crashed (o : user_op) (p : ptr)
| Done.

(** The server, the locks that are taken, and the connections that are served:
    those whose [OnAccept] has not called [Close] yet. *)
Record shared : Type := mkShared {
  sw : World;
  clientLocks : gset ptr;
  mutexes : gset ptr;
  opened : gset ptr
}.
Definition set_world (w : World) (s : shared) : shared :=
  mkShared w (clientLocks s) (mutexes s) (opened s).
Definition set_clientLocks (l : gset ptr) (s : shared) : shared :=
  mkShared (sw s) l (mutexes s) (opened s).
Definition set_mutexes (l : gset ptr) (s : shared) : shared :=
  mkShared (sw s) (clientLocks s) l (opened s).
Definition set_opened (l : gset ptr) (s : shared) : shared :=
  mkShared (sw s) (clientLocks s) (mutexes s) l.

(** A call, and where the goroutine goes on when it returns.  A panic runs the
    deferred calls; a call that blocks has not been made yet. *)
Definition act {A} (o : user_op) (p : ptr) (m : M World A) (k : A → pc) (s : shared)
    : option (shared * pc) :=
  match m (sw s) with
  | (Ret a, w) => Some (set_world w s, k a)
  | (Panic _, w) => Some (set_world w s, Unwind o p)
  | (Block, _) => None
  end.

(** What follows [UuidToClient.Remove(this.uuid, this)]. *)
Definition after_Remove (o : user_op) (p : ptr) : pc :=
  match o with OpEnv => AddArg p | OpClose => Conn p end.

(** One step of a goroutine; [None] while it waits, or has ended. *)
Definition pc_step (s : shared) (c : pc) : option (shared * pc) :=
  match c with
  | Start o p =>
      if decide (p ∈ clientLocks s) then None
      else Some (set_clientLocks ({[p]} ∪ clientLocks s) s, Enter o p)
  | Enter OpEnv p =>
      act OpEnv p (get_client p)
        (λ c, if negb (state c =? CLIENT_STATE_CREATE)%Z then Leave p else Load p) s
  | Load p => act OpEnv p (loadUserInfo p) (λ _, Arg OpEnv p) s
  | Enter OpClose p => act OpClose p (upd_client p (with_state CLIENT_STATE_DEAD)) (λ _, Test p) s
  | Test p => act OpClose p (get_client p) (λ c, if IsClient c then Chats p else Conn p) s
  | Chats p => act OpClose p (frame_chats p) (Chat p) s
  | Chat p [] => act OpClose p (UnsubscribeAllChannels p) (λ _, Arg OpClose p) s
  | Chat p (id :: ids) =>
      act OpClose p (chat_over p id)
        (λ r, match r with Some m => Forward p m ids | None => Chat p ids end) s
  | Forward p m ids => act OpClose p (forward_notice m) (λ _, Chat p ids) s
  | Arg o p => act o p (get_client p) (λ c, Get1 o p (uuid c)) s
  | Get1 o p u =>
      Some (s, match cmap_Get (w_uuids (sw s)) u with
               | Some q => Lock o p u q
               | None => after_Remove o p
               end)
  | Lock o p u q =>
      if decide (q ∈ mutexes s) then None
      else Some (set_mutexes ({[q]} ∪ mutexes s) s, Get2 o p u q)
  | Get2 o p u q =>
      Some (s, if bool_decide (cmap_Get (w_uuids (sw s)) u = Some p)
               then Del o p u q else Unlock o p q)
  | Del o p u q =>
      Some (set_world (set_uuids (cmap_Remove (w_uuids (sw s)) u) (sw s)) s, Unlock o p q)
  | Unlock o p q => Some (set_mutexes (mutexes s ∖ {[q]}) s, after_Remove o p)
  | AddArg p => act OpEnv p (get_client p) (λ c, Add p (uuid c)) s
  | Add p u => act OpEnv p (AddClient u p) (λ _, SetState p) s
  | SetState p => act OpEnv p (upd_client p (with_state CLIENT_STATE_INIT_DOEN)) (λ _, Leave p) s
  | Conn p => act OpClose p (emit (EClose p)) (λ _, Leave p) s
  | Leave p => Some (set_clientLocks (clientLocks s ∖ {[p]}) s, Done)
  | Unwind o p => Some (set_clientLocks (clientLocks s ∖ {[p]}) s, Crashed o p)
  | Crashed _ _ | Done => None
  end.

Record sys : Type := mkSys { sh : shared; threads : gmap nat pc }.
Definition on_world (f : World → World) (s : sys) : sys :=
  mkSys (set_world (f (sw (sh s))) (sh s)) (threads s).

(** ** The server

    A connection is accepted; one that is served reads a command or ends and is
    closed by a goroutine of its own ([OnAccept] waits for [Close]); a goroutine
    started by [setuuid] begins; one of these goroutines takes a step; and
    everything else that goes on in the process: other goroutines, the loops of
    [WaitMsg] and [Serv], other servers, HTTP requests, etcd, the statements of
    [main]. *)
Inductive step (n : net) (pr : PushdClientProcessor) (s : sys) : sys → Prop :=
| st_accept :
    step n pr s (mkSys (set_opened ({[fresh (dom (w_clients (sw (sh s))))]} ∪ opened (sh s))
                          (set_world (new_client NewClient (sw (sh s))).2 (sh s))) (threads s))
| st_read p input :
    p ∈ opened (sh s) → step n pr s (on_world (λ w, (OnRead pr p input w).2) s)
| st_close t p :
    p ∈ opened (sh s) → threads s !! t = None →
    step n pr s (mkSys (set_opened (opened (sh s) ∖ {[p]}) (sh s)) (<[t := Start OpClose p]> (threads s)))
| st_env t p uid l1 l2 :
    w_tasks (sw (sh s)) = l1 ++ GoInitChatEnv p uid :: l2 → threads s !! t = None →
    step n pr s (mkSys (set_world (set_tasks (l1 ++ l2) (sw (sh s))) (sh s))
                   (<[t := Start OpEnv p]> (threads s)))
| st_thread t c s' c' :
    threads s !! t = Some c → pc_step (sh s) c = Some (s', c') →
    step n pr s (mkSys s' (<[t := c']> (threads s)))
| st_task l1 t l2 :
    w_tasks (sw (sh s)) = l1 ++ t :: l2 → is_write t →
    step n pr s (on_world (λ w, (run_task t (set_tasks (l1 ++ l2) w)).2) s)
| st_s2s conn input : step n pr s (on_world (λ w, (s2s_OnRead conn input w).2) s)
| st_forward : step n pr s (on_world (λ w, (WaitMsg_round w).2) s)
| st_store : step n pr s (on_world (λ w, (onQueue chan_recv w).2) s)
| st_peers servers :
    step n pr s (on_world (λ w, (onRouter (watchPeers_event PushdConf servers) w).2) s)
| st_publish vars : step n pr s (on_world (λ w, (ServePublish vars w).2) s)
| st_history vars : step n pr s (on_world (λ w, (ServeHistory vars w).2) s)
| st_boot f : f ∈ boots n → step n pr s (on_world f s).

(** What [init] leaves behind. *)
Definition started (b : Base) : sys := mkSys (mkShared (d_world (initialised b)) ∅ ∅ ∅) ∅.

(** Everything has come to its end. *)
Definition quiescent (s : sys) : Prop :=
  ∀ t c, threads s !! t = Some c → c = Done ∨ ∃ o p, c = Crashed o p.

(** ** What goroutines and steps can change *)

(** What matters of a connection: its state, whether it is a client, its user. *)
Definition mode (c : Client) : Z * bool * string := (state c, IsClient c, uuid c).
Definition modes (w : World) : gmap ptr (Z * bool * string) := mode <$> w_clients w.
Definition with_mode_state (z : Z) (m : Z * bool * string) : Z * bool * string := (z, m.1.2, m.2).

(** Neither the registry nor a mode changes. *)
Abbreviation quiet := (same (λ w : World, (w_uuids w, modes w))).

#[local] Instance inert_quiet : Inert quiet.
Proof. by apply inert_same. Qed.

Lemma modes_upd p f w c :
  w_clients w !! p = Some c → modes (set_clients (<[p := f c]> (w_clients w)) w) = <[p := mode (f c)]> (modes w).
Proof. intros _. unfold modes. simpl. by rewrite fmap_insert. Qed.

Lemma upd_quiet p f : (∀ c, mode (f c) = mode c) → within quiet (upd_client p f).
Proof.
  intros Hf. apply within_upd_client; [apply _|]. intros w c Hc. unfold same.
  rewrite (modes_upd p f w c Hc). f_equal. simpl. apply insert_id. unfold modes.
  by rewrite lookup_fmap, Hc, Hf.
Qed.

Lemma loadUserInfo_quiet p : within quiet (loadUserInfo p).
Proof.
  assert (within quiet (upd_client p (λ c, with_PushId (uuid c) c))) by by apply upd_quiet.
  assert (∀ x, within quiet (upd_client p (with_PushId x))) by (intros; by apply upd_quiet).
  assert (∀ b, within quiet (upd_client p (with_notify b))) by (intros; by apply upd_quiet).
  unfold loadUserInfo. frame.
Qed.

Lemma frame_chats_quiet p : within quiet (frame_chats p).
Proof. unfold frame_chats. frame. Qed.

Lemma chat_over_quiet p id : within quiet (chat_over p id).
Proof. unfold chat_over. frame. Qed.

Lemma forward_quiet m : within quiet (forward_notice m).
Proof. unfold forward_notice. frame. Qed.

(** ** Alone

    When no other goroutine is in the way, the steps are those of [Close] and
    [initChatEnv] as [Client] defines them. *)
Definition solo (x y : shared * pc) : Prop := pc_step x.1 x.2 = Some y.

Lemma act_run {A} o p (m : M World A) k a w' w L X O :
  m w = (Ret a, w') → act o p m k (mkShared w L X O) = Some (mkShared w' L X O, k a).
Proof. intros H. unfold act. simpl. by rewrite H. Qed.

Lemma bind_returned {S A B} (m : M S A) (f : A → M S B) s b s' :
  (m ≫= f) s = (Ret b, s') → ∃ a s1, m s = (Ret a, s1) ∧ f a s1 = (Ret b, s').
Proof. unfold mbind, M_bind. destruct (m s) as [[a|e|] s1]; try done. eauto. Qed.

Lemma solo_act {A} o p (m : M World A) k c a w w' L X O y :
  m w = (Ret a, w') → (∀ s, pc_step s c = act o p m k s) →
  rtc solo (mkShared w' L X O, k a) y → rtc solo (mkShared w L X O, c) y.
Proof. intros Hm Hc Hr. eapply rtc_l; [|exact Hr]. unfold solo. simpl. rewrite Hc. by apply act_run. Qed.

Lemma remove_alone o p u w w' L O y :
  Remove u p w = (Ret tt, w') →
  rtc solo (mkShared w' L ∅ O, after_Remove o p) y → rtc solo (mkShared w L ∅ O, Get1 o p u) y.
Proof.
  unfold Remove, GetClient. mred. intros H Hr. eapply rtc_l; [done|]. cbn [fst sw].
  destruct (cmap_Get (w_uuids w) u) as [q|] eqn:Hg; [|by injection H as <-].
  rewrite Hg in H. eapply rtc_l; [unfold solo; simpl; rewrite decide_False by set_solver; done|].
  eapply rtc_l; [done|]. cbn [fst sw set_mutexes]. rewrite Hg.
  assert (({[q]} ∪ ∅ : gset ptr) ∖ {[q]} = ∅) as E by set_solver.
  case_bool_decide; injection H as <-.
  - eapply rtc_l; [done|]. eapply rtc_l; [done|]. simpl. by rewrite E.
  - eapply rtc_l; [done|]. simpl. by rewrite E.
Qed.

Lemma chats_alone p ids w w' L O y :
  mapM_ (clearFrameChat1 p) ids w = (Ret tt, w') →
  rtc solo (mkShared w' L ∅ O, Chat p []) y → rtc solo (mkShared w L ∅ O, Chat p ids) y.
Proof.
  intros H Hr. revert w H. induction ids as [|id ids IH]; intros w H; [by injection H as <-|].
  cbn [mapM_] in H. apply bind_returned in H as ([] & w1 & H1 & H2). rewrite clearFrameChat1_split in H1.
  apply bind_returned in H1 as ([m|] & w0 & H0 & H1); (eapply solo_act; [exact H0|done|]).
  - eapply solo_act; [exact H1|done|]. by apply IH.
  - injection H1 as <-. by apply IH.
Qed.

Lemma same_user p c w w' :
  get_client p w = (Ret c, w) → quiet w w' → ∃ c', get_client p w' = (Ret c', w') ∧ mode c' = mode c.
Proof.
  unfold get_client, same. mred. intros Hc [= _ Hm]. apply (f_equal (lookup p)) in Hm. unfold modes in Hm.
  rewrite !lookup_fmap in Hm. destruct (w_clients w !! p) as [c0|]; [|done]. injection Hc as ->.
  destruct (w_clients w' !! p) as [c'|]; [|done]. exists c'. split; [done|]. by apply (inj Some).
Qed.

Lemma clearFrameChat1_quiet p id : within quiet (clearFrameChat1 p id).
Proof.
  intros w. rewrite clearFrameChat1_split. revert w. apply within_bind; [apply _|apply chat_over_quiet|].
  intros [m|]; [apply forward_quiet|by intros w].
Qed.

Lemma close_alone p w w' L O :
  p ∉ L → Close p w = (Ret tt, w') →
  rtc solo (mkShared w L ∅ O, Start OpClose p) (mkShared w' L ∅ O, Done).
Proof.
  intros Hp H. eapply rtc_l; [unfold solo; simpl; by rewrite decide_False|].
  assert (({[p]} ∪ L) ∖ {[p]} = L) as E by set_solver.
  apply bind_returned in H as ([] & w1 & H1 & H). eapply solo_act; [exact H1|done|].
  apply bind_returned in H as (c & w2 & H2 & H). eapply solo_act; [exact H2|done|].
  apply bind_returned in H as ([] & w3 & H3 & H).
  assert (rtc solo (mkShared w3 ({[p]} ∪ L) ∅ O, Conn p) (mkShared w' L ∅ O, Done)) as Hend.
  { eapply solo_act; [exact H|done|]. apply rtc_once. unfold solo, set_clientLocks. simpl. by rewrite E. }
  destruct (IsClient c); [|injection H3 as <-; exact Hend].
  apply bind_returned in H3 as ([] & w4 & H4 & H3). rewrite clearFrameChat_split in H4.
  apply bind_returned in H4 as (ids & w5 & H5 & H4). eapply solo_act; [exact H5|done|].
  eapply chats_alone; [exact H4|].
  apply bind_returned in H3 as (r & w6 & H6 & H3). eapply solo_act; [exact H6|done|].
  assert (w2 = w1) as ->.
  { revert H2. unfold get_client. mred. destruct (w_clients w1 !! p); by intros [= _ <-]. }
  destruct (same_user p c w1 w6) as (c' & Hc' & Hu); [done| |].
  { pose proof (frame_chats_quiet p w1) as Q1. pose proof (within_mapM_ quiet (clearFrameChat1 p) ids) as Q2.
    specialize (Q2 (clearFrameChat1_quiet p) w5). rewrite H5 in Q1. rewrite H4 in Q2. injection H6 as _ <-.
    by etransitivity. }
  eapply solo_act; [exact Hc'|done|]. unfold mode in Hu. injection Hu as _ _ Hu. cbn beta. rewrite Hu.
  by eapply remove_alone.
Qed.

Lemma initChatEnv_alone p uid w w' L O :
  p ∉ L → initChatEnv p uid w = (Ret tt, w') →
  rtc solo (mkShared w L ∅ O, Start OpEnv p) (mkShared w' L ∅ O, Done).
Proof.
  intros Hp H. eapply rtc_l; [unfold solo; simpl; by rewrite decide_False|].
  assert (({[p]} ∪ L) ∖ {[p]} = L) as E by set_solver.
  assert (∀ w0, rtc solo (mkShared w0 ({[p]} ∪ L) ∅ O, Leave p) (mkShared w0 L ∅ O, Done)) as Hend.
  { intros w0. apply rtc_once. unfold solo, set_clientLocks. simpl. by rewrite E. }
  apply bind_returned in H as (c & w1 & H1 & H). eapply solo_act; [exact H1|done|]. cbn beta.
  destruct (negb _); [injection H as <-; apply Hend|].
  apply bind_returned in H as (r & w2 & H2 & H). eapply solo_act; [exact H2|done|]. cbn beta.
  apply bind_returned in H as ([] & w3 & H3 & H). cbn [mutexes opened].
  apply bind_returned in H3 as (c2 & w4 & H4 & H3). eapply solo_act; [exact H4|done|]. cbn [mutexes opened].
  apply bind_returned in H3 as ([] & w5 & H5 & H3). eapply remove_alone; [exact H5|]. cbn [after_Remove].
  assert (get_client p w5 = (Ret c2, w5)) as H6.
  { apply get_client_run. transitivity (w_clients w4 !! p).
    - revert H5. unfold Remove, GetClient. mred. destruct (cmap_Get _ _); [|by intros [= <-]].
      case_bool_decide; by intros [= <-].
    - revert H4. unfold get_client. mred. destruct (w_clients w2 !! p) eqn:E2; [|done]. by intros [= -> <-]. }
  eapply solo_act; [exact H6|done|]. cbn [mutexes opened]. eapply solo_act; [exact H3|done|].
  cbn [mutexes opened]. eapply solo_act; [exact H|done|]. apply Hend.
Qed.

(** ** One step of a goroutine *)
Lemma act_inv {A} o p (m : M World A) k s s' c' :
  act o p m k s = Some (s', c') →
  s' = set_world (m (sw s)).2 s
  ∧ ((∃ a, m (sw s) = (Ret a, (m (sw s)).2) ∧ c' = k a) ∨ c' = Unwind o p).
Proof.
  unfold act. destruct (m (sw s)) as [[a|e|] w]; intros [= <- <-]; (split; [done|]); [left; by eexists|by right].
Qed.

(** A step takes at most one [clientLock], its own, and gives back at most that. *)
Definition holds_client (c : pc) : option ptr :=
  match c with
  | Start _ _ | Crashed _ _ | Done => None
  | Enter _ p | Load p | Test p | Chats p | Chat p _ | Forward p _ _ | Arg _ p | Get1 _ p _
  | Lock _ p _ _ | Get2 _ p _ _ | Del _ p _ _ | Unlock _ p _ | AddArg p | Add p _ | SetState p
  | Conn p | Leave p | Unwind _ p => Some p
  end.
Definition holds_mutex (c : pc) : option ptr :=
  match c with Get2 _ _ _ q | Del _ _ _ q | Unlock _ _ q => Some q | _ => None end.

Definition uuids_after (c : pc) (m : cmap ptr) : cmap ptr :=
  match c with
  | Del _ _ u _ => cmap_Remove m u
  | Add p u => cmap_Set m u p
  | _ => m
  end.
Definition modes_after (c : pc) (m : gmap ptr (Z * bool * string)) : gmap ptr (Z * bool * string) :=
  match c with
  | Enter OpClose p => alter (with_mode_state CLIENT_STATE_DEAD) p m
  | SetState p => alter (with_mode_state CLIENT_STATE_INIT_DOEN) p m
  | _ => m
  end.

Lemma upd_state_modes p z w :
  modes (upd_client p (with_state z) w).2 = alter (with_mode_state z) p (modes w)
  ∧ w_uuids (upd_client p (with_state z) w).2 = w_uuids w.
Proof.
  unfold upd_client, get_client, put_client. mred.
  destruct (w_clients w !! p) as [c|] eqn:Hc; simpl.
  - split; [|done]. rewrite (modes_upd p (with_state z) w c Hc). apply map_eq. intros q.
    destruct (decide (p = q)) as [<-|Hne].
    + rewrite lookup_insert_eq, lookup_alter_eq. unfold modes. by rewrite lookup_fmap, Hc.
    + by rewrite lookup_insert_ne, lookup_alter_ne.
  - split; [|done]. symmetry. apply map_eq. intros q. destruct (decide (p = q)) as [<-|Hne].
    + rewrite lookup_alter_eq. unfold modes. by rewrite lookup_fmap, Hc.
    + by rewrite lookup_alter_ne.
Qed.

Ltac step_cases :=
  repeat match goal with
  | H : Some _ = Some _ |- _ => injection H as H; subst
  | H : (_, _) = (_, _) |- _ => injection H as ? ?; subst
  | H : (if decide ?P then _ else _) = Some _ |- _ => destruct (decide P)
  | H : None = Some _ |- _ => discriminate H
  | H : act _ _ _ _ _ = Some _ |- _ => apply act_inv in H as [-> [(? & ? & ->)| ->]]
  end.
Ltac pc_cases c :=
  destruct c as [o p|[] p|p|p|p|p [|id ids]|p m ids|o p|[] p u|o p u q|o p u q|o p u q|[] p q|p|p u|p|p|p|o p|o p|].

Lemma step_client s c s' c' :
  pc_step s c = Some (s', c') →
  match holds_client c, holds_client c' with
  | Some p, Some p' => p = p' ∧ clientLocks s' = clientLocks s
  | None, Some p' => (p' ∉ clientLocks s) ∧ clientLocks s' = {[p']} ∪ clientLocks s
  | Some p, None => clientLocks s' = clientLocks s ∖ {[p]}
  | None, None => False
  end.
Proof.
  pc_cases c; simpl; intros H; step_cases; try done; repeat case_match; simpl in *; by simplify_eq.
Qed.

Lemma step_mutex s c s' c' :
  pc_step s c = Some (s', c') →
  match holds_mutex c, holds_mutex c' with
  | Some q, Some q' => q = q' ∧ mutexes s' = mutexes s
  | None, Some q' => mutexes s' = {[q']} ∪ mutexes s
  | Some q, None => mutexes s' = mutexes s ∖ {[q]}
  | None, None => mutexes s' = mutexes s
  end.
Proof.
  pc_cases c; simpl; intros H; step_cases; try done; repeat case_match; simpl in *; by simplify_eq.
Qed.

Lemma step_opened s c s' c' : pc_step s c = Some (s', c') → opened s' = opened s.
Proof. pc_cases c; simpl; intros H; by step_cases. Qed.

(** Only [Remove] and [AddClient] change the registry, and only the two
    assignments of the state a mode. *)
Lemma step_world s c s' c' :
  pc_step s c = Some (s', c') →
  w_uuids (sw s') = uuids_after c (w_uuids (sw s)) ∧ modes (sw s') = modes_after c (modes (sw s)).
Proof.
  assert (∀ A o p (m : M World A) k, within quiet m → act o p m k s = Some (s', c') →
    w_uuids (sw s') = w_uuids (sw s) ∧ modes (sw s') = modes (sw s)) as Hq.
  { intros A o p m k Hm [-> _]%act_inv. specialize (Hm (sw s)). unfold same in Hm. by injection Hm. }
  assert (∀ p, within quiet (get_client p)) as Hget by (intros; apply within_get_client, _).
  pc_cases c; simpl; intros H;
    first [ eapply Hq; [|exact H]; first [apply Hget | apply loadUserInfo_quiet | apply frame_chats_quiet
              | apply chat_over_quiet | apply forward_quiet | by intros w]
          | by step_cases
          | apply act_inv in H as [-> _]; split; apply upd_state_modes
          | idtac ].
Qed.
(** ** The invariant *)
Definition state_in (z : Z) (p : ptr) (w : World) : Prop := ∃ b v, modes w !! p = Some (z, b, v).

(** The goroutine is closing [p], and has not given the lock back. *)
Definition closer (c : pc) : option ptr :=
  match c with
  | Start OpClose p | Enter OpClose p | Test p | Chats p | Chat p _ | Forward p _ _ | Arg OpClose p
  | Get1 OpClose p _ | Lock OpClose p _ _ | Get2 OpClose p _ _ | Del OpClose p _ _
  | Unlock OpClose p _ | Conn p => Some p
  | _ => None
  end.

(** What a goroutine knows about its connection. *)
Definition knows_state (w : World) (c : pc) : Prop :=
  match c with
  | Load p | Arg OpEnv p | Get1 OpEnv p _ | Lock OpEnv p _ _ | Get2 OpEnv p _ _ | Del OpEnv p _ _
  | Unlock OpEnv p _ | AddArg p | Add p _ | SetState p => state_in CLIENT_STATE_CREATE p w
  | Test p | Chats p | Chat p _ | Forward p _ _ | Arg OpClose p | Unlock OpClose p _ | Conn p =>
      state_in CLIENT_STATE_DEAD p w
  | Get1 OpClose p u | Lock OpClose p u _ | Get2 OpClose p u _ | Del OpClose p u _ =>
      ∃ b, modes w !! p = Some (CLIENT_STATE_DEAD, b, u)
  | _ => True
  end.
Definition knows (s : shared) (c : pc) : Prop :=
  knows_state (sw s) c
  ∧ ∀ p, closer c = Some p → is_Some (modes (sw s) !! p) ∧ p ∉ opened s.

(** The goroutine is about to take [p] out of the registry, or has panicked before
    it did. *)
Definition removing (p : ptr) (c : pc) : Prop :=
  match c with
  | Test p' | Chats p' | Chat p' _ | Forward p' _ _ | Arg OpClose p' | Get1 OpClose p' _ => p' = p
  | Lock OpClose p' _ q | Get2 OpClose p' _ q | Del OpClose p' _ q => p' = p ∧ q = p
  | _ => False
  end.
Definition failed (p : ptr) (c : pc) : Prop := c = Unwind OpClose p ∨ c = Crashed OpClose p.

(** An entry leads to an initialised connection, to one that is just being
    initialised or closed, or to a closed one in the cases in which [Close] leaves
    the entry. *)
Definition entry_ok (s : sys) (u : string) (p : ptr) : Prop :=
  ∃ z b v, modes (sw (sh s)) !! p = Some (z, b, v)
  ∧ (z = CLIENT_STATE_INIT_DOEN
     ∨ (∃ t, threads s !! t = Some (SetState p))
     ∨ z = CLIENT_STATE_DEAD
       ∧ (b = false ∨ v ≠ u ∨ (∃ t c, threads s !! t = Some c ∧ removing p c)
          ∨ ∃ t c, threads s !! t = Some c ∧ failed p c)).

Record inv (s : sys) : Prop := {
  inv_client t c p : threads s !! t = Some c → holds_client c = Some p → p ∈ clientLocks (sh s);
  inv_client_one t c t' c' p : threads s !! t = Some c → threads s !! t' = Some c' →
    holds_client c = Some p → holds_client c' = Some p → t = t';
  inv_mutex q : q ∈ mutexes (sh s) → ∃ t c, threads s !! t = Some c ∧ holds_mutex c = Some q;
  inv_locks p : p ∈ clientLocks (sh s) → ∃ t c, threads s !! t = Some c ∧ holds_client c = Some p;
  inv_knows t c : threads s !! t = Some c → knows (sh s) c;
  inv_dead p : state_in CLIENT_STATE_DEAD p (sw (sh s)) → p ∉ opened (sh s);
  inv_opened p : p ∈ opened (sh s) → is_Some (modes (sw (sh s)) !! p);
  inv_served p : is_Some (modes (sw (sh s)) !! p) →
    p ∈ opened (sh s) ∨ state_in CLIENT_STATE_DEAD p (sw (sh s))
    ∨ ∃ t, threads s !! t = Some (Start OpClose p) ∨ threads s !! t = Some (Enter OpClose p);
  inv_entry u p : cmap_Get (w_uuids (sw (sh s))) u = Some p → entry_ok s u p
}.

Context {GL : GoSetLaws} {CL : CmapLaws}.

Lemma sys_inv_started b : inv (started b).
Proof.
  split; simpl; try done; try (by intros; set_solver).
  - intros p [x Hx]. unfold modes in Hx. simpl in Hx. by rewrite fmap_empty, lookup_empty in Hx.
  - intros u p. unfold NewUuidClientMap. by rewrite cmap_Get_New.
Qed.

(** ** The steps of the goroutines keep it *)
Lemma modes_after_other c ms r :
  holds_client c ≠ Some r → modes_after c ms !! r = ms !! r.
Proof. intros H. pc_cases c; simpl in *; try done; rewrite lookup_alter_ne; congruence. Qed.

Lemma modes_after_own c r :
  holds_client c = Some r → c = Enter OpClose r ∨ c = SetState r ∨ ∀ ms, modes_after c ms = ms.
Proof. pc_cases c; simpl; intros H; try injection H as ->; auto. Qed.

Lemma modes_after_is_Some c ms r : is_Some (modes_after c ms !! r) ↔ is_Some (ms !! r).
Proof.
  pc_cases c; simpl; try done;
    (destruct (decide (p = r)) as [->|]; [rewrite lookup_alter_eq|by rewrite lookup_alter_ne]);
    by rewrite fmap_is_Some.
Qed.

Lemma get_client_inv p w c w' : get_client p w = (Ret c, w') → modes w !! p = Some (mode c).
Proof.
  unfold get_client, modes. mred. rewrite lookup_fmap. destruct (w_clients w !! p); [|done].
  by intros [= -> _].
Qed.

Lemma step_closer s c s' c' r : pc_step s c = Some (s', c') → closer c' = Some r → closer c = Some r.
Proof.
  pc_cases c; simpl; intros H; step_cases; try done; repeat case_match; simpl in *; by simplify_eq.
Qed.

Lemma step_knows s c s' c' : pc_step s c = Some (s', c') → knows s c → knows s' c'.
Proof.
  intros Hs [Hk Hc]. pose proof (step_world _ _ _ _ Hs) as [_ Hm]. split.
  2: { intros r Hr. rewrite Hm, modes_after_is_Some, (step_opened _ _ _ _ Hs).
       by apply Hc, (step_closer s c s' c'). }
  pc_cases c; simpl in Hs; step_cases; try done; unfold knows_state, state_in in *; simpl in Hm, Hk |- *;
    rewrite ?Hm; try done.
  all: try (destruct (cmap_Get _ _)); try case_bool_decide; simpl; rewrite ?Hm; try done.
  - apply get_client_inv in H. destruct (Z.eqb_spec (state x) CLIENT_STATE_CREATE) as [E|]; [|done].
    cbn. rewrite H. unfold mode. rewrite E. eauto.
  - destruct (proj1 (Hc p eq_refl)) as [[[z b] v] E]. rewrite lookup_alter_eq, E. by exists b, v.
  - by destruct (IsClient x).
  - by destruct x.
  - apply get_client_inv in H. destruct o; [done|]. destruct Hk as (b & v & Hk).
    rewrite H in Hk. injection Hk as E _ _. exists (IsClient x). rewrite H. unfold mode. by rewrite E.
  - destruct Hk as [b Hk]. eauto.
  - destruct o; [done|]. destruct Hk as [b Hk]. eauto.
  - destruct o; [done|]. destruct Hk as [b Hk]. eauto.
  - destruct o; [done|]. destruct Hk as [b Hk]. eauto.
Qed.

Lemma knows_ext s s' c :
  (∀ p, holds_client c = Some p → modes (sw s') !! p = modes (sw s) !! p) →
  (∀ p, closer c = Some p → is_Some (modes (sw s) !! p) → is_Some (modes (sw s') !! p)) →
  opened s' = opened s → knows s c → knows s' c.
Proof.
  intros Hm Hs Ho [Hk Hc]. split.
  - pc_cases c; simpl in *; unfold state_in in *; try done; try rewrite (Hm _ eq_refl); try done;
      destruct o; by rewrite (Hm _ eq_refl).
  - intros p Hp. rewrite Ho. destruct (Hc p Hp). split; [by apply (Hs p)|done].
Qed.

(** Once it has found [p], [Remove] does not lose it. *)
Lemma step_removing s c s' c' r w b :
  pc_step s c = Some (s', c') → removing r c → knows s c →
  modes (sw s) !! r = Some (CLIENT_STATE_DEAD, b, w) →
  cmap_Get (w_uuids (sw s)) w = Some r → cmap_Get (w_uuids (sw s')) w = Some r →
  removing r c' ∨ failed r c' ∨ b = false.
Proof.
  intros Hs Hr [Hk _] Hm Hg Hg'. unfold failed.
  pc_cases c; simpl in Hr, Hs; try done; try (destruct o; try done; []); step_cases; simpl; auto;
    try match type of Hr with _ ∧ _ => destruct Hr as [-> ->] end; try subst.
  - apply get_client_inv in H. rewrite Hm in H. unfold mode in H. injection H as _ -> _.
    destruct (IsClient x); [by left|by right; right].
  - by destruct x; left.
  - simpl in Hk. destruct Hk as [b' Hk]. assert (u = w) as -> by congruence. rewrite Hg. by left.
  - simpl in Hk. destruct Hk as [b' Hk]. assert (u = w) as -> by congruence.
    rewrite bool_decide_true by done. by left.
  - simpl in Hk. destruct Hk as [b' Hk]. assert (u = w) as -> by congruence.
    simpl in Hg'. by rewrite cmap_Get_Remove, decide_True in Hg'.
Qed.

Lemma removing_holds r c : removing r c → holds_client c = Some r.
Proof. pc_cases c; simpl; try done; try (destruct o; try done); intuition congruence. Qed.

(** Where an entry of the registry comes from. *)
Lemma entry_from s c s' c' w r :
  pc_step s c = Some (s', c') → cmap_Get (w_uuids (sw s')) w = Some r →
  cmap_Get (w_uuids (sw s)) w = Some r ∨ c = Add r w.
Proof.
  intros Hs. rewrite (proj1 (step_world _ _ _ _ Hs)). intros Hg. pc_cases c; simpl in Hg; auto.
  - rewrite cmap_Get_Remove in Hg. case_decide; [done|auto].
  - rewrite cmap_Get_Set in Hg. case_decide; [|auto]. injection Hg as ->. subst. auto.
Qed.

(** A step of a goroutine that works for another connection. *)
Lemma entry_other s t c s' c' w r :
  threads s !! t = Some c → pc_step (sh s) c = Some (s', c') → holds_client c ≠ Some r →
  entry_ok s w r → entry_ok (mkSys s' (<[t := c']> (threads s))) w r.
Proof.
  intros Hc Hs Hp (z & b & v & Hz & Hok). pose proof (step_world _ _ _ _ Hs) as [_ Hm].
  exists z, b, v. simpl. rewrite Hm, modes_after_other by done. split; [done|].
  assert (∀ t' d, threads s !! t' = Some d → (d = c → False) →
            <[t := c']> (threads s) !! t' = Some d) as Hkeep.
  { intros t' d Hd Hne. rewrite lookup_insert_ne; [done|]. intros ->. apply Hne. congruence. }
  destruct Hok as [?|[[t' Hc']|[Hd Hok]]]; [by left| |right; right; split; [done|]].
  - right; left. exists t'. apply Hkeep; [done|]. intros <-. by destruct Hp.
  - destruct Hok as [?|[?|[(t' & d & Hd' & Hrm)|(t' & d & Hd' & Hf)]]]; auto.
    + right; right; left. exists t', d. split; [|done]. apply Hkeep; [done|]. intros ->.
      by apply Hp, removing_holds.
    + right; right; right. exists t', d. split; [|done]. apply Hkeep; [done|].
      intros ->. destruct Hf as [-> | ->]; [by destruct Hp|done].
Qed.

(** A step of the goroutine that works for the connection of the entry. *)
Lemma entry_own s t c s' c' w r :
  inv s → threads s !! t = Some c → pc_step (sh s) c = Some (s', c') → holds_client c = Some r →
  cmap_Get (w_uuids (sw (sh s))) w = Some r → cmap_Get (w_uuids (sw s')) w = Some r →
  entry_ok s w r → entry_ok (mkSys s' (<[t := c']> (threads s))) w r.
Proof.
  intros Hi Hc Hs Hp Hg Hg' (z & b & v & Hz & Hok). pose proof (step_world _ _ _ _ Hs) as [_ Hm].
  pose proof (inv_knows s Hi t c Hc) as Hk.
  assert (∀ t' d, threads s !! t' = Some d → holds_client d = Some r → t' = t ∧ d = c) as Hone.
  { intros t' d Hd Hh. assert (t' = t) as -> by by apply (inv_client_one s Hi t' d t c r). split; congruence. }
  assert (<[t := c']> (threads s) !! t = Some c') as Hnew by apply lookup_insert_eq.
  assert (c = Enter OpClose r ∨ c = SetState r ∨ modes (sw s') !! r = Some (z, b, v)) as [->|[->|Hz']].
  { rewrite Hm. destruct (modes_after_own c r Hp) as [->|[->|E]]; [by left|by right; left|].
    right; right. by rewrite E. }
  - exists CLIENT_STATE_DEAD, b, v. simpl. rewrite Hm. simpl. rewrite lookup_alter_eq, Hz.
    split; [done|]. right; right. split; [done|]. right; right. simpl in Hs. step_cases.
    + left. by exists t, (Test r).
    + right. exists t, (Unwind OpClose r). split; [done|by left].
  - exists CLIENT_STATE_INIT_DOEN, b, v. simpl. rewrite Hm. simpl. rewrite lookup_alter_eq, Hz. auto.
  - exists z, b, v. simpl. split; [done|]. destruct Hok as [?|[[t' Hc']|[-> Hok]]]; [by left| |].
    + destruct (Hone t' _ Hc' eq_refl) as [-> <-]. exfalso.
      destruct Hk as [(b' & v' & Hk) _]. simpl in Hm. rewrite Hm, lookup_alter_eq, Hk in Hz'.
      rewrite Hk in Hz. injection Hz as <- <- <-. by injection Hz'.
    + right; right. split; [done|]. destruct (decide (v = w)) as [->|]; [|auto].
      destruct Hok as [?|[?|[(t' & d & Hd & Hrm)|(t' & d & Hd & Hf)]]]; [auto|done| |].
      * destruct (Hone t' d Hd (removing_holds _ _ Hrm)) as [-> ->].
        destruct (step_removing _ _ _ _ r w b Hs Hrm Hk Hz Hg Hg') as [H|[H|H]]; [| |auto].
        -- right; right; left. eauto.
        -- right; right; right. eauto.
      * destruct Hf as [-> | ->].
        -- destruct (Hone t' _ Hd eq_refl) as [-> <-]. simpl in Hs. step_cases.
           right; right; right. exists t, (Crashed OpClose r). split; [done|by right].
        -- right; right; right. exists t', (Crashed OpClose r). split; [|by right].
           rewrite lookup_insert_ne; [done|]. intros ->. assert (c = Crashed OpClose r) as -> by congruence. done.
Qed.

Lemma entry_run s t c s' c' w r :
  inv s → threads s !! t = Some c → pc_step (sh s) c = Some (s', c') →
  cmap_Get (w_uuids (sw s')) w = Some r →
  entry_ok (mkSys s' (<[t := c']> (threads s))) w r.
Proof.
  intros Hi Hc Hs Hg. destruct (entry_from _ _ _ _ w r Hs Hg) as [Hold| ->].
  - pose proof (inv_entry s Hi w r Hold) as Hok.
    destruct (decide (holds_client c = Some r)) as [Hp|Hp]; [by eapply entry_own|by eapply entry_other].
  - destruct (inv_knows s Hi t _ Hc) as [(b & v & Hk) _]. pose proof (step_world _ _ _ _ Hs) as [_ Hm].
    exists CLIENT_STATE_CREATE, b, v. simpl. rewrite Hm. split; [done|]. right; left. exists t.
    rewrite lookup_insert_eq. simpl in Hs. unfold act, AddClient in Hs. simpl in Hs. by injection Hs as _ <-.
Qed.
(** Every lock that is taken is held by a goroutine, for either kind of lock. *)
Lemma held_run (f : pc → option ptr) (L L' : gset ptr) (th : gmap nat pc) t c c' :
  th !! t = Some c → (∀ p, p ∈ L → ∃ t c, th !! t = Some c ∧ f c = Some p) →
  match f c, f c' with
  | Some q, Some q' => q = q' ∧ L' = L
  | None, Some q' => L' = {[q']} ∪ L
  | Some q, None => L' = L ∖ {[q]}
  | None, None => L' = L
  end →
  ∀ p, p ∈ L' → ∃ t2 c2, <[t := c']> th !! t2 = Some c2 ∧ f c2 = Some p.
Proof.
  intros Hc Hheld Hstep p Hp.
  destruct (decide (f c' = Some p)) as [Hf|Hf].
  { exists t, c'. by rewrite lookup_insert_eq. }
  assert (p ∈ L ∧ f c ≠ Some p) as [Hin Hfc].
  { destruct (f c), (f c'); [destruct Hstep as [-> ->]| | |]; subst; set_solver. }
  destruct (Hheld p Hin) as (t2 & c2 & Hc2 & Hf2). exists t2, c2. split; [|done].
  rewrite lookup_insert_ne; [done|]. congruence.
Qed.

(** A connection that is not served any more is being closed, or dead. *)
Lemma served_run s t c s' c' r :
  inv s → threads s !! t = Some c → pc_step (sh s) c = Some (s', c') → is_Some (modes (sw s') !! r) →
  r ∈ opened s' ∨ state_in CLIENT_STATE_DEAD r (sw s')
  ∨ ∃ t2, <[t := c']> (threads s) !! t2 = Some (Start OpClose r)
          ∨ <[t := c']> (threads s) !! t2 = Some (Enter OpClose r).
Proof.
  intros Hi Hc Hs Hr. pose proof (step_world _ _ _ _ Hs) as [_ Hm]. rewrite (step_opened _ _ _ _ Hs).
  rewrite Hm, modes_after_is_Some in Hr. unfold state_in. rewrite Hm.
  destruct (inv_served s Hi r Hr) as [Ho|[Hd|(t2 & Ht2)]]; [by left| |].
  - right; left. destruct (decide (holds_client c = Some r)) as [Hp|Hp].
    2: { by rewrite modes_after_other. }
    destruct Hd as (b & v & Hd). destruct (inv_knows s Hi t c Hc) as [Hk _].
    destruct (modes_after_own c r Hp) as [->|[->|E]].
    + exists b, v. simpl. by rewrite lookup_alter_eq, Hd.
    + destruct Hk as (b' & v' & Hk). rewrite Hd in Hk. injection Hk. discriminate.
    + rewrite E. by exists b, v.
  - right. destruct (decide (t2 = t)) as [->|Hne].
    + destruct Ht2 as [Ht|Ht]; rewrite Ht in Hc; injection Hc as <-.
      * right. exists t. right. rewrite lookup_insert_eq. simpl in Hs. by step_cases.
      * left. destruct Hr as [[[z b] v] Hr]. exists b, v. simpl. by rewrite lookup_alter_eq, Hr.
    + right. exists t2. by rewrite !lookup_insert_ne.
Qed.

Lemma inv_thread s t c s' c' :
  threads s !! t = Some c → pc_step (sh s) c = Some (s', c') → inv s →
  inv (mkSys s' (<[t := c']> (threads s))).
Proof.
  intros Hc Hs Hi. pose proof (step_client _ _ _ _ Hs) as Hcl.
  pose proof (step_mutex _ _ _ _ Hs) as Hmx. pose proof (step_opened _ _ _ _ Hs) as Hop.
  pose proof (step_world _ _ _ _ Hs) as [_ Hm].
  pose proof (λ u p, entry_run s t c s' c' u p Hi Hc Hs) as Hentry.
  pose proof (λ p, served_run s t c s' c' p Hi Hc Hs) as Hserved.
  pose proof (inv_knows s Hi t c Hc) as Hk.
  destruct Hi as [H1 H2 H3 H4 H5 H6 H7 _ _].
  assert (∀ t2 c2 p, t2 ≠ t → threads s !! t2 = Some c2 → holds_client c2 = Some p →
            holds_client c' ≠ Some p ∧ holds_client c ≠ Some p ∧ p ∈ clientLocks s')
    as Hother.
  { intros t2 c2 p Hne Hc2 Hp. pose proof (H1 _ _ _ Hc2 Hp) as Hin.
    assert (holds_client c ≠ Some p) as Hcp by (intros Hcp; by apply Hne, (H2 t2 c2 t c p)).
    destruct (holds_client c), (holds_client c'); naive_solver set_solver. }
  split; simpl; [..|done|done].
  - intros t2 c2 p [[<- <-]|[Hne Hc2]]%lookup_insert_Some Hp; [|by eapply Hother].
    destruct (holds_client c) as [r|] eqn:E; rewrite Hp in Hcl.
    + destruct Hcl as [<- ->]. by apply (H1 t c).
    + destruct Hcl as [_ ->]. set_solver.
  - intros t1 c1 t2 c2 p Hc1 Hc2 Hp1 Hp2. apply lookup_insert_Some in Hc1, Hc2.
    destruct Hc1 as [[<- <-]|[Hn1 Hc1]], Hc2 as [[<- <-]|[Hn2 Hc2]]; [done| | |].
    + by destruct (Hother t2 c2 p (not_eq_sym Hn2) Hc2 Hp2).
    + by destruct (Hother t1 c1 p (not_eq_sym Hn1) Hc1 Hp1).
    + by apply (H2 t1 c1 t2 c2 p).
  - by apply (held_run holds_mutex (mutexes (sh s)) _ _ t c).
  - apply (held_run holds_client (clientLocks (sh s)) _ _ t c); [done..|].
    destruct (holds_client c), (holds_client c'); tauto.
  - intros t2 c2 [[<- <-]|[Hne Hc2]]%lookup_insert_Some.
    + by apply (step_knows _ _ _ _ Hs).
    + apply (knows_ext (sh s)); [|intros p _; by rewrite Hm, modes_after_is_Some|done|by apply (H5 t2)].
      intros p Hp. rewrite Hm. apply modes_after_other. by apply (Hother t2 c2 p (not_eq_sym Hne)).
  - intros p (b & v & Hd). rewrite Hop. rewrite Hm in Hd.
    destruct (decide (holds_client c = Some p)) as [Hp|Hp].
    2: { rewrite modes_after_other in Hd by done. apply H6. by exists b, v. }
    destruct (modes_after_own c p Hp) as [->|[->|E]].
    + apply (proj2 Hk p eq_refl).
    + simpl in Hd. rewrite lookup_alter_eq in Hd. by destruct (modes (sw (sh s)) !! p).
    + rewrite E in Hd. apply H6. by exists b, v.
  - intros p. rewrite Hop, Hm, modes_after_is_Some. apply H7.
Qed.
(** ** Everything else keeps it *)

(** What a step that is none of these goroutines' may do: modes of connections that
    are served may change, but not their states. *)
Record calm (s s' : sys) : Prop := {
  cm_uuids : w_uuids (sw (sh s')) = w_uuids (sw (sh s));
  cm_old p z b v : modes (sw (sh s)) !! p = Some (z, b, v) →
    ∃ b' v', modes (sw (sh s')) !! p = Some (z, b', v') ∧ (p ∉ opened (sh s) → b' = b ∧ v' = v);
  cm_new p : modes (sw (sh s)) !! p = None → is_Some (modes (sw (sh s')) !! p) →
    p ∈ opened (sh s') ∧ state_in CLIENT_STATE_CREATE p (sw (sh s'));
  cm_clientLocks : clientLocks (sh s') = clientLocks (sh s);
  cm_mutexes : mutexes (sh s') = mutexes (sh s);
  cm_threads : threads s' = threads s
    ∨ ∃ t o p, threads s !! t = None ∧ threads s' = <[t := Start o p]> (threads s)
        ∧ (o = OpClose → p ∈ opened (sh s) ∧ p ∉ opened (sh s'));
  cm_opened p : p ∈ opened (sh s') →
    p ∈ opened (sh s) ∨ modes (sw (sh s)) !! p = None ∧ is_Some (modes (sw (sh s')) !! p);
  cm_closed p : p ∈ opened (sh s) →
    p ∈ opened (sh s') ∨ ∃ t, threads s' !! t = Some (Start OpClose p)
}.

Lemma calm_thread s s' t c : calm s s' → threads s !! t = Some c → threads s' !! t = Some c.
Proof.
  intros Hc Ht. destruct (cm_threads _ _ Hc) as [->|(t' & o & p & Hn & -> & _)]; [done|].
  rewrite lookup_insert_ne; [done|]. congruence.
Qed.

Lemma calm_old_thread s s' t c :
  calm s s' → threads s' !! t = Some c → c = Done ∨ holds_client c = None ∨ threads s !! t = Some c.
Proof.
  intros Hc. destruct (cm_threads _ _ Hc) as [->|(t' & o & p & Hn & -> & _)]; [auto|].
  intros [[<- <-]|[_ H]]%lookup_insert_Some; auto.
Qed.

Lemma calm_state s s' z p : calm s s' → state_in z p (sw (sh s)) → state_in z p (sw (sh s')).
Proof. intros Hc (b & v & H). destruct (cm_old _ _ Hc _ _ _ _ H) as (b' & v' & H' & _). by exists b', v'. Qed.

Lemma calm_knows s s' c : calm s s' → knows (sh s) c → knows (sh s') c.
Proof.
  intros Hcm [Hk Hc]. split.
  - assert (∀ r u, closer c = Some r → (∃ b, modes (sw (sh s)) !! r = Some (CLIENT_STATE_DEAD, b, u)) →
      ∃ b, modes (sw (sh s')) !! r = Some (CLIENT_STATE_DEAD, b, u)) as Hd.
    { intros r u Hr [b H]. destruct (cm_old _ _ Hcm _ _ _ _ H) as (b' & v' & H' & Hsame).
      destruct (Hsame (proj2 (Hc r Hr))) as [-> ->]. by exists b. }
    pose proof (λ z p, calm_state s s' z p Hcm) as Hst.
    pc_cases c; simpl in *; try done; try (destruct o); auto.
  - intros p Hp. destruct (Hc p Hp) as [[[[z b] v] H] Ho].
    destruct (cm_old _ _ Hcm _ _ _ _ H) as (b' & v' & H' & _). split; [by eexists|].
    intros [?|[Hn _]]%(cm_opened _ _ Hcm); [done|congruence].
Qed.

Lemma inv_calm s s' : calm s s' → inv s → inv s'.
Proof.
  intros Hcm Hi. pose proof (λ t c, calm_thread s s' t c Hcm) as Hkeep.
  destruct Hi as [H1 H2 H3 H4 H5 H6 H7 H8 H9]. split.
  - intros t c p Ht Hp. rewrite (cm_clientLocks _ _ Hcm).
    destruct (calm_old_thread _ _ _ _ Hcm Ht) as [->|[E|Ht']]; [done|congruence|by eapply H1].
  - intros t c t' c' p Ht Ht' Hp Hp'.
    destruct (calm_old_thread _ _ _ _ Hcm Ht) as [->|[E|Ho]]; [done|congruence|].
    destruct (calm_old_thread _ _ _ _ Hcm Ht') as [->|[E|Ho']]; [done|congruence|by apply (H2 t c t' c' p)].
  - intros q. rewrite (cm_mutexes _ _ Hcm). intros (t & c & Ht & Hq)%H3. eauto.
  - intros p. rewrite (cm_clientLocks _ _ Hcm). intros (t & c & Ht & Hp)%H4. eauto.
  - intros t c Ht. destruct (cm_threads _ _ Hcm) as [E|(t' & o & p & Hn & E & Hcl)]; rewrite E in Ht.
    { by apply (calm_knows s s' c Hcm), (H5 t). }
    apply lookup_insert_Some in Ht as [[<- <-]|[_ Ht]]; [|by apply (calm_knows s s' c Hcm), (H5 t)].
    split; [done|]. destruct o; [done|]. intros r [= <-]. destruct (Hcl eq_refl) as [Ho Ho'].
    split; [|done]. destruct (H7 p Ho) as [[[z b] v] H].
    destruct (cm_old _ _ Hcm _ _ _ _ H) as (b' & v' & H' & _). by eexists.
  - intros p (b & v & Hd) Ho. destruct (modes (sw (sh s)) !! p) as [[[z b0] v0]|] eqn:E.
    + destruct (cm_old _ _ Hcm _ _ _ _ E) as (b' & v' & H' & _). rewrite Hd in H'. injection H' as <- _ _.
      destruct (cm_opened _ _ Hcm p Ho) as [Ho'|[? _]]; [|congruence]. apply (H6 p); [by exists b0, v0|done].
    + destruct (cm_new _ _ Hcm p E) as [_ (b' & v' & H')]; [by eexists|]. rewrite Hd in H'. discriminate.
  - intros p Ho. destruct (cm_opened _ _ Hcm p Ho) as [[[[z b] v] H]%H7|[_ H]]; [|done].
    destruct (cm_old _ _ Hcm _ _ _ _ H) as (b' & v' & H' & _). by eexists.
  - intros p Hp. destruct (modes (sw (sh s)) !! p) as [m|] eqn:E.
    + destruct (H8 p) as [Ho|[Hd|(t & Ht)]]; [by eexists| | |].
      * destruct (cm_closed _ _ Hcm p Ho) as [?|[t Ht]]; [by left|]. right; right. eauto.
      * right; left. by apply (calm_state s).
      * right; right. exists t. destruct Ht; eauto.
    + left. by apply (cm_new _ _ Hcm p E).
  - intros u p. rewrite (cm_uuids _ _ Hcm). intros (z & b & v & Hz & Hok)%H9.
    destruct (cm_old _ _ Hcm _ _ _ _ Hz) as (b' & v' & Hz' & Hsame). exists z, b', v'. split; [done|].
    destruct Hok as [?|[[t Ht]|[-> Hok]]]; [by left|right; left; eauto|].
    destruct Hsame as [-> ->]; [apply H6; by exists b, v|]. right; right. split; [done|].
    destruct Hok as [?|[?|[(t & c & Ht & Hc)|(t & c & Ht & Hc)]]]; eauto 8.
Qed.

(** A step that changes neither the registry nor a mode. *)
Lemma quiet_calm s w : quiet (sw (sh s)) w → calm s (on_world (λ _, w) s).
Proof.
  unfold same. intros [= Hu Hm]. split; simpl; rewrite ?Hm; eauto 8.
  - intros p -> [? ?]. done.
Qed.

(** A command that is read. *)
Lemma check_access_keeps p cl w cl' w' :
  check_access p cl w = (Ret (Some cl'), w') → cl_client cl' = cl_client cl.
Proof.
  unfold check_access, mbind, M_bind. destruct (AclCheck p (Cmd cl) w) as [[[e|]|e|] w1]; [done| |done..].
  destruct (TokenCheck cl w1) as [[[[e|] cl2]|e|] w2] eqn:E; [done| |done..]. intros [= <- _].
  revert E. unfold TokenCheck, mbind, M_bind. cbv zeta.
  repeat case_match; by intros [= <- _].
Qed.
(** It changes nothing of other connections but their push settings. *)
Abbreviation others p := (same (λ w : World, delete p (modes w))).
#[local] Instance inert_others p : Inert (others p).
Proof. by apply inert_same. Qed.

Lemma upd_others p f : within (others p) (upd_client p f).
Proof.
  apply within_upd_client; [apply _|]. intros w c Hc. unfold same.
  by rewrite (modes_upd p f w c Hc), delete_insert_eq.
Qed.

Lemma upd_same_others p q f : (∀ c, mode (f c) = mode c) → within (others p) (upd_client q f).
Proof.
  intros Hf w. pose proof (upd_quiet q f Hf w) as H. unfold same in *. by injection H as _ ->.
Qed.

Lemma Process_others cl : within (others (cl_client cl)) (Process cl).
Proof.
  destruct (decide (Cmd cl ∈ identity_commands)).
  - apply within_Process_identity; [apply _|intros; apply upd_others|by intros t w|done].
  - apply within_Process; intros; first [done | apply _ | by apply upd_same_others].
Qed.

Lemma OnRead_others pr p input : within (others p) (OnRead pr p input).
Proof.
  intros w. unfold OnRead. destruct (NewCmdline_sound input p w) as (r & Hr & Hs). mstep Hr.
  destruct r as [e|cl]; [reflexivity|]. destruct (Hs cl eq_refl) as (h & body & _ & Hcl).
  assert (cl_client cl = p) as Hp by (subst cl; unfold cmdline_of; by destruct (String.eqb _ _)).
  clear Hs Hcl Hr. set (m := if enableAclCheck pr then check_access p cl else mret (Some cl)).
  assert (within (others p) m) as Hm.
  { assert (within (others p) (ClearIdentity p)) by apply upd_others.
    assert (∀ e, within (others p) (updateTokenExpire p e)) by (intros; by apply upd_same_others).
    unfold m, check_access, TokenCheck, checkClientToken. rewrite Hp. frame. }
  assert (∀ cl' w1, m w = (Ret (Some cl'), w1) → cl_client cl' = p) as Hres.
  { intros cl' w1. unfold m. destruct (enableAclCheck pr); [|by intros [= <- _]].
    intros H. by rewrite (check_access_keeps _ _ _ _ _ H). }
  specialize (Hm w). unfold mbind at 1, M_bind at 1. destruct (m w) as [[[cl'|]|e|] w1]; try done.
  specialize (Hres cl' w1 eq_refl). etransitivity; [exact Hm|].
  assert (within (others p) (Process cl')) as HP by (rewrite <- Hres; apply Process_others).
  assert (∀ x, within (others p) (spawn (GoWriteFormatMsg p (Cmd cl') x))) by by intros x w0.
  cbn [snd]. match goal with
  | |- same ?f w1 (?m2 w1).2 => assert (within (same f) m2) as H2; [|apply H2]
  end. frame.
Qed.

(** Nor a state, nor the registry. *)
Abbreviation stays := (same (λ w : World, (w_uuids w, state <$> w_clients w))).
#[local] Instance inert_stays : Inert stays.
Proof. by apply inert_same. Qed.

Lemma upd_stays p f : (∀ c, state (f c) = state c) → within stays (upd_client p f).
Proof.
  intros Hf. apply within_upd_client; [apply _|]. intros w c Hc. unfold same. simpl. f_equal.
  rewrite fmap_insert. apply insert_id. by rewrite lookup_fmap, Hc, Hf.
Qed.

Lemma Process_stays cl : within stays (Process cl).
Proof.
  destruct (decide (Cmd cl ∈ identity_commands)) as [Hx|Hx].
  - destruct cl as [cmd P P2 p]. simpl in *. unfold identity_commands in Hx.
    pose proof (upd_stays p as_client ltac:(done)). pose proof (upd_stays p as_server ltac:(done)).
    assert (∀ t, within stays (upd_client p (with_tokenInfo t))) by (intros; by apply upd_stays).
    assert (∀ u, within stays (upd_client p (with_uuid u))) by (intros; by apply upd_stays).
    assert (∀ t, within stays (spawn t)) by by intros t w.
    rewrite !elem_of_cons, elem_of_nil in Hx. destruct Hx as [->|[->|[->|[]]]]; cbn;
      unfold do_AUTH_CLIENT, do_AUTH_SERVER, do_SETUUID, SetClient, SetServer, initToken; frame.
  - apply within_Process; intros; first [done | apply _ | by apply upd_stays].
Qed.

Lemma OnRead_stays pr p input : within stays (OnRead pr p input).
Proof.
  apply within_OnRead; intros;
    first [apply _ | apply Process_stays | by apply upd_stays | by intros w].
Qed.

Lemma read_calm pr s p input :
  p ∈ opened (sh s) → calm s (on_world (λ w, (OnRead pr p input w).2) s).
Proof.
  intros Hp. set (w' := (OnRead pr p input (sw (sh s))).2).
  pose proof (OnRead_others pr p input (sw (sh s))) as Ho.
  pose proof (OnRead_stays pr p input (sw (sh s))) as Hs. unfold same in Ho, Hs. fold w' in Ho, Hs.
  injection Hs as Hu Hs.
  assert (∀ q, q ≠ p → modes w' !! q = modes (sw (sh s)) !! q) as Hne.
  { intros q Hq. by rewrite <- (lookup_delete_ne (modes w') p q), Ho, lookup_delete_ne by done. }
  assert (∀ q, (λ m, m.1.1) <$> modes w' !! q = (λ m, m.1.1) <$> modes (sw (sh s)) !! q) as Hst.
  { intros q. apply (f_equal (lookup q)) in Hs. rewrite !lookup_fmap in Hs. unfold modes.
    rewrite !lookup_fmap. destruct (w_clients w' !! q), (w_clients (sw (sh s)) !! q); simpl in *; congruence. }
  split; simpl; fold w'; eauto.
  - intros q z b v Hq. specialize (Hst q). rewrite Hq in Hst.
    destruct (modes w' !! q) as [[[z' b'] v']|] eqn:E; [|done]. injection Hst as ->.
    exists b', v'. split; [done|]. intros Hno. assert (q ≠ p) as Hqp by congruence.
    rewrite (Hne q Hqp), Hq in E. by injection E as <- <-.
  - intros q Hq Hsome. specialize (Hst q). rewrite Hq in Hst. by destruct (modes w' !! q), Hsome.
Qed.

Lemma step_calm n pr s s' :
  inv s → step n pr s s' →
  calm s s' ∨ ∃ t c sh' c', threads s !! t = Some c ∧ pc_step (sh s) c = Some (sh', c')
                ∧ s' = mkSys sh' (<[t := c']> (threads s)).
Proof.
  intros Hi Hs. destruct Hs as [|p input Hp|t p Hp Ht|t p uid l1 l2 Htk Ht|t c s' c' Hc Hs
    |l1 t l2 Htk Hw|conn input| | |servers|vars|vars|f Hf]; [left..|right|left|left|left|left|left|left|left|left].
  - set (w := sw (sh s)). set (p := fresh (dom (w_clients w))).
    assert (w_clients w !! p = None) as Hp by apply not_elem_of_dom, is_fresh.
    assert (modes w !! p = None) as Hpm by (unfold modes; by rewrite lookup_fmap, Hp).
    assert (modes (new_client NewClient w).2 = <[p := mode NewClient]> (modes w)) as Hm
      by (unfold modes; simpl; by rewrite fmap_insert).
    split; simpl; fold w p; change (set_clients _ w) with (new_client NewClient w).2; rewrite ?Hm; auto.
    + intros q z b v Hq. exists b, v. split; [|done]. rewrite lookup_insert_ne; [done|].
      intros <-. fold w in Hq. congruence.
    + intros q Hq [m Hm']. rewrite lookup_insert in Hm'. case_decide as E.
      * subst q. split; [set_solver|]. exists false, "".
        change (modes (new_client NewClient w).2 !! p = Some (mode NewClient)). by rewrite Hm, lookup_insert_eq.
      * fold w in Hq. congruence.
    + intros q [->%elem_of_singleton|Hq]%elem_of_union; [|by left]. right. split; [done|].
      rewrite lookup_insert_eq. eauto.
    + intros q Hq. left. set_solver.
  - by apply read_calm.
  - split; simpl; eauto 8.
    + intros q -> [? ?]. done.
    + right. exists t, OpClose, p. split_and!; [done..|]. intros _. split; [done|set_solver].
    + intros q Hq. left. set_solver.
    + intros q Hq. destruct (decide (q = p)) as [->|Hne]; [right|left; set_solver].
      exists t. apply lookup_insert_eq.
  - split; simpl; eauto 8.
    + intros q Hn [m Hm]. change (modes (sw (sh s)) !! q = Some m) in Hm. congruence.
    + right. exists t, OpEnv, p. split_and!; [done..|]. by intros.
  - eauto 8.
  - apply (quiet_calm s (run_task t (set_tasks (l1 ++ l2) (sw (sh s)))).2).
    change (quiet (sw (sh s))) with (quiet (set_tasks (l1 ++ l2) (sw (sh s)))).
    assert (within quiet (run_task t)) as H; [|apply H].
    destruct t as [cli op msg|cli op msg|cli uid|[q|] op msg]; try done; cbn [run_task];
      try (by intros w); unfold onRouter; frame.
  - apply (quiet_calm s (s2s_OnRead conn input (sw (sh s))).2), within_s2s_OnRead, _.
  - apply (quiet_calm s (WaitMsg_round (sw (sh s))).2).
    assert (within quiet WaitMsg_round) as H by (unfold WaitMsg_round, onForward; frame). apply H.
  - apply (quiet_calm s (onQueue chan_recv (sw (sh s))).2).
    assert (within quiet (onQueue (chan_recv (A := MsgTuple)))) as H by frame. apply H.
  - apply (quiet_calm s (onRouter (watchPeers_event PushdConf servers) (sw (sh s))).2).
    assert (within quiet (onRouter (watchPeers_event PushdConf servers))) as H by (unfold onRouter; frame).
    apply H.
  - apply (quiet_calm s (ServePublish vars (sw (sh s))).2), within_ServePublish; [apply _|by intros e w].
  - apply (quiet_calm s (ServeHistory vars (sw (sh s))).2), within_ServeHistory; by intros e w.
  - apply (quiet_calm s (f (sw (sh s)))). unfold same.
    destruct (boots_frame n f (sw (sh s)) Hf) as (Hc & Hu & _). unfold modes. by rewrite Hc, Hu.
Qed.

Lemma sys_inv_step n pr s s' : inv s → step n pr s s' → inv s'.
Proof.
  intros Hi Hs. destruct (step_calm n pr s s' Hi Hs) as [Hc|(t & c & sh' & c' & Ht & Hp & ->)].
  - by apply (inv_calm s).
  - by apply (inv_thread s t c).
Qed.

Lemma sys_inv_reachable n pr b s : rtc (step n pr) (started b) s → inv s.
Proof.
  intros Hr. pose proof (sys_inv_started b) as Hi. revert Hi.
  induction Hr as [|x y z Hs _ IH]; [done|]. intros Hi. by apply IH, (sys_inv_step n pr x).
Qed.

(** (C9) When the goroutines that initialise and close connections have come to
    rest, whatever their interleaving with each other and with everything else in
    the server was, an entry of the registry leads to a connection that is
    initialised and still served; or to a closed one, in one of the cases in which
    [Close] leaves the entry: the connection was not identified as a client any
    more, its user id had been changed after the registration, or [Close]
    panicked. *)
Theorem registry_quiescent (n : net) (pr : PushdClientProcessor) (b : Base) (s : sys) (u : string) (p : ptr)
    (Hr : rtc (step n pr) (started b) s) (Hq : quiescent s)
    (Hg : cmap_Get (w_uuids (sw (sh s))) u = Some p) :
  ∃ c, w_clients (sw (sh s)) !! p = Some c
  ∧ (state c = CLIENT_STATE_INIT_DOEN ∧ p ∈ opened (sh s)
     ∨ state c = CLIENT_STATE_DEAD
       ∧ (IsClient c = false ∨ uuid c ≠ u ∨ ∃ t, threads s !! t = Some (Crashed OpClose p))).
Proof.
  pose proof (sys_inv_reachable n pr b s Hr) as Hi.
  destruct (inv_entry s Hi u p Hg) as (z & i & v & Hz & Hok).
  pose proof Hz as Hz0. unfold modes in Hz. rewrite lookup_fmap in Hz.
  destruct (w_clients (sw (sh s)) !! p) as [c|]; [|done]. injection Hz as Hst Hcl Hu.
  exists c. split; [done|]. rewrite Hst, Hcl, Hu.
  assert (∀ t d, threads s !! t = Some d → d = Done ∨ ∃ o q, d = Crashed o q) as Hend by apply Hq.
  destruct Hok as [->|[[t Ht]|[-> Hok]]].
  - left. split; [done|]. destruct (inv_served s Hi p) as [Ho|[(i' & v' & Hd)|(t & Ht)]]; [by eexists|done| |].
    + rewrite Hz0 in Hd. discriminate.
    + destruct Ht as [Ht|Ht]; destruct (Hend _ _ Ht) as [|(? & ? & ?)]; discriminate.
  - destruct (Hend _ _ Ht) as [|(? & ? & ?)]; discriminate.
  - right. split; [done|]. destruct Hok as [?|[?|[(t & d & Ht & Hrm)|(t & d & Ht & Hf)]]]; auto.
    + by destruct (Hend _ _ Ht) as [->|(? & ? & ->)].
    + right; right. exists t. destruct (Hend _ _ Ht) as [->|(? & ? & ->)]; destruct Hf as [|Hf]; try done.
      by rewrite <- Hf.
Qed.
(** ** Progress *)

(** The call never parks. *)
Definition returns {S A} (m : M S A) : Prop := ∀ s, (m s).1 ≠ Block.

Lemma returns_bind {S A B} (m : M S A) (f : A → M S B) :
  returns m → (∀ a, returns (f a)) → returns (m ≫= f).
Proof.
  intros Hm Hf s. specialize (Hm s). unfold mbind, M_bind.
  destruct (m s) as [[a|e|] s1]; [apply Hf|done|done].
Qed.
Lemma returns_mapM_ {S A} (f : A → M S unit) l : (∀ a, returns (f a)) → returns (mapM_ f l).
Proof. intros Hf. induction l as [|x l IH]; [done|]. by apply returns_bind. Qed.
Lemma returns_collectM {S A B} (f : A → M S B) l : (∀ a, returns (f a)) → returns (collectM f l).
Proof.
  intros Hf. induction l as [|x l IH]; [done|]. apply returns_bind; [done|]. intros y.
  by apply returns_bind.
Qed.
Lemma returns_zoom {W S A} (get : W → S) put (m : M S A) : returns m → returns (zoom get put m).
Proof. intros H w. specialize (H (get w)). unfold zoom. by destruct (m (get w)). Qed.
Lemma returns_deref {S A} e (o : option A) : returns (S := S) (deref e o).
Proof. intros s. by destruct o. Qed.
Lemma returns_db {A} (f : db → db * A) : returns (on_db f).
Proof. intros b. unfold on_db. by destruct (f (b_db b)). Qed.

Ltac ret_step :=
  first
    [ lazymatch goal with
      | |- returns (mbind _ _) => apply returns_bind; [|intros ?]
      | |- returns (mapM_ _ _) => apply returns_mapM_; intros ?
      | |- returns (collectM _ _) => apply returns_collectM; intros ?
      | |- returns (zoom _ _ _) => apply returns_zoom
      | |- returns (deref _ _) => apply returns_deref
      | |- returns (on_db _) => apply returns_db
      | |- returns (let _ := _ in _) => cbv zeta
      | |- returns (match ?x with _ => _ end) => destruct x
      end
    | done ].
Ltac rets := repeat ret_step.

Lemma get_client_returns p : returns (get_client p).
Proof. unfold get_client. rets. Qed.
Hint Resolve get_client_returns : core.

Lemma loadUserInfo_returns p : returns (loadUserInfo p).
Proof. unfold loadUserInfo, upd_client, put_client, onBase, findOne, as_str. rets. Qed.

Lemma frame_chats_returns p : returns (frame_chats p).
Proof. unfold frame_chats, onBase, findOne, doc_get, as_doc, as_arr. rets. Qed.

Lemma fetch_returns ch : returns (fetchAllMatchUserIds ch).
Proof.
  unfold fetchAllMatchUserIds, LoadUserIdsByChannel, LoadUserIdsFromDatabase, onBase, onCache, findOne,
    as_doc, as_arr, as_str, GetUserIdsByChannel, AddAllUserIds, find_or_create, addNewKeyEmptyValue,
    alloc_collection, lru_get_or_add, getValue, load_collection, store_collection, set_lru. rets.
Qed.

Lemma chat_over_returns p id : returns (chat_over p id).
Proof.
  pose proof fetch_returns. unfold chat_over, pull_active, remove_empty, applyOne, remove_, bulkUpsert,
    FetchUuidsAboutChannel, onBase, findOne, doc_get, as_doc, as_arr, as_str, as_oid, pushToNativeClient, pushOne,
    GetClient. rets.
Qed.

(** A goroutine waits for the lock of its connection, for the mutex of the one it
    found, or for room in the forward queue. *)
Lemma pc_step_waits s c :
  pc_step s c = None →
  match c with
  | Start _ p => p ∈ clientLocks s
  | Lock _ _ _ q => q ∈ mutexes s
  | Forward _ m _ => (forward_notice m (sw s)).1 = Block
  | Crashed _ _ | Done => True
  | _ => False
  end.
Proof.
  assert (∀ A o p (m : M World A) k, act o p m k s = None → (m (sw s)).1 = Block) as Hact.
  { intros A o p m k. unfold act. by destruct (m (sw s)) as [[a|e|] w]. }
  assert (∀ A o p (m : M World A) k, returns m → act o p m k s = None → False) as Hno.
  { intros A o p m k Hm H%Hact. by apply (Hm (sw s)). }
  pose proof loadUserInfo_returns. pose proof frame_chats_returns. pose proof chat_over_returns.
  pc_cases c; simpl; intros Hs; try done; try (by case_decide);
    first [by eapply Hact | exfalso; eapply Hno; [|exact Hs]; auto].
  all: unfold upd_client, put_client; rets.
Qed.

(** ** Waiting ends *)

Definition queue_len (w : World) : nat :=
  match w_proxy w with Some px => length (ch_buf (px_ForwardTuple px)) | None => 0 end.
(** [NewS2sProxy] makes a queue of a hundred places. *)
Definition has_room (w : World) : Prop :=
  ∀ px, w_proxy w = Some px → 0 < ch_cap (px_ForwardTuple px).

Lemma forward_waits m w :
  has_room w → (forward_notice m w).1 = Block → ∃ w', WaitMsg_round w = (Ret tt, w').
Proof.
  intros Hroom. unfold forward_notice, forwardToAllOtherServer.
  destruct (negb _ || _ || _)%bool; [done|]. unfold onForward, onProxy, zoom, mbind, M_bind, gets.
  destruct (w_proxy w) as [px|] eqn:Hp; [|done]. simpl. unfold chan_send.
  destruct (chan_full (px_ForwardTuple px)) eqn:Hf; [|done]. intros _.
  unfold chan_full in Hf. apply Nat.leb_le in Hf. specialize (Hroom px Hp).
  destruct (ch_buf (px_ForwardTuple px)) as [|t bs] eqn:E; [simpl in Hf; lia|].
  eexists. by apply (WaitMsg_round_run w px t bs).
Qed.

(** What the goroutines do not touch: the forward queue, but for [Forward], and the
    number of goroutines for [initChatEnv] that are still to begin. *)
Definition env_weight (t : Task) : nat := match t with GoInitChatEnv _ _ => 1 | _ => 0 end.
Definition core (w : World) : option (gochan ForwardTuple) * nat :=
  (px_ForwardTuple <$> w_proxy w, sum_list_with env_weight (w_tasks w)).
Abbreviation still := (same core).

Lemma still_base {A} (m : M Base A) : within still (onBase m).
Proof. by apply within_onBase. Qed.
Lemma still_cache {A} (m : M ChannelToUserIds A) : within still (onCache m).
Proof. by apply within_onCache. Qed.
Lemma still_spawn t : env_weight t = 0 → within still (spawn t).
Proof.
  intros Ht w. unfold same, core. simpl. rewrite sum_list_with_app. simpl. by rewrite Ht, !Nat.add_0_r.
Qed.
Lemma still_upd p f : within still (upd_client p f).
Proof. by apply within_upd_client; [apply _|]. Qed.
Lemma still_router {A} (m : M Router A) : within still (onRouter m).
Proof.
  intros w. unfold onRouter, onProxy, zoom. destruct (w_proxy w) as [px|] eqn:E; [|done].
  destruct (m (px_Router px)) as [o r]. unfold same, core. simpl. by rewrite E.
Qed.
Lemma still_get p : within still (get_client p).
Proof. apply within_get_client, _. Qed.
Hint Resolve still_base still_cache still_upd still_router still_get : within.
Hint Extern 1 (within still (spawn _)) => by apply still_spawn : within.

Lemma loadUserInfo_still p : within still (loadUserInfo p).
Proof. unfold loadUserInfo. frame. Qed.
Lemma frame_chats_still p : within still (frame_chats p).
Proof. unfold frame_chats. frame. Qed.
Lemma chat_over_still p id : within still (chat_over p id).
Proof.
  unfold chat_over, pull_active, remove_empty, pushToNativeClient, pushOne, GetClient, fetchAllMatchUserIds,
    LoadUserIdsByChannel, LoadUserIdsFromDatabase. frame.
Qed.
Lemma write_still t : is_write t → within still (run_task t).
Proof. intros Ht. destruct t as [| | |[peer|] op m]; try done; cbn [run_task]; auto with within; by intros w. Qed.


(** *** What the server does by itself

    No command is read and nothing is asked from outside: the goroutines that were
    started run, and so do [WaitMsg] and [Serv]. *)
Inductive drain (s : sys) : sys → Prop :=
| dr_env t p uid l1 l2 :
    w_tasks (sw (sh s)) = l1 ++ GoInitChatEnv p uid :: l2 → threads s !! t = None →
    drain s (mkSys (set_world (set_tasks (l1 ++ l2) (sw (sh s))) (sh s)) (<[t := Start OpEnv p]> (threads s)))
| dr_thread t c s' c' :
    threads s !! t = Some c → pc_step (sh s) c = Some (s', c') → drain s (mkSys s' (<[t := c']> (threads s)))
| dr_task l1 t l2 :
    w_tasks (sw (sh s)) = l1 ++ t :: l2 → is_write t →
    drain s (on_world (λ w, (run_task t (set_tasks (l1 ++ l2) w)).2) s)
| dr_forward w : WaitMsg_round (sw (sh s)) = (Ret tt, w) → drain s (on_world (λ _, w) s)
| dr_store m w : onQueue chan_recv (sw (sh s)) = (Ret m, w) → drain s (on_world (λ _, w) s).

Lemma drain_step n pr s s' : drain s s' → step n pr s s'.
Proof.
  intros [t p uid l1 l2 H1 H2|t c s0 c' H1 H2|l1 t l2 H1 H2|w H|m w H]; [by eapply st_env|by eapply st_thread|by apply st_task| |].
  - pose proof (st_forward n pr s) as Hs. unfold on_world in *. by rewrite H in Hs.
  - pose proof (st_store n pr s) as Hs. unfold on_world in *. by rewrite H in Hs.
Qed.

(** *** A measure that it decreases *)
Definition total (f : pc → nat) (th : gmap nat pc) : nat := sum_list_with (λ x, f x.2) (map_to_list th).

Lemma total_insert f th t c : th !! t = None → total f (<[t := c]> th) = f c + total f th.
Proof. intros H. unfold total. rewrite map_to_list_insert by done. done. Qed.
Lemma total_step f th t c c' :
  th !! t = Some c → total f (<[t := c']> th) + f c = total f th + f c'.
Proof.
  intros H. assert (delete t th !! t = None) as Hn by apply lookup_delete_eq.
  pose proof (total_insert f _ t c Hn) as H1. pose proof (total_insert f _ t c' Hn) as H2.
  rewrite insert_delete_id in H1 by done. rewrite insert_delete_eq in H2. lia.
Qed.

(** The statements before the loop of [clearFrameChat], whose length is not known
    until the query has been answered; and those after it, where a notice is a
    step of [WaitMsg] too. *)
Definition before (c : pc) : nat :=
  match c with Start OpClose _ => 4 | Enter OpClose _ => 3 | Test _ => 2 | Chats _ => 1 | _ => 0 end.
Definition after (c : pc) : nat :=
  match c with
  | Start _ _ => 13 | Enter _ _ => 12 | Load _ => 11
  | Chat _ ids => 11 + 3 * length ids | Forward _ _ ids => 13 + 3 * length ids
  | Arg _ _ => 10 | Get1 _ _ _ => 9 | Lock _ _ _ _ => 8 | Get2 _ _ _ _ => 7 | Del _ _ _ _ => 6 | Unlock _ _ _ => 5
  | AddArg _ => 4 | Add _ _ => 3 | SetState _ | Conn _ => 2 | Leave _ | Unwind _ _ => 1
  | Test _ | Chats _ | Crashed _ _ | Done => 0
  end.
Definition work1 (s : sys) : nat := total before (threads s) + (core (sw (sh s))).2.
Definition work2 (s : sys) : nat := total after (threads s) + queue_len (sw (sh s)).
Definition work3 (s : sys) : nat := length (w_tasks (sw (sh s))) + length (ch_buf (w_msgQueue (sw (sh s)))).

Lemma still_queue w w' : still w w' → queue_len w' = queue_len w ∧ (has_room w → has_room w').
Proof.
  unfold same, core, queue_len, has_room. intros [= Hp _].
  destruct (w_proxy w) as [px|], (w_proxy w') as [px'|]; simpl in Hp; try done.
  injection Hp as E. rewrite E. split; [done|]. intros H px0 [= <-]. rewrite E. by apply H.
Qed.

(** A notice takes at most one place in the queue. *)
Lemma notice_effect m w :
  (core (forward_notice m w).2).2 = (core w).2 ∧ (queue_len (forward_notice m w).2 ≤ S (queue_len w))%nat
  ∧ (has_room w → has_room (forward_notice m w).2).
Proof.
  assert (∀ o : outcome unit, (core (o, w).2).2 = (core w).2 ∧ (queue_len (o, w).2 ≤ S (queue_len w))%nat
    ∧ (has_room w → has_room (o, w).2)) as Hsame.
  { intros o. simpl. auto with arith. }
  unfold forward_notice, forwardToAllOtherServer. destruct (negb _ || _ || _)%bool; [apply (Hsame (Ret tt))|].
  unfold onForward, onProxy, zoom, mbind, M_bind, gets.
  destruct (w_proxy w) as [px|] eqn:Hp; [|apply (Hsame (Panic _))]. simpl. unfold chan_send.
  destruct (chan_full (px_ForwardTuple px)); unfold core, queue_len, has_room; simpl; rewrite ?Hp; simpl.
  - split_and!; [done|lia|]. intros H px' [= <-]. simpl. by apply (H px).
  - rewrite length_app. simpl. split_and!; [done|lia|]. intros H px' [= <-]. simpl. by apply (H px).
Qed.

(** A step of a goroutine. *)
Lemma thread_still s c s' c' :
  pc_step s c = Some (s', c') → (∀ p m ids, c ≠ Forward p m ids) → still (sw s) (sw s').
Proof.
  assert (∀ A o p (m : M World A) k, within still m → act o p m k s = Some (s', c') → still (sw s) (sw s')) as Hq.
  { intros A o p m k Hm [-> _]%act_inv. apply Hm. }
  pc_cases c; cbn [pc_step]; intros H Hf;
    first [ by destruct (Hf p m ids)
          | eapply Hq; [|exact H]; first [apply still_get | apply still_upd | apply loadUserInfo_still
              | apply frame_chats_still | apply chat_over_still | by intros w]
          | by step_cases ].
Qed.

Lemma thread_moves s c s' c' :
  pc_step s c = Some (s', c') →
  (before c' < before c
   ∨ before c' = before c ∧ after c' + match c with Forward _ _ _ => 1 | _ => 0 end < after c)%nat.
Proof.
  pc_cases c; cbn [pc_step]; intros H; step_cases; repeat case_match; try discriminate; subst; simpl; try lia;
    try (destruct o; simpl; lia).
Qed.

Lemma thread_effect s c s' c' :
  pc_step s c = Some (s', c') →
  (core (sw s')).2 = (core (sw s)).2 ∧ (has_room (sw s) → has_room (sw s'))
  ∧ (queue_len (sw s') ≤ queue_len (sw s) + match c with Forward _ _ _ => 1 | _ => 0 end)%nat.
Proof.
  intros Hs. assert ((∃ p m ids, c = Forward p m ids) ∨ ∀ p m ids, c ≠ Forward p m ids) as [(p & m & ids & ->)|Hf].
  { destruct c; first [right; discriminate | left; by repeat eexists]. }
  - simpl in Hs. apply act_inv in Hs as [-> _]. cbn [sw set_world].
    destruct (notice_effect m (sw s)) as (E & Hl & Hr). split_and!; [done..|lia].
  - pose proof (thread_still s c s' c' Hs) as Hst. destruct (still_queue (sw s) (sw s')) as [E Hr]; [by apply Hst|].
    split_and!; [|done|lia]. specialize (Hst Hf). unfold same in Hst. by rewrite Hst.
Qed.

Lemma forwarded_effect w w' :
  WaitMsg_round w = (Ret tt, w') →
  (core w').2 = (core w).2 ∧ (has_room w → has_room w') ∧ (queue_len w' < queue_len w)%nat.
Proof.
  intros H. destruct (w_proxy w) as [px|] eqn:Hp.
  2: { revert H. unfold WaitMsg_round, onForward, onProxy. mred. by rewrite Hp. }
  destruct (ch_buf (px_ForwardTuple px)) as [|t bs] eqn:E.
  { revert H. unfold WaitMsg_round, onForward, onProxy, chan_recv. mred. rewrite Hp. mred. by rewrite E. }
  rewrite (WaitMsg_round_run w px t bs Hp E) in H. injection H as <-.
  unfold core, has_room, queue_len. simpl. rewrite Hp, E. split_and!.
  - rewrite sum_list_with_app. set (l := set_elems _).
    assert (sum_list_with env_weight ((λ peer, GoPeerWrite peer (f_cmd t) (f_msg t)) <$> l) = 0) as ->; [|lia].
    clear. induction l as [|x l IH]; [done|apply IH].
  - intros H px' [= <-]. by apply (H px).
  - simpl. lia.
Qed.

Lemma write_pending t : is_write t → ∀ w, w_tasks (run_task t w).2 = w_tasks w.
Proof.
  intros Ht. destruct t as [| | |[peer|] op m]; try done; intros w; cbn [run_task]; unfold onRouter, onProxy; try done.
  destruct (w_proxy w) as [px|]; [|done]. by destruct (zoom _ _ _ px).
Qed.
Lemma write_queue t : is_write t → ∀ w, w_msgQueue (run_task t w).2 = w_msgQueue w.
Proof.
  intros Ht. destruct t as [| | |[peer|] op m]; try done; intros w; cbn [run_task]; unfold onRouter, onProxy; try done.
  destruct (w_proxy w) as [px|]; [|done]. by destruct (zoom _ _ _ px).
Qed.

Lemma recv_effect w m w' :
  onQueue chan_recv w = (Ret m, w') →
  still w w' ∧ w_tasks w' = w_tasks w ∧ (length (ch_buf (w_msgQueue w')) < length (ch_buf (w_msgQueue w)))%nat.
Proof.
  unfold onQueue, zoom, chan_recv. destruct (ch_buf (w_msgQueue w)) as [|x l]; [done|]. intros [= _ <-].
  split_and!; [done..|simpl; lia].
Qed.

Lemma drain_decreases s s' :
  drain s s' →
  (work1 s' < work1 s ∨ work1 s' = work1 s ∧ (work2 s' < work2 s ∨ work2 s' = work2 s ∧ work3 s' < work3 s))%nat.
Proof.
  intros [t p uid l1 l2 Hl Ht|t c s0 c' Ht Hp|l1 t l2 Hl Hw|w H|m w H]; unfold work1, work2, work3;
    cbn [sw sh threads on_world set_world].
  - left. unfold core. simpl. rewrite total_insert, Hl, !sum_list_with_app by done. simpl. lia.
  - destruct (thread_effect _ _ _ _ Hp) as (-> & _ & Hq). pose proof (thread_moves _ _ _ _ Hp) as Hm.
    pose proof (total_step before _ t c c' Ht) as E1. pose proof (total_step after _ t c c' Ht) as E2. lia.
  - set (w0 := set_tasks (l1 ++ l2) (sw (sh s))). destruct (still_queue _ _ (write_still t Hw w0)) as [-> _].
    pose proof (write_still t Hw w0) as Hst. unfold same in Hst. rewrite Hst.
    right. unfold core at 1 2. simpl. rewrite Hl, !sum_list_with_app. split; [by destruct t|]. right. split; [done|].
    rewrite (write_pending t Hw w0), (write_queue t Hw w0). unfold w0. simpl. rewrite !length_app. simpl. lia.
  - destruct (forwarded_effect _ _ H) as (-> & _ & Hq). lia.
  - apply recv_effect in H as (Hst & -> & Hq). destruct (still_queue _ _ Hst) as [-> _].
    unfold same in Hst. rewrite Hst. lia.
Qed.

Lemma drain_room s s' : drain s s' → has_room (sw (sh s)) → has_room (sw (sh s')).
Proof.
  intros [t p uid l1 l2 Hl Ht|t c s0 c' Ht Hp|l1 t l2 Hl Hw|w H|m w H]; simpl; [done|..].
  - apply (thread_effect _ _ _ _ Hp).
  - apply (still_queue (set_tasks (l1 ++ l2) (sw (sh s)))). by apply write_still.
  - by apply forwarded_effect.
  - apply recv_effect in H as (Hst & _). by apply still_queue.
Qed.

Lemma drain_sn s : sn drain s.
Proof. apply (sn_measure drain work1 work2 work3), drain_decreases. Qed.

(** *** Nothing is stuck *)

(** A goroutine that holds a mutex is not waiting. *)
Lemma mutex_moves s c r : holds_mutex c = Some r → pc_step s c ≠ None.
Proof. pc_cases c; done. Qed.

(** Nor is one that holds the lock of a connection, while nothing else can move. *)
Lemma client_moves s t c p :
  inv s → has_room (sw (sh s)) → nf drain s → threads s !! t = Some c → holds_client c ≠ Some p.
Proof.
  intros Hi Hroom Hnf Ht Hp. destruct (pc_step (sh s) c) as [[s' c']|] eqn:E.
  { apply Hnf. eexists. by eapply dr_thread. }
  pose proof (pc_step_waits _ _ E) as Hw. destruct c as [| | | | | |p' m ids| | |o p' u q| | | | | | | | | | |]; try done.
  - destruct (forward_waits m (sw (sh s)) Hroom Hw) as [w' H]. apply Hnf. eexists. by eapply dr_forward.
  - destruct (inv_mutex s Hi q Hw) as (t2 & c2 & Ht2 & Hq).
    destruct (pc_step (sh s) c2) as [[s' c']|] eqn:E2; [|by apply (mutex_moves (sh s) c2 q)].
    apply Hnf. eexists. by eapply dr_thread.
Qed.

Lemma nf_quiescent s : inv s → has_room (sw (sh s)) → nf drain s → quiescent s.
Proof.
  intros Hi Hroom Hnf t c Ht. destruct (pc_step (sh s) c) as [[s' c']|] eqn:E.
  { exfalso. apply Hnf. eexists. by eapply dr_thread. }
  pose proof (pc_step_waits _ _ E) as Hw. pose proof (λ p, client_moves s t c p Hi Hroom Hnf Ht) as Hno.
  destruct c as [o p| | | | | | | | | | | | | | | | | |o p|o p|]; simpl in Hno; try (by destruct (Hno _ eq_refl)); eauto.
  destruct (inv_locks s Hi p Hw) as (t2 & c2 & Ht2 & Hc2). by destruct (client_moves s t2 c2 p Hi Hroom Hnf Ht2).
Qed.

Lemma nf_idle s :
  nf drain s → w_tasks (sw (sh s)) = [] ∧ queue_len (sw (sh s)) = 0 ∧ ch_buf (w_msgQueue (sw (sh s))) = [].
Proof.
  intros Hnf. split_and!.
  - destruct (w_tasks (sw (sh s))) as [|t l] eqn:E; [done|]. exfalso. apply Hnf. destruct t as [| |p uid|].
    3: { eexists. apply (dr_env s (fresh (dom (threads s))) p uid [] l E). apply not_elem_of_dom, is_fresh. }
    all: eexists; by eapply (dr_task s [] _ l E).
  - unfold queue_len. destruct (w_proxy (sw (sh s))) as [px|] eqn:Hp; [|done].
    destruct (ch_buf (px_ForwardTuple px)) as [|t bs] eqn:E; [done|]. exfalso. apply Hnf. eexists.
    apply dr_forward. exact (WaitMsg_round_run _ px t bs Hp E).
  - destruct (ch_buf (w_msgQueue (sw (sh s)))) as [|m bs] eqn:E; [done|]. exfalso. apply Hnf. eexists.
    apply (dr_store s m). unfold onQueue, zoom, chan_recv. by rewrite E.
Qed.

(** (C10) Registration and closing cannot get stuck, although a goroutine holds one
    lock while it waits for another, or for room in the forward queue: from any
    reachable state of the server, when no command is read and no request comes from
    outside any more, every run of what is left (these goroutines, the ones that
    [setuuid] has started, the loops of [WaitMsg] and [Serv] and the writes) ends;
    and when it can go no further each goroutine has come to its end, no goroutine
    is left to begin and both queues are empty.  The forward queue must have a place
    at all ([NewS2sProxy] makes a hundred). *)
Theorem registry_settles (n : net) (pr : PushdClientProcessor) (b : Base) (s : sys)
    (Hr : rtc (step n pr) (started b) s) (Hroom : has_room (sw (sh s))) :
  sn drain s
  ∧ ∀ s', rtc drain s s' → nf drain s' →
      quiescent s' ∧ w_tasks (sw (sh s')) = [] ∧ queue_len (sw (sh s')) = 0
      ∧ ch_buf (w_msgQueue (sw (sh s'))) = [].
Proof.
  split; [apply drain_sn|]. intros s' Hr' Hnf.
  assert (inv s' ∧ has_room (sw (sh s'))) as [Hi' Hroom'].
  { pose proof (sys_inv_reachable n pr b s Hr) as Hi. clear Hr Hnf. induction Hr' as [|x y z Hs _ IH]; [done|].
    apply IH; [by apply (drain_room x)|]. by apply (sys_inv_step n pr x), drain_step. }
  split; [by apply nf_quiescent|by apply nf_idle].
Qed.


(** ** A schedule of goroutines *)
Definition turn (t : nat) (s : sys) : option sys :=
  match threads s !! t with
  | None => None
  | Some c => '(s', c') ← pc_step (sh s) c; Some (mkSys s' (<[t := c']> (threads s)))
  end.
Fixpoint turns (l : list nat) (s : sys) : option sys :=
  match l with [] => Some s | t :: l' => s1 ← turn t s; turns l' s1 end.

Lemma turns_steps n pr l s s' : turns l s = Some s' → rtc (step n pr) s s'.
Proof.
  revert s. induction l as [|t l IH]; intros s; simpl; [by intros [= ->]|].
  unfold turn. destruct (threads s !! t) as [c|] eqn:Ht; [|done].
  destruct (pc_step (sh s) c) as [[s1 c1]|] eqn:Hs; [|done]. intros H.
  eapply rtc_l; [by eapply st_thread|by apply IH].
Qed.

Lemma turn_cons t c c' s' l w L X O th :
  th !! t = Some c → pc_step (mkShared w L X O) c = Some (s', c') →
  turns (t :: l) (mkSys (mkShared w L X O) th) = turns l (mkSys s' (<[t := c']> th)).
Proof. intros Ht Hs. cbn [turns]. unfold turn. cbn [threads sh]. by rewrite Ht, Hs. Qed.

Lemma turns_trans l l' s s1 s2 : turns l s = Some s1 → turns l' s1 = Some s2 → turns (l ++ l') s = Some s2.
Proof.
  revert s. induction l as [|t l IH]; intros s; simpl; [by intros [= ->]|].
  destruct (turn t s) as [s0|]; [apply IH|done].
Qed.

Ltac turn_step :=
  unfold set_world, set_mutexes, set_clientLocks, after_Remove; cbn [sw clientLocks mutexes opened];
  erewrite turn_cons; [rewrite ?insert_insert_eq|first [eassumption | apply lookup_insert_eq]|].

(** [Remove] in [initChatEnv] leaves the entry of another connection alone ... *)
Lemma env_passes t p q c w L X O th :
  th !! t = Some (Arg OpEnv p) → get_client p w = (Ret c, w) → cmap_Get (w_uuids w) (uuid c) = Some q →
  q ≠ p → q ∉ X →
  turns [t; t; t; t; t; t] (mkSys (mkShared w L X O) th) =
    Some (mkSys (mkShared w L X O) (<[t := Add p (uuid c)]> th)).
Proof.
  intros Ht Hc Hg Hne Hq. turn_step; [|by apply act_run]. turn_step; [|cbn [pc_step sw]; by rewrite Hg].
  turn_step; [|cbn [pc_step mutexes]; by rewrite decide_False].
  turn_step; [|cbn; by rewrite Hg, bool_decide_false by congruence].
  turn_step; [|done]. turn_step; [|by apply act_run]. cbn. repeat f_equal. set_solver.
Qed.

(** ... and the one in [Close] finds its own and is about to delete it. *)
Lemma close_finds t p c w L X O th :
  th !! t = Some (Arg OpClose p) → get_client p w = (Ret c, w) → cmap_Get (w_uuids w) (uuid c) = Some p →
  p ∉ X →
  turns [t; t; t; t] (mkSys (mkShared w L X O) th) =
    Some (mkSys (mkShared w L ({[p]} ∪ X) O) (<[t := Del OpClose p (uuid c) p]> th)).
Proof.
  intros Ht Hc Hg Hq. turn_step; [|by apply act_run]. turn_step; [|cbn [pc_step sw]; by rewrite Hg].
  turn_step; [|cbn [pc_step mutexes]; by rewrite decide_False].
  turn_step; [|cbn; by rewrite Hg, bool_decide_true]. done.
Qed.

Definition initialised_in (p : ptr) (c : Client) (w : World) : World :=
  set_clients (<[p := with_state CLIENT_STATE_INIT_DOEN c]> (w_clients w))
    (set_uuids (cmap_Set (w_uuids w) (uuid c) p) w).

Lemma env_adds t p c w L X O th :
  th !! t = Some (Add p (uuid c)) → w_clients w !! p = Some c →
  turns [t; t; t] (mkSys (mkShared w L X O) th) =
    Some (mkSys (mkShared (initialised_in p c w) (L ∖ {[p]}) X O) (<[t := Done]> th)).
Proof.
  intros Ht Hc. turn_step; [|by apply act_run]. turn_step; [|by apply act_run, upd_client_run].
  turn_step; [|done]. done.
Qed.

Lemma close_removes t p u w L X O th :
  th !! t = Some (Del OpClose p u p) →
  turns [t; t; t; t] (mkSys (mkShared w L X O) th) =
    Some (mkSys (mkShared (emit (EClose p) (set_uuids (cmap_Remove (w_uuids w) u) w)).2 (L ∖ {[p]}) (X ∖ {[p]}) O)
            (<[t := Done]> th)).
Proof.
  intros Ht. turn_step; [|done]. turn_step; [|done]. turn_step; [|by apply act_run]. turn_step; [|done]. done.
Qed.

(** (C30) The entry of a connection that is initialised can be lost: whenever one
    connection of a user is being closed and has come to the call of [Remove],
    still registered, while a new connection of the same user has come to that call
    in [initChatEnv], there is a schedule of the two goroutines after which both
    have ended normally, the new connection is initialised, and its user has no
    entry. *)
Theorem registration_lost (n : net) (pr : PushdClientProcessor) (s : sys) (u : string) (p1 p2 : ptr)
    (c1 c2 : Client) (t1 t2 : nat)
    (Hp : p1 ≠ p2) (H1 : threads s !! t1 = Some (Arg OpClose p1)) (H2 : threads s !! t2 = Some (Arg OpEnv p2))
    (Hc1 : w_clients (sw (sh s)) !! p1 = Some c1) (Hc2 : w_clients (sw (sh s)) !! p2 = Some c2)
    (Hu1 : uuid c1 = u) (Hu2 : uuid c2 = u)
    (Hg : cmap_Get (w_uuids (sw (sh s))) u = Some p1) (Hm : p1 ∉ mutexes (sh s)) :
  ∃ s', rtc (step n pr) s s' ∧ threads s' !! t1 = Some Done ∧ threads s' !! t2 = Some Done
  ∧ w_clients (sw (sh s')) !! p2 = Some (with_state CLIENT_STATE_INIT_DOEN c2)
  ∧ opened (sh s') = opened (sh s)
  ∧ cmap_Get (w_uuids (sw (sh s'))) u = None.
Proof.
  destruct s as [[w L X O] th]. simpl in *. assert (t1 ≠ t2) as Ht by congruence. subst u.
  assert (get_client p1 w = (Ret c1, w)) as G1 by by apply get_client_run.
  assert (get_client p2 w = (Ret c2, w)) as G2 by by apply get_client_run.
  eexists. split.
  { apply (turns_steps n pr ([t2; t2; t2; t2; t2; t2] ++ [t1; t1; t1; t1] ++ [t2; t2; t2] ++ [t1; t1; t1; t1])).
    eapply turns_trans; [apply (env_passes t2 p2 p1 c2); congruence|].
    eapply turns_trans; [apply (close_finds t1 p1 c1); by rewrite ?lookup_insert_ne|].
    eapply turns_trans; [apply (env_adds t2 p2 c2); by rewrite ?lookup_insert_ne, ?lookup_insert_eq by done|].
    apply (close_removes t1 p1 (uuid c1)). by rewrite lookup_insert_ne, lookup_insert_eq. }
  simpl. split_and!; [by rewrite lookup_insert_eq|by rewrite lookup_insert_ne, lookup_insert_eq by done| |done|].
  - by rewrite lookup_insert_eq.
  - by rewrite cmap_Get_Remove, decide_True.
Qed.

End registry.

(** ** Examples *)
Import Ref.
#[local] Existing Instances example_conf example_etc.

(** What happens, one thing after the other. *)
Inductive happening : Type :=
| Accept
| Read (p : ptr) (input : list byte)
| Closes (t : nat) (p : ptr)            (* a goroutine for [Close] *)
| Begins (t : nat)                      (* the goroutine that [setuuid] has started *)
| Turns (t k : nat)                     (* [k] steps of a goroutine *)
| Writes                                (* the first of the goroutines, a write *)
| Boot (k : nat).                       (* a statement of [main] *)

Definition play1 (pr : PushdClientProcessor) (e : happening) (s : sys) : option sys :=
  match e with
  | Accept => Some (mkSys (set_opened ({[fresh (dom (w_clients (sw (sh s))))]} ∪ opened (sh s))
                             (set_world (new_client NewClient (sw (sh s))).2 (sh s))) (threads s))
  | Read p input =>
      if decide (p ∈ opened (sh s)) then Some (on_world (λ w, (OnRead pr p input w).2) s) else None
  | Closes t p =>
      if decide (p ∈ opened (sh s) ∧ threads s !! t = None)
      then Some (mkSys (set_opened (opened (sh s) ∖ {[p]}) (sh s)) (<[t := Start OpClose p]> (threads s))) else None
  | Begins t =>
      match w_tasks (sw (sh s)) with
      | GoInitChatEnv p uid :: l =>
          if decide (threads s !! t = None)
          then Some (mkSys (set_world (set_tasks l (sw (sh s))) (sh s)) (<[t := Start OpEnv p]> (threads s))) else None
      | _ => None
      end
  | Turns t k => turns (replicate k t) s
  | Writes =>
      match w_tasks (sw (sh s)) with
      | t :: l =>
          if decide (env_weight t = 0)
          then Some (on_world (λ w, (run_task t (set_tasks ([] ++ l) w)).2) s) else None
      | [] => None
      end
  | Boot k => f ← boots no_net !! k; Some (on_world f s)
  end.
Fixpoint play (pr : PushdClientProcessor) (l : list happening) (s : sys) : option sys :=
  match l with [] => Some s | e :: l' => s1 ← play1 pr e s; play pr l' s1 end.

Lemma play1_steps pr e s s' : play1 pr e s = Some s' → rtc (step no_net pr) s s'.
Proof.
  destruct e as [|p input|t p|t|t k| |k]; simpl.
  - intros [= <-]. apply rtc_once, st_accept.
  - case_decide; [|done]. intros [= <-]. by apply rtc_once, st_read.
  - case_decide as H; [|done]. intros [= <-]. destruct H. by apply rtc_once, st_close.
  - destruct (w_tasks (sw (sh s))) as [|[| |p u|] l] eqn:E; try done. case_decide; [|done]. intros [= <-].
    by apply rtc_once, (st_env _ _ _ t p u [] l E).
  - apply turns_steps.
  - destruct (w_tasks (sw (sh s))) as [|t l] eqn:E; [done|]. case_decide as H; [|done]. intros [= <-].
    apply rtc_once, (st_task _ _ _ [] t l E). by destruct t.
  - destruct (boots no_net !! k) as [f|] eqn:E; [|done]. intros [= <-].
    by apply rtc_once, st_boot, (list_elem_of_lookup_2 _ k).
Qed.

Lemma play_steps pr l s s' : play pr l s = Some s' → rtc (step no_net pr) s s'.
Proof.
  revert s. induction l as [|e l IH]; intros s; simpl; [by intros [= ->]|].
  destruct (play1 pr e s) as [s1|] eqn:E; [|done]. intros H.
  etransitivity; [by apply (play1_steps pr e)|by apply IH].
Qed.

(** The database knows a token; two connections of ann identify themselves and
    name her.  The first is registered; then it is closed, while the second is
    being registered: goroutines 2 and 3 have come to the call of [Remove]. *)
Definition ann_base : Base (MG := ref_mongo) :=
  mkBase (MG := ref_mongo) ({[ "client_token" := [VDoc [("uuid", VStr ""); ("tk", VStr "tk")]] ]} : store) 0.
Definition frame_of_text (cmd params : string) : list byte :=
  block32 (bytes_of_string cmd) ++ block32 (bytes_of_string params).
Definition hello (p : ptr) : list happening :=
  [Read p (frame_of_text "auth_client" "tk"); Writes; Read p (frame_of_text "setuuid" "x ann")].
Definition serving_ann : list happening := [Boot 2; Accept; Accept] ++ hello 0 ++ [Begins 1; Writes; Turns 1 9].
Definition meeting : list happening :=
  serving_ann ++ hello 1 ++ [Begins 2; Writes; Turns 2 3] ++ [Closes 3 0; Turns 3 5].
Definition played (l : list happening) : sys := default (started ann_base) (play example_open l (started ann_base)).

Lemma played_steps l : rtc (step no_net example_open) (started ann_base) (played l).
Proof. unfold played. destruct (play _ _ _) as [s|] eqn:E; [by apply (play_steps _ l)|done]. Qed.

Lemma registry_quiescent_witness :
  cmap_Get (w_uuids (sw (sh (played serving_ann)))) "ann" = Some 0%nat
  ∧ ∃ c, w_clients (sw (sh (played serving_ann))) !! 0%nat = Some c ∧ state c = CLIENT_STATE_INIT_DOEN.
Proof.
  assert (cmap_Get (w_uuids (sw (sh (played serving_ann)))) "ann" = Some 0%nat) as Hg by (vm_compute; reflexivity).
  assert (threads (played serving_ann) = {[1%nat := Done]}) as Ht by (vm_compute; reflexivity).
  split; [exact Hg|].
  destruct (registry_quiescent (EX := ref_externals) (NT := ref_net) (CF := example_conf) no_net example_open ann_base (played serving_ann) "ann" 0 (played_steps _))
    as (c & Hc & Hend); [|exact Hg|].
  - intros t c. rewrite Ht. intros [_ <-]%lookup_singleton_Some. by left.
  - exists c. split; [exact Hc|]. destruct Hend as [[H _]|[_ Hdead]]; [exact H|].
    assert ((IsClient <$> w_clients (sw (sh (played serving_ann))) !! 0%nat) = Some true) as Hi by (vm_compute; reflexivity).
    assert ((uuid <$> w_clients (sw (sh (played serving_ann))) !! 0%nat) = Some "ann") as Hu by (vm_compute; reflexivity).
    rewrite Hc in Hi, Hu. injection Hi as Hi. injection Hu as Hu. exfalso.
    destruct Hdead as [H|[H|[t H]]]; [congruence|congruence|]. rewrite Ht in H.
    apply lookup_singleton_Some in H as [_ H]. discriminate H.
Defined.

Lemma registry_settles_witness :
  sn drain (played meeting)
  ∧ ∀ s, rtc drain (played meeting) s → nf drain s → quiescent s.
Proof.
  destruct (registry_settles (EX := ref_externals) (NT := ref_net) (CF := example_conf) no_net example_open ann_base (played meeting) (played_steps _)) as [H1 H2].
  - assert ((ch_cap ∘ px_ForwardTuple <$> w_proxy (sw (sh (played meeting)))) = Some 100%nat) as H
      by (vm_compute; reflexivity).
    intros px Hpx. rewrite Hpx in H. injection H as H. simpl in H. rewrite H. lia.
  - split; [exact H1|]. intros s Hr Hnf. apply (H2 s Hr Hnf).
Defined.

Lemma registration_lost_witness :
  ∃ s, rtc (step no_net example_open) (started ann_base) s
  ∧ threads s !! 2%nat = Some Done ∧ threads s !! 3%nat = Some Done
  ∧ 1%nat ∈ opened (sh s) ∧ cmap_Get (w_uuids (sw (sh s))) "ann" = None.
Proof.
  pose proof (played_steps meeting) as Hs0.
  assert (uuid <$> w_clients (sw (sh (played meeting))) !! 0%nat = Some "ann") as Hu1 by (vm_compute; reflexivity).
  assert (uuid <$> w_clients (sw (sh (played meeting))) !! 1%nat = Some "ann") as Hu2 by (vm_compute; reflexivity).
  assert (threads (played meeting) !! 3%nat = Some (Arg OpClose 0)) as Ht1 by (vm_compute; reflexivity).
  assert (threads (played meeting) !! 2%nat = Some (Arg OpEnv 1)) as Ht2 by (vm_compute; reflexivity).
  assert (cmap_Get (w_uuids (sw (sh (played meeting)))) "ann" = Some 0%nat) as Hg by (vm_compute; reflexivity).
  assert (mutexes (sh (played meeting)) = ∅) as Hm by (vm_compute; reflexivity).
  assert (opened (sh (played meeting)) = {[1%nat]}) as Ho by (vm_compute; reflexivity).
  revert Hs0 Hu1 Hu2 Ht1 Ht2 Hg Hm Ho. generalize (played meeting). intros s Hs0 Hu1 Hu2 Ht1 Ht2 Hg Hm Ho.
  destruct (w_clients (sw (sh s)) !! 0%nat) as [c1|] eqn:E1; [|discriminate Hu1].
  destruct (w_clients (sw (sh s)) !! 1%nat) as [c2|] eqn:E2; [|discriminate Hu2].
  injection Hu1 as Hu1. injection Hu2 as Hu2.
  destruct (registration_lost (EX := ref_externals) (NT := ref_net) (CF := example_conf) no_net example_open s
    "ann" 0 1 c1 c2 3 2) as (s' & Hs & H3 & H2 & _ & Hop & Hnone); try assumption; [lia|rewrite Hm; set_solver|].
  exists s'. split; [etransitivity; [exact Hs0|exact Hs]|]. split; [exact H2|]. split; [exact H3|].
  split; [|exact Hnone]. rewrite Hop, Ho. set_solver.
Defined.
